(* ===== verification/_CoqProject ===== *)
-Q . S2P
Prelude.v
Crypto.v
Merkle.v
CoreTypes.v
Validators.v
Storage.v
Instances.v
StoreView.v
Vm.v
Consensus.v
Finality.v
TxPool.v
PoolThreads.v
ChainState.v
Metrics.v
Engine.v
Ranges.v
Supply.v
ChainExamples.v
BridgeTypes.v
Text.v
Htlc.v
BridgeState.v
Relayer.v
ContractSdk.v
TokenContract.v
SdkWasm.v
Sha256.v
Sha256Spec.v
BridgeContract.v
BridgeWasm.v
ApiTypes.v
Middleware.v
ApiRoutes.v
Keystore.v
UnitTests.v
BridgeTests.v
ContractTests.v
ApiWallet.v
ApiBridge.v
ApiExamples.v
Network.v
Node.v
Lifecycle.v
NodeExamples.v
LifecycleExamples.v
Ws.v
Server.v
NodeApi.v
Wallet.v
ServerExamples.v
