(* ===== verification/Prelude.v ===== *)
(** * RustChain: a verification development

    ** The program
    RustChain is a proof-of-stake blockchain node in Rust (src/crates) with
    WebAssembly contracts (src/contracts).  Keys, hashes and Merkle trees
    (crates/crypto) carry the data of the chain: accounts, transactions, blocks,
    validators, genesis (crates/core).  A RocksDB-backed database
    (crates/storage) keeps blocks, accounts, contract storage and receipts.  The
    consensus layer (crates/consensus) selects a proposer by stake, executes a
    block's transactions against the accounts, calls the virtual machine
    (crates/vm) for contracts, commits the result in one batch, counts finality
    votes, keeps the mempool and slashes double signers.  A bridge
    (crates/bridge) tracks cross-chain transfers confirmed by validators and
    hash time-locked swaps; its on-chain side and a token are contracts
    (contracts/bridge, contracts/token) over a small SDK (contracts/sdk).  An
    HTTP and WebSocket server (crates/api) serves the chain, a wallet and the
    bridge; a gossip service (crates/network) links nodes; crates/node wires the
    parts into a process and crates/wallet is the command-line client.

    ** Files, from the bottom up
    - [Prelude]: [result] with Rust's [?] as monadic bind, machine integers with
      the wrapping arithmetic of the release profile, bytes and fixed arrays,
      sums, the stable sort, hex, secondary indexes; tactics and the [rust] hint
      database.
    - [Crypto] (hash.rs, address.rs, keypair.rs), [Merkle] (merkle.rs),
      [CoreTypes] (account.rs, transaction.rs, block.rs, types.rs, error.rs),
      [Validators] (validator.rs, epoch.rs, genesis.rs, receipt.rs).
    - [Storage] (crates/storage): keys, typed reads and writes and the commit
      batch over a key-value store.  The class [ChainStore] with its laws is
      what the consensus layer uses; [rocks_store_laws] proves that the database
      implements it.
    - [StoreView]: the database as a record of typed maps, and the proof that every
      write of crates/storage is a point update of it and a commit the sequence of
      its writes.
    - [Instances]: concrete instances of the third-party parameters (a
      serializer, a key-value store, an in-memory [ChainStore]) on which
      witnesses are evaluated.
    - [Vm] (crates/vm): gas meter, execution context, every host function and
      the engine.  A guest is the tree of its host calls.
    - [Consensus] (pos.rs, slashing.rs), [Finality] (finality.rs), [TxPool]
      (tx_pool.rs), [PoolThreads] (its methods access by access, interleaved),
      [ChainState] (state.rs: genesis, execution branch by branch,
      commit, epochs), [Engine] (engine.rs: block production and the handlers),
      [ChainExamples]: concrete chains on which the theorems are applied.
    - [BridgeTypes] (types.rs, error.rs, registry.rs), [Htlc] (htlc.rs),
      [BridgeState] (state.rs, validator.rs), [Relayer] (chains, relay.rs): the
      adapters are instances of the class [ChainAdapter] and the relayer is
      stated against the class.
    - [ContractSdk] (contracts/sdk, native target), [TokenContract]
      (contracts/token), [SdkWasm] (the SDK's wasm32 target over the VM's host
      functions, and the token run on it), [Sha256] and [BridgeContract] (contracts/bridge,
      whose [usize] sums wrap at the width of the [Target], 64 bits natively and 32
      on wasm32).
      [BridgeWasm] finds the wasm32 programs of the bridge's entry points by instance
      search along their native definitions ([Reify]), bounds their gas and runs
      them on the VM and through its engine.  [Sha256Spec] is the SHA-256
      standard and the proof that the contract's function is it.
    - [Ranges]: the lemmas that execution keeps every amount in its machine type;
      [Supply]: with them, the exact accounting of balances, stakes and fees over a
      block.
    - [Text] (parsing of numbers and strings), [ApiTypes] (error.rs, config.rs,
      dto.rs), [Middleware] (auth.rs, rate_limit.rs), [ApiRoutes], [ApiWallet],
      [ApiBridge] (routes/), [Metrics] (metrics.rs), [Ws] (ws/handler.rs) and
      [Server] (server.rs: the route table, the layers with CORS and the JSON of
      every type); [Keystore] (keystore.rs, mnemonic.rs).
    - [Network] (crates/network), [Node] (crates/node, the production loop of
      engine.rs, and clusters of nodes as a step relation), [Lifecycle] (app.rs and
      main.rs of crates/node: opening the database, starting the five tasks one by one, their
      channels and the shutdown as a step relation, the command line), [NodeApi]
      (the API server inside the running node), [Wallet] (crates/wallet).
      [ApiExamples], [NodeExamples], [LifecycleExamples] and [ServerExamples] hold
      the concrete nodes on which the theorems are applied.
    - [UnitTests], [BridgeTests], [ContractTests]: the test modules of the crates
      and contracts as executable definitions, proved to pass (for every key where
      the laws of the crates suffice, else evaluated on the concrete instances).

    ** Conventions
    Integers are [Z] in the range of their type; [+!], [-!], [*!] are the [u64]
    operations and [+!!], [-!!], [*!!] the [u128] ones, wrapping as compiled
    without overflow checks.  A fallible method returns [result]; a method that
    changes its object returns the new object with the result, in the order of
    the assignments, so that the changes made before an error are kept.  [None]
    is a panic.  [DashMap] and [HashMap] are finite maps; a method whose result
    depends on the iteration order takes the order as an argument and is proved
    for every permutation.  A method that holds its lock throughout is
    one atomic step.  The mempool holds none between its accesses: [TxPool] states its
    methods as they behave run one after the other, [PoolThreads] lets the accesses of
    any number of threads interleave and says which part of the invariant survives.  The clock and the random generator are arguments.  Error
    texts are the source's.
    Third-party code is a parameter with its documented behaviour as a class of
    laws: Blake3, Ed25519, hex ([CryptoPrims]/[CryptoLaws]), bincode, the
    key-value store, wasmtime ([Wasmtime]), ChaCha, SHA-256 of the sha2 crate
    ([Sha2]), scrypt and AES-GCM ([KeystoreCrates]), bip39 and hkdf ([Bip39]),
    jsonwebtoken ([Jwt]), serde_json's text ([JsonText]), the file system
    ([FileSystem], [Directories]), RocksDB's opening and flushing ([RocksFiles]),
    the toml crate ([Toml]), the libp2p swarm ([Libp2p]), the listener and the
    certificates of the server ([ApiNet]), the prometheus crate ([Prometheus]), the
    placement of a guest's buffers ([WasmLayout]) and the wallet's HTTP client
    ([WalletWorld]).  The parameters of every property have concrete instances.

    ** What the theorems show
    - Finality: two quorums that each name one block, and different ones, convict
      validators with a third of the stake of signing both; heights move only by a
      quorum; the invariant of pending votes.  Also what the code does not enforce:
      votes for different blocks count together ([mixed_votes_finalize]), and so do
      repeated and forged votes.
    - Execution: what a committed block leaves in the database, exactness of
      transfers, staking and unstaking, replay protection, refusals; a block of
      such transactions loses exactly its fees ([block_conserves_value]); where the
      code loses or duplicates value (self transfer, stale contract balances).
    - VM: whatever a guest does, a call writes only its own storage, moves only
      its own money and stays within gas; failed calls have no effect and cost
      nothing.
    - Proposer selection is proportional to stake; slashing; epochs; restart.
    - Mempool: the reachability invariant and the selection contract of calls run one
      after the other; of interleaved calls the entries stay sound and the capacity
      can be exceeded only by the insertions under way ([interleaved_pool]).
    - Storage: refinement of typed maps ([store_refines_view]) and of the
      [ChainStore] interface; Merkle proofs: complete, and two different proofs of
      one root exhibit the collision among their own steps.
    - Bridge: each swap is a four-state machine that the manager refines,
      settles once, and to the right party at the right time; the books of
      locked and wrapped amounts; completed transfers are final.
    - Contracts: conservation of the token's supply and of wrapped supply,
      HTLC cells settle once, and the contract's SHA-256 equals the standard's
      on every message ([simple_sha256_reference]).  A contract compiled to
      wasm32 does on the VM what it does natively ([sdk_targets_agree]), so the
      token's conservation holds on the chain given gas ([token_on_vm], [init]
      included); short of gas it does not ([low_gas_transfer_overwrites]).  Every
      entry point of the bridge does on the VM what its source means with a 32-bit
      [usize], which is what the native build does but for a [bridge_lock] with a
      declared length close to 2^32 ([bridge_on_vm], [wasm_lock_wraps]); through the engine, which passes
      call data only to modules with an allocator, the entry points with parameters
      cannot be called at all ([bridge_calls_on_chain]).
    - Text: [parse_uint] equals an unbounded reference with a range test.
    - API: a request changes the chain only through the limiter, the body limit
      and an accepted token or an opened keystore; roles, and the rate limit per
      address key; a committed block is served back; what a WebSocket client
      receives; every swap and transfer the bridge endpoints show, and every
      settlement, comes from a request that denotes it, and due claims and refunds
      succeed ([bridge_api_provenance]); transfers complete when confirmed.
    - Keystore, mnemonics, call data and gossip messages: round trips.
    - Node and wallet: the provenance of every message in a cluster, a
      single-validator node finalizes every block it produces, and the wallet's
      commands end to end through the layers of the node's server, with the answers
      of the role check and the body limit ([wallet_commands_submit]).  Whatever the interleaving of its
      tasks a node broadcasts only announced blocks, in order; its shutdown
      completes only when the API task ends, which a plain HTTP server never does
      ([shutdown_waits_for_api], with requests being served
      [live_node_never_flushes]); [run --validator] signs with a fresh random key.

    ** Bounds and fuel
    Loops are structural or run on fuel that is proved to be enough: SHA-256's
    padding adds fewer than 64 bytes ([pad_zeros_spec]; as a step relation the
    loop is well founded, [pad_loop_terminates]), [chunks] runs on the length.
    Guests are finite trees; wasmtime's own limit makes them so.  The production
    loop and the event loops run for ever in the program: they are functions on
    finite sequences of ticks, of any length.
    Counters that the code lets wrap are bounded by the number of steps of the
    run where that matters ([bridge_reachable]).

    ** Not modelled
    The insides of third-party code: the libp2p swarm, hyper and rustls below the
    server, wasmtime's compiler, RocksDB's files.  The text of the static wallet
    page, the parsing of command lines and the prompts by clap and dialoguer, and
    logging.  Deriving traits and serde's derived code are modelled where a
    definition uses them. *)

From stdpp Require Export base gmap strings list fin_maps pretty.
From Stdlib Require Export ZArith Lia Sorted Permutation Strings.Byte Strings.Ascii.

#[export] Set Default Goal Selector "!".
Open Scope Z_scope.

(** ** Results: Rust's [Result<A, E>] with the error type first, so that
    [result E] is a monad and stdpp's [x ← m; k] is Rust's [?]. *)
Inductive result (E A : Type) : Type :=
| Ok (a : A)
| Err (e : E).
Arguments Ok {E A} a.
Arguments Err {E A} e.

#[export] Instance result_ret {E} : MRet (result E) := λ A a, Ok a.
#[export] Instance result_bind {E} : MBind (result E) := λ A B f m,
  match m with Ok a => f a | Err e => Err e end.
#[export] Instance result_fmap {E} : FMap (result E) := λ A B f m,
  match m with Ok a => Ok (f a) | Err e => Err e end.

Definition is_ok {E A} (r : result E A) : bool :=
  match r with Ok _ => true | Err _ => false end.
Definition is_err {E A} (r : result E A) : bool := negb (is_ok r).

(** [Result::map_err] *)
Definition map_err {E F A} (f : E → F) (r : result E A) : result F A :=
  match r with Ok a => Ok a | Err e => Err (f e) end.
(** [Result::ok] *)
Definition result_ok {E A} (r : result E A) : option A :=
  match r with Ok a => Some a | Err _ => None end.
(** [Option::ok_or] / [ok_or_else] *)
Definition ok_or {E A} (o : option A) (e : E) : result E A :=
  match o with Some a => Ok a | None => Err e end.

(** ** Machine integers
    A value of [uN] is a [Z] in [0, 2^N); [+], [-] and [*] wrap, which is what
    the release profile of Cargo.toml compiles them to. *)
Definition in_u (w z : Z) : Prop := 0 ≤ z < 2 ^ w.
Definition wrap (w z : Z) : Z := z mod 2 ^ w.
Definition wadd (w a b : Z) : Z := wrap w (a + b).
Definition wsub (w a b : Z) : Z := wrap w (a - b).
Definition wmul (w a b : Z) : Z := wrap w (a * b).
Definition sat_sub (a b : Z) : Z := Z.max 0 (a - b).
Definition sat_add (w a b : Z) : Z := Z.min (2 ^ w - 1) (a + b).
(** [x as iN]: two's complement reinterpretation. *)
Definition as_i (w z : Z) : Z :=
  let r := z mod 2 ^ w in if r <? 2 ^ (w - 1) then r else r - 2 ^ w.
(** [x as uN] *)
Definition as_u (w z : Z) : Z := z mod 2 ^ w.
(** [+] and [-] on [iN], wrapping. *)
Definition iadd (w a b : Z) : Z := as_i w (a + b).
Definition isub (w a b : Z) : Z := as_i w (a - b).
(** [a.div_ceil(b)] *)
Definition div_ceil (a b : Z) : Z := if a mod b =? 0 then a / b else a / b + 1.

#[export] Instance in_u_dec w z : Decision (in_u w z).
Proof. unfold in_u. apply _. Defined.

Declare Scope rust_scope.
Delimit Scope rust_scope with rust.
Notation "a +! b" := (wadd 64 a b) (at level 50, left associativity) : rust_scope.
Notation "a -! b" := (wsub 64 a b) (at level 50, left associativity) : rust_scope.
Notation "a *! b" := (wmul 64 a b) (at level 40, left associativity) : rust_scope.
Notation "a +!! b" := (wadd 128 a b) (at level 50, left associativity) : rust_scope.
Notation "a -!! b" := (wsub 128 a b) (at level 50, left associativity) : rust_scope.
Notation "a *!! b" := (wmul 128 a b) (at level 40, left associativity) : rust_scope.
Open Scope rust_scope.

Create HintDb rust.

Section MachineIntegers.
Implicit Types w z a b : Z.

Lemma wrap_small w z : in_u w z → wrap w z = z.
Proof. intros H. by apply Z.mod_small. Qed.
Lemma wadd_small w a b : in_u w (a + b) → wadd w a b = a + b.
Proof. apply wrap_small. Qed.
Lemma wsub_small w a b : in_u w (a - b) → wsub w a b = a - b.
Proof. apply wrap_small. Qed.
Lemma wmul_small w a b : in_u w (a * b) → wmul w a b = a * b.
Proof. apply wrap_small. Qed.

Lemma wrap_in_u w z : 0 ≤ w → in_u w (wrap w z).
Proof. intros. apply Z.mod_pos_bound, Z.pow_pos_nonneg; lia. Qed.
Lemma wadd_in_u w a b : 0 ≤ w → in_u w (wadd w a b).
Proof. apply wrap_in_u. Qed.
Lemma wsub_in_u w a b : 0 ≤ w → in_u w (wsub w a b).
Proof. apply wrap_in_u. Qed.
Lemma wmul_in_u w a b : 0 ≤ w → in_u w (wmul w a b).
Proof. apply wrap_in_u. Qed.
Lemma sat_sub_in_u w a b : in_u w a → 0 ≤ b → in_u w (sat_sub a b).
Proof. unfold in_u, sat_sub. lia. Qed.

Lemma wrap_wrap w z : 0 ≤ w → wrap w (wrap w z) = wrap w z.
Proof. intros. apply Z.mod_mod. pose proof (Z.pow_pos_nonneg 2 w). lia. Qed.
Lemma wadd_wrap_l w a b : wadd w (wrap w a) b = wadd w a b.
Proof. apply Zplus_mod_idemp_l. Qed.
Lemma wadd_wrap_r w a b : wadd w a (wrap w b) = wadd w a b.
Proof. apply Zplus_mod_idemp_r. Qed.

(** Two [uN] products of a [2n]-bit and wider type never overflow. *)
Lemma mul_u64_in_u128 a b : in_u 64 a → in_u 64 b → in_u 128 (a * b).
Proof.
  unfold in_u. intros [Ha Ha'] [Hb Hb'].
  replace (2 ^ 128) with (2 ^ 64 * 2 ^ 64) by reflexivity. nia.
Qed.

Lemma in_u_weaken w w' z : in_u w z → w ≤ w' → in_u w' z.
Proof. intros [? ?] ?. split; [done|]. pose proof (Z.pow_le_mono_r 2 w w'). lia. Qed.

Lemma as_i_small w z : 0 < w → - 2 ^ (w - 1) ≤ z < 2 ^ (w - 1) → as_i w z = z.
Proof.
  intros Hw Hz. unfold as_i.
  assert (2 ^ w = 2 * 2 ^ (w - 1)) as Hp.
  { replace w with (1 + (w - 1)) at 1 by lia. rewrite Z.pow_add_r by lia. lia. }
  destruct (decide (0 ≤ z)).
  - rewrite Z.mod_small by lia. rewrite (proj2 (Z.ltb_lt _ _)) by lia. done.
  - assert (z mod 2 ^ w = z + 2 ^ w) as ->.
    { symmetry. apply Z.mod_unique with (-1); [left; lia|lia]. }
    rewrite (proj2 (Z.ltb_ge _ _)) by lia. lia.
Qed.

Lemma as_u_small w z : in_u w z → as_u w z = z.
Proof. apply Z.mod_small. Qed.

(** Ceiling division: the least [q] with [a ≤ q * b]. *)
Lemma div_ceil_spec a b : 0 < b →
  a ≤ div_ceil a b * b ∧ (div_ceil a b - 1) * b < a.
Proof.
  intros Hb. unfold div_ceil.
  pose proof (Z.div_mod a b ltac:(lia)). pose proof (Z.mod_pos_bound a b Hb).
  destruct (a mod b =? 0) eqn:E; [apply Z.eqb_eq in E|apply Z.eqb_neq in E]; nia.
Qed.
End MachineIntegers.

#[export] Hint Resolve wrap_in_u wadd_in_u wsub_in_u wmul_in_u mul_u64_in_u128 : rust.
#[export] Hint Extern 2 (0 ≤ _)%Z => lia : rust.
#[export] Hint Extern 3 (in_u _ _) => unfold in_u in *; lia : rust.

(** Rewrite a wrapping operation to the exact one when the result fits. *)
Ltac unwrap :=
  repeat match goal with
    | |- context [wadd ?w ?a ?b] => rewrite (wadd_small w a b) by (unfold in_u in *; lia)
    | |- context [wsub ?w ?a ?b] => rewrite (wsub_small w a b) by (unfold in_u in *; lia)
    | |- context [wmul ?w ?a ?b] => rewrite (wmul_small w a b) by (unfold in_u in *; nia)
    | |- context [wrap ?w ?a] => rewrite (wrap_small w a) by (unfold in_u in *; lia)
    end.

(** Reflect boolean comparisons of [Z] and [nat] into hypotheses for [lia]. *)
Ltac zbool :=
  repeat match goal with
  | H : (_ <? _)%Z = true |- _ => apply Z.ltb_lt in H
  | H : (_ <? _)%Z = false |- _ => apply Z.ltb_ge in H
  | H : (_ <=? _)%Z = true |- _ => apply Z.leb_le in H
  | H : (_ <=? _)%Z = false |- _ => apply Z.leb_gt in H
  | H : (_ =? _)%Z = true |- _ => apply Z.eqb_eq in H
  | H : (_ =? _)%Z = false |- _ => apply Z.eqb_neq in H
  | H : (_ >? _)%Z = true |- _ => rewrite Z.gtb_ltb in H
  | H : (_ >? _)%Z = false |- _ => rewrite Z.gtb_ltb in H
  | H : (_ >=? _)%Z = true |- _ => rewrite Z.geb_leb in H
  | H : (_ >=? _)%Z = false |- _ => rewrite Z.geb_leb in H
  | H : (_ <? _)%nat = true |- _ => apply Nat.ltb_lt in H
  | H : (_ <? _)%nat = false |- _ => apply Nat.ltb_ge in H
  | H : (_ <=? _)%nat = true |- _ => apply Nat.leb_le in H
  | H : (_ <=? _)%nat = false |- _ => apply Nat.leb_gt in H
  | H : (_ =? _)%nat = true |- _ => apply Nat.eqb_eq in H
  | H : (_ =? _)%nat = false |- _ => apply Nat.eqb_neq in H
  | H : bool_decide _ = true |- _ => apply bool_decide_eq_true_1 in H
  | H : bool_decide _ = false |- _ => apply bool_decide_eq_false_1 in H
  | H : _ && _ = true |- _ => apply andb_true_iff in H as [? ?]
  | H : negb _ = true |- _ => apply negb_true_iff in H
  | H : negb _ = false |- _ => apply negb_false_iff in H
  end.

(** Case analysis on the scrutinee of the first [match]/[if] of a hypothesis
    [H : f .. = Ok _] (or of the goal), discarding impossible branches: the
    guards and early returns of the modelled functions. *)
Ltac step_match :=
  match goal with
  | H : context [match ?x with _ => _ end] |- _ =>
      lazymatch x with
      | context [match _ with _ => _ end] => fail
      | _ => let E := fresh "E" in destruct x eqn:E; simpl in H; try discriminate H
      end
  end.
Ltac run H := repeat (progress (simpl in H; simplify_eq) || step_match).

(** ** Bytes, byte strings and fixed-size arrays *)
Abbreviation byte := Init.Byte.byte.
Abbreviation bytes := (list byte).

#[export] Instance byte_eq_dec : EqDecision byte := Byte.byte_eq_dec.
#[export] Instance byte_countable : Countable byte :=
  inj_countable Byte.to_N Byte.of_N Byte.of_to_N.

Definition byte_to_Z (b : byte) : Z := Z.of_N (Byte.to_N b).
(** [x as u8] *)
Definition byte_of_Z (z : Z) : byte := default Byte.x00 (Byte.of_N (Z.to_N (z mod 256))).

Lemma byte_of_to_Z b : byte_of_Z (byte_to_Z b) = b.
Proof. by destruct b. Qed.
Lemma byte_to_Z_bound b : 0 ≤ byte_to_Z b < 256.
Proof. by destruct b. Qed.
Lemma byte_to_of_Z z : byte_to_Z (byte_of_Z z) = z mod 256.
Proof.
  unfold byte_of_Z, byte_to_Z. pose proof (Z.mod_pos_bound z 256 ltac:(lia)).
  destruct (Byte.of_N (Z.to_N (z mod 256))) as [b|] eqn:E; simpl.
  - apply Byte.to_of_N_iff in E. lia.
  - apply Byte.of_N_None_iff in E. lia.
Qed.

Fixpoint le_split (k : nat) (z : Z) : bytes :=
  match k with O => [] | S k' => byte_of_Z z :: le_split k' (z / 256) end.
Fixpoint le_combine (bs : bytes) : Z :=
  match bs with [] => 0 | b :: bs' => byte_to_Z b + 256 * le_combine bs' end.

(** [n.to_le_bytes()] / [uN::from_le_bytes] and the big-endian pair, for an
    [k]-byte integer. *)
Definition to_le_bytes (k : nat) (z : Z) : bytes := le_split k z.
Definition from_le_bytes (bs : bytes) : Z := le_combine bs.
Definition to_be_bytes (k : nat) (z : Z) : bytes := rev (to_le_bytes k z).
Definition from_be_bytes (bs : bytes) : Z := from_le_bytes (rev bs).

(** A byte-string literal [b"..."]. *)
Definition b_ (s : string) : bytes := String.list_byte_of_string s.

Section ByteLemmas.
Lemma length_to_le_bytes k z : length (to_le_bytes k z) = k.
Proof. unfold to_le_bytes. revert z. induction k as [|k IH]; intros z; simpl; [done|]. by rewrite IH. Qed.
Lemma length_to_be_bytes k z : length (to_be_bytes k z) = k.
Proof. unfold to_be_bytes. by rewrite length_rev, length_to_le_bytes. Qed.

Lemma from_le_bytes_in_u bs : in_u (Z.of_nat (length bs) * 8) (from_le_bytes bs).
Proof.
  unfold from_le_bytes. induction bs as [|b bs [IH1 IH2]]; [done|].
  pose proof (byte_to_Z_bound b). unfold in_u. cbn [length le_combine].
  replace (Z.of_nat (S (length bs)) * 8) with (8 + Z.of_nat (length bs) * 8) by lia.
  rewrite Z.pow_add_r by lia. change (2 ^ 8) with 256. nia.
Qed.
Lemma from_to_le_bytes k z :
  in_u (Z.of_nat k * 8) z → from_le_bytes (to_le_bytes k z) = z.
Proof.
  unfold from_le_bytes, to_le_bytes. revert z.
  induction k as [|k IH]; intros z [Hz1 Hz2]; cbn [le_split le_combine].
  - change (2 ^ (Z.of_nat 0 * 8)) with 1 in Hz2. lia.
  - replace (Z.of_nat (S k) * 8) with (8 + Z.of_nat k * 8) in Hz2 by lia.
    rewrite Z.pow_add_r in Hz2 by lia. change (2 ^ 8) with 256 in Hz2.
    pose proof (Z.div_mod z 256 ltac:(lia)). rewrite IH, byte_to_of_Z; [lia|].
    split; [apply Z.div_pos; lia|]. apply Z.div_lt_upper_bound; lia.
Qed.
Lemma to_from_le_bytes bs : to_le_bytes (length bs) (from_le_bytes bs) = bs.
Proof.
  unfold from_le_bytes, to_le_bytes. induction bs as [|b bs IH]; [done|].
  cbn [length le_combine le_split]. pose proof (byte_to_Z_bound b). f_equal.
  - rewrite <- (byte_of_to_Z b) at 2. unfold byte_of_Z. do 2 f_equal.
    f_equal. rewrite Z.mul_comm, Z.mod_add by lia. done.
  - replace (byte_to_Z b + 256 * le_combine bs) with (le_combine bs * 256 + byte_to_Z b) by lia.
    rewrite Z.div_add_l, (Z.div_small (byte_to_Z b)), Z.add_0_r by lia. done.
Qed.
Lemma from_to_be_bytes k z :
  in_u (Z.of_nat k * 8) z → from_be_bytes (to_be_bytes k z) = z.
Proof. intros. unfold from_be_bytes, to_be_bytes. by rewrite rev_involutive, from_to_le_bytes. Qed.

Lemma to_le_bytes_inj k a b :
  in_u (Z.of_nat k * 8) a → in_u (Z.of_nat k * 8) b →
  to_le_bytes k a = to_le_bytes k b → a = b.
Proof.
  intros Ha Hb H. rewrite <- (from_to_le_bytes k a), <- (from_to_le_bytes k b) by done.
  by rewrite H.
Qed.
Lemma to_be_bytes_inj k a b :
  in_u (Z.of_nat k * 8) a → in_u (Z.of_nat k * 8) b →
  to_be_bytes k a = to_be_bytes k b → a = b.
Proof.
  intros Ha Hb H. apply (f_equal (@rev byte)) in H.
  unfold to_be_bytes in H. rewrite !rev_involutive in H. by eapply to_le_bytes_inj.
Qed.
End ByteLemmas.
#[export] Hint Rewrite length_to_le_bytes length_to_be_bytes : rust.

(** [[u8; n]]: a byte list of length [n]; the length proof is irrelevant. *)
Record barray (n : nat) : Type := BArr {
  ba_bytes : bytes;
  ba_len : Is_true (length ba_bytes =? n)%nat
}.
Arguments BArr {n} ba_bytes ba_len.
Arguments ba_bytes {n} b.

Section Arrays.
Context {n : nat}.
Implicit Types a b : barray n.

Lemma barray_eq a b : ba_bytes a = ba_bytes b → a = b.
Proof. destruct a, b. simpl. intros ->. f_equal. apply proof_irrel. Qed.

Lemma ba_length a : length (ba_bytes a) = n.
Proof. destruct a as [l Hl]. simpl. by apply Nat.eqb_eq, Is_true_eq_true. Qed.

#[export] Instance barray_eq_dec : EqDecision (barray n).
Proof.
  intros a b. destruct (decide (ba_bytes a = ba_bytes b)) as [H|H].
  - left. by apply barray_eq.
  - right. by intros ->.
Defined.

(** The checked conversion [slice.try_into()]. *)
Definition ba_try (l : bytes) : option (barray n) :=
  match Sumbool.sumbool_of_bool (length l =? n)%nat with
  | left H => Some (BArr l (Is_true_eq_left _ H))
  | right _ => None
  end.

Lemma ba_try_bytes a : ba_try (ba_bytes a) = Some a.
Proof.
  unfold ba_try. destruct (Sumbool.sumbool_of_bool _) as [H|H].
  - f_equal. by apply barray_eq.
  - rewrite ba_length, Nat.eqb_refl in H. done.
Qed.

Lemma ba_try_Some l a : ba_try l = Some a ↔ ba_bytes a = l.
Proof.
  split.
  - unfold ba_try. destruct (Sumbool.sumbool_of_bool _); [|done]. by intros [= <-].
  - intros <-. apply ba_try_bytes.
Qed.

Lemma ba_try_None l : ba_try l = None ↔ length l ≠ n.
Proof.
  unfold ba_try. destruct (Sumbool.sumbool_of_bool _) as [H|H]; split; try done.
  - intros Hn. exfalso. by apply Hn, Nat.eqb_eq.
  - intros _. by apply Nat.eqb_neq in H.
Qed.

#[export] Instance barray_countable : Countable (barray n) :=
  inj_countable ba_bytes ba_try ba_try_bytes.
End Arrays.

(** The array whose bytes are the first [n] of [l], zero padded: every slice of
    the sources that is copied into an array is long enough for the padding
    never to show. *)
Lemma ba_of_len (n : nat) (l : bytes) :
  Is_true (length (resize n Byte.x00 l) =? n)%nat.
Proof. apply Is_true_eq_left, Nat.eqb_eq, length_resize. Qed.
Definition ba_of (n : nat) (l : bytes) : barray n := BArr (resize n Byte.x00 l) (ba_of_len n l).

Lemma ba_of_bytes n l : length l = n → ba_bytes (ba_of n l) = l.
Proof. intros <-. simpl. apply resize_all. Qed.

(** [[b; n]] *)
Lemma ba_repeat_len (n : nat) (b : byte) : Is_true (length (replicate n b) =? n)%nat.
Proof. apply Is_true_eq_left, Nat.eqb_eq, length_replicate. Qed.
Definition ba_repeat (n : nat) (b : byte) : barray n := BArr (replicate n b) (ba_repeat_len n b).

(** ** Integer sums over lists and maps *)
Definition sumZ {A} (f : A → Z) (l : list A) : Z := foldr (λ x acc, f x + acc) 0 l.
(** [iter().sum::<uN>()] of the release profile. *)
Definition wsum {A} (w : Z) (f : A → Z) (l : list A) : Z := foldl (λ acc x, wadd w acc (f x)) 0 l.
Definition map_sum `{Countable K} {V} (f : V → Z) (m : gmap K V) : Z :=
  sumZ (λ kv, f kv.2) (map_to_list m).

Section Sums.
Context {A : Type}.
Implicit Types (f g : A → Z) (l : list A).

Lemma sumZ_app f l1 l2 : sumZ f (l1 ++ l2) = sumZ f l1 + sumZ f l2.
Proof. induction l1 as [|x l1 IH]; simpl; lia. Qed.
Lemma sumZ_perm f l1 l2 : l1 ≡ₚ l2 → sumZ f l1 = sumZ f l2.
Proof. induction 1; simpl; lia. Qed.
Lemma sumZ_nonneg f l : (∀ x, x ∈ l → 0 ≤ f x) → 0 ≤ sumZ f l.
Proof.
  induction l as [|x l IH]; simpl; [lia|]. intros H.
  assert (0 ≤ f x) by (apply H; left). assert (0 ≤ sumZ f l) by (apply IH; intros; apply H; by right). lia.
Qed.
Lemma sumZ_ext f g l : (∀ x, x ∈ l → f x = g x) → sumZ f l = sumZ g l.
Proof.
  induction l as [|x l IH]; simpl; [done|]. intros H.
  rewrite (H x) by left. rewrite IH; [done|]. intros. apply H. by right.
Qed.
Lemma sumZ_mono f g l : (∀ x, x ∈ l → f x ≤ g x) → sumZ f l ≤ sumZ g l.
Proof.
  induction l as [|x l IH]; simpl; [lia|]. intros H.
  assert (f x ≤ g x) by (apply H; left).
  assert (sumZ f l ≤ sumZ g l) by (apply IH; intros; apply H; by right). lia.
Qed.
Lemma sumZ_add f g l : sumZ (λ x, f x + g x) l = sumZ f l + sumZ g l.
Proof. induction l as [|x l IH]; simpl; lia. Qed.
Lemma sumZ_fmap {B} (h : B → A) f (l : list B) : sumZ f (h <$> l) = sumZ (f ∘ h) l.
Proof. induction l as [|x l IH]; [done|]. 
  change (f (h x) + sumZ f (h <$> l) = f (h x) + sumZ (f ∘ h) l). by rewrite IH.
Qed.
Lemma sumZ_filter_le f (P : A → Prop) `{∀ x, Decision (P x)} l :
  (∀ x, x ∈ l → 0 ≤ f x) → sumZ f (filter P l) ≤ sumZ f l.
Proof.
  induction l as [|x l IH]; [simpl; lia|]. intros Hf. rewrite filter_cons.
  assert (0 ≤ f x) by (apply Hf; left).
  assert (sumZ f (filter P l) ≤ sumZ f l) by (apply IH; intros; apply Hf; by right).
  destruct (decide (P x)); simpl; lia.
Qed.
Lemma sumZ_elem_le f l x : (∀ y, y ∈ l → 0 ≤ f y) → x ∈ l → f x ≤ sumZ f l.
Proof.
  intros Hf [l1 [l2 ->]]%list_elem_of_split. rewrite sumZ_app. simpl.
  assert (0 ≤ sumZ f l1) by (apply sumZ_nonneg; intros; apply Hf; set_solver).
  assert (0 ≤ sumZ f l2) by (apply sumZ_nonneg; intros; apply Hf; set_solver). lia.
Qed.

Lemma wsum_acc w f l a :
  foldl (λ acc x, wadd w acc (f x)) (wrap w a) l = wrap w (a + sumZ f l).
Proof.
  revert a. induction l as [|x l IH]; intros a; simpl; [by rewrite Z.add_0_r|].
  rewrite wadd_wrap_l. unfold wadd. rewrite IH. f_equal. lia.
Qed.
Lemma wsum_wrap w f l : 0 ≤ w → wsum w f l = wrap w (sumZ f l).
Proof. intros Hw. apply (wsum_acc w f l 0). Qed.
Lemma wsum_small w f l : 0 ≤ w → in_u w (sumZ f l) → wsum w f l = sumZ f l.
Proof. intros. rewrite wsum_wrap by done. by apply wrap_small. Qed.
Lemma wsum_in_u w f l : 0 ≤ w → in_u w (wsum w f l).
Proof. intros. rewrite wsum_wrap by done. by apply wrap_in_u. Qed.
End Sums.

Section MapSums.
Context `{Countable K} {V : Type}.
Implicit Types (f : V → Z) (m : gmap K V).

Lemma map_sum_empty f : map_sum f (∅ : gmap K V) = 0.
Proof. unfold map_sum. by rewrite map_to_list_empty. Qed.
Lemma map_sum_insert_new f m k v : m !! k = None → map_sum f (<[k:=v]> m) = f v + map_sum f m.
Proof. intros Hk. unfold map_sum. by rewrite (sumZ_perm _ _ _ (map_to_list_insert m k v Hk)). Qed.
Lemma map_sum_delete f m k v : m !! k = Some v → map_sum f m = f v + map_sum f (delete k m).
Proof. intros Hk. unfold map_sum. by rewrite <- (sumZ_perm _ _ _ (map_to_list_delete m k v Hk)). Qed.
Lemma map_sum_delete_eq f m k :
  map_sum f (delete k m) = map_sum f m - default 0 (f <$> m !! k).
Proof.
  destruct (m !! k) as [v|] eqn:E; simpl.
  - rewrite (map_sum_delete f m k v) by done. lia.
  - rewrite delete_id by done. lia.
Qed.
(** Overwriting a key changes the sum by the difference of the values. *)
Lemma map_sum_insert f m k v :
  map_sum f (<[k:=v]> m) = map_sum f m - default 0 (f <$> m !! k) + f v.
Proof.
  rewrite <- insert_delete_eq, map_sum_insert_new by apply lookup_delete_eq.
  rewrite map_sum_delete_eq. lia.
Qed.
Lemma map_sum_nonneg f m : (∀ k v, m !! k = Some v → 0 ≤ f v) → 0 ≤ map_sum f m.
Proof.
  intros Hf. apply sumZ_nonneg. intros [k v] Hin. simpl.
  apply elem_of_map_to_list in Hin. eauto.
Qed.
Lemma map_sum_lookup_le f m k v :
  (∀ k v, m !! k = Some v → 0 ≤ f v) → m !! k = Some v → f v ≤ map_sum f m.
Proof.
  intros Hf Hk. rewrite (map_sum_delete f m k v) by done.
  assert (0 ≤ map_sum f (delete k m)); [|lia].
  apply map_sum_nonneg. intros k' v' [_ ?]%lookup_delete_Some. eauto.
Qed.
End MapSums.

(** ** [slice::sort_by]: a stable sort
    [leb x y] is "[cmp x y] is not [Greater]". *)
Fixpoint insert_by {A} (leb : A → A → bool) (x : A) (l : list A) : list A :=
  match l with
  | [] => [x]
  | y :: l' => if leb x y then x :: y :: l' else y :: insert_by leb x l'
  end.
Definition sort_by {A} (leb : A → A → bool) (l : list A) : list A := foldr (insert_by leb) [] l.

Section Sorting.
Context {A : Type} (leb : A → A → bool).
Context (leb_total : ∀ x y, leb x y = false → leb y x = true).
Context (leb_trans : ∀ x y z, leb x y = true → leb y z = true → leb x z = true).
Abbreviation le_prop := (λ x y : A, leb x y = true).

Lemma insert_by_perm x l : insert_by leb x l ≡ₚ x :: l.
Proof.
  induction l as [|y l IH]; simpl; [done|]. destruct (leb x y); [done|].
  by rewrite IH, Permutation_swap.
Qed.
Lemma sort_by_perm l : sort_by leb l ≡ₚ l.
Proof. induction l as [|x l IH]; simpl; [done|]. by rewrite insert_by_perm, IH. Qed.

Lemma insert_by_sorted x l :
  StronglySorted le_prop l → StronglySorted le_prop (insert_by leb x l).
Proof using leb_total leb_trans.
  induction 1 as [|y l Hl IH Hy]; simpl; [repeat constructor|].
  destruct (leb x y) eqn:E.
  - constructor; [by constructor|]. constructor; [done|].
    eapply Forall_impl; [exact Hy|]. simpl. eauto.
  - constructor; [done|]. rewrite insert_by_perm. constructor; [by apply leb_total|done].
Qed.
Lemma sort_by_sorted l : StronglySorted le_prop (sort_by leb l).
Proof using leb_total leb_trans.
  induction l as [|x l IH]; simpl; [constructor|]. by apply insert_by_sorted.
Qed.
Lemma sort_by_elem_of x l : x ∈ sort_by leb l ↔ x ∈ l.
Proof. by rewrite sort_by_perm. Qed.
End Sorting.

Lemma StronglySorted_take {A} (R : A → A → Prop) n l :
  StronglySorted R l → StronglySorted R (take n l).
Proof.
  intros H. revert n. induction H as [|x l Hl IH Hx]; intros [|n]; simpl; try constructor; auto.
  by apply Forall_take.
Qed.

(** ** Hexadecimal: the [hex] crate's [encode]/[decode] on lower-case output
    and mixed-case input *)
Definition hex_digit (n : Z) : Ascii.ascii :=
  if n <? 10 then Ascii.ascii_of_N (Z.to_N (48 + n)) else Ascii.ascii_of_N (Z.to_N (87 + n)).
Definition hex_val (c : Ascii.ascii) : option Z :=
  let n := Z.of_N (Ascii.N_of_ascii c) in
  if (48 <=? n) && (n <=? 57) then Some (n - 48)
  else if (97 <=? n) && (n <=? 102) then Some (n - 87)
  else if (65 <=? n) && (n <=? 70) then Some (n - 55)
  else None.
Fixpoint hex_encode (bs : bytes) : string :=
  match bs with
  | [] => EmptyString
  | b :: bs' =>
      let n := byte_to_Z b in
      String (hex_digit (Z.shiftr n 4)) (String (hex_digit (Z.land n 15)) (hex_encode bs'))
  end.
Fixpoint hex_decode (s : string) : option bytes :=
  match s with
  | EmptyString => Some []
  | String c1 (String c2 s') =>
      hi ← hex_val c1; lo ← hex_val c2; rest ← hex_decode s';
      Some (byte_of_Z (Z.lor (Z.shiftl hi 4) lo) :: rest)
  | String _ EmptyString => None
  end.
(** [s.strip_prefix("0x").unwrap_or(s)] *)
Definition strip_0x (s : string) : string :=
  match s with
  | String "0"%char (String "x"%char s1) => s1
  | _ => s
  end.

Lemma hex_decode_encode bs : hex_decode (hex_encode bs) = Some bs.
Proof.
  induction bs as [|b bs IH]; [done|].
  cbn [hex_encode hex_decode]. rewrite IH. by destruct b.
Qed.

Lemma hex_encode_inj a b : hex_encode a = hex_encode b → a = b.
Proof.
  intros H. apply (f_equal hex_decode) in H. rewrite !hex_decode_encode in H. by injection H.
Qed.

Lemma hex_encode_length bs : String.length (hex_encode bs) = (2 * length bs)%nat.
Proof. induction bs as [|b bs IH]; [done|]. cbn [hex_encode String.length length]. rewrite IH. lia. Qed.

(** A hexadecimal digit is never the [x] of a [0x] prefix. *)
Lemma strip_0x_hex_encode bs : strip_0x (hex_encode bs) = hex_encode bs.
Proof. destruct bs as [|b bs]; [done|]. cbn [hex_encode]. by destruct b. Qed.

(** ** Option and map helpers shared by the components *)
Lemma lookup_insert_cases `{Countable K} {V} (m : gmap K V) k k' v w :
  <[k:=v]> m !! k' = Some w → (k = k' ∧ v = w) ∨ (k ≠ k' ∧ m !! k' = Some w).
Proof. rewrite lookup_insert_Some. naive_solver. Qed.

(** [entry(k).or_default().push(x)] on an index of lists. *)
Definition push_index `{Countable K} {V} (k : K) (x : V) (m : gmap K (list V)) : gmap K (list V) :=
  <[k := default [] (m !! k) ++ [x]]> m.

Lemma push_index_lookup `{Countable K} {V} (k k' : K) (x : V) (m : gmap K (list V)) :
  default [] (push_index k x m !! k') =
  default [] (m !! k') ++ (if decide (k = k') then [x] else []).
Proof.
  unfold push_index. rewrite lookup_insert. destruct (decide (k = k')) as [<-|]; simpl; [done|].
  by rewrite app_nil_r.
Qed.

Lemma find_app {A} (p : A → bool) l1 l2 :
  List.find p (l1 ++ l2) = match List.find p l1 with Some x => Some x | None => List.find p l2 end.
Proof. induction l1 as [|x l1 IH]; simpl; [done|]. by destruct (p x). Qed.

Lemma filter_all {A} (P : A → Prop) `{∀ x, Decision (P x)} l : Forall P l → filter P l = l.
Proof. induction 1 as [|x l Hx _ IH]; [done|]. by rewrite filter_cons_True, IH. Qed.
Lemma filter_none {A} (P : A → Prop) `{∀ x, Decision (P x)} l : Forall (λ x, ¬ P x) l → filter P l = [].
Proof. induction 1 as [|x l Hx _ IH]; [done|]. by rewrite filter_cons_False, IH. Qed.

(** The members of an integer range that lie in a subrange. *)
Lemma filter_seqZ (P : Z → Prop) `{∀ z, Decision (P z)} n p s :
  0 ≤ p → 0 ≤ s → p + s ≤ n → (∀ z, 0 ≤ z < n → P z ↔ p ≤ z < p + s) →
  filter P (seqZ 0 n) = seqZ p s.
Proof.
  intros Hp Hs Hn HP.
  replace n with (p + (s + (n - p - s))) by lia. rewrite !seqZ_app by lia.
  rewrite !filter_app, Z.add_0_l, filter_none, filter_all, filter_none; [by rewrite app_nil_r|..];
    apply Forall_forall; intros z Hz%elem_of_seqZ; rewrite HP; lia.
Qed.

Lemma pair_snd {A B} (p : A * B) r : p.2 = r → p = (p.1, r).
Proof. destruct p. by intros <-. Qed.

Lemma StronglySorted_sublist {A} (R : A → A → Prop) l1 l2 :
  l1 `sublist_of` l2 → StronglySorted R l2 → StronglySorted R l1.
Proof.
  induction 1 as [|x l1 l2 Hs IH|x l1 l2 Hs IH]; intros Hl; [constructor|..];
    apply StronglySorted_inv in Hl as [Hl Hx]; [|by apply IH].
  constructor; [by apply IH|]. rewrite Forall_forall in *. intros y Hy. apply Hx.
  by eapply sublist_subseteq.
Qed.

(** ** Secondary indexes: lists of the keys of a map by an attribute *)
Section MapIndex.
Context `{Countable A} `{Countable K} {V : Type}.
Implicit Types (idx : gmap A (list K)) (m : gmap K V) (key : V → option A).

(** Each list of the index holds, once, the keys of exactly the entries with
    that attribute. *)
Definition index_of idx key m : Prop :=
  ∀ a, NoDup (default [] (idx !! a)) ∧
       ∀ k, k ∈ default [] (idx !! a) ↔ ∃ v, m !! k = Some v ∧ key v = Some a.

Lemma index_of_empty key : index_of ∅ key (∅ : gmap K V).
Proof.
  intros a. rewrite lookup_empty. split; [constructor|]. intros k. simpl.
  setoid_rewrite lookup_empty. split; [by intros ?%not_elem_of_nil|naive_solver].
Qed.

(** An entry that is new in the map: its key is pushed, when it has one. *)
Lemma index_of_insert idx key m k v a :
  index_of idx key m → m !! k = None → key v = Some a →
  index_of (push_index a k idx) key (<[k := v]> m).
Proof.
  intros Hidx Hk Hv b. rewrite push_index_lookup. destruct (Hidx b) as [Hnd Hin].
  assert (k ∉ default [] (idx !! b)) as Hnot by (intros (?&?&?)%Hin; congruence).
  destruct (decide (a = b)) as [<-|Hab]; [|rewrite app_nil_r]; (split; [|intros k'; rewrite ?elem_of_app, Hin]).
  - apply NoDup_app. split_and!; [done| |apply NoDup_singleton]. set_solver.
  - rewrite list_elem_of_singleton. setoid_rewrite lookup_insert_Some. split.
    + intros [(w & Hw & Hkw)| ->]; [|naive_solver]. exists w.
      split; [right|done]. split; [congruence|done].
    + intros (w & [[-> ->]|[? ?]] & ?); [by right|left; by exists w].
  - done.
  - setoid_rewrite lookup_insert_Some. split.
    + intros (w & Hw & Hkw). exists w. split; [right; split; [congruence|done]|done].
    + intros (w & [[-> ->]|[? ?]] & ?); [congruence|by exists w].
Qed.
Lemma index_of_insert_skip idx key m k v :
  index_of idx key m → m !! k = None → key v = None → index_of idx key (<[k := v]> m).
Proof.
  intros Hidx Hk Hv b. destruct (Hidx b) as [Hnd Hin]. split; [done|]. intros k'. rewrite Hin.
  setoid_rewrite lookup_insert_Some. split.
  - intros (w & Hw & Hkw). exists w. split; [right; split; [congruence|done]|done].
  - intros (w & [[-> ->]|[? ?]] & ?); [congruence|by exists w].
Qed.
(** Entries that change but keep their attribute. *)
Lemma index_of_update idx key m m' :
  index_of idx key m → (∀ k, key <$> m' !! k = key <$> m !! k) → index_of idx key m'.
Proof.
  intros Hidx Hm a. destruct (Hidx a) as [Hnd Hin]. split; [done|]. intros k. rewrite Hin.
  specialize (Hm k). destruct (m !! k) as [v|], (m' !! k) as [v'|]; try discriminate Hm; [|naive_solver].
  injection Hm as Hm. split; intros (w & [= <-] & <-); eauto.
Qed.
(** Reading the entries through the index. *)
Lemma index_of_omap idx key m a v :
  index_of idx key m →
  v ∈ omap (λ k, m !! k) (default [] (idx !! a)) ↔ key v = Some a ∧ ∃ k, m !! k = Some v.
Proof.
  intros Hidx. destruct (Hidx a) as [_ Hin]. rewrite list_elem_of_omap. setoid_rewrite Hin. naive_solver.
Qed.
End MapIndex.

(** Counting by a predicate, as a sum. *)
Definition ind (P : Prop) `{Decision P} : Z := if decide P then 1 else 0.
Lemma length_filter_sumZ {A} (P : A → Prop) `{∀ x, Decision (P x)} l :
  Z.of_nat (length (filter P l)) = sumZ (λ x, ind (P x)) l.
Proof.
  induction l as [|x l IH]; [done|]. rewrite filter_cons. simpl. unfold ind in *.
  destruct (decide (P x)); simpl; lia.
Qed.

(** [sort_by(|a, b| b.key.cmp(&a.key))], then [skip(offset).take(limit)]. *)
Definition newest_window {A} (key : A → Z) (order : list A) (limit offset : nat) : list A :=
  take limit (drop offset (sort_by (λ a b, key b <=? key a) order)).
Lemma StronglySorted_mono {A} (R S : A → A → Prop) l :
  (∀ x y, R x y → S x y) → StronglySorted R l → StronglySorted S l.
Proof.
  intros HRS. induction 1 as [|x l Hl IH Hx]; constructor; [done|].
  eapply Forall_impl; [exact Hx|]. eauto.
Qed.
Lemma newest_window_spec {A} (key : A → Z) order limit offset :
  let w := newest_window key order limit offset in
  StronglySorted (λ a b, key b ≤ key a) w ∧
  (length w = limit `min` (length order - offset))%nat ∧ ∀ x, x ∈ w → x ∈ order.
Proof.
  unfold newest_window.
  assert (take limit (drop offset (sort_by (λ a b, key b <=? key a) order)) `sublist_of`
          sort_by (λ a b, key b <=? key a) order) as Hsub
    by (etrans; [apply sublist_take|apply sublist_drop]).
  split_and!.
  - eapply StronglySorted_sublist; [exact Hsub|].
    eapply (StronglySorted_mono (λ a b, (key b <=? key a) = true)); [intros; lia|].
    apply sort_by_sorted; intros; lia.
  - by rewrite length_take, length_drop, sort_by_perm.
  - intros x Hx. eapply sort_by_elem_of. by eapply sublist_subseteq.
Qed.
