(* ===== verification/Crypto.v ===== *)
(** * Crypto: hashes, addresses, keys and signatures (crates/crypto)

    The primitives of the [blake3], [ed25519_dalek] and [hex] crates are the
    fields of [CryptoPrims]; what the sources rely on is [CryptoLaws].  On top
    of them, the code of hash.rs, address.rs and keypair.rs.  [Blake3Hash],
    [Address], [PublicKey] and [Signature] are byte arrays of their sizes. *)

From S2P Require Import Prelude.

Abbreviation Blake3Hash := (barray 32) (only parsing).
Abbreviation Address := (barray 20) (only parsing).
Abbreviation PublicKey := (barray 32) (only parsing).
Abbreviation Signature := (barray 64) (only parsing).

(** crypto/src/error.rs *)
Inductive CryptoError : Type :=
| InvalidSignature
| InvalidKeyLength (expected actual : nat)
| InvalidHex (msg : string)
| KeyDerivation (msg : string)
| MnemonicError (msg : string)
| KeystoreError (msg : string)
| EncryptionError (msg : string)
| DecryptionError (msg : string)
| CryptoSerialization (msg : string).

Definition nat_str (n : nat) : string := pretty (N.of_nat n).
Definition z_str (z : Z) : string := pretty z.

Definition crypto_error_display (e : CryptoError) : string :=
  match e with
  | InvalidSignature => "invalid signature"
  | InvalidKeyLength ex ac =>
      "invalid key length: expected " +:+ nat_str ex +:+ ", got " +:+ nat_str ac
  | InvalidHex m => "invalid hex: " +:+ m
  | KeyDerivation m => "key derivation failed: " +:+ m
  | MnemonicError m => "mnemonic error: " +:+ m
  | KeystoreError m => "keystore error: " +:+ m
  | EncryptionError m => "encryption error: " +:+ m
  | DecryptionError m => "decryption error: " +:+ m
  | CryptoSerialization m => "serialization error: " +:+ m
  end.

(** The third-party crates the module calls. *)
Class CryptoPrims := {
  blake3 : bytes → barray 32;
  ed25519_public : barray 32 → barray 32;
  ed25519_sign : barray 32 → bytes → barray 64;
  (** [VerifyingKey::from_bytes(pk)] succeeds and [verify] accepts. *)
  ed25519_verify : barray 32 → bytes → barray 64 → bool;
  hex_enc : bytes → string;
  hex_dec : string → result string bytes
}.

(** Documented behaviour of those crates. *)
Class CryptoLaws `{CryptoPrims} : Prop := {
  sign_verifies sk m : ed25519_verify (ed25519_public sk) m (ed25519_sign sk m) = true;
  hex_dec_enc bs : hex_dec (hex_enc bs) = Ok bs;
  hex_enc_no_prefix bs : strip_0x (hex_enc bs) = hex_enc bs;
  hex_enc_nil : hex_enc [] = ""%string
}.

(** ** Array newtypes: constants, hex parsing and printing *)
Definition Blake3Hash_ZERO : Blake3Hash := ba_repeat 32 Byte.x00.
Definition Address_ZERO : Address := ba_repeat 20 Byte.x00.
Definition Signature_default : Signature := ba_repeat 64 Byte.x00.

Definition Address_is_zero (a : Address) : bool := bool_decide (a = Address_ZERO).

Section Hex.
Context `{CryptoPrims}.

(** The common body of the four [from_hex] functions. *)
Definition array_from_hex (n : nat) (s : string) : result CryptoError (barray n) :=
  match hex_dec (strip_0x s) with
  | Err m => Err (InvalidHex m)
  | Ok bs =>
      match ba_try bs with
      | Some a => Ok a
      | None => Err (InvalidKeyLength n (length bs))
      end
  end.

Definition Blake3Hash_from_hex : string → result CryptoError Blake3Hash := array_from_hex 32.
Definition Address_from_hex : string → result CryptoError Address := array_from_hex 20.
Definition PublicKey_from_hex : string → result CryptoError PublicKey := array_from_hex 32.
Definition Signature_from_hex : string → result CryptoError Signature := array_from_hex 64.

Definition Blake3Hash_to_hex (h : Blake3Hash) : string := hex_enc (ba_bytes h).
Definition PublicKey_to_hex (p : PublicKey) : string := hex_enc (ba_bytes p).
Definition Signature_to_hex (s : Signature) : string := hex_enc (ba_bytes s).
(** Unlike the others, an address prints with its [0x] prefix. *)
Definition Address_to_hex (a : Address) : string := "0x" +:+ hex_enc (ba_bytes a).
(** [Display for Blake3Hash] *)
Definition Blake3Hash_display (h : Blake3Hash) : string := "0x" +:+ Blake3Hash_to_hex h.
(** The other formatting traits; [&s[..16]] of the hex digits of at least 32 bytes. *)
Definition first16 (s : string) : string := String.substring 0 16 s.
Definition Blake3Hash_debug (h : Blake3Hash) : string := "Blake3Hash(" +:+ first16 (Blake3Hash_to_hex h) +:+ ")".
Definition Address_debug (a : Address) : string := "Address(" +:+ Address_to_hex a +:+ ")".
Definition Address_display (a : Address) : string := Address_to_hex a.
Definition PublicKey_debug (p : PublicKey) : string := "PublicKey(" +:+ first16 (PublicKey_to_hex p) +:+ ")".
Definition PublicKey_display (p : PublicKey) : string := "0x" +:+ PublicKey_to_hex p.
Definition Signature_debug (s : Signature) : string := "Signature(" +:+ first16 (Signature_to_hex s) +:+ "...)".
End Hex.

(** The newtypes and their arrays. *)
Definition Blake3Hash_from_bytes (b : barray 32) : Blake3Hash := b.
Definition Blake3Hash_as_bytes (h : Blake3Hash) : barray 32 := h.
Definition Blake3Hash_as_ref (h : Blake3Hash) : bytes := ba_bytes h.
Definition Blake3Hash_default : Blake3Hash := Blake3Hash_ZERO.
Definition Address_from_bytes (b : barray 20) : Address := b.
Definition Address_as_bytes (a : Address) : barray 20 := a.
Definition Address_default : Address := Address_ZERO.
Definition PublicKey_from_bytes (b : barray 32) : PublicKey := b.
Definition PublicKey_as_bytes (p : PublicKey) : barray 32 := p.
Definition Signature_from_bytes (b : barray 64) : Signature := b.
Definition Signature_as_bytes (s : Signature) : barray 64 := s.

(** ** Hashing (hash.rs) *)
Section Hashing.
Context `{CryptoPrims}.

Definition hash (data : bytes) : Blake3Hash := blake3 data.

(** What [hash_multiple] feeds the hasher: each item preceded by its length
    as a little-endian [u64]. *)
Fixpoint hm_input (items : list bytes) : bytes :=
  match items with
  | [] => []
  | item :: rest => to_le_bytes 8 (as_u 64 (Z.of_nat (length item))) ++ item ++ hm_input rest
  end.
Definition hash_multiple (items : list bytes) : Blake3Hash := blake3 (hm_input items).
End Hashing.

(** ** Keys and signatures (keypair.rs) *)
Record KeyPair : Type := { signing_key : barray 32 }.

(** [entropy]: the 32 bytes that [OsRng] gives. *)
Definition KeyPair_generate (entropy : barray 32) : KeyPair := {| signing_key := entropy |}.

Section Keys.
Context `{CryptoPrims}.

Definition KeyPair_from_bytes (b : barray 32) : result CryptoError KeyPair :=
  Ok {| signing_key := b |}.
Definition secret_bytes (k : KeyPair) : barray 32 := signing_key k.
Definition public_key (k : KeyPair) : PublicKey := ed25519_public (signing_key k).
Definition sign (k : KeyPair) (message : bytes) : Signature :=
  ed25519_sign (signing_key k) message.

Definition to_address (p : PublicKey) : Address :=
  ba_of 20 (take 20 (ba_bytes (hash (ba_bytes p)))).
Definition KeyPair_address (k : KeyPair) : Address := to_address (public_key k).

Definition verify (p : PublicKey) (message : bytes) (s : Signature) : result CryptoError () :=
  if ed25519_verify p message s then Ok () else Err InvalidSignature.
End Keys.

(** ** Properties *)
Section Properties.
Context `{CryptoPrims}.

Lemma take_app_exact {A} (l1 l2 : list A) n : length l1 = n → take n (l1 ++ l2) = l1.
Proof. intros <-. apply take_app_length. Qed.

(** A length-prefixed item can be split off unambiguously. *)
Lemma hm_cons_inj x y (rx ry : bytes) :
  Z.of_nat (length x) < 2 ^ 64 → Z.of_nat (length y) < 2 ^ 64 →
  to_le_bytes 8 (as_u 64 (Z.of_nat (length x))) ++ x ++ rx =
  to_le_bytes 8 (as_u 64 (Z.of_nat (length y))) ++ y ++ ry →
  x = y ∧ rx = ry.
Proof.
  intros Hx Hy Heq.
  rewrite !as_u_small in Heq by (unfold in_u; lia).
  apply app_inj_1 in Heq as [Hlen Heq]; [|by rewrite !length_to_le_bytes].
  apply to_le_bytes_inj in Hlen; [|unfold in_u; change (Z.of_nat 8 * 8) with 64; lia..].
  by apply app_inj_1 in Heq; [|lia].
Qed.

(** Domain separation: the hasher input determines the items. *)
Lemma hm_input_injective xs ys :
  Forall (λ x, Z.of_nat (length x) < 2 ^ 64) xs →
  Forall (λ y, Z.of_nat (length y) < 2 ^ 64) ys →
  hm_input xs = hm_input ys → xs = ys.
Proof.
  intros Hxs. revert ys. induction Hxs as [|x xs Hx Hxs IH]; intros ys Hys Heq.
  - destruct Hys as [|y ys Hy Hys]; [done|].
    apply (f_equal length) in Heq. cbn [hm_input] in Heq.
    rewrite length_app, length_to_le_bytes in Heq. done.
  - destruct Hys as [|y ys Hy Hys].
    + apply (f_equal length) in Heq. cbn [hm_input] in Heq.
      rewrite length_app, length_to_le_bytes in Heq. done.
    + cbn [hm_input] in Heq. apply hm_cons_inj in Heq as [-> Heq]; [|done..].
      f_equal. by apply IH.
Qed.

Context `{!CryptoLaws}.

Lemma array_from_hex_encode n (a : barray n) (pre : bool) :
  array_from_hex n ((if pre then "0x" else "") +:+ hex_enc (ba_bytes a)) = Ok a.
Proof.
  unfold array_from_hex.
  assert (strip_0x ((if pre then "0x" else "") +:+ hex_enc (ba_bytes a)) = hex_enc (ba_bytes a)) as ->.
  { destruct pre; simpl; [done|]. apply hex_enc_no_prefix. }
  by rewrite hex_dec_enc, ba_try_bytes.
Qed.

Lemma verify_sign k m : verify (public_key k) m (sign k m) = Ok ().
Proof. unfold verify, public_key, sign. by rewrite sign_verifies. Qed.
End Properties.

(** ** A concrete instance, for evaluating the definitions on inputs
    A small mixing digest in place of Blake3 and a deterministic scheme in
    place of Ed25519; hex as the crate does it. *)
Module ToyCrypto.
Definition mix (acc : bytes) (b : byte) : bytes :=
  match acc with [] => [] | h :: t => t ++ [byte_of_Z (byte_to_Z h * 3 + byte_to_Z b + 1)] end.
Definition digest (l : bytes) : bytes := foldl mix (replicate 32 Byte.x07) l.
Definition toy_blake3 (l : bytes) : barray 32 := ba_of 32 (digest l).
Definition toy_sign (sk : barray 32) (m : bytes) : barray 64 :=
  ba_of 64 (ba_bytes sk ++ ba_bytes (toy_blake3 m)).
Definition toy_verify (pk : barray 32) (m : bytes) (s : barray 64) : bool :=
  bool_decide (ba_bytes s = ba_bytes (toy_sign pk m)).

#[export] Instance toy_prims : CryptoPrims := {
  blake3 := toy_blake3;
  ed25519_public := λ sk, sk;
  ed25519_sign := toy_sign;
  ed25519_verify := toy_verify;
  hex_enc := hex_encode;
  hex_dec := λ s, match hex_decode s with Some bs => Ok bs | None => Err "invalid hex" end
}.
#[export] Instance toy_laws : CryptoLaws.
Proof.
  split.
  - intros. simpl. unfold toy_verify. by apply bool_decide_eq_true_2.
  - intros. simpl. by rewrite hex_decode_encode.
  - intros. apply strip_0x_hex_encode.
  - done.
Qed.
Definition kp (b : byte) : KeyPair := {| signing_key := ba_repeat 32 b |}.
End ToyCrypto.
