(* ===== verification/Merkle.v ===== *)
(** * Merkle: the transaction Merkle tree (crates/crypto/src/merkle.rs)

    [MerkleTree::new] builds layers bottom-up, duplicating the last node of an
    odd layer; [proof] walks the layers below the root and [verify_proof]
    recomputes the root.  The theorems hold for every hash function. *)

From S2P Require Import Prelude Crypto.

Inductive Position := PLeft | PRight.

Record MerkleTree := { leaves : list Blake3Hash; layers : list (list Blake3Hash) }.
Record MerkleProof := { leaf : Blake3Hash; siblings : list (Blake3Hash * Position) }.

#[export] Instance position_eq_dec : EqDecision Position.
Proof. solve_decision. Defined.

Section Merkle.
Context `{CryptoPrims}.

(** "If odd number, duplicate the last element". *)
Definition pad_odd (l : list Blake3Hash) : list Blake3Hash :=
  if Nat.even (length l) then l else l ++ option_list (last l).

Definition combine_pair (a b : Blake3Hash) : Blake3Hash :=
  hash_multiple [ba_bytes a; ba_bytes b].

(** [for chunk in current.chunks(2)] over a layer of even length. *)
Fixpoint pair_up (l : list Blake3Hash) : list Blake3Hash :=
  match l with
  | a :: b :: l' => combine_pair a b :: pair_up l'
  | _ => []
  end.

Definition next_layer (l : list Blake3Hash) : list Blake3Hash := pair_up (pad_odd l).

(** The [while current.len() > 1] loop: the layers pushed after [current]. *)
Fixpoint build_layers (fuel : nat) (current : list Blake3Hash) : list (list Blake3Hash) :=
  match fuel with
  | O => []
  | S fuel' =>
      if (1 <? length current)%nat
      then next_layer current :: build_layers fuel' (next_layer current)
      else []
  end.

Definition MerkleTree_new (ls : list Blake3Hash) : MerkleTree :=
  match ls with
  | [] => {| leaves := []; layers := [[Blake3Hash_ZERO]] |}
  | _ => {| leaves := ls; layers := ls :: build_layers (length ls) ls |}
  end.

Definition root (t : MerkleTree) : Blake3Hash :=
  default Blake3Hash_ZERO (last (layers t) ≫= head).

(** The loop of [proof]; an index out of range would panic ([None]). *)
Fixpoint proof_siblings (ls : list (list Blake3Hash)) (idx : nat)
    : option (list (Blake3Hash * Position)) :=
  match ls with
  | [] => Some []
  | layer :: ls' =>
      let sibling_idx := if Nat.even idx then (idx + 1)%nat else (idx - 1)%nat in
      let sibling_idx := Nat.min sibling_idx (length layer - 1) in
      let position := if Nat.even idx then PRight else PLeft in
      s ← layer !! sibling_idx;
      rest ← proof_siblings ls' (idx / 2)%nat;
      Some ((s, position) :: rest)
  end.

Definition proof (t : MerkleTree) (index : nat) : option MerkleProof :=
  if (length (leaves t) <=? index)%nat then None
  else
    sibs ← proof_siblings (removelast (layers t)) index;
    lf ← leaves t !! index;
    Some {| leaf := lf; siblings := sibs |}.

Definition fold_step (current : Blake3Hash) (sp : Blake3Hash * Position) : Blake3Hash :=
  match sp.2 with
  | PLeft => combine_pair sp.1 current
  | PRight => combine_pair current sp.1
  end.
Definition verify_proof (rt : Blake3Hash) (p : MerkleProof) : bool :=
  bool_decide (foldl fold_step (leaf p) (siblings p) = rt).

Definition leaf_count (t : MerkleTree) : nat := length (leaves t).

Definition compute_merkle_root (items : list bytes) : Blake3Hash :=
  root (MerkleTree_new (hash <$> items)).

(** ** Layer arithmetic *)
Lemma pad_odd_even_length l : Nat.even (length (pad_odd l)) = true.
Proof.
  unfold pad_odd. destruct (Nat.even (length l)) eqn:E; [done|].
  destruct (last l) as [x|] eqn:Hl.
  - rewrite length_app, Nat.even_add, E. done.
  - apply last_None in Hl as ->. done.
Qed.
Lemma length_pad_odd l : length (pad_odd l) = (2 * ((length l + 1) / 2))%nat.
Proof.
  unfold pad_odd. destruct (Nat.even (length l)) eqn:E.
  - apply Nat.even_spec in E as [k Hk]. rewrite Hk.
    replace (2 * k + 1)%nat with (1 + k * 2)%nat by lia. rewrite Nat.div_add by lia. simpl. lia.
  - destruct (last l) as [x|] eqn:Hl; [|by apply last_None in Hl as ->].
    rewrite <- Nat.negb_odd in E. apply negb_false_iff, Nat.odd_spec in E as [k Hk].
    rewrite length_app, Hk. simpl length.
    replace (2 * k + 1 + 1)%nat with ((k + 1) * 2)%nat by lia. rewrite Nat.div_mul by lia. lia.
Qed.
Lemma length_pair_up n l : length l = (2 * n)%nat → length (pair_up l) = n.
Proof.
  revert l. induction n as [|n IH]; intros [|a [|b l]] Hl; simpl in *; try lia.
  rewrite IH; lia.
Qed.
Lemma length_next_layer l : length (next_layer l) = ((length l + 1) / 2)%nat.
Proof. apply length_pair_up, length_pad_odd. Qed.

Lemma pair_up_lookup l k a b :
  l !! (2 * k)%nat = Some a → l !! (2 * k + 1)%nat = Some b →
  pair_up l !! k = Some (combine_pair a b).
Proof.
  revert l. induction k as [|k IH]; intros l Ha Hb.
  - destruct l as [|x [|y l]]; simpl in *; naive_solver.
  - replace (2 * S k)%nat with (S (S (2 * k))) in Ha by lia.
    replace (2 * S k + 1)%nat with (S (S (2 * k + 1))) in Hb by lia.
    destruct l as [|x [|y l]]; simpl in Ha, Hb; try done.
    simpl. by apply IH.
Qed.

(** The sibling chosen by [proof] is the partner in the padded layer. *)
Lemma sibling_in_layer l idx x :
  l !! idx = Some x → (1 < length l)%nat →
  let si := Nat.min (if Nat.even idx then idx + 1 else idx - 1)%nat (length l - 1) in
  ∃ s, l !! si = Some s ∧
    next_layer l !! (idx / 2)%nat =
      Some (fold_step x (s, if Nat.even idx then PRight else PLeft)).
Proof.
  intros Hx Hlen. pose proof (lookup_lt_Some _ _ _ Hx) as Hidx.
  destruct (Nat.even idx) eqn:E; cbv zeta.
  - pose proof E as E'. apply Nat.even_spec in E as [k Hk].
    assert (idx / 2 = k)%nat as -> by (rewrite Hk, Nat.mul_comm; apply Nat.div_mul; lia).
    destruct (decide (idx + 1 < length l)%nat) as [Hin|Hout].
    + rewrite Nat.min_l by lia. destruct (lookup_lt_is_Some_2 l (idx + 1)%nat Hin) as [s Hs].
      exists s. split; [done|]. apply pair_up_lookup.
      * unfold pad_odd. rewrite <- Hk.
        destruct (Nat.even (length l)); [done|]. by rewrite lookup_app_l.
      * unfold pad_odd. rewrite <- Hk.
        destruct (Nat.even (length l)); [done|]. by rewrite lookup_app_l.
    + assert (length l = idx + 1)%nat as Hl by lia.
      rewrite Nat.min_r by lia. replace (length l - 1)%nat with idx by lia.
      exists x. split; [done|].
      assert (Nat.even (length l) = false) as Ho by (rewrite Hl, Nat.even_add, E'; done).
      assert (last l = Some x) as Hlast.
      { rewrite last_lookup, Hl. replace (pred (idx + 1)) with idx by lia. done. }
      apply pair_up_lookup; unfold pad_odd; rewrite Ho, Hlast, <- Hk; simpl.
      * by rewrite lookup_app_l.
      * rewrite lookup_app_r by lia. rewrite Hl, Nat.sub_diag. done.
  - assert (∃ k, idx = 2 * k + 1)%nat as [k Hk].
    { rewrite <- Nat.negb_odd in E. apply negb_false_iff, Nat.odd_spec in E. exact E. }
    assert (idx / 2 = k)%nat as ->.
    { rewrite Hk. replace (2 * k + 1)%nat with (1 + k * 2)%nat by lia.
      rewrite Nat.div_add by lia. done. }
    rewrite Nat.min_l by lia.
    destruct (lookup_lt_is_Some_2 l (idx - 1)%nat ltac:(lia)) as [s Hs].
    exists s. split; [done|].
    replace (idx - 1)%nat with (2 * k)%nat in Hs by lia. rewrite Hk in Hx.
    apply pair_up_lookup; unfold pad_odd; destruct (Nat.even (length l)); try done;
      rewrite lookup_app_l by (rewrite Hk in Hidx; lia); done.
Qed.

(** ** The build loop *)
Lemma build_layers_fuel f1 f2 l :
  (length l ≤ f1)%nat → (length l ≤ f2)%nat → build_layers f1 l = build_layers f2 l.
Proof.
  revert f2 l. induction f1 as [|f1 IH]; intros [|f2] l H1 H2; simpl; try done.
  - destruct l; simpl in *; [done|lia].
  - destruct l; simpl in *; [done|lia].
  - destruct (1 <? length l)%nat eqn:E; [|done]. zbool. f_equal.
    assert (length (next_layer l) < length l)%nat.
    { rewrite length_next_layer. apply Nat.div_lt_upper_bound; lia. }
    apply IH; lia.
Qed.

(** With fuel [length l] the loop has reached a layer of one node. *)
Lemma build_layers_done fuel l :
  l ≠ [] → (length l ≤ fuel)%nat →
  ∃ r, last (l :: build_layers fuel l) = Some [r].
Proof.
  revert l. induction fuel as [|fuel IH]; intros l Hne Hlen.
  - destruct l; simpl in *; [done|lia].
  - simpl build_layers. destruct (1 <? length l)%nat eqn:E; zbool.
    + assert (length (next_layer l) < length l ∧ 0 < length (next_layer l))%nat as [? ?].
      { rewrite length_next_layer. split; [apply Nat.div_lt_upper_bound; lia|].
        apply Nat.div_str_pos. lia. }
      destruct (IH (next_layer l)) as [r Hr]; [intros Hn; rewrite Hn in *; simpl in *; lia|lia|].
      exists r. by rewrite last_cons, Hr.
    + destruct l as [|x [|y l]]; simpl in *; [done|by exists x|lia].
Qed.

Lemma proof_walk fuel l idx x :
  l !! idx = Some x → (length l ≤ fuel)%nat →
  ∃ sibs r,
    proof_siblings (removelast (l :: build_layers fuel l)) idx = Some sibs ∧
    last (l :: build_layers fuel l) ≫= head = Some r ∧
    foldl fold_step x sibs = r.
Proof.
  revert l idx x. induction fuel as [|fuel IH]; intros l idx x Hx Hlen.
  - apply lookup_lt_Some in Hx. lia.
  - simpl build_layers. destruct (1 <? length l)%nat eqn:E; zbool.
    + destruct (sibling_in_layer l idx x Hx E) as (s & Hs & Hnext).
      assert (length (next_layer l) < length l)%nat.
      { rewrite length_next_layer. apply Nat.div_lt_upper_bound; lia. }
      destruct (IH _ _ _ Hnext ltac:(lia)) as (sibs & r & Hsibs & Hr & Hfold).
      exists ((s, if Nat.even idx then PRight else PLeft) :: sibs), r. split_and!.
      * change (removelast (l :: ?ls)) with (l :: removelast ls).
        cbn [proof_siblings]. cbv zeta in Hs. rewrite Hs. cbn [mbind option_bind].
        by rewrite Hsibs.
      * rewrite last_cons.
        destruct (last (next_layer l :: build_layers fuel (next_layer l))) eqn:El; [done|].
        by apply last_None in El.
      * done.
    + destruct l as [|y [|z l]]; simpl in *; [done| |lia].
      destruct idx; simpl in Hx; [|done]. injection Hx as ->. by exists [], x.
Qed.

(** ** Properties *)
(** C22: For every list of leaves and every index in range the tree yields a proof for
    that leaf that verifies against the root; out of range it yields none. *)
Theorem merkle_proof_complete ls i :
  match proof (MerkleTree_new ls) i with
  | Some p => ls !! i = Some (leaf p) ∧ verify_proof (root (MerkleTree_new ls)) p = true
  | None => (length ls ≤ i)%nat
  end.
Proof.
  destruct ls as [|l0 ls']; [simpl; lia|]. set (ls := l0 :: ls').
  destruct (decide (i < length ls)%nat) as [Hi|Hi].
  - destruct (lookup_lt_is_Some_2 ls i Hi) as [x Hx].
    destruct (proof_walk (length ls) ls i x Hx ltac:(done)) as (sibs & r & Hsibs & Hr & Hf).
    change (MerkleTree_new ls) with {| leaves := ls; layers := ls :: build_layers (length ls) ls |}.
    unfold proof, root. cbn [leaves layers].
    rewrite (proj2 (Nat.leb_gt _ _)) by done. rewrite Hsibs, Hr. simpl. rewrite Hx. simpl.
    split; [done|]. by apply bool_decide_eq_true_2.
  - unfold proof, MerkleTree_new, ls. cbn [leaves]. fold ls.
    rewrite (proj2 (Nat.leb_le _ _)) by lia. lia.
Qed.

(** What one step of [verify_proof] feeds to Blake3, and the whole list of these inputs
    along a proof, from the leaf to the root. *)
Definition step_input (current : Blake3Hash) (sp : Blake3Hash * Position) : bytes :=
  match sp.2 with
  | PLeft => hm_input [ba_bytes sp.1; ba_bytes current]
  | PRight => hm_input [ba_bytes current; ba_bytes sp.1]
  end.
Fixpoint verify_inputs (current : Blake3Hash) (sibs : list (Blake3Hash * Position)) : list bytes :=
  match sibs with
  | [] => []
  | sp :: sibs' => step_input current sp :: verify_inputs (fold_step current sp) sibs'
  end.
Lemma fold_step_input current sp : fold_step current sp = blake3 (step_input current sp).
Proof. by destruct sp as [s []]. Qed.
Lemma step_input_inj c1 c2 s1 s2 d : step_input c1 (s1, d) = step_input c2 (s2, d) → c1 = c2 ∧ s1 = s2.
Proof.
  unfold step_input. cbn [fst snd]. destruct d; intros Hin; (apply hm_input_injective in Hin; [|repeat constructor; rewrite ba_length; done..]);
    injection Hin as H1 H2; split; by apply barray_eq.
Qed.

(** C23: Two different proofs (leaf or sibling hashes) with the same directions that
    both verify against one root exhibit a Blake3 collision among their own steps: at some
    level of the two verifications different inputs are hashed to the same value. *)
Theorem merkle_proof_binding rt p q :
  verify_proof rt p = true → verify_proof rt q = true →
  (siblings p).*2 = (siblings q).*2 → (leaf p, siblings p) ≠ (leaf q, siblings q) →
  ∃ k x y, verify_inputs (leaf p) (siblings p) !! k = Some x ∧ verify_inputs (leaf q) (siblings q) !! k = Some y ∧
    x ≠ y ∧ blake3 x = blake3 y.
Proof.
  unfold verify_proof. destruct p as [lp sp], q as [lq sq]. simpl. intros Hp Hq. zbool.
  subst rt. revert lp lq sq Hq. induction sp as [|[s1 d1] sp IH]; intros lp lq [|[s2 d2] sq] Hq Hd Hne;
    simpl in *; try done; [congruence|].
  injection Hd as -> Hd.
  destruct (decide ((fold_step lp (s1, d2), sp) = (fold_step lq (s2, d2), sq))) as [Heq|Hne'].
  - injection Heq as Heq ->. exists 0%nat, (step_input lp (s1, d2)), (step_input lq (s2, d2)).
    rewrite <- !fold_step_input. split_and!; try done. intros [-> ->]%step_input_inj. done.
  - destruct (IH _ _ _ Hq Hd Hne') as (k & x & y & Hk). by exists (S k), x, y.
Qed.

(** A list of leaves of odd length and the list with its last leaf repeated have
    the same root. *)
Theorem merkle_root_duplicate_last ls x :
  Nat.even (length ls) = true → ls ≠ [] →
  root (MerkleTree_new (ls ++ [x])) = root (MerkleTree_new (ls ++ [x; x])).
Proof.
  intros Heven Hne. destruct ls as [|a [|b ls]]; [done|done|].
  unfold root, MerkleTree_new. simpl app. cbn [layers].
  set (l1 := a :: b :: ls ++ [x]). set (l2 := a :: b :: ls ++ [x; x]).
  assert (next_layer l1 = next_layer l2) as Hnl.
  { unfold next_layer, pad_odd.
    assert (length l1 = S (S (S (length ls)))) as -> by (unfold l1; simpl; rewrite length_app; simpl; lia).
    assert (length l2 = S (S (S (S (length ls))))) as -> by (unfold l2; simpl; rewrite length_app; simpl; lia).
    rewrite !Nat.even_succ_succ, Nat.even_succ, <- Nat.negb_even. simpl in Heven. rewrite Heven.
    simpl negb. cbn iota.
    f_equal. unfold l1, l2. change (a :: b :: ls ++ [x]) with ((a :: b :: ls) ++ [x]).
    rewrite last_snoc. simpl. by rewrite <- app_assoc. }
  assert (∀ f l, (2 ≤ length l)%nat → build_layers (S f) l =
    next_layer l :: build_layers f (next_layer l)) as Hb.
  { intros f l Hl. cbn [build_layers]. by rewrite (proj2 (Nat.ltb_lt 1 (length l))) by lia. }
  assert (length l1 = S (S (length ls + 1)) ∧ length l2 = S (S (length ls + 2))) as [-> ->].
  { unfold l1, l2. simpl. rewrite !length_app. simpl. lia. }
  assert (2 ≤ length l1 ∧ 2 ≤ length l2)%nat as [? ?] by (unfold l1, l2; simpl; lia).
  rewrite (Hb _ l1), (Hb _ l2), <- Hnl by done.
  rewrite (build_layers_fuel (S (length ls + 2)) (S (length ls + 1))).
  2-3: rewrite length_next_layer; apply Nat.div_le_upper_bound; [lia|];
    unfold l1; simpl; rewrite length_app; simpl; lia.
  done.
Qed.
End Merkle.
