(* ===== verification/CoreTypes.v ===== *)
(** * CoreTypes: accounts, transactions, blocks, validators, epochs, genesis
    (crates/core)

    The data types of crates/core with their stateless operations and
    validation.  Integers carry the source's widths ([Balance] is [u128], the
    other quantities [u64]).  [bincode] is the class [Bincode]. *)

From S2P Require Import Prelude Crypto Merkle.

(** ** bincode (third party) *)
Class Bincode (A : Type) := {
  bincode_ser : A → bytes;
  bincode_de : bytes → result string A
}.
(** What is written can be read back. *)
Class BincodeLaws (A : Type) `{Bincode A} : Prop :=
  bincode_de_ser x : bincode_de (bincode_ser x) = Ok x.

(** ** types.rs *)
Definition MAX_EXTRA_DATA_SIZE : Z := 256.
Definition MAX_TRANSACTION_DATA_SIZE : Z := 512 * 1024.
Definition MAX_BLOCK_TRANSACTIONS : Z := 10000.
Definition PROTOCOL_VERSION : Z := 1.
Definition lenZ {A} (l : list A) : Z := Z.of_nat (length l).

(** ** error.rs *)
Inductive CoreError : Type :=
| InvalidBlock (msg : string)
| InvalidTransaction (msg : string)
| CoreInvalidSignature (e : CryptoError)
| InsufficientBalance (have need : Z)
| InvalidNonce (expected got : Z)
| GasLimitExceeded (limit used : Z)
| DataTooLarge (max got : Z)
| GenesisError (msg : string)
| ConfigError (msg : string)
| CoreSerialization (msg : string)
| ChainIdMismatch (expected got : Z).

Definition core_error_display (e : CoreError) : string :=
  match e with
  | InvalidBlock m => "invalid block: " +:+ m
  | InvalidTransaction m => "invalid transaction: " +:+ m
  | CoreInvalidSignature e => "invalid signature: " +:+ crypto_error_display e
  | InsufficientBalance h n => "insufficient balance: have " +:+ z_str h +:+ ", need " +:+ z_str n
  | InvalidNonce e g => "invalid nonce: expected " +:+ z_str e +:+ ", got " +:+ z_str g
  | GasLimitExceeded l u => "gas limit exceeded: limit " +:+ z_str l +:+ ", used " +:+ z_str u
  | DataTooLarge m g => "data too large: max " +:+ z_str m +:+ ", got " +:+ z_str g
  | GenesisError m => "genesis error: " +:+ m
  | ConfigError m => "config error: " +:+ m
  | CoreSerialization m => "serialization error: " +:+ m
  | ChainIdMismatch e g => "chain id mismatch: expected " +:+ z_str e +:+ ", got " +:+ z_str g
  end.

(** ** account.rs *)
Record Account : Type := {
  acc_address : Address;
  acc_balance : Z;
  acc_nonce : Z;
  acc_code_hash : option Blake3Hash;
  acc_storage_root : Blake3Hash
}.
#[export] Instance account_eq_dec : EqDecision Account.
Proof. solve_decision. Defined.

Definition Account_new (address : Address) (balance : Z) : Account := {|
  acc_address := address; acc_balance := balance; acc_nonce := 0;
  acc_code_hash := None; acc_storage_root := Blake3Hash_ZERO |}.
Definition Account_new_contract (address : Address) (balance : Z) (code_hash : Blake3Hash) : Account := {|
  acc_address := address; acc_balance := balance; acc_nonce := 0;
  acc_code_hash := Some code_hash; acc_storage_root := Blake3Hash_ZERO |}.
Definition Account_default : Account := {|
  acc_address := Address_ZERO; acc_balance := 0; acc_nonce := 0; acc_code_hash := None;
  acc_storage_root := Blake3Hash_ZERO |}.
Definition is_contract (a : Account) : bool := bool_decide (is_Some (acc_code_hash a)).
Definition has_sufficient_balance (a : Account) (amount : Z) : bool := amount <=? acc_balance a.
Definition set_balance (a : Account) (b : Z) : Account := {|
  acc_address := acc_address a; acc_balance := b; acc_nonce := acc_nonce a;
  acc_code_hash := acc_code_hash a; acc_storage_root := acc_storage_root a |}.
Definition increment_nonce (a : Account) : Account := {|
  acc_address := acc_address a; acc_balance := acc_balance a; acc_nonce := acc_nonce a +! 1;
  acc_code_hash := acc_code_hash a; acc_storage_root := acc_storage_root a |}.

(** ** transaction.rs *)
Inductive TxType := Transfer | ContractDeploy | ContractCall | Stake | Unstake.
#[export] Instance tx_type_eq_dec : EqDecision TxType.
Proof. solve_decision. Defined.

Record Transaction : Type := {
  tx_chain_id : Z;
  tx_nonce : Z;
  tx_from : Address;
  tx_to : option Address;
  tx_value : Z;
  tx_tx_type : TxType;
  tx_gas_limit : Z;
  tx_gas_price : Z;
  tx_data : bytes;
  tx_timestamp : Z
}.
#[export] Instance transaction_eq_dec : EqDecision Transaction.
Proof. solve_decision. Defined.

Record SignedTransaction : Type := {
  stx_transaction : Transaction;
  stx_public_key : PublicKey;
  stx_signature : Signature;
  stx_tx_hash : Blake3Hash
}.
#[export] Instance signed_transaction_eq_dec : EqDecision SignedTransaction.
Proof. solve_decision. Defined.

(** The values the Rust types admit. *)
Definition tx_wf (tx : Transaction) : Prop :=
  in_u 64 (tx_chain_id tx) ∧ in_u 64 (tx_nonce tx) ∧ in_u 128 (tx_value tx) ∧
  in_u 64 (tx_gas_limit tx) ∧ in_u 64 (tx_gas_price tx) ∧ in_u 64 (tx_timestamp tx).

Definition max_gas_cost (tx : Transaction) : Z := tx_gas_limit tx *!! tx_gas_price tx.
Definition total_cost (tx : Transaction) : Z := tx_value tx +!! max_gas_cost tx.

Definition tx_validate_basic (tx : Transaction) : result CoreError () :=
  if MAX_TRANSACTION_DATA_SIZE <? lenZ (tx_data tx) then
    Err (DataTooLarge MAX_TRANSACTION_DATA_SIZE (lenZ (tx_data tx)))
  else if tx_gas_limit tx =? 0 then Err (InvalidTransaction "gas limit must be > 0")
  else if tx_gas_price tx =? 0 then Err (InvalidTransaction "gas price must be > 0")
  else
    match tx_tx_type tx with
    | Transfer =>
        match tx_to tx with
        | None => Err (InvalidTransaction "transfer must have a recipient")
        | Some _ => Ok ()
        end
    | ContractDeploy =>
        match tx_to tx with
        | Some _ => Err (InvalidTransaction "contract deploy must not have a recipient")
        | None =>
            match tx_data tx with
            | [] => Err (InvalidTransaction "contract deploy must include bytecode")
            | _ :: _ => Ok ()
            end
        end
    | ContractCall =>
        match tx_to tx with
        | None => Err (InvalidTransaction "contract call must have a target address")
        | Some _ => Ok ()
        end
    | Stake =>
        if tx_value tx =? 0 then Err (InvalidTransaction "stake amount must be > 0") else Ok ()
    | Unstake =>
        if tx_value tx =? 0 then Err (InvalidTransaction "unstake amount must be > 0") else Ok ()
    end.

Section Transactions.
Context `{CryptoPrims} `{Bincode Transaction}.

Definition signing_hash (tx : Transaction) : Blake3Hash := hash (bincode_ser tx).

Definition SignedTransaction_new (tx : Transaction) (kp : KeyPair) : SignedTransaction :=
  let signature := sign kp (ba_bytes (signing_hash tx)) in
  let hash_input := bincode_ser tx ++ ba_bytes signature in
  {| stx_transaction := tx; stx_public_key := public_key kp;
     stx_signature := signature; stx_tx_hash := hash hash_input |}.

Definition stx_verify (stx : SignedTransaction) : result CoreError () :=
  let tx := stx_transaction stx in
  _ ← tx_validate_basic tx;
  if negb (bool_decide (to_address (stx_public_key stx) = tx_from tx)) then
    Err (InvalidTransaction "sender address does not match public key")
  else
    map_err CoreInvalidSignature
      (verify (stx_public_key stx) (ba_bytes (signing_hash tx)) (stx_signature stx)).
End Transactions.

Definition sender (stx : SignedTransaction) : Address := tx_from (stx_transaction stx).

(** ** block.rs *)
Record BlockHeader : Type := {
  hdr_version : Z;
  hdr_chain_id : Z;
  hdr_number : Z;
  hdr_timestamp : Z;
  hdr_parent_hash : Blake3Hash;
  hdr_state_root : Blake3Hash;
  hdr_transactions_root : Blake3Hash;
  hdr_receipts_root : Blake3Hash;
  hdr_validator : Address;
  hdr_validator_pubkey : PublicKey;
  hdr_validator_signature : Signature;
  hdr_epoch : Z;
  hdr_gas_used : Z;
  hdr_gas_limit : Z;
  hdr_extra_data : bytes
}.
#[export] Instance block_header_eq_dec : EqDecision BlockHeader.
Proof. solve_decision. Defined.

Record Block : Type := { blk_header : BlockHeader; blk_transactions : list SignedTransaction }.
#[export] Instance block_eq_dec : EqDecision Block.
Proof. solve_decision. Defined.

Definition set_signature (h : BlockHeader) (s : Signature) : BlockHeader := {|
  hdr_version := hdr_version h; hdr_chain_id := hdr_chain_id h; hdr_number := hdr_number h;
  hdr_timestamp := hdr_timestamp h; hdr_parent_hash := hdr_parent_hash h;
  hdr_state_root := hdr_state_root h; hdr_transactions_root := hdr_transactions_root h;
  hdr_receipts_root := hdr_receipts_root h; hdr_validator := hdr_validator h;
  hdr_validator_pubkey := hdr_validator_pubkey h; hdr_validator_signature := s;
  hdr_epoch := hdr_epoch h; hdr_gas_used := hdr_gas_used h; hdr_gas_limit := hdr_gas_limit h;
  hdr_extra_data := hdr_extra_data h |}.
Definition set_gas_used (h : BlockHeader) (g : Z) : BlockHeader := {|
  hdr_version := hdr_version h; hdr_chain_id := hdr_chain_id h; hdr_number := hdr_number h;
  hdr_timestamp := hdr_timestamp h; hdr_parent_hash := hdr_parent_hash h;
  hdr_state_root := hdr_state_root h; hdr_transactions_root := hdr_transactions_root h;
  hdr_receipts_root := hdr_receipts_root h; hdr_validator := hdr_validator h;
  hdr_validator_pubkey := hdr_validator_pubkey h;
  hdr_validator_signature := hdr_validator_signature h;
  hdr_epoch := hdr_epoch h; hdr_gas_used := g; hdr_gas_limit := hdr_gas_limit h;
  hdr_extra_data := hdr_extra_data h |}.

Section Blocks.
Context `{CryptoPrims} `{Bincode Transaction} `{Bincode BlockHeader}.

Definition header_hash (h : BlockHeader) : Blake3Hash :=
  hash (bincode_ser (set_signature h Signature_default)).
Definition header_sign (h : BlockHeader) (kp : KeyPair) : BlockHeader :=
  set_signature h (sign kp (ba_bytes (header_hash h))).
Definition verify_signature (h : BlockHeader) : result CoreError () :=
  map_err CoreInvalidSignature
    (verify (hdr_validator_pubkey h) (ba_bytes (header_hash h)) (hdr_validator_signature h)).

Definition header_validate_basic (h : BlockHeader) : result CoreError () :=
  if negb (hdr_version h =? PROTOCOL_VERSION) then
    Err (InvalidBlock ("unsupported version: " +:+ z_str (hdr_version h)))
  else if MAX_EXTRA_DATA_SIZE <? lenZ (hdr_extra_data h) then
    Err (DataTooLarge MAX_EXTRA_DATA_SIZE (lenZ (hdr_extra_data h)))
  else if hdr_gas_limit h <? hdr_gas_used h then
    Err (GasLimitExceeded (hdr_gas_limit h) (hdr_gas_used h))
  else if negb (bool_decide (to_address (hdr_validator_pubkey h) = hdr_validator h)) then
    Err (InvalidBlock "validator address does not match public key")
  else Ok ().

Definition block_hash (b : Block) : Blake3Hash := header_hash (blk_header b).
Definition tx_count (b : Block) : nat := length (blk_transactions b).

Definition compute_transactions_root (b : Block) : Blake3Hash :=
  match blk_transactions b with
  | [] => Blake3Hash_ZERO
  | txs => compute_merkle_root ((λ t, ba_bytes (stx_tx_hash t)) <$> txs)
  end.

(** The [for (i, tx) in transactions.iter().enumerate()] loop. *)
Fixpoint verify_all (i : nat) (txs : list SignedTransaction) : result CoreError () :=
  match txs with
  | [] => Ok ()
  | t :: rest =>
      _ ← map_err (λ e, InvalidBlock ("invalid transaction " +:+ nat_str i +:+ ": " +:+
                                     core_error_display e)) (stx_verify t);
      verify_all (S i) rest
  end.

Definition block_validate_basic (b : Block) : result CoreError () :=
  _ ← header_validate_basic (blk_header b);
  if MAX_BLOCK_TRANSACTIONS <? lenZ (blk_transactions b) then
    Err (InvalidBlock ("too many transactions: " +:+ z_str (lenZ (blk_transactions b)) +:+
                       " (max " +:+ z_str MAX_BLOCK_TRANSACTIONS +:+ ")"))
  else if negb (bool_decide (compute_transactions_root b = hdr_transactions_root (blk_header b))) then
    Err (InvalidBlock "transactions root mismatch")
  else verify_all 0 (blk_transactions b).
End Blocks.

Definition Block_genesis (chain_id timestamp : Z) (validator : Address) (validator_pubkey : PublicKey)
    (gas_limit : Z) (extra_data : bytes) : Block := {|
  blk_header := {|
    hdr_version := PROTOCOL_VERSION; hdr_chain_id := chain_id; hdr_number := 0;
    hdr_timestamp := timestamp; hdr_parent_hash := Blake3Hash_ZERO;
    hdr_state_root := Blake3Hash_ZERO; hdr_transactions_root := Blake3Hash_ZERO;
    hdr_receipts_root := Blake3Hash_ZERO; hdr_validator := validator;
    hdr_validator_pubkey := validator_pubkey; hdr_validator_signature := Signature_default;
    hdr_epoch := 0; hdr_gas_used := 0; hdr_gas_limit := gas_limit;
    hdr_extra_data := extra_data |};
  blk_transactions := [] |}.

(** ** Properties *)
Section CoreProperties.
Context `{CryptoPrims} `{!CryptoLaws} `{Bincode Transaction} `{Bincode BlockHeader}.

(** Each kind of transaction with the shape it must have. *)
Definition tx_shape_ok (tx : Transaction) : Prop :=
  match tx_tx_type tx with
  | Transfer | ContractCall => is_Some (tx_to tx)
  | ContractDeploy => tx_to tx = None ∧ tx_data tx ≠ []
  | Stake | Unstake => tx_value tx ≠ 0
  end.
Lemma tx_validate_basic_ok tx :
  tx_validate_basic tx = Ok () ↔
  lenZ (tx_data tx) ≤ MAX_TRANSACTION_DATA_SIZE ∧ tx_gas_limit tx ≠ 0 ∧ tx_gas_price tx ≠ 0 ∧ tx_shape_ok tx.
Proof.
  unfold tx_validate_basic, tx_shape_ok.
  destruct (_ <? _) eqn:E1; zbool; [split; [done|lia]|].
  destruct (tx_gas_limit tx =? 0) eqn:E2; zbool; [naive_solver|].
  destruct (tx_gas_price tx =? 0) eqn:E3; zbool; [naive_solver|].
  destruct (tx_tx_type tx), (tx_to tx); try destruct (tx_data tx); try destruct (tx_value tx =? 0) eqn:E4; zbool;
    (split; [try done; intros _; repeat split; by (eexists || lia || done)|]);
    intros (_ & _ & _ & Hs); try done; try (by destruct Hs); try (by destruct Hs as [_ []]).
Qed.

(** Signed transactions. *)
Theorem stx_verify_ok_iff t :
  stx_verify t = Ok () ↔
  tx_validate_basic (stx_transaction t) = Ok () ∧
  to_address (stx_public_key t) = tx_from (stx_transaction t) ∧
  ed25519_verify (stx_public_key t) (ba_bytes (signing_hash (stx_transaction t))) (stx_signature t) = true.
Proof.
  unfold stx_verify. destruct (tx_validate_basic _) as [[]|e]; simpl; [|naive_solver].
  case_bool_decide; simpl; [|naive_solver]. unfold verify. destruct (ed25519_verify _ _ _); simpl; naive_solver.
Qed.

(** A well-formed transaction signed with the key of its sender verifies. *)
Theorem sign_then_verify tx kp :
  tx_validate_basic tx = Ok () → tx_from tx = KeyPair_address kp →
  stx_verify (SignedTransaction_new tx kp) = Ok () ∧ sender (SignedTransaction_new tx kp) = KeyPair_address kp.
Proof.
  intros Hv Hf. split; [|done]. unfold stx_verify. simpl. rewrite Hv. simpl.
  rewrite bool_decide_eq_true_2 by (by rewrite Hf). simpl. by rewrite verify_sign.
Qed.

(** The signature is not part of what is hashed. *)
Lemma header_hash_set_signature h s : header_hash (set_signature h s) = header_hash h.
Proof. done. Qed.

(** Header signatures. *)
Theorem header_sign_then_verify h kp s :
  hdr_validator_pubkey h = public_key kp →
  verify_signature (header_sign h kp) = Ok () ∧ header_hash (header_sign h kp) = header_hash h ∧
  header_sign (set_signature h s) kp = header_sign h kp.
Proof.
  intros Hk. split; [|done]. unfold verify_signature, header_sign.
  rewrite header_hash_set_signature. simpl. by rewrite Hk, verify_sign.
Qed.

Lemma verify_all_ok i txs : verify_all i txs = Ok () ↔ Forall (λ t, stx_verify t = Ok ()) txs.
Proof.
  revert i. induction txs as [|t txs IH]; intros i; simpl; [by split; constructor|].
  rewrite Forall_cons. destruct (stx_verify t) as [[]|e]; simpl; [rewrite IH; naive_solver|naive_solver].
Qed.

(** Block_validate_basic accepts exactly the blocks with the protocol version,
    bounded extra data and transaction count, gas used within the limit, a proposer address
    matching its key, the Merkle root of their transactions, and only verified transactions.
    *)
Theorem block_validate_basic_ok b :
  let h := blk_header b in
  block_validate_basic b = Ok () ↔
  hdr_version h = PROTOCOL_VERSION ∧ lenZ (hdr_extra_data h) ≤ MAX_EXTRA_DATA_SIZE ∧
  hdr_gas_used h ≤ hdr_gas_limit h ∧ to_address (hdr_validator_pubkey h) = hdr_validator h ∧
  lenZ (blk_transactions b) ≤ MAX_BLOCK_TRANSACTIONS ∧
  compute_transactions_root b = hdr_transactions_root h ∧
  Forall (λ t, stx_verify t = Ok ()) (blk_transactions b).
Proof.
  intros h. unfold block_validate_basic, header_validate_basic. fold h. rewrite <- (verify_all_ok 0).
  destruct (hdr_version h =? PROTOCOL_VERSION) eqn:E1; simpl; zbool; [|split; [done|intros (?&_); congruence]].
  destruct (MAX_EXTRA_DATA_SIZE <? _) eqn:E2; simpl; zbool; [split; [done|lia]|].
  destruct (hdr_gas_limit h <? _) eqn:E3; simpl; zbool; [split; [done|lia]|].
  destruct (bool_decide (to_address _ = _)) eqn:E4; simpl; zbool; [|split; [done|intros (_&_&_&?&_); congruence]].
  destruct (MAX_BLOCK_TRANSACTIONS <? _) eqn:E5; simpl; zbool; [split; [done|lia]|].
  destruct (bool_decide (compute_transactions_root _ = _)) eqn:E6; simpl; zbool; [|split; [done|intros (_&_&_&_&_&?&_); congruence]].
  split; [by intros ?; repeat split|by intros (_&_&_&_&_&_&?)].
Qed.
End CoreProperties.
