(* ===== verification/Validators.v ===== *)
(** * Validators: validator sets, epochs, genesis and receipts
    (crates/core: validator.rs, epoch.rs, genesis.rs, receipt.rs)

    [ValidatorSet] with its quorum arithmetic, the genesis configuration and
    its validation, and the records the consensus crate passes around.  The
    main result is quorum intersection. *)

From S2P Require Import Prelude Crypto Merkle CoreTypes.

(** ** validator.rs *)
Record ValidatorInfo : Type := {
  vi_address : Address;
  vi_public_key : PublicKey;
  vi_stake : Z;
  vi_is_active : bool;
  vi_commission_rate : Z;
  vi_jailed_until : option Z;
  vi_slash_count : Z;
  vi_uptime_blocks : Z;
  vi_total_blocks : Z
}.
#[export] Instance validator_info_eq_dec : EqDecision ValidatorInfo.
Proof. solve_decision. Defined.

Record ValidatorSet : Type := {
  vs_validators : list ValidatorInfo;
  vs_total_stake : Z;
  vs_min_stake : Z;
  vs_max_validators : Z
}.
#[export] Instance validator_set_eq_dec : EqDecision ValidatorSet.
Proof. solve_decision. Defined.

Definition ValidatorInfo_new (address : Address) (pk : PublicKey) (stake : Z) : ValidatorInfo := {|
  vi_address := address; vi_public_key := pk; vi_stake := stake; vi_is_active := true;
  vi_commission_rate := 0; vi_jailed_until := None; vi_slash_count := 0;
  vi_uptime_blocks := 0; vi_total_blocks := 0 |}.

(** Field updates of a [&mut ValidatorInfo]. *)
Definition vi_set_stake (v : ValidatorInfo) (s : Z) : ValidatorInfo := {|
  vi_address := vi_address v; vi_public_key := vi_public_key v; vi_stake := s;
  vi_is_active := vi_is_active v; vi_commission_rate := vi_commission_rate v;
  vi_jailed_until := vi_jailed_until v; vi_slash_count := vi_slash_count v;
  vi_uptime_blocks := vi_uptime_blocks v; vi_total_blocks := vi_total_blocks v |}.
Definition vi_set_active (v : ValidatorInfo) (b : bool) : ValidatorInfo := {|
  vi_address := vi_address v; vi_public_key := vi_public_key v; vi_stake := vi_stake v;
  vi_is_active := b; vi_commission_rate := vi_commission_rate v;
  vi_jailed_until := vi_jailed_until v; vi_slash_count := vi_slash_count v;
  vi_uptime_blocks := vi_uptime_blocks v; vi_total_blocks := vi_total_blocks v |}.
Definition vi_set_jailed (v : ValidatorInfo) (j : option Z) : ValidatorInfo := {|
  vi_address := vi_address v; vi_public_key := vi_public_key v; vi_stake := vi_stake v;
  vi_is_active := vi_is_active v; vi_commission_rate := vi_commission_rate v;
  vi_jailed_until := j; vi_slash_count := vi_slash_count v;
  vi_uptime_blocks := vi_uptime_blocks v; vi_total_blocks := vi_total_blocks v |}.
Definition vi_set_slash_count (v : ValidatorInfo) (n : Z) : ValidatorInfo := {|
  vi_address := vi_address v; vi_public_key := vi_public_key v; vi_stake := vi_stake v;
  vi_is_active := vi_is_active v; vi_commission_rate := vi_commission_rate v;
  vi_jailed_until := vi_jailed_until v; vi_slash_count := n;
  vi_uptime_blocks := vi_uptime_blocks v; vi_total_blocks := vi_total_blocks v |}.

Definition is_jailed (v : ValidatorInfo) (current_time : Z) : bool :=
  match vi_jailed_until v with Some until => current_time <? until | None => false end.

(** [validators.iter().filter(|v| v.is_active).map(|v| v.stake).sum()] *)
Definition flagged_stake (l : list ValidatorInfo) : Z :=
  wsum 128 vi_stake (List.filter vi_is_active l).

Definition ValidatorSet_new (vs : list ValidatorInfo) (min_stake max_validators : Z) : ValidatorSet := {|
  vs_validators := vs; vs_total_stake := flagged_stake vs;
  vs_min_stake := min_stake; vs_max_validators := max_validators |}.

Definition is_votable (v : ValidatorInfo) : bool :=
  vi_is_active v && bool_decide (vi_jailed_until v = None).
Definition active_validators (s : ValidatorSet) : list ValidatorInfo :=
  List.filter is_votable (vs_validators s).
Definition get_validator (s : ValidatorSet) (addr : Address) : option ValidatorInfo :=
  List.find (λ v, bool_decide (vi_address v = addr)) (vs_validators s).

(** Mutation through [get_validator_mut]: the first entry with the address. *)
Fixpoint update_first (addr : Address) (f : ValidatorInfo → ValidatorInfo) (l : list ValidatorInfo)
    : list ValidatorInfo :=
  match l with
  | [] => []
  | v :: l' => if bool_decide (vi_address v = addr) then f v :: l' else v :: update_first addr f l'
  end.
Definition set_validators (s : ValidatorSet) (l : list ValidatorInfo) : ValidatorSet := {|
  vs_validators := l; vs_total_stake := vs_total_stake s;
  vs_min_stake := vs_min_stake s; vs_max_validators := vs_max_validators s |}.
Definition get_validator_mut (s : ValidatorSet) (addr : Address) (f : ValidatorInfo → ValidatorInfo)
    : ValidatorSet :=
  set_validators s (update_first addr f (vs_validators s)).

Definition total_active_stake (s : ValidatorSet) : Z := wsum 128 vi_stake (active_validators s).
Definition is_validator (s : ValidatorSet) (addr : Address) : bool :=
  existsb (λ v, bool_decide (vi_address v = addr)) (active_validators s).
Definition quorum_threshold (s : ValidatorSet) : Z := div_ceil (total_active_stake s *!! 2) 3.
Definition recalculate_total_stake (s : ValidatorSet) : ValidatorSet := {|
  vs_validators := vs_validators s; vs_total_stake := flagged_stake (vs_validators s);
  vs_min_stake := vs_min_stake s; vs_max_validators := vs_max_validators s |}.

(** ** epoch.rs *)
Record EpochInfo : Type := {
  ep_epoch_number : Z;
  ep_start_block : Z;
  ep_end_block : Z;
  ep_validator_set : ValidatorSet;
  ep_finalized_block : option Z
}.
Definition contains_block (e : EpochInfo) (n : Z) : bool :=
  (ep_start_block e <=? n) && (n <=? ep_end_block e).
Definition is_last_block (e : EpochInfo) (n : Z) : bool := n =? ep_end_block e.
Definition set_validator_set (e : EpochInfo) (s : ValidatorSet) : EpochInfo := {|
  ep_epoch_number := ep_epoch_number e; ep_start_block := ep_start_block e;
  ep_end_block := ep_end_block e; ep_validator_set := s;
  ep_finalized_block := ep_finalized_block e |}.

(** ** genesis.rs *)
Record ConsensusParams : Type := {
  cp_block_time_ms : Z;
  cp_epoch_length : Z;
  cp_min_validators : Z;
  cp_max_validators : Z;
  cp_slash_fraction_double_sign : Z;
  cp_slash_fraction_downtime : Z;
  cp_downtime_jail_duration_ms : Z;
  cp_min_stake : Z;
  cp_unbonding_period_epochs : Z;
  cp_max_missed_blocks : Z;
  cp_signed_blocks_window : Z
}.
Definition ConsensusParams_default : ConsensusParams := {|
  cp_block_time_ms := 5000; cp_epoch_length := 100; cp_min_validators := 1;
  cp_max_validators := 100; cp_slash_fraction_double_sign := 500;
  cp_slash_fraction_downtime := 100; cp_downtime_jail_duration_ms := 600000;
  cp_min_stake := 1000000000000000000; cp_unbonding_period_epochs := 10;
  cp_max_missed_blocks := 50; cp_signed_blocks_window := 100 |}.

Record GenesisValidator : Type := { gv_address : Address; gv_public_key : PublicKey; gv_stake : Z }.
Record GenesisAccount : Type := { ga_address : Address; ga_balance : Z }.
Record GenesisConfig : Type := {
  gc_chain_id : Z;
  gc_chain_name : string;
  gc_timestamp : Z;
  gc_initial_validators : list GenesisValidator;
  gc_initial_accounts : list GenesisAccount;
  gc_consensus_params : ConsensusParams;
  gc_gas_limit : Z
}.

Section Genesis.
Context `{CryptoPrims}.

Fixpoint check_stakes (min_stake : Z) (l : list GenesisValidator) : result CoreError () :=
  match l with
  | [] => Ok ()
  | v :: l' =>
      if gv_stake v <? min_stake then
        Err (GenesisError ("validator " +:+ Address_to_hex (gv_address v) +:+
          " has insufficient stake: " +:+ z_str (gv_stake v) +:+ " < " +:+ z_str min_stake))
      else check_stakes min_stake l'
  end.

Definition genesis_validate (g : GenesisConfig) : result CoreError () :=
  let cp := gc_consensus_params g in
  match gc_initial_validators g with
  | [] => Err (GenesisError "genesis must have at least one validator")
  | _ :: _ =>
      if lenZ (gc_initial_validators g) <? cp_min_validators cp then
        Err (GenesisError ("need at least " +:+ z_str (cp_min_validators cp) +:+
          " validators, got " +:+ z_str (lenZ (gc_initial_validators g))))
      else
        _ ← check_stakes (cp_min_stake cp) (gc_initial_validators g);
        if gc_gas_limit g =? 0 then Err (GenesisError "gas limit must be > 0") else Ok ()
  end.

(** [None] is the panic of [initial_validators[0]] on an empty list. *)
Definition to_genesis_block (g : GenesisConfig) : option Block :=
  match gc_initial_validators g with
  | [] => None
  | first :: _ => Some (Block_genesis (gc_chain_id g) (gc_timestamp g) (gv_address first)
      (gv_public_key first) (gc_gas_limit g)
      (b_ ("rustchain genesis: " +:+ gc_chain_name g)))
  end.

Definition to_validator_infos (g : GenesisConfig) : list ValidatorInfo :=
  (λ gv, ValidatorInfo_new (gv_address gv) (gv_public_key gv) (gv_stake gv))
    <$> gc_initial_validators g.

(** [devnet_default], given the generated key and the clock. *)
Definition devnet_default (kp : KeyPair) (now : Z) : GenesisConfig := {|
  gc_chain_id := 9999; gc_chain_name := "rustchain-devnet"; gc_timestamp := now;
  gc_initial_validators := [{| gv_address := KeyPair_address kp;
    gv_public_key := public_key kp; gv_stake := 10000000000000000000 |}];
  gc_initial_accounts := [{| ga_address := KeyPair_address kp;
    ga_balance := 1000000000000000000000 |}];
  gc_consensus_params := ConsensusParams_default;
  gc_gas_limit := 10000000 |}.
End Genesis.

(** ** receipt.rs *)
Inductive TxStatus := TxSuccess | TxFailure (msg : string) | TxOutOfGas.
#[export] Instance tx_status_eq_dec : EqDecision TxStatus.
Proof. solve_decision. Defined.
Record EventLog : Type := { log_address : Address; log_topics : list Blake3Hash; log_data : bytes }.
#[export] Instance event_log_eq_dec : EqDecision EventLog.
Proof. solve_decision. Defined.
Record TransactionReceipt : Type := {
  rc_tx_hash : Blake3Hash;
  rc_block_number : Z;
  rc_block_hash : Blake3Hash;
  rc_index : Z;
  rc_status : TxStatus;
  rc_gas_used : Z;
  rc_logs : list EventLog;
  rc_contract_address : option Address;
  rc_return_data : bytes
}.
Definition is_success (r : TransactionReceipt) : bool := bool_decide (rc_status r = TxSuccess).

(** ** Lemmas on validator lists *)
Section ValidatorLists.
Implicit Types (l : list ValidatorInfo) (s : ValidatorSet).

Definition stakes_ok l : Prop := Forall (λ v, 0 ≤ vi_stake v) l.

Lemma active_sublist s v : v ∈ active_validators s → v ∈ vs_validators s.
Proof. unfold active_validators. rewrite !list_elem_of_In, List.filter_In. naive_solver. Qed.

Lemma is_validator_true s a :
  is_validator s a = true ↔ ∃ v, v ∈ active_validators s ∧ vi_address v = a.
Proof.
  unfold is_validator. rewrite existsb_exists. split.
  - intros (v & Hv & Ha). zbool. exists v. by rewrite list_elem_of_In.
  - intros (v & Hv & Ha). exists v. rewrite <- list_elem_of_In. split; [done|].
    by apply bool_decide_eq_true_2.
Qed.

Lemma get_validator_Some s a v :
  get_validator s a = Some v → v ∈ vs_validators s ∧ vi_address v = a.
Proof. intros [? ?]%find_some. zbool. by rewrite list_elem_of_In. Qed.

Lemma update_first_addresses a f l :
  (∀ v, vi_address (f v) = vi_address v) → vi_address <$> update_first a f l = vi_address <$> l.
Proof.
  intros Hf. induction l as [|v l IH]; csimpl; [done|].
  case_bool_decide; csimpl; [by rewrite Hf|by rewrite IH].
Qed.

Lemma find_update_first a f l v :
  (∀ v, vi_address (f v) = vi_address v) →
  List.find (λ v, bool_decide (vi_address v = a)) l = Some v →
  List.find (λ v, bool_decide (vi_address v = a)) (update_first a f l) = Some (f v).
Proof.
  intros Hf. induction l as [|w l IH]; simpl; [done|].
  destruct (bool_decide (vi_address w = a)) eqn:E; simpl.
  - intros [= ->]. by rewrite Hf, E.
  - rewrite E. apply IH.
Qed.

Lemma sum_update_first (g : ValidatorInfo → Z) a f l v :
  List.find (λ v, bool_decide (vi_address v = a)) l = Some v →
  sumZ g (update_first a f l) = sumZ g l - g v + g (f v).
Proof.
  induction l as [|w l IH]; simpl; [done|].
  destruct (bool_decide (vi_address w = a)); simpl.
  - intros [= ->]. lia.
  - intros Hf. rewrite (IH Hf). lia.
Qed.

(** The stake of the active validators whose address is in [A]. *)
Definition stake_in s (A : gset Address) : Z :=
  sumZ (λ v, if bool_decide (vi_address v ∈ A) then vi_stake v else 0) (active_validators s).

Lemma stake_in_union s A B :
  stake_in s A + stake_in s B = stake_in s (A ∪ B) + stake_in s (A ∩ B).
Proof.
  unfold stake_in. rewrite <- !sumZ_add. apply sumZ_ext. intros v _.
  destruct (decide (vi_address v ∈ A)), (decide (vi_address v ∈ B));
    repeat case_bool_decide; set_solver || lia.
Qed.
Lemma stake_in_le_total s A :
  stakes_ok (vs_validators s) → stake_in s A ≤ sumZ vi_stake (active_validators s).
Proof.
  unfold stakes_ok. rewrite Forall_forall. intros Hs. apply sumZ_mono. intros v Hv.
  assert (0 ≤ vi_stake v) by (by apply Hs, active_sublist). case_bool_decide; lia.
Qed.

(** The stake fits twice in a [u128], so that [total * 2] does not wrap. *)
Definition quorum_fits s : Prop :=
  stakes_ok (vs_validators s) ∧ 2 * sumZ vi_stake (active_validators s) < 2 ^ 128.

Lemma active_stake_nonneg s : stakes_ok (vs_validators s) → 0 ≤ sumZ vi_stake (active_validators s).
Proof.
  unfold stakes_ok. rewrite Forall_forall. intros Hs.
  apply sumZ_nonneg. intros v Hv. by apply Hs, active_sublist.
Qed.

Lemma total_active_stake_exact s :
  quorum_fits s → total_active_stake s = sumZ vi_stake (active_validators s).
Proof.
  intros [Hs Hf]. pose proof (active_stake_nonneg s Hs).
  unfold total_active_stake. apply wsum_small; [lia|]. unfold in_u. lia.
Qed.

Lemma quorum_threshold_spec s :
  quorum_fits s →
  2 * sumZ vi_stake (active_validators s) ≤ 3 * quorum_threshold s <
  2 * sumZ vi_stake (active_validators s) + 3.
Proof.
  intros Hq. unfold quorum_threshold. rewrite total_active_stake_exact by done.
  destruct Hq as [Hs Hf]. pose proof (active_stake_nonneg s Hs).
  rewrite wmul_small by (unfold in_u; lia).
  pose proof (div_ceil_spec (sumZ vi_stake (active_validators s) * 2) 3 ltac:(lia)). lia.
Qed.

(** Two quorums share at least a third of the active stake. *)
Lemma quorum_intersection s A B :
  quorum_fits s →
  quorum_threshold s ≤ stake_in s A → quorum_threshold s ≤ stake_in s B →
  total_active_stake s ≤ 3 * stake_in s (A ∩ B).
Proof.
  intros Hq HA HB. pose proof (quorum_threshold_spec s Hq).
  rewrite total_active_stake_exact by done. destruct Hq as [Hs Hf].
  pose proof (stake_in_union s A B). pose proof (stake_in_le_total s (A ∪ B) Hs). lia.
Qed.

(** A set with at least a third of the stake missing is below the quorum. *)
Lemma quorum_needs_two_thirds s A :
  quorum_fits s → quorum_threshold s ≤ stake_in s A →
  2 * total_active_stake s ≤ 3 * stake_in s A.
Proof.
  intros Hq HA. pose proof (quorum_threshold_spec s Hq).
  rewrite total_active_stake_exact by done. lia.
Qed.
End ValidatorLists.

Section GenesisProperties.
Context `{CryptoPrims}.

Lemma check_stakes_ok m l : check_stakes m l = Ok () ↔ Forall (λ v, m ≤ gv_stake v) l.
Proof.
  induction l as [|v l IH]; simpl; [by split; constructor|].
  destruct (gv_stake v <? m) eqn:E; zbool.
  - split; [done|]. intros Hf. inversion Hf. lia.
  - rewrite IH. split; [by constructor|]. by inversion 1.
Qed.

(** What [validate] accepts. *)
Theorem genesis_validate_ok g :
  genesis_validate g = Ok () ↔
    gc_initial_validators g ≠ [] ∧
    cp_min_validators (gc_consensus_params g) ≤ lenZ (gc_initial_validators g) ∧
    Forall (λ v, cp_min_stake (gc_consensus_params g) ≤ gv_stake v) (gc_initial_validators g) ∧
    gc_gas_limit g ≠ 0.
Proof.
  unfold genesis_validate. destruct (gc_initial_validators g) as [|v l] eqn:Ev; [naive_solver|].
  rewrite <- check_stakes_ok.
  destruct (lenZ (v :: l) <? _) eqn:E1; zbool; [split; [done|intros (?&?&?&?); lia]|].
  destruct (check_stakes _ _) as [[]|e]; simpl; [|split; [done|naive_solver]].
  destruct (gc_gas_limit g =? 0) eqn:E2; zbool; naive_solver.
Qed.
End GenesisProperties.
