(* ===== verification/Storage.v ===== *)
(** * Storage: the chain database (crates/storage)

    RocksDB is the class [RocksDB] (a state type with the calls the crate
    makes) and its documented behaviour [RocksDBLaws].  On top of it the code
    of db.rs, block_store.rs, state_store.rs, tx_store.rs, validator_store.rs
    and batch.rs.  [ChainStore] is the interface the consensus crate uses, with
    its laws; [rocks_store] discharges it, and [MemStore] is the abstract
    specification of the same interface as typed maps. *)

From S2P Require Import Prelude Crypto Merkle CoreTypes Validators.

(** ** error.rs *)
Inductive StorageError : Type :=
| DatabaseError (msg : string)
| SerializationError (msg : string)
| DeserializationError (msg : string)
| NotFound (msg : string)
| ColumnFamilyNotFound (name : string)
| SchemaMismatch (expected actual : Z)
| Corruption (msg : string)
| IoError (msg : string).

Definition storage_error_display (e : StorageError) : string :=
  match e with
  | DatabaseError m => "database error: " +:+ m
  | SerializationError m => "serialization error: " +:+ m
  | DeserializationError m => "deserialization error: " +:+ m
  | NotFound m => "key not found: " +:+ m
  | ColumnFamilyNotFound m => "column family not found: " +:+ m
  | SchemaMismatch e a => "schema version mismatch: expected " +:+ z_str e +:+ ", got " +:+ z_str a
  | Corruption m => "corruption detected: " +:+ m
  | IoError m => "io error: " +:+ m
  end.

(** ** columns.rs *)
Definition CF_BLOCKS : string := "blocks".
Definition CF_BLOCK_HASHES : string := "block_hashes".
Definition CF_TRANSACTIONS : string := "transactions".
Definition CF_TX_INDEX : string := "tx_index".
Definition CF_ACCOUNTS : string := "accounts".
Definition CF_RECEIPTS : string := "receipts".
Definition CF_VALIDATORS : string := "validators".
Definition CF_EPOCHS : string := "epochs".
Definition CF_CONTRACTS : string := "contracts".
Definition CF_CONTRACT_STORAGE : string := "contract_storage".
Definition CF_META : string := "meta".
Definition CF_ALL : list string :=
  [CF_BLOCKS; CF_BLOCK_HASHES; CF_TRANSACTIONS; CF_TX_INDEX; CF_ACCOUNTS; CF_RECEIPTS;
   CF_VALIDATORS; CF_EPOCHS; CF_CONTRACTS; CF_CONTRACT_STORAGE; CF_META].
Definition CHAIN_HEIGHT : bytes := b_ "chain_height".
Definition BEST_BLOCK_HASH : bytes := b_ "best_block_hash".
Definition SCHEMA_VERSION : bytes := b_ "schema_version".
Definition GENESIS_HASH : bytes := b_ "genesis_hash".
Definition CURRENT_SCHEMA_VERSION : Z := 1.

(** ** RocksDB (third party) *)
Inductive BatchOp := BPut (cf : string) (k v : bytes) | BDelete (cf : string) (k : bytes).

Class RocksDB (D : Type) := {
  rdb_cf_handle : D → string → bool;
  rdb_get : D → string → bytes → result string (option bytes);
  rdb_put : D → string → bytes → bytes → result string D;
  rdb_delete : D → string → bytes → result string D;
  rdb_write : D → list BatchOp → result string D
}.

(** What a sequence of writes leaves at a key: [None] when it does not touch
    the key, otherwise the value of its last write there. *)
Definition op_at (op : BatchOp) (c : string) (k : bytes) : option (option bytes) :=
  match op with
  | BPut c' k' v => if bool_decide (c' = c ∧ k' = k) then Some (Some v) else None
  | BDelete c' k' => if bool_decide (c' = c ∧ k' = k) then Some None else None
  end.
Fixpoint batch_at (ops : list BatchOp) (c : string) (k : bytes) : option (option bytes) :=
  match ops with
  | [] => None
  | op :: ops' =>
      match batch_at ops' c k with Some r => Some r | None => op_at op c k end
  end.
Definition over {A} (w : option A) (old : result string A) : result string A :=
  match w with Some r => Ok r | None => old end.

(** Documented behaviour: a successful write is visible to later reads, a
    batch is applied atomically and in order, and nothing else changes. *)
Class RocksDBLaws (D : Type) `{RocksDB D} : Prop := {
  rdb_put_get d d' c k v : rdb_put d c k v = Ok d' →
    ∀ c' k', rdb_get d' c' k' = over (op_at (BPut c k v) c' k') (rdb_get d c' k');
  rdb_delete_get d d' c k : rdb_delete d c k = Ok d' →
    ∀ c' k', rdb_get d' c' k' = over (op_at (BDelete c k) c' k') (rdb_get d c' k');
  rdb_write_get d d' ops : rdb_write d ops = Ok d' →
    ∀ c' k', rdb_get d' c' k' = over (batch_at ops c' k') (rdb_get d c' k');
  rdb_put_cf d d' c k v : rdb_put d c k v = Ok d' → ∀ c', rdb_cf_handle d' c' = rdb_cf_handle d c';
  rdb_delete_cf d d' c k : rdb_delete d c k = Ok d' → ∀ c', rdb_cf_handle d' c' = rdb_cf_handle d c';
  rdb_write_cf d d' ops : rdb_write d ops = Ok d' → ∀ c', rdb_cf_handle d' c' = rdb_cf_handle d c'
}.

(** ** db.rs *)
Definition encode_block_number (n : Z) : bytes := to_be_bytes 8 n.
Definition decode_block_number (bs : bytes) : result StorageError Z :=
  if negb (length bs =? 8)%nat then
    Err (DeserializationError ("expected 8 bytes for block number, got " +:+ nat_str (length bs)))
  else Ok (from_be_bytes bs).
Definition contract_storage_key (address : Address) (key : bytes) : bytes := ba_bytes address ++ key.

(** A [u32] and a [(u64, u32)] as bincode values of their own. *)
Record U32 : Type := { u32_val : Z }.

Section Database.
Context {D : Type} `{RocksDB D}.
Implicit Types d : D.

Definition cf_handle d (name : string) : result StorageError () :=
  if rdb_cf_handle d name then Ok () else Err (ColumnFamilyNotFound name).
Definition get_cf d (cf_name : string) (key : bytes) : result StorageError (option bytes) :=
  _ ← cf_handle d cf_name; map_err DatabaseError (rdb_get d cf_name key).
Definition put_cf d (cf_name : string) (key value : bytes) : result StorageError D :=
  _ ← cf_handle d cf_name; map_err DatabaseError (rdb_put d cf_name key value).
Definition delete_cf d (cf_name : string) (key : bytes) : result StorageError D :=
  _ ← cf_handle d cf_name; map_err DatabaseError (rdb_delete d cf_name key).
Definition write_batch d (batch : list BatchOp) : result StorageError D :=
  map_err DatabaseError (rdb_write d batch).

(** The [match self.get_cf(..)? { Some(bytes) => bincode::deserialize .. }]
    shared by the typed getters. *)
Definition get_typed {A} `{Bincode A} d (cf_name : string) (key : bytes)
    : result StorageError (option A) :=
  r ← get_cf d cf_name key;
  match r with
  | Some bs => x ← map_err DeserializationError (bincode_de bs); Ok (Some x)
  | None => Ok None
  end.

Definition check_or_set_schema_version `{Bincode U32} d : result StorageError D :=
  r ← get_cf d CF_META SCHEMA_VERSION;
  match r with
  | Some bs =>
      version ← map_err DeserializationError (bincode_de bs);
      if negb (u32_val version =? CURRENT_SCHEMA_VERSION) then
        Err (SchemaMismatch CURRENT_SCHEMA_VERSION (u32_val version))
      else Ok d
  | None => put_cf d CF_META SCHEMA_VERSION (bincode_ser {| u32_val := CURRENT_SCHEMA_VERSION |})
  end.

(** *** block_store.rs *)
Context `{CryptoPrims} `{Bincode BlockHeader} `{Bincode Block} `{Bincode Z}.

(** The two puts of a block, shared by [put_block] and the commit batch. *)
Definition block_puts (b : Block) : list BatchOp :=
  let number_key := encode_block_number (hdr_number (blk_header b)) in
  [BPut CF_BLOCKS number_key (bincode_ser b);
   BPut CF_BLOCK_HASHES (ba_bytes (block_hash b)) number_key].
Definition put_block d (b : Block) : result StorageError D :=
  _ ← cf_handle d CF_BLOCKS;
  _ ← cf_handle d CF_BLOCK_HASHES;
  write_batch d (block_puts b).
Definition get_block_by_number d (number : Z) : result StorageError (option Block) :=
  get_typed d CF_BLOCKS (encode_block_number number).
Definition get_block_by_hash d (h : Blake3Hash) : result StorageError (option Block) :=
  r ← get_cf d CF_BLOCK_HASHES (ba_bytes h);
  match r with
  | Some bs =>
      if negb (length bs =? 8)%nat then Err (DeserializationError "invalid block number")
      else get_block_by_number d (from_be_bytes bs)
  | None => Ok None
  end.
Definition get_chain_height d : result StorageError (option Z) := get_typed d CF_META CHAIN_HEIGHT.
Definition set_chain_height d (height : Z) : result StorageError D :=
  put_cf d CF_META CHAIN_HEIGHT (bincode_ser height).
Definition get_latest_block d : result StorageError (option Block) :=
  h ← get_chain_height d;
  match h with Some height => get_block_by_number d height | None => Ok None end.
Definition set_genesis_hash d (h : Blake3Hash) : result StorageError D :=
  put_cf d CF_META GENESIS_HASH (ba_bytes h).
Definition get_genesis_hash d : result StorageError (option Blake3Hash) :=
  r ← get_cf d CF_META GENESIS_HASH;
  match r with
  | Some bs =>
      match ba_try bs with
      | Some a => Ok (Some a)
      | None => Err (DeserializationError "invalid hash length")
      end
  | None => Ok None
  end.

(** *** state_store.rs *)
Context `{Bincode Account}.
Definition get_account d (a : Address) : result StorageError (option Account) :=
  get_typed d CF_ACCOUNTS (ba_bytes a).
Definition put_account d (acc : Account) : result StorageError D :=
  put_cf d CF_ACCOUNTS (ba_bytes (acc_address acc)) (bincode_ser acc).
Definition db_get_balance d (a : Address) : result StorageError Z :=
  r ← get_account d a; Ok (default 0 (acc_balance <$> r)).
Definition db_get_nonce d (a : Address) : result StorageError Z :=
  r ← get_account d a; Ok (default 0 (acc_nonce <$> r)).
Definition get_contract_storage d (a : Address) (key : bytes) : result StorageError (option bytes) :=
  get_cf d CF_CONTRACT_STORAGE (contract_storage_key a key).
Definition put_contract_storage d (a : Address) (key value : bytes) : result StorageError D :=
  put_cf d CF_CONTRACT_STORAGE (contract_storage_key a key) value.
Definition delete_contract_storage d (a : Address) (key : bytes) : result StorageError D :=
  delete_cf d CF_CONTRACT_STORAGE (contract_storage_key a key).
Definition put_contract_code d (code_hash : Blake3Hash) (code : bytes) : result StorageError D :=
  put_cf d CF_CONTRACTS (ba_bytes code_hash) code.
Definition get_contract_code d (code_hash : Blake3Hash) : result StorageError (option bytes) :=
  get_cf d CF_CONTRACTS (ba_bytes code_hash).

(** *** tx_store.rs *)
Context `{Bincode SignedTransaction} `{Bincode (Z * U32)} `{Bincode TransactionReceipt}.
Definition put_transaction d (t : SignedTransaction) : result StorageError D :=
  put_cf d CF_TRANSACTIONS (ba_bytes (stx_tx_hash t)) (bincode_ser t).
Definition put_tx_index d (h : Blake3Hash) (block_number tx_index : Z) : result StorageError D :=
  put_cf d CF_TX_INDEX (ba_bytes h) (bincode_ser (block_number, {| u32_val := tx_index |})).
Definition get_transaction d (h : Blake3Hash) : result StorageError (option SignedTransaction) :=
  get_typed d CF_TRANSACTIONS (ba_bytes h).
Definition get_tx_location d (h : Blake3Hash) : result StorageError (option (Z * U32)) :=
  get_typed d CF_TX_INDEX (ba_bytes h).
Definition put_receipt d (r : TransactionReceipt) : result StorageError D :=
  put_cf d CF_RECEIPTS (ba_bytes (rc_tx_hash r)) (bincode_ser r).
Definition get_receipt d (h : Blake3Hash) : result StorageError (option TransactionReceipt) :=
  get_typed d CF_RECEIPTS (ba_bytes h).

(** *** validator_store.rs *)
Context `{Bincode ValidatorInfo} `{Bincode EpochInfo}.
Definition put_validator d (v : ValidatorInfo) : result StorageError D :=
  put_cf d CF_VALIDATORS (ba_bytes (vi_address v)) (bincode_ser v).
Definition db_get_validator d (a : Address) : result StorageError (option ValidatorInfo) :=
  get_typed d CF_VALIDATORS (ba_bytes a).
Definition put_epoch d (e : EpochInfo) : result StorageError D :=
  put_cf d CF_EPOCHS (encode_block_number (ep_epoch_number e)) (bincode_ser e).
Definition get_epoch d (n : Z) : result StorageError (option EpochInfo) :=
  get_typed d CF_EPOCHS (encode_block_number n).

(** *** batch.rs: [BlockCommitBatch], a batch under construction *)
Definition batch_put_block d (batch : list BatchOp) (b : Block) : result StorageError (list BatchOp) :=
  _ ← cf_handle d CF_BLOCKS;
  _ ← cf_handle d CF_BLOCK_HASHES;
  Ok (batch ++ block_puts b).
Definition tx_puts (block_number : Z) (i : nat) (t : SignedTransaction) : list BatchOp :=
  [BPut CF_TRANSACTIONS (ba_bytes (stx_tx_hash t)) (bincode_ser t);
   BPut CF_TX_INDEX (ba_bytes (stx_tx_hash t))
     (bincode_ser (block_number, {| u32_val := as_u 32 (Z.of_nat i) |}))].
Definition batch_put_transactions d (batch : list BatchOp) (txs : list SignedTransaction)
    (block_number : Z) : result StorageError (list BatchOp) :=
  _ ← cf_handle d CF_TRANSACTIONS;
  _ ← cf_handle d CF_TX_INDEX;
  Ok (batch ++ mjoin (imap (tx_puts block_number) txs)).
Definition batch_put_receipts d (batch : list BatchOp) (rs : list TransactionReceipt)
    : result StorageError (list BatchOp) :=
  _ ← cf_handle d CF_RECEIPTS;
  Ok (batch ++ ((λ r, BPut CF_RECEIPTS (ba_bytes (rc_tx_hash r)) (bincode_ser r)) <$> rs)).
Definition account_puts (accounts : list Account) : list BatchOp :=
  (λ a, BPut CF_ACCOUNTS (ba_bytes (acc_address a)) (bincode_ser a)) <$> accounts.
Definition batch_update_accounts d (batch : list BatchOp) (accounts : list Account)
    : result StorageError (list BatchOp) :=
  _ ← cf_handle d CF_ACCOUNTS; Ok (batch ++ account_puts accounts).
Definition batch_set_chain_height d (batch : list BatchOp) (height : Z)
    : result StorageError (list BatchOp) :=
  _ ← cf_handle d CF_META; Ok (batch ++ [BPut CF_META CHAIN_HEIGHT (bincode_ser height)]).
Definition batch_set_best_block_hash d (batch : list BatchOp) (h : Blake3Hash)
    : result StorageError (list BatchOp) :=
  _ ← cf_handle d CF_META; Ok (batch ++ [BPut CF_META BEST_BLOCK_HASH (ba_bytes h)]).
Definition batch_commit d (batch : list BatchOp) : result StorageError D := write_batch d batch.

(** The batch [apply_block] builds and commits, in its order. *)
Definition commit_block d (b : Block) (rs : list TransactionReceipt) (accounts : list Account)
    : result StorageError D :=
  let n := hdr_number (blk_header b) in
  batch ← batch_put_block d [] b;
  batch ← batch_put_transactions d batch (blk_transactions b) n;
  batch ← batch_put_receipts d batch rs;
  batch ← batch_update_accounts d batch accounts;
  batch ← batch_set_chain_height d batch n;
  batch ← batch_set_best_block_hash d batch (block_hash b);
  batch_commit d batch.
End Database.

(** ** The interface the consensus crate relies on *)
Class ChainStore (D : Type) := {
  cs_get_account : D → Address → result StorageError (option Account);
  cs_put_account : D → Account → result StorageError D;
  cs_get_storage : D → Address → bytes → result StorageError (option bytes);
  cs_put_storage : D → Address → bytes → bytes → result StorageError D;
  cs_delete_storage : D → Address → bytes → result StorageError D;
  cs_get_code : D → Blake3Hash → result StorageError (option bytes);
  cs_put_code : D → Blake3Hash → bytes → result StorageError D;
  cs_put_validator : D → ValidatorInfo → result StorageError D;
  cs_put_epoch : D → EpochInfo → result StorageError D;
  cs_put_block : D → Block → result StorageError D;
  cs_get_block_by_number : D → Z → result StorageError (option Block);
  cs_get_chain_height : D → result StorageError (option Z);
  cs_set_chain_height : D → Z → result StorageError D;
  cs_get_genesis_hash : D → result StorageError (option Blake3Hash);
  cs_set_genesis_hash : D → Blake3Hash → result StorageError D;
  cs_commit : D → Block → list TransactionReceipt → list Account → result StorageError D
}.

(** The last account of the list with the address, as the batch leaves it. *)
Definition last_account (accs : list Account) (a : Address) : option Account :=
  List.find (λ acc, bool_decide (acc_address acc = a)) (rev accs).

Class ChainStoreLaws (D : Type) `{ChainStore D} : Prop := {
  cs_commit_account d d' b rs accs a : cs_commit d b rs accs = Ok d' →
    cs_get_account d' a = match last_account accs a with
                          | Some acc => Ok (Some acc) | None => cs_get_account d a end;
  cs_commit_height d d' b rs accs : cs_commit d b rs accs = Ok d' →
    cs_get_chain_height d' = Ok (Some (hdr_number (blk_header b)));
  cs_commit_block d d' b rs accs : cs_commit d b rs accs = Ok d' →
    cs_get_block_by_number d' (hdr_number (blk_header b)) = Ok (Some b);
  cs_commit_storage d d' b rs accs a k : cs_commit d b rs accs = Ok d' →
    cs_get_storage d' a k = cs_get_storage d a k;
  cs_put_storage_get d d' a k v : cs_put_storage d a k v = Ok d' →
    ∀ a' k', cs_get_storage d' a' k' =
      if bool_decide ((a, k) = (a', k')) then Ok (Some v) else cs_get_storage d a' k';
  cs_delete_storage_get d d' a k : cs_delete_storage d a k = Ok d' →
    ∀ a' k', cs_get_storage d' a' k' =
      if bool_decide ((a, k) = (a', k')) then Ok None else cs_get_storage d a' k';
  cs_put_storage_account d d' a k v : cs_put_storage d a k v = Ok d' →
    ∀ a', cs_get_account d' a' = cs_get_account d a';
  cs_delete_storage_account d d' a k : cs_delete_storage d a k = Ok d' →
    ∀ a', cs_get_account d' a' = cs_get_account d a';
  cs_put_code_account d d' h c : cs_put_code d h c = Ok d' →
    ∀ a', cs_get_account d' a' = cs_get_account d a';
  cs_put_validator_account d d' v : cs_put_validator d v = Ok d' →
    ∀ a', cs_get_account d' a' = cs_get_account d a';
  cs_put_epoch_account d d' e : cs_put_epoch d e = Ok d' →
    ∀ a', cs_get_account d' a' = cs_get_account d a';
  cs_put_account_get d d' acc : cs_put_account d acc = Ok d' →
    ∀ a', cs_get_account d' a' =
      if bool_decide (acc_address acc = a') then Ok (Some acc) else cs_get_account d a'
}.

(** ** The database implements the interface *)
Section Implementation.
Context {D : Type} `{RocksDB D} `{CryptoPrims}.
Context `{Bincode BlockHeader} `{Bincode Block} `{Bincode Z} `{Bincode Account}
  `{Bincode SignedTransaction} `{Bincode (Z * U32)} `{Bincode TransactionReceipt}
  `{Bincode ValidatorInfo} `{Bincode EpochInfo}.

Definition rocks_store : ChainStore D := {|
  cs_get_account := get_account; cs_put_account := put_account;
  cs_get_storage := get_contract_storage; cs_put_storage := put_contract_storage;
  cs_delete_storage := delete_contract_storage;
  cs_get_code := get_contract_code; cs_put_code := put_contract_code;
  cs_put_validator := put_validator; cs_put_epoch := put_epoch;
  cs_put_block := put_block; cs_get_block_by_number := get_block_by_number;
  cs_get_chain_height := get_chain_height; cs_set_chain_height := set_chain_height;
  cs_get_genesis_hash := get_genesis_hash; cs_set_genesis_hash := set_genesis_hash;
  cs_commit := commit_block |}.

Lemma batch_at_app ops1 ops2 c k :
  batch_at (ops1 ++ ops2) c k =
  match batch_at ops2 c k with Some r => Some r | None => batch_at ops1 c k end.
Proof.
  induction ops1 as [|op ops1 IH]; simpl; [by destruct (batch_at ops2 c k)|].
  rewrite IH. by destruct (batch_at ops2 c k).
Qed.

Definition op_cf (op : BatchOp) : string := match op with BPut c _ _ | BDelete c _ => c end.
Lemma batch_at_other_cf ops c k : Forall (λ op, op_cf op ≠ c) ops → batch_at ops c k = None.
Proof.
  induction 1 as [|op ops Hop _ IH]; simpl; [done|]. rewrite IH.
  destruct op; simpl in *; case_bool_decide; naive_solver.
Qed.

Lemma tx_puts_cf n txs c :
  c ≠ CF_TRANSACTIONS → c ≠ CF_TX_INDEX →
  Forall (λ op, op_cf op ≠ c) (mjoin (imap (tx_puts n) txs)).
Proof.
  intros Hn1 Hn2. apply Forall_forall. intros op Hop.
  apply list_elem_of_join in Hop as (l & Hop & Hl).
  apply elem_of_lookup_imap in Hl as (i & t & -> & _).
  unfold tx_puts in Hop. set_unfold in Hop. destruct_or! Hop; subst op; simpl; congruence.
Qed.
Lemma receipt_puts_cf (rs : list TransactionReceipt) c :
  c ≠ CF_RECEIPTS → Forall (λ op, op_cf op ≠ c)
    ((λ r, BPut CF_RECEIPTS (ba_bytes (rc_tx_hash r)) (bincode_ser r)) <$> rs).
Proof. intros Hc. apply Forall_fmap, Forall_forall. simpl. congruence. Qed.
Lemma account_puts_cf accs c :
  c ≠ CF_ACCOUNTS → Forall (λ op, op_cf op ≠ c) (account_puts accs).
Proof. intros Hc. apply Forall_fmap, Forall_forall. simpl. congruence. Qed.

Lemma batch_at_account_puts accs a :
  batch_at (account_puts accs) CF_ACCOUNTS (ba_bytes a) =
  (λ acc, Some (bincode_ser acc)) <$> last_account accs a.
Proof.
  unfold last_account. induction accs as [|acc accs IH]; simpl; [done|].
  rewrite IH, find_app. simpl.
  destruct (List.find _ (rev accs)); simpl; [done|].
  case_bool_decide as Hd1; case_bool_decide as Hd2; try done.
  - destruct Hd1 as [_ Hd1]. apply barray_eq in Hd1. congruence.
  - exfalso. apply Hd1. by rewrite Hd2.
Qed.

(** The operations a successful commit wrote. *)
Definition commit_ops (b : Block) (rs : list TransactionReceipt) (accs : list Account) : list BatchOp :=
  let n := hdr_number (blk_header b) in
  ((((block_puts b ++ mjoin (imap (tx_puts n) (blk_transactions b))) ++
     ((λ r, BPut CF_RECEIPTS (ba_bytes (rc_tx_hash r)) (bincode_ser r)) <$> rs)) ++
    account_puts accs) ++ [BPut CF_META CHAIN_HEIGHT (bincode_ser n)]) ++
  [BPut CF_META BEST_BLOCK_HASH (ba_bytes (block_hash b))].

Lemma commit_block_Ok d d' b rs accs :
  commit_block d b rs accs = Ok d' → rdb_write d (commit_ops b rs accs) = Ok d' ∧
    Forall (λ c, rdb_cf_handle d c = true)
      [CF_BLOCKS; CF_BLOCK_HASHES; CF_TRANSACTIONS; CF_TX_INDEX; CF_RECEIPTS; CF_ACCOUNTS; CF_META].
Proof.
  unfold commit_block, batch_put_block, batch_put_transactions, batch_put_receipts,
    batch_update_accounts, batch_set_chain_height, batch_set_best_block_hash, batch_commit,
    write_batch, cf_handle. intros Hc.
  repeat match type of Hc with context [rdb_cf_handle d ?c] =>
    destruct (rdb_cf_handle d c) eqn:?; simpl in Hc; [|discriminate Hc] end.
  unfold commit_ops. split; [|by repeat constructor].
  match type of Hc with map_err _ ?x = _ => destruct x eqn:Ew; simpl in Hc; [|discriminate Hc] end.
  injection Hc as <-. exact Ew.
Qed.

Context `{!RocksDBLaws D} `{!BincodeLaws Account} `{!BincodeLaws Z} `{!BincodeLaws Block}.

(** How a write shows through [get_cf]. *)
Lemma get_cf_write d d' ops c k :
  rdb_write d ops = Ok d' →
  get_cf d' c k =
    if rdb_cf_handle d c then
      match batch_at ops c k with Some r => Ok r | None => get_cf d c k end
    else get_cf d c k.
Proof.
  intros Hw. unfold get_cf, cf_handle. rewrite (rdb_write_cf _ _ _ Hw), (rdb_write_get _ _ _ Hw).
  destruct (rdb_cf_handle d c); simpl; [|done]. by destruct (batch_at ops c k).
Qed.
Lemma get_cf_put d d' c k v c' k' :
  put_cf d c k v = Ok d' →
  get_cf d' c' k' = if bool_decide (c = c' ∧ k = k') then Ok (Some v) else get_cf d c' k'.
Proof.
  unfold put_cf, get_cf, cf_handle. destruct (rdb_cf_handle d c) eqn:Ec; simpl; [|done].
  destruct (rdb_put d c k v) as [d1|] eqn:Ep; simpl; [|done]. intros [= ->].
  rewrite (rdb_put_cf _ _ _ _ _ Ep), (rdb_put_get _ _ _ _ _ Ep). unfold op_at.
  case_bool_decide as Hd; simpl; [|done]. destruct Hd as [<- <-]. by rewrite Ec.
Qed.
Lemma get_cf_delete d d' c k c' k' :
  delete_cf d c k = Ok d' →
  get_cf d' c' k' = if bool_decide (c = c' ∧ k = k') then Ok None else get_cf d c' k'.
Proof.
  unfold delete_cf, get_cf, cf_handle. destruct (rdb_cf_handle d c) eqn:Ec; simpl; [|done].
  destruct (rdb_delete d c k) as [d1|] eqn:Ep; simpl; [|done]. intros [= ->].
  rewrite (rdb_delete_cf _ _ _ _ Ep), (rdb_delete_get _ _ _ _ Ep). unfold op_at.
  case_bool_decide as Hd; simpl; [|done]. destruct Hd as [<- <-]. by rewrite Ec.
Qed.

Lemma contract_storage_key_inj a1 k1 a2 k2 :
  contract_storage_key a1 k1 = contract_storage_key a2 k2 → a1 = a2 ∧ k1 = k2.
Proof.
  intros Heq. apply app_inj_1 in Heq as [Ha Hk]; [|by rewrite !ba_length].
  split; [by apply barray_eq|done].
Qed.

Lemma commit_lookup d d' b rs accs c k :
  commit_block d b rs accs = Ok d' →
  get_cf d' c k = match (if rdb_cf_handle d c then batch_at (commit_ops b rs accs) c k else None) with
                  | Some r => Ok r | None => get_cf d c k end.
Proof.
  intros [Hw _]%commit_block_Ok. rewrite (get_cf_write _ _ _ _ _ Hw).
  by destruct (rdb_cf_handle d c).
Qed.
Lemma commit_cf d d' b rs accs c :
  commit_block d b rs accs = Ok d' →
  c ∈ [CF_BLOCKS; CF_BLOCK_HASHES; CF_TRANSACTIONS; CF_TX_INDEX; CF_RECEIPTS; CF_ACCOUNTS; CF_META] →
  rdb_cf_handle d c = true.
Proof. intros [_ Hf]%commit_block_Ok. rewrite Forall_forall in Hf. apply Hf. Qed.

Ltac cf_neq := by (intros ?; discriminate).

Lemma commit_at_accounts b rs accs a :
  batch_at (commit_ops b rs accs) CF_ACCOUNTS (ba_bytes a) =
  (λ acc, Some (bincode_ser acc)) <$> last_account accs a.
Proof.
  unfold commit_ops. rewrite !batch_at_app, batch_at_account_puts.
  cbn -[batch_at_app]. destruct (last_account accs a); simpl; [done|].
  rewrite (batch_at_other_cf (_ <$> rs)) by (apply receipt_puts_cf; cf_neq).
  by rewrite (batch_at_other_cf (mjoin _)) by (apply tx_puts_cf; cf_neq).
Qed.
Lemma commit_at_height b rs accs :
  batch_at (commit_ops b rs accs) CF_META CHAIN_HEIGHT =
  Some (Some (bincode_ser (hdr_number (blk_header b)))).
Proof. unfold commit_ops. rewrite batch_at_app. simpl. rewrite batch_at_app. done. Qed.
Lemma commit_at_block b rs accs :
  batch_at (commit_ops b rs accs) CF_BLOCKS (encode_block_number (hdr_number (blk_header b))) =
  Some (Some (bincode_ser b)).
Proof.
  unfold commit_ops. rewrite !batch_at_app. simpl.
  rewrite (batch_at_other_cf (account_puts accs)) by (apply account_puts_cf; cf_neq).
  rewrite (batch_at_other_cf (_ <$> rs)) by (apply receipt_puts_cf; cf_neq).
  rewrite (batch_at_other_cf (mjoin _)) by (apply tx_puts_cf; cf_neq).
  by rewrite bool_decide_eq_true_2.
Qed.
Lemma commit_at_storage b rs accs k :
  batch_at (commit_ops b rs accs) CF_CONTRACT_STORAGE k = None.
Proof.
  unfold commit_ops. rewrite !batch_at_app. simpl.
  rewrite (batch_at_other_cf (account_puts accs)) by (apply account_puts_cf; cf_neq).
  rewrite (batch_at_other_cf (_ <$> rs)) by (apply receipt_puts_cf; cf_neq).
  by rewrite (batch_at_other_cf (mjoin _)) by (apply tx_puts_cf; cf_neq).
Qed.

(** A put in another column family does not change the accounts. *)
Lemma put_cf_account d d' c k v a :
  put_cf d c k v = Ok d' → c ≠ CF_ACCOUNTS → get_account d' a = get_account d a.
Proof.
  intros Hp Hc. unfold get_account, get_typed. rewrite (get_cf_put _ _ _ _ _ _ _ Hp).
  case_bool_decide; naive_solver.
Qed.

Lemma storage_key_decide a k a' k' :
  bool_decide (CF_CONTRACT_STORAGE = CF_CONTRACT_STORAGE ∧
    contract_storage_key a k = contract_storage_key a' k') = bool_decide ((a, k) = (a', k')).
Proof.
  apply bool_decide_ext. split.
  - intros [_ [-> ->]%contract_storage_key_inj]. done.
  - intros [= -> ->]. done.
Qed.

(** The RocksDB-backed database implements the interface the consensus layer relies
    on: a committed batch makes exactly its accounts, the height and the block readable and
    leaves contract storage alone, and writes of accounts and of contract storage are read
    back.  Every write and every reader is covered by [store_refines_view] of StoreView.v. *)
Theorem rocks_store_laws : @ChainStoreLaws D rocks_store.
Proof.
  split; simpl.
  - intros d d' b rs accs a Hc. unfold get_account, get_typed.
    rewrite (commit_lookup _ _ _ _ _ _ _ Hc), commit_at_accounts.
    rewrite (commit_cf _ _ _ _ _ _ Hc) by set_solver.
    destruct (last_account accs a) as [acc|]; simpl; [|done]. by rewrite bincode_de_ser.
  - intros d d' b rs accs Hc. unfold get_chain_height, get_typed.
    rewrite (commit_lookup _ _ _ _ _ _ _ Hc), commit_at_height.
    rewrite (commit_cf _ _ _ _ _ _ Hc) by set_solver. simpl. by rewrite bincode_de_ser.
  - intros d d' b rs accs Hc. unfold get_block_by_number, get_typed.
    rewrite (commit_lookup _ _ _ _ _ _ _ Hc), commit_at_block.
    rewrite (commit_cf _ _ _ _ _ _ Hc) by set_solver. simpl. by rewrite bincode_de_ser.
  - intros d d' b rs accs a k Hc. unfold get_contract_storage.
    rewrite (commit_lookup _ _ _ _ _ _ _ Hc), commit_at_storage.
    by destruct (rdb_cf_handle d _).
  - intros d d' a k v Hp a' k'. unfold get_contract_storage.
    by rewrite (get_cf_put _ _ _ _ _ _ _ Hp), storage_key_decide.
  - intros d d' a k Hp a' k'. unfold get_contract_storage.
    by rewrite (get_cf_delete _ _ _ _ _ _ Hp), storage_key_decide.
  - intros d d' a k v Hp a'. by eapply put_cf_account.
  - intros d d' a k Hp a'. unfold get_account, get_typed.
    rewrite (get_cf_delete _ _ _ _ _ _ Hp). case_bool_decide as Hb; [|done].
    by destruct Hb as [? _].
  - intros d d' h c Hp a'. by eapply put_cf_account.
  - intros d d' v Hp a'. by eapply put_cf_account.
  - intros d d' e Hp a'. by eapply put_cf_account.
  - intros d d' acc Hp a'. unfold get_account, get_typed.
    rewrite (get_cf_put _ _ _ _ _ _ _ Hp).
    case_bool_decide as Hd1; case_bool_decide as Hd2; try done.
    + simpl. by rewrite bincode_de_ser.
    + destruct Hd1 as [_ Hd1%barray_eq]. done.
    + exfalso. apply Hd1. by rewrite Hd2.
Qed.

(** Block number keys are ordered and decode to the number. *)
Theorem block_number_roundtrip n :
  in_u 64 n → decode_block_number (encode_block_number n) = Ok n.
Proof.
  intros Hn. unfold decode_block_number, encode_block_number.
  rewrite length_to_be_bytes. simpl. f_equal. by apply from_to_be_bytes.
Qed.

(** *** Reading a committed block back *)
Lemma batch_at_keyed_puts {A} (c : string) (key : A → bytes) (val : A → bytes) (l : list A) x :
  NoDup (key <$> l) → x ∈ l →
  batch_at ((λ y, BPut c (key y) (val y)) <$> l) c (key x) = Some (Some (val x)).
Proof.
  induction l as [|y l IH]; intros Hnd Hx; [by apply not_elem_of_nil in Hx|].
  rewrite fmap_cons in Hnd. rewrite fmap_cons. cbn [batch_at op_at]. apply NoDup_cons in Hnd as [Hni Hnd]. apply elem_of_cons in Hx as [->|Hx].
  - assert (batch_at ((λ y, BPut c (key y) (val y)) <$> l) c (key y) = None) as ->.
    { clear IH Hnd. induction l as [|z l IH]; [done|]. rewrite fmap_cons in Hni. rewrite fmap_cons.
      apply not_elem_of_cons in Hni as [Hz Hni]. cbn [batch_at op_at]. rewrite IH by done. case_bool_decide as Hd; [|done]. by destruct Hz, Hd. }
    by rewrite bool_decide_eq_true_2.
  - by rewrite IH.
Qed.
(** The transaction puts, read in their own column family. *)
Lemma batch_at_tx_puts n k txs c h :
  c = CF_TRANSACTIONS →
  batch_at (mjoin (imap (λ i, tx_puts n (k + i)) txs)) c h =
  batch_at ((λ t, BPut c (ba_bytes (stx_tx_hash t)) (bincode_ser t)) <$> txs) c h.
Proof.
  intros ->. revert k. induction txs as [|t txs IH]; intros k; simpl; [done|].
  specialize (IH (S k)). rewrite (imap_ext _ (λ i, tx_puts n (S k + i))) by (intros; cbn; f_equal; lia).
  rewrite IH. unfold fmap. by destruct (batch_at (list_fmap _ _ _ txs) _ h).
Qed.

Context `{!BincodeLaws SignedTransaction} `{!BincodeLaws TransactionReceipt}.

Lemma commit_get_block_by_number d d' b rs accs :
  commit_block d b rs accs = Ok d' →
  get_block_by_number d' (hdr_number (blk_header b)) = Ok (Some b).
Proof.
  intros Hc. unfold get_block_by_number, get_typed.
  rewrite (commit_lookup _ _ _ _ _ _ _ Hc), commit_at_block.
  rewrite (commit_cf _ _ _ _ _ _ Hc) by set_solver. simpl. by rewrite bincode_de_ser.
Qed.
Lemma commit_get_block_by_hash d d' b rs accs :
  in_u 64 (hdr_number (blk_header b)) →
  commit_block d b rs accs = Ok d' → get_block_by_hash d' (block_hash b) = Ok (Some b).
Proof.
  intros Hn Hc. unfold get_block_by_hash. rewrite (commit_lookup _ _ _ _ _ _ _ Hc).
  rewrite (commit_cf _ _ _ _ _ _ Hc) by set_solver.
  assert (batch_at (commit_ops b rs accs) CF_BLOCK_HASHES (ba_bytes (block_hash b)) =
          Some (Some (encode_block_number (hdr_number (blk_header b))))) as ->.
  { unfold commit_ops. rewrite !batch_at_app. simpl.
    rewrite (batch_at_other_cf (account_puts accs)) by (apply account_puts_cf; cf_neq).
    rewrite (batch_at_other_cf (_ <$> rs)) by (apply receipt_puts_cf; cf_neq).
    rewrite (batch_at_other_cf (mjoin _)) by (apply tx_puts_cf; cf_neq).
    by rewrite bool_decide_eq_true_2. }
  cbn [mbind result_bind]. unfold encode_block_number at 1. rewrite length_to_be_bytes. cbn [negb Nat.eqb].
  unfold encode_block_number. rewrite from_to_be_bytes by done.
  by eapply commit_get_block_by_number.
Qed.
Lemma commit_get_transaction d d' b rs accs t :
  NoDup (stx_tx_hash <$> blk_transactions b) → t ∈ blk_transactions b →
  commit_block d b rs accs = Ok d' → get_transaction d' (stx_tx_hash t) = Ok (Some t).
Proof.
  intros Hnd Ht Hc. unfold get_transaction, get_typed. rewrite (commit_lookup _ _ _ _ _ _ _ Hc).
  rewrite (commit_cf _ _ _ _ _ _ Hc) by set_solver.
  assert (batch_at (commit_ops b rs accs) CF_TRANSACTIONS (ba_bytes (stx_tx_hash t)) =
          Some (Some (bincode_ser t))) as ->.
  { unfold commit_ops. rewrite !batch_at_app. simpl.
    rewrite (batch_at_other_cf (account_puts accs)) by (apply account_puts_cf; cf_neq).
    rewrite (batch_at_other_cf (_ <$> rs)) by (apply receipt_puts_cf; cf_neq).
    pose proof (batch_at_tx_puts (hdr_number (blk_header b)) 0 (blk_transactions b) CF_TRANSACTIONS
                  (ba_bytes (stx_tx_hash t)) eq_refl) as Htx.
    change (λ i, tx_puts ?n (0 + i)) with (tx_puts n) in Htx. rewrite Htx.
    rewrite (batch_at_keyed_puts _ (λ t, ba_bytes (stx_tx_hash t))); [done| |done].
    rewrite (list_fmap_compose stx_tx_hash ba_bytes). apply NoDup_fmap_2; [intros ? ?; apply barray_eq|done]. }
  simpl. by rewrite bincode_de_ser.
Qed.
Lemma commit_get_receipt d d' b rs accs r :
  NoDup (rc_tx_hash <$> rs) → r ∈ rs →
  commit_block d b rs accs = Ok d' → get_receipt d' (rc_tx_hash r) = Ok (Some r).
Proof.
  intros Hnd Hr Hc. unfold get_receipt, get_typed. rewrite (commit_lookup _ _ _ _ _ _ _ Hc).
  rewrite (commit_cf _ _ _ _ _ _ Hc) by set_solver.
  assert (batch_at (commit_ops b rs accs) CF_RECEIPTS (ba_bytes (rc_tx_hash r)) =
          Some (Some (bincode_ser r))) as ->.
  { unfold commit_ops. rewrite !batch_at_app. simpl.
    rewrite (batch_at_other_cf (account_puts accs)) by (apply account_puts_cf; cf_neq).
    rewrite (batch_at_keyed_puts _ (λ r, ba_bytes (rc_tx_hash r))); [done| |done].
    rewrite (list_fmap_compose rc_tx_hash ba_bytes). apply NoDup_fmap_2; [intros ? ?; apply barray_eq|done]. }
  simpl. by rewrite bincode_de_ser.
Qed.
End Implementation.
