(* ===== verification/Instances.v ===== *)
(** * Instances: concrete instances of the third-party parameters

    A serializer for every type the sources pass to bincode, an in-memory
    key-value store that behaves as RocksDB is documented to, and [MemStore],
    the abstract specification of the chain database as typed maps.  They show
    that the hypotheses of the development hold together, and let its
    definitions be evaluated on inputs. *)

From S2P Require Import Prelude Crypto Merkle CoreTypes Validators Storage.

#[local] Unset Program Cases.

(** ** A self-delimiting serializer *)
Class Ser (A : Type) := {
  ser : A → bytes;
  de : bytes → option (A * bytes);
  de_ser x rest : de (ser x ++ rest) = Some (x, rest)
}.

Fixpoint pos_ser (p : positive) : bytes :=
  match p with
  | xH => [Byte.x02]
  | xO p => Byte.x00 :: pos_ser p
  | xI p => Byte.x01 :: pos_ser p
  end.
Fixpoint pos_de (l : bytes) : option (positive * bytes) :=
  match l with
  | Byte.x02 :: l => Some (xH, l)
  | Byte.x00 :: l => '(p, r) ← pos_de l; Some (xO p, r)
  | Byte.x01 :: l => '(p, r) ← pos_de l; Some (xI p, r)
  | _ => None
  end.
Lemma pos_de_ser p rest : pos_de (pos_ser p ++ rest) = Some (p, rest).
Proof. induction p as [p IH|p IH|]; simpl; rewrite ?IH; done. Qed.

Section Combinators.
Context {A B : Type}.

#[export] Program Instance ser_Z : Ser Z := {|
  ser z := match z with
           | Z0 => [Byte.x00] | Zpos p => Byte.x01 :: pos_ser p | Zneg p => Byte.x02 :: pos_ser p end;
  de l := match l with
          | Byte.x00 :: r => Some (Z0, r)
          | Byte.x01 :: r => '(p, r) ← pos_de r; Some (Zpos p, r)
          | Byte.x02 :: r => '(p, r) ← pos_de r; Some (Zneg p, r)
          | _ => None end |}.
Next Obligation. intros [|p|p] rest; simpl; rewrite ?pos_de_ser; done. Qed.

#[export] Program Instance ser_byte : Ser byte := {|
  ser b := [b];
  de l := match l with b :: r => Some (b, r) | [] => None end |}.
Next Obligation. done. Qed.

#[export] Program Instance ser_array n : Ser (barray n) := {|
  ser a := ba_bytes a;
  de l := a ← ba_try (take n l); Some (a, drop n l) |}.
Next Obligation.
  intros n x rest. simpl. rewrite take_app_exact, drop_app_length' by (by rewrite ba_length).
  by rewrite ba_try_bytes.
Qed.

#[export] Program Instance ser_pair `{Ser A, Ser B} : Ser (A * B) := {|
  ser x := ser x.1 ++ ser x.2;
  de l := '(a, r) ← de l; '(b, r) ← de r; Some ((a, b), r) |}.
Next Obligation. intros ? ? [a b] rest. simpl. by rewrite <- app_assoc, de_ser; simpl; rewrite de_ser. Qed.

Fixpoint list_de `{Ser A} (n : nat) (l : bytes) : option (list A * bytes) :=
  match n with
  | O => Some ([], l)
  | S n => '(a, r) ← de l; '(as_, r) ← list_de n r; Some (a :: as_, r)
  end.
#[export] Program Instance ser_list `{Ser A} : Ser (list A) := {|
  ser l := ser (Z.of_nat (length l)) ++ mjoin (ser <$> l);
  de l := '(n, r) ← de l; list_de (Z.to_nat n) r |}.
Next Obligation.
  intros ? l rest. cbv beta. rewrite <- app_assoc, de_ser. simpl. rewrite Nat2Z.id.
  induction l as [|a l IH]; simpl; [done|]. rewrite <- app_assoc, de_ser. simpl.
  change (list_de (length l) (mjoin (ser <$> l) ++ rest) ≫= (λ '(as_, r), Some (a :: as_, r)) = Some (a :: l, rest)).
  by rewrite IH.
Qed.

#[export] Program Instance ser_option `{Ser A} : Ser (option A) := {|
  ser o := match o with None => [Byte.x00] | Some a => Byte.x01 :: ser a end;
  de l := match l with
          | Byte.x00 :: r => Some (None, r)
          | Byte.x01 :: r => '(a, r) ← de r; Some (Some a, r)
          | _ => None end |}.
Next Obligation. intros ? [a|] rest; simpl; [by rewrite de_ser|done]. Qed.

(** A type with an injection into a serializable one. *)
Program Definition ser_iso `{Ser B} (to : A → B) (from : B → option A)
  (Hiso : ∀ x, from (to x) = Some x) : Ser A := {|
  ser x := ser (to x);
  de l := '(b, r) ← de l; a ← from b; Some (a, r) |}.
Next Obligation. intros ? to from Hiso x rest. simpl. rewrite de_ser. simpl. by rewrite Hiso. Qed.
End Combinators.

#[export] Program Instance ser_bool : Ser bool :=
  ser_iso (λ b : bool, if b then 1 else 0) (λ z, Some (negb (z =? 0))) _.
Next Obligation. by intros []. Qed.
#[export] Program Instance ser_u32 : Ser U32 := ser_iso u32_val (λ z, Some {| u32_val := z |}) _.
Next Obligation. by intros []. Qed.
#[export] Program Instance ser_account : Ser Account :=
  ser_iso (λ a, (acc_address a, acc_balance a, acc_nonce a, acc_code_hash a, acc_storage_root a))
    (λ '(a, b, c, d, e), Some {| acc_address := a; acc_balance := b; acc_nonce := c;
       acc_code_hash := d; acc_storage_root := e |}) _.
Next Obligation. by intros []. Qed.
#[export] Program Instance ser_tx_type : Ser TxType :=
  ser_iso (λ t, match t with Transfer => 0 | ContractDeploy => 1 | ContractCall => 2 | Stake => 3 | Unstake => 4 end)
    (λ z, Some (match z with 0 => Transfer | 1 => ContractDeploy | 2 => ContractCall | 3 => Stake | _ => Unstake end)) _.
Next Obligation. by intros []. Qed.
#[export] Program Instance ser_transaction : Ser Transaction :=
  ser_iso (λ t, (tx_chain_id t, tx_nonce t, tx_from t, tx_to t, tx_value t, tx_tx_type t,
                 tx_gas_limit t, tx_gas_price t, tx_data t, tx_timestamp t))
    (λ '(a, b, c, d, e, f, g, h, i, j), Some {| tx_chain_id := a; tx_nonce := b; tx_from := c;
       tx_to := d; tx_value := e; tx_tx_type := f; tx_gas_limit := g; tx_gas_price := h;
       tx_data := i; tx_timestamp := j |}) _.
Next Obligation. by intros []. Qed.
#[export] Program Instance ser_signed_transaction : Ser SignedTransaction :=
  ser_iso (λ t, (stx_transaction t, stx_public_key t, stx_signature t, stx_tx_hash t))
    (λ '(a, b, c, d), Some {| stx_transaction := a; stx_public_key := b; stx_signature := c;
       stx_tx_hash := d |}) _.
Next Obligation. by intros []. Qed.
#[export] Program Instance ser_block_header : Ser BlockHeader :=
  ser_iso (λ h, (hdr_version h, hdr_chain_id h, hdr_number h, hdr_timestamp h, hdr_parent_hash h,
                 hdr_state_root h, hdr_transactions_root h, hdr_receipts_root h, hdr_validator h,
                 hdr_validator_pubkey h, hdr_validator_signature h, hdr_epoch h, hdr_gas_used h,
                 hdr_gas_limit h, hdr_extra_data h))
    (λ '(a, b, c, d, e, f, g, h, i, j, k, l, m, n, o), Some {| hdr_version := a; hdr_chain_id := b;
       hdr_number := c; hdr_timestamp := d; hdr_parent_hash := e; hdr_state_root := f;
       hdr_transactions_root := g; hdr_receipts_root := h; hdr_validator := i;
       hdr_validator_pubkey := j; hdr_validator_signature := k; hdr_epoch := l;
       hdr_gas_used := m; hdr_gas_limit := n; hdr_extra_data := o |}) _.
Next Obligation. by intros []. Qed.
#[export] Program Instance ser_block : Ser Block :=
  ser_iso (λ b, (blk_header b, blk_transactions b))
    (λ '(a, b), Some {| blk_header := a; blk_transactions := b |}) _.
Next Obligation. by intros []. Qed.
#[export] Program Instance ser_validator_info : Ser ValidatorInfo :=
  ser_iso (λ v, (vi_address v, vi_public_key v, vi_stake v, vi_is_active v, vi_commission_rate v,
                 vi_jailed_until v, vi_slash_count v, vi_uptime_blocks v, vi_total_blocks v))
    (λ '(a, b, c, d, e, f, g, h, i), Some {| vi_address := a; vi_public_key := b; vi_stake := c;
       vi_is_active := d; vi_commission_rate := e; vi_jailed_until := f; vi_slash_count := g;
       vi_uptime_blocks := h; vi_total_blocks := i |}) _.
Next Obligation. by intros []. Qed.
#[export] Program Instance ser_validator_set : Ser ValidatorSet :=
  ser_iso (λ s, (vs_validators s, vs_total_stake s, vs_min_stake s, vs_max_validators s))
    (λ '(a, b, c, d), Some {| vs_validators := a; vs_total_stake := b; vs_min_stake := c;
       vs_max_validators := d |}) _.
Next Obligation. by intros []. Qed.
#[export] Program Instance ser_epoch_info : Ser EpochInfo :=
  ser_iso (λ e, (ep_epoch_number e, ep_start_block e, ep_end_block e, ep_validator_set e,
                 ep_finalized_block e))
    (λ '(a, b, c, d, e), Some {| ep_epoch_number := a; ep_start_block := b; ep_end_block := c;
       ep_validator_set := d; ep_finalized_block := e |}) _.
Next Obligation. by intros []. Qed.

#[export] Program Instance ser_string : Ser string :=
  ser_iso String.list_byte_of_string (λ l, Some (String.string_of_list_byte l)) _.
Next Obligation. intros x. cbv beta. by rewrite String.string_of_list_byte_of_string. Qed.
#[export] Program Instance ser_tx_status : Ser TxStatus :=
  ser_iso (λ s, match s with TxSuccess => (0, ""%string) | TxFailure m => (1, m) | TxOutOfGas => (2, ""%string) end)
    (λ '(z, m), Some (match z with 0 => TxSuccess | 1 => TxFailure m | _ => TxOutOfGas end)) _.
Next Obligation. by intros []. Qed.
#[export] Program Instance ser_event_log : Ser EventLog :=
  ser_iso (λ e, (log_address e, log_topics e, log_data e))
    (λ '(a, b, c), Some {| log_address := a; log_topics := b; log_data := c |}) _.
Next Obligation. by intros []. Qed.
#[export] Program Instance ser_receipt : Ser TransactionReceipt :=
  ser_iso (λ r, (rc_tx_hash r, rc_block_number r, rc_block_hash r, rc_index r, rc_status r,
                 rc_gas_used r, rc_logs r, rc_contract_address r, rc_return_data r))
    (λ '(a, b, c, d, e, f, g, h, i), Some {| rc_tx_hash := a; rc_block_number := b; rc_block_hash := c;
       rc_index := d; rc_status := e; rc_gas_used := f; rc_logs := g; rc_contract_address := h;
       rc_return_data := i |}) _.
Next Obligation. by intros []. Qed.

(** ** bincode *)
#[export] Instance toy_bincode `{Ser A} : Bincode A := {|
  bincode_ser := ser;
  bincode_de l := match de l with Some (x, []) => Ok x | _ => Err "invalid encoding" end |}.
#[export] Instance toy_bincode_laws `{Ser A} : BincodeLaws A.
Proof. intros x. simpl. by rewrite <- (app_nil_r (ser x)), de_ser. Qed.
(** ** An in-memory RocksDB *)
Module ToyRocks.
Abbreviation Db := (gmap (string * bytes) bytes).
Definition apply_op (d : Db) (op : BatchOp) : Db :=
  match op with BPut c k v => <[(c, k) := v]> d | BDelete c k => delete (c, k) d end.

#[export] Instance toy_rocks : RocksDB Db := {|
  rdb_cf_handle _ c := bool_decide (c ∈ CF_ALL);
  rdb_get d c k := Ok (d !! (c, k));
  rdb_put d c k v := Ok (apply_op d (BPut c k v));
  rdb_delete d c k := Ok (apply_op d (BDelete c k));
  rdb_write d ops := Ok (foldl apply_op d ops) |}.

Lemma apply_op_get d op c k :
  Ok (apply_op d op !! (c, k)) = over (op_at op c k) (Ok (E:=string) (d !! (c, k))).
Proof.
  destruct op as [c' k' v|c' k']; simpl; case_bool_decide as Hd.
  - destruct Hd as [-> ->]. by rewrite lookup_insert_eq.
  - rewrite lookup_insert_ne by naive_solver. done.
  - destruct Hd as [-> ->]. by rewrite lookup_delete_eq.
  - rewrite lookup_delete_ne by naive_solver. done.
Qed.
Lemma apply_ops_get ops d c k :
  Ok (foldl apply_op d ops !! (c, k)) = over (batch_at ops c k) (Ok (E:=string) (d !! (c, k))).
Proof.
  revert d. induction ops as [|op ops IH]; intros d; simpl; [done|]. rewrite IH.
  destruct (batch_at ops c k); simpl; [done|]. apply apply_op_get.
Qed.

#[export] Instance toy_rocks_laws : RocksDBLaws Db.
Proof.
  split; simpl; try by (intros; simplify_eq).
  - intros d d' c k v [= <-] c' k'. apply (apply_op_get d (BPut c k v)).
  - intros d d' c k [= <-] c' k'. apply (apply_op_get d (BDelete c k)).
  - intros d d' ops [= <-] c' k'. apply apply_ops_get.
Qed.
End ToyRocks.

(** ** [MemStore]: the chain database as typed maps *)
Module MemStore.
Record Mem : Type := {
  ms_accounts : gmap Address Account;
  ms_storage : gmap (Address * bytes) bytes;
  ms_code : gmap Blake3Hash bytes;
  ms_validators : gmap Address ValidatorInfo;
  ms_epochs : gmap Z EpochInfo;
  ms_blocks : gmap Z Block;
  ms_height : option Z;
  ms_genesis : option Blake3Hash
}.
Definition empty : Mem := {|
  ms_accounts := ∅; ms_storage := ∅; ms_code := ∅; ms_validators := ∅; ms_epochs := ∅;
  ms_blocks := ∅; ms_height := None; ms_genesis := None |}.
Definition put_accounts (l : list Account) (m : gmap Address Account) : gmap Address Account :=
  foldl (λ m a, <[acc_address a := a]> m) m l.

#[export] Instance mem_store : ChainStore Mem := {|
  cs_get_account m a := Ok (ms_accounts m !! a);
  cs_put_account m acc := Ok {| ms_accounts := <[acc_address acc := acc]> (ms_accounts m);
    ms_storage := ms_storage m; ms_code := ms_code m; ms_validators := ms_validators m;
    ms_epochs := ms_epochs m; ms_blocks := ms_blocks m; ms_height := ms_height m;
    ms_genesis := ms_genesis m |};
  cs_get_storage m a k := Ok (ms_storage m !! (a, k));
  cs_put_storage m a k v := Ok {| ms_accounts := ms_accounts m;
    ms_storage := <[(a, k) := v]> (ms_storage m); ms_code := ms_code m;
    ms_validators := ms_validators m; ms_epochs := ms_epochs m; ms_blocks := ms_blocks m;
    ms_height := ms_height m; ms_genesis := ms_genesis m |};
  cs_delete_storage m a k := Ok {| ms_accounts := ms_accounts m;
    ms_storage := delete (a, k) (ms_storage m); ms_code := ms_code m;
    ms_validators := ms_validators m; ms_epochs := ms_epochs m; ms_blocks := ms_blocks m;
    ms_height := ms_height m; ms_genesis := ms_genesis m |};
  cs_get_code m h := Ok (ms_code m !! h);
  cs_put_code m h c := Ok {| ms_accounts := ms_accounts m; ms_storage := ms_storage m;
    ms_code := <[h := c]> (ms_code m); ms_validators := ms_validators m;
    ms_epochs := ms_epochs m; ms_blocks := ms_blocks m; ms_height := ms_height m;
    ms_genesis := ms_genesis m |};
  cs_put_validator m v := Ok {| ms_accounts := ms_accounts m; ms_storage := ms_storage m;
    ms_code := ms_code m; ms_validators := <[vi_address v := v]> (ms_validators m);
    ms_epochs := ms_epochs m; ms_blocks := ms_blocks m; ms_height := ms_height m;
    ms_genesis := ms_genesis m |};
  cs_put_epoch m e := Ok {| ms_accounts := ms_accounts m; ms_storage := ms_storage m;
    ms_code := ms_code m; ms_validators := ms_validators m;
    ms_epochs := <[ep_epoch_number e := e]> (ms_epochs m); ms_blocks := ms_blocks m;
    ms_height := ms_height m; ms_genesis := ms_genesis m |};
  cs_put_block m b := Ok {| ms_accounts := ms_accounts m; ms_storage := ms_storage m;
    ms_code := ms_code m; ms_validators := ms_validators m; ms_epochs := ms_epochs m;
    ms_blocks := <[hdr_number (blk_header b) := b]> (ms_blocks m); ms_height := ms_height m;
    ms_genesis := ms_genesis m |};
  cs_get_block_by_number m n := Ok (ms_blocks m !! n);
  cs_get_chain_height m := Ok (ms_height m);
  cs_set_chain_height m h := Ok {| ms_accounts := ms_accounts m; ms_storage := ms_storage m;
    ms_code := ms_code m; ms_validators := ms_validators m; ms_epochs := ms_epochs m;
    ms_blocks := ms_blocks m; ms_height := Some h; ms_genesis := ms_genesis m |};
  cs_get_genesis_hash m := Ok (ms_genesis m);
  cs_set_genesis_hash m h := Ok {| ms_accounts := ms_accounts m; ms_storage := ms_storage m;
    ms_code := ms_code m; ms_validators := ms_validators m; ms_epochs := ms_epochs m;
    ms_blocks := ms_blocks m; ms_height := ms_height m; ms_genesis := Some h |};
  cs_commit m b _ accs := Ok {| ms_accounts := put_accounts accs (ms_accounts m);
    ms_storage := ms_storage m; ms_code := ms_code m; ms_validators := ms_validators m;
    ms_epochs := ms_epochs m; ms_blocks := <[hdr_number (blk_header b) := b]> (ms_blocks m);
    ms_height := Some (hdr_number (blk_header b)); ms_genesis := ms_genesis m |}
|}.

Lemma put_accounts_lookup l m a :
  put_accounts l m !! a = match last_account l a with Some acc => Some acc | None => m !! a end.
Proof.
  unfold last_account. revert m. induction l as [|acc l IH]; intros m; simpl; [done|].
  rewrite IH, find_app. destruct (List.find _ (rev l)); [done|]. simpl.
  case_bool_decide as Hd; [subst; by rewrite lookup_insert_eq|by rewrite lookup_insert_ne].
Qed.

#[export] Instance mem_store_laws : ChainStoreLaws Mem.
Proof.
  split; simpl; intros; simplify_eq; simpl; try done.
  - rewrite put_accounts_lookup. by destruct (last_account _ _).
  - by rewrite lookup_insert_eq.
  - rewrite lookup_insert. case_decide; case_bool_decide; done.
  - rewrite lookup_delete. case_decide; case_bool_decide; done.
  - rewrite lookup_insert. case_decide; case_bool_decide; done.
Qed.
End MemStore.

(** ** Instances of the theorems on the core types and the storage *)
Module CoreWitness.
Import ToyCrypto ToyRocks.
Definition tx : Transaction := {|
  tx_chain_id := 1; tx_nonce := 0; tx_from := KeyPair_address (kp Byte.x01); tx_to := Some Address_ZERO;
  tx_value := 5; tx_tx_type := Transfer; tx_gas_limit := 21000; tx_gas_price := 1; tx_data := [];
  tx_timestamp := 0 |}.
Definition hdr : BlockHeader :=
  blk_header (Block_genesis 1 0 (KeyPair_address (kp Byte.x01)) (public_key (kp Byte.x01)) 1000 []).

Lemma sign_then_verify_witness :
  tx_validate_basic tx = Ok () ∧ stx_verify (SignedTransaction_new tx (kp Byte.x01)) = Ok ().
Proof.
  assert (tx_validate_basic tx = Ok ()) as Hv by reflexivity. split; [exact Hv|].
  exact (proj1 (sign_then_verify tx (kp Byte.x01) Hv eq_refl)).
Defined.
Lemma header_sign_then_verify_witness :
  hdr_validator_pubkey hdr = public_key (kp Byte.x01) ∧
  verify_signature (header_sign hdr (kp Byte.x01)) = Ok ().
Proof. split; [reflexivity|]. apply (header_sign_then_verify hdr (kp Byte.x01) Signature_default). reflexivity. Defined.

Definition leaf_of (b : byte) : Blake3Hash := ba_repeat 32 b.
Lemma merkle_root_duplicate_last_witness :
  root (MerkleTree_new [leaf_of Byte.x01; leaf_of Byte.x02; leaf_of Byte.x03]) =
  root (MerkleTree_new [leaf_of Byte.x01; leaf_of Byte.x02; leaf_of Byte.x03; leaf_of Byte.x03]).
Proof.
  apply (merkle_root_duplicate_last [leaf_of Byte.x01; leaf_of Byte.x02] (leaf_of Byte.x03)); [reflexivity|done].
Defined.

Lemma block_number_roundtrip_witness : decode_block_number (encode_block_number 123456) = Ok 123456.
Proof. apply (block_number_roundtrip 123456). by vm_compute. Defined.

(** The in-memory RocksDB with the serializer above discharges the interface. *)
Lemma rocks_store_laws_witness : @ChainStoreLaws ToyRocks.Db rocks_store.
Proof. apply (rocks_store_laws (D := ToyRocks.Db)). Defined.
End CoreWitness.

(** Two leaves with proofs of the same shape for one root, under a hash that
    ignores its input: the collision the binding theorem finds. *)
Module MerkleWitness.
#[local] Instance constant_prims : CryptoPrims := {|
  blake3 := λ _, ba_repeat 32 Byte.x09;
  ed25519_public := λ sk, sk; ed25519_sign := λ _ _, ba_repeat 64 Byte.x00;
  ed25519_verify := λ _ _ _, true; hex_enc := hex_encode; hex_dec := λ _, Ok [] |}.
Definition mp (b : byte) : MerkleProof :=
  {| leaf := ba_repeat 32 b; siblings := [(ba_repeat 32 Byte.x01, PRight)] |}.
Lemma merkle_proof_binding_witness :
  verify_proof (ba_repeat 32 Byte.x09) (mp Byte.x02) = true ∧ verify_proof (ba_repeat 32 Byte.x09) (mp Byte.x03) = true ∧
  ∃ k x y, verify_inputs (leaf (mp Byte.x02)) (siblings (mp Byte.x02)) !! k = Some x ∧
    verify_inputs (leaf (mp Byte.x03)) (siblings (mp Byte.x03)) !! k = Some y ∧ x ≠ y ∧ blake3 x = blake3 y.
Proof.
  split; [reflexivity|]. split; [reflexivity|].
  apply (merkle_proof_binding (ba_repeat 32 Byte.x09) (mp Byte.x02) (mp Byte.x03)); try reflexivity.
  intros Heq. injection Heq as Heq. by apply (bool_decide_eq_false_1 (Byte.x02 = Byte.x03)) in Heq.
Defined.
End MerkleWitness.
