(* ===== verification/StoreView.v ===== *)
(** * StoreView: the chain database as typed maps

    The abstract state of the database of Storage.v is [View]: one typed map for each
    kind of record, as its readers show it.  Every write of crates/storage is a point
    update of one map; a commit is the sequence of its writes.  [store_refines_view]
    says that the database implements this, for every write and every reader. *)

From S2P Require Import Prelude Crypto Merkle CoreTypes Validators Storage Instances.

Record View : Type := {
  vw_account : Address → result StorageError (option Account);
  vw_storage : Address → bytes → result StorageError (option bytes);
  vw_code : Blake3Hash → result StorageError (option bytes);
  vw_validator : Address → result StorageError (option ValidatorInfo);
  vw_epoch : Z → result StorageError (option EpochInfo);
  vw_block : Z → result StorageError (option Block);
  vw_number : Blake3Hash → result StorageError (option bytes);   (* the key of the block with this hash *)
  vw_transaction : Blake3Hash → result StorageError (option SignedTransaction);
  vw_location : Blake3Hash → result StorageError (option (Z * U32));
  vw_receipt : Blake3Hash → result StorageError (option TransactionReceipt);
  vw_height : result StorageError (option Z);
  vw_genesis : result StorageError (option Blake3Hash)
}.
(** The same answer from every reader; block and epoch numbers are [u64]. *)
Record view_eq (v w : View) : Prop := {
  ve_account a : vw_account v a = vw_account w a;
  ve_storage a k : vw_storage v a k = vw_storage w a k;
  ve_code h : vw_code v h = vw_code w h;
  ve_validator a : vw_validator v a = vw_validator w a;
  ve_epoch n : in_u 64 n → vw_epoch v n = vw_epoch w n;
  ve_block n : in_u 64 n → vw_block v n = vw_block w n;
  ve_number h : vw_number v h = vw_number w h;
  ve_transaction h : vw_transaction v h = vw_transaction w h;
  ve_location h : vw_location v h = vw_location w h;
  ve_receipt h : vw_receipt v h = vw_receipt w h;
  ve_height : vw_height v = vw_height w;
  ve_genesis : vw_genesis v = vw_genesis w
}.
#[export] Instance view_equiv : Equiv View := view_eq.
#[export] Instance view_equivalence : Equivalence (≡@{View}).
Proof.
  split.
  - intros v. by constructor.
  - intros v w []. constructor; intros; symmetry; auto.
  - intros u v w H1 H2. constructor; intros; (etrans; [by apply H1|by apply H2]).
Qed.

(** A map with one point changed. *)
Definition upd {K V} `{EqDecision K} (k : K) (v : V) (f : K → result StorageError (option V))
    : K → result StorageError (option V) := λ k', if decide (k = k') then Ok (Some v) else f k'.

(** ** The writes *)
Inductive Write : Type :=
| WAccount (acc : Account)
| WStorage (a : Address) (k v : bytes)
| WDeleteStorage (a : Address) (k : bytes)
| WCode (h : Blake3Hash) (code : bytes)
| WValidator (v : ValidatorInfo)
| WEpoch (e : EpochInfo)
| WBlock (b : Block)
| WTransaction (t : SignedTransaction)
| WLocation (h : Blake3Hash) (block_number tx_index : Z)
| WReceipt (r : TransactionReceipt)
| WHeight (n : Z)
| WGenesis (h : Blake3Hash)
| WBestHash (h : Blake3Hash).

Section View.
Context `{CryptoPrims} `{Bincode BlockHeader}.

Definition effect (v : View) (w : Write) : View :=
  let '(Build_View acc sto code val ep blk num tx loc rc height genesis) := v in
  match w with
  | WAccount a => Build_View (upd (acc_address a) a acc) sto code val ep blk num tx loc rc height genesis
  | WStorage a k x =>
      Build_View acc (λ a', if decide (a = a') then upd k x (sto a') else sto a') code val ep blk num tx loc rc height genesis
  | WDeleteStorage a k =>
      Build_View acc (λ a' k', if decide (a = a' ∧ k = k') then Ok None else sto a' k') code val ep blk num tx loc rc height genesis
  | WCode h c => Build_View acc sto (upd h c code) val ep blk num tx loc rc height genesis
  | WValidator x => Build_View acc sto code (upd (vi_address x) x val) ep blk num tx loc rc height genesis
  | WEpoch e => Build_View acc sto code val (upd (ep_epoch_number e) e ep) blk num tx loc rc height genesis
  | WBlock b =>
      let n := hdr_number (blk_header b) in
      Build_View acc sto code val ep (upd n b blk) (upd (block_hash b) (encode_block_number n) num) tx loc rc height genesis
  | WTransaction t => Build_View acc sto code val ep blk num (upd (stx_tx_hash t) t tx) loc rc height genesis
  | WLocation h n i => Build_View acc sto code val ep blk num tx (upd h (n, {| u32_val := i |}) loc) rc height genesis
  | WReceipt r => Build_View acc sto code val ep blk num tx loc (upd (rc_tx_hash r) r rc) height genesis
  | WHeight n => Build_View acc sto code val ep blk num tx loc rc (Ok (Some n)) genesis
  | WGenesis h => Build_View acc sto code val ep blk num tx loc rc height (Ok (Some h))
  | WBestHash _ => v
  end.
#[export] Instance effect_proper : Proper ((≡) ==> (=) ==> (≡)) effect.
Proof.
  intros [] [] [] x w ->. destruct w; constructor; cbn in *; intros; unfold upd;
    repeat case_decide; subst; auto.
Qed.

(** The writes of a block commit, in the order of the batch. *)
Definition commit_writes (b : Block) (rs : list TransactionReceipt) (accs : list Account) : list Write :=
  let n := hdr_number (blk_header b) in
  [WBlock b] ++
  mjoin (imap (λ i t, [WTransaction t; WLocation (stx_tx_hash t) n (as_u 32 (Z.of_nat i))]) (blk_transactions b)) ++
  (WReceipt <$> rs) ++ (WAccount <$> accs) ++ [WHeight n; WBestHash (block_hash b)].
(** Block and epoch numbers are [u64] values. *)
Definition write_wf (w : Write) : Prop :=
  match w with
  | WEpoch e => in_u 64 (ep_epoch_number e)
  | WBlock b => in_u 64 (hdr_number (blk_header b))
  | _ => True
  end.

Context {D : Type} `{RocksDB D} `{Bincode Block} `{Bincode Z} `{Bincode Account}
  `{Bincode SignedTransaction} `{Bincode (Z * U32)} `{Bincode TransactionReceipt}
  `{Bincode ValidatorInfo} `{Bincode EpochInfo}.
Implicit Types d : D.

Definition view d : View := {|
  vw_account := get_account d; vw_storage := get_contract_storage d; vw_code := get_contract_code d;
  vw_validator := db_get_validator d; vw_epoch := get_epoch d; vw_block := get_block_by_number d;
  vw_number := λ h, get_cf d CF_BLOCK_HASHES (ba_bytes h); vw_transaction := get_transaction d;
  vw_location := get_tx_location d; vw_receipt := get_receipt d; vw_height := get_chain_height d;
  vw_genesis := get_genesis_hash d |}.
(** [set_best_block_hash] exists only as a step of the batch. *)
Definition perform d (w : Write) : result StorageError D :=
  match w with
  | WAccount acc => put_account d acc
  | WStorage a k v => put_contract_storage d a k v
  | WDeleteStorage a k => delete_contract_storage d a k
  | WCode h code => put_contract_code d h code
  | WValidator v => put_validator d v
  | WEpoch e => put_epoch d e
  | WBlock b => put_block d b
  | WTransaction t => put_transaction d t
  | WLocation h n i => put_tx_index d h n i
  | WReceipt r => put_receipt d r
  | WHeight n => set_chain_height d n
  | WGenesis h => set_genesis_hash d h
  | WBestHash h => batch ← batch_set_best_block_hash d [] h; batch_commit d batch
  end.

(** ** Proof: through the raw key-value operations *)
Definition ops_of (w : Write) : list BatchOp :=
  match w with
  | WAccount acc => [BPut CF_ACCOUNTS (ba_bytes (acc_address acc)) (bincode_ser acc)]
  | WStorage a k v => [BPut CF_CONTRACT_STORAGE (contract_storage_key a k) v]
  | WDeleteStorage a k => [BDelete CF_CONTRACT_STORAGE (contract_storage_key a k)]
  | WCode h code => [BPut CF_CONTRACTS (ba_bytes h) code]
  | WValidator v => [BPut CF_VALIDATORS (ba_bytes (vi_address v)) (bincode_ser v)]
  | WEpoch e => [BPut CF_EPOCHS (encode_block_number (ep_epoch_number e)) (bincode_ser e)]
  | WBlock b => block_puts b
  | WTransaction t => [BPut CF_TRANSACTIONS (ba_bytes (stx_tx_hash t)) (bincode_ser t)]
  | WLocation h n i => [BPut CF_TX_INDEX (ba_bytes h) (bincode_ser (n, {| u32_val := i |}))]
  | WReceipt r => [BPut CF_RECEIPTS (ba_bytes (rc_tx_hash r)) (bincode_ser r)]
  | WHeight n => [BPut CF_META CHAIN_HEIGHT (bincode_ser n)]
  | WGenesis h => [BPut CF_META GENESIS_HASH (ba_bytes h)]
  | WBestHash h => [BPut CF_META BEST_BLOCK_HASH (ba_bytes h)]
  end.
Definition Raw : Type := string → bytes → result StorageError (option bytes).
Definition raw_apply (ops : list BatchOp) (g : Raw) : Raw := λ c k,
  match batch_at ops c k with Some r => Ok r | None => g c k end.
Definition raw_typed {A} `{Bincode A} (g : Raw) (c : string) (k : bytes) : result StorageError (option A) :=
  r ← g c k;
  match r with
  | Some bs => x ← map_err DeserializationError (bincode_de bs); Ok (Some x)
  | None => Ok None
  end.
Definition raw_view (g : Raw) : View := {|
  vw_account a := raw_typed g CF_ACCOUNTS (ba_bytes a);
  vw_storage a k := g CF_CONTRACT_STORAGE (contract_storage_key a k);
  vw_code h := g CF_CONTRACTS (ba_bytes h);
  vw_validator a := raw_typed g CF_VALIDATORS (ba_bytes a);
  vw_epoch n := raw_typed g CF_EPOCHS (encode_block_number n);
  vw_block n := raw_typed g CF_BLOCKS (encode_block_number n);
  vw_number h := g CF_BLOCK_HASHES (ba_bytes h);
  vw_transaction h := raw_typed g CF_TRANSACTIONS (ba_bytes h);
  vw_location h := raw_typed g CF_TX_INDEX (ba_bytes h);
  vw_receipt h := raw_typed g CF_RECEIPTS (ba_bytes h);
  vw_height := raw_typed g CF_META CHAIN_HEIGHT;
  vw_genesis :=
    r ← g CF_META GENESIS_HASH;
    match r with
    | Some bs => match ba_try bs with
                 | Some a => Ok (Some a)
                 | None => Err (DeserializationError "invalid hash length")
                 end
    | None => Ok None
    end |}.
Lemma view_raw d : view d = raw_view (get_cf d).
Proof. done. Qed.
Lemma raw_view_ext (g1 g2 : Raw) : (∀ c k, g1 c k = g2 c k) → raw_view g1 ≡ raw_view g2.
Proof. intros Hg. constructor; intros; cbn; unfold raw_typed; by rewrite Hg. Qed.
Lemma raw_apply_app ops1 ops2 g c k : raw_apply (ops1 ++ ops2) g c k = raw_apply ops2 (raw_apply ops1 g) c k.
Proof. unfold raw_apply. rewrite batch_at_app. by destruct (batch_at ops2 c k). Qed.

Context `{!BincodeLaws Block} `{!BincodeLaws Z} `{!BincodeLaws Account} `{!BincodeLaws SignedTransaction}
  `{!BincodeLaws (Z * U32)} `{!BincodeLaws TransactionReceipt} `{!BincodeLaws ValidatorInfo} `{!BincodeLaws EpochInfo}.

(** A put under an injective key is a point update, a put in another family nothing. *)
Lemma raw_put_typed {K A} `{EqDecision K} `{Bincode A} `{!BincodeLaws A} (key : K → bytes) (g : Raw) c k (x : A) k' :
  (key k = key k' → k = k') →
  raw_typed (raw_apply [BPut c (key k) (bincode_ser x)] g) c (key k') =
    upd k x (λ k', raw_typed g c (key k')) k'.
Proof.
  intros Hinj. unfold raw_typed, raw_apply, upd. cbn. case_bool_decide as Hd; case_decide as Hk; subst; cbn.
  - by rewrite bincode_de_ser.
  - destruct Hk. apply Hinj, Hd.
  - by destruct Hd.
  - done.
Qed.
Lemma raw_put_bytes {K} `{EqDecision K} (key : K → bytes) (g : Raw) c k x k' :
  (key k = key k' → k = k') →
  raw_apply [BPut c (key k) x] g c (key k') = upd k x (λ k', g c (key k')) k'.
Proof.
  intros Hinj. unfold raw_apply, upd. cbn. case_bool_decide as Hd; case_decide as Hk; subst; try done.
  - destruct Hk. apply Hinj, Hd.
  - by destruct Hd.
Qed.
Lemma raw_apply_other ops (g : Raw) c k : Forall (λ op, op_cf op ≠ c) ops → raw_apply ops g c k = g c k.
Proof. intros Ho. unfold raw_apply. by rewrite batch_at_other_cf. Qed.
Lemma encode_number_inj n m : in_u 64 n → in_u 64 m → encode_block_number n = encode_block_number m → n = m.
Proof.
  intros Hn Hm Heq. apply (f_equal decode_block_number) in Heq. rewrite !block_number_roundtrip in Heq by done. congruence.
Qed.

Ltac key_inj := intros Hk; first [by apply barray_eq|by apply encode_number_inj].
(** Families that a write does not touch. *)
Ltac untouched := unfold raw_typed; rewrite raw_apply_other by (repeat constructor; by intros ?); done.
Lemma raw_view_effect w g : write_wf w → raw_view (raw_apply (ops_of w) g) ≡ effect (raw_view g) w.
Proof.
  intros Hwf. destruct w as [acc|a k v|a k|h code|v|e|b|t|h n i|r|n|h|h]; cbn [write_wf] in Hwf; constructor; intros;
    cbn [raw_view effect ops_of vw_account vw_storage vw_code vw_validator vw_epoch vw_block vw_number vw_transaction
      vw_location vw_receipt vw_height vw_genesis]; try untouched.
  - apply raw_put_typed. key_inj.
  - unfold raw_apply. cbn. case_bool_decide as Hd.
    + destruct Hd as [_ [<- <-]%contract_storage_key_inj]. unfold upd. by rewrite !decide_True.
    + case_decide as Ha; [subst|done]. unfold upd. case_decide; [subst; by destruct Hd|done].
  - unfold raw_apply. cbn. case_bool_decide as Hd.
    + destruct Hd as [_ [<- <-]%contract_storage_key_inj]. by rewrite decide_True.
    + rewrite decide_False; [done|]. intros [-> ->]. by destruct Hd.
  - apply (raw_put_bytes ba_bytes). key_inj.
  - apply raw_put_typed. key_inj.
  - apply raw_put_typed. key_inj.
  - rewrite <- (raw_put_typed encode_block_number) by key_inj. unfold raw_typed.
    change (block_puts b) with ([BPut CF_BLOCKS (encode_block_number (hdr_number (blk_header b))) (bincode_ser b)] ++
      [BPut CF_BLOCK_HASHES (ba_bytes (block_hash b)) (encode_block_number (hdr_number (blk_header b)))]).
    rewrite raw_apply_app, (raw_apply_other [BPut CF_BLOCK_HASHES _ _]); [done|]. by repeat constructor.
  - rewrite <- (raw_put_bytes ba_bytes) by key_inj. unfold raw_apply. cbn.
    case_bool_decide; [done|]. by rewrite bool_decide_eq_false_2 by (by intros [? _]).
  - apply raw_put_typed. key_inj.
  - apply raw_put_typed. key_inj.
  - apply raw_put_typed. key_inj.
  - unfold raw_typed, raw_apply. cbn. rewrite bool_decide_eq_true_2 by done. cbn. by rewrite bincode_de_ser.
  - done.
  - done.
  - unfold raw_apply. cbn. rewrite bool_decide_eq_true_2 by done. cbn. by rewrite ba_try_bytes.
  - done.
  - done.
Qed.
Lemma effects_proper ws v1 v2 : v1 ≡ v2 → foldl effect v1 ws ≡ foldl effect v2 ws.
Proof. revert v1 v2. induction ws as [|w ws IH]; intros v1 v2 Hv; [done|]. cbn. apply IH. by rewrite Hv. Qed.
Lemma raw_view_effects ws g :
  Forall write_wf ws → raw_view (raw_apply (mjoin (ops_of <$> ws)) g) ≡ foldl effect (raw_view g) ws.
Proof.
  intros Hwf. revert g. induction Hwf as [|w ws Hw _ IH]; intros g; [by apply raw_view_ext|]. cbn [fmap list_fmap mjoin list_join foldl].
  etrans; [apply raw_view_ext; intros c k; apply raw_apply_app|]. etrans; [apply IH|].
  by apply effects_proper, raw_view_effect.
Qed.

Context `{!RocksDBLaws D}.
Lemma write_raw d ops d' c k :
  rdb_write d ops = Ok d' → Forall (λ op, rdb_cf_handle d (op_cf op) = true) ops →
  get_cf d' c k = raw_apply ops (get_cf d) c k.
Proof.
  intros Hw Hcf. rewrite (get_cf_write _ _ _ _ _ Hw). unfold raw_apply. destruct (rdb_cf_handle d c) eqn:Hc; [done|].
  rewrite batch_at_other_cf; [done|]. eapply Forall_impl; [exact Hcf|]. cbn. congruence.
Qed.
Lemma put_raw d cf key v d' c k : put_cf d cf key v = Ok d' → get_cf d' c k = raw_apply [BPut cf key v] (get_cf d) c k.
Proof. intros Hp. rewrite (get_cf_put _ _ _ _ _ _ _ Hp). unfold raw_apply. cbn. by case_bool_decide. Qed.
Lemma perform_raw d w d' c k : perform d w = Ok d' → get_cf d' c k = raw_apply (ops_of w) (get_cf d) c k.
Proof.
  destruct w; cbn [perform ops_of]; try apply put_raw.
  - intros Hp. unfold delete_contract_storage in Hp. rewrite (get_cf_delete _ _ _ _ _ _ Hp). unfold raw_apply. cbn.
    by case_bool_decide.
  - unfold put_block, cf_handle, write_batch. destruct (rdb_cf_handle d CF_BLOCKS) eqn:Hc1; [|done].
    destruct (rdb_cf_handle d CF_BLOCK_HASHES) eqn:Hc2; [|done]. cbn [mbind result_bind].
    destruct (rdb_write d (block_puts b)) as [d1|] eqn:Hw; [|done]. intros [= <-]. apply (write_raw _ _ _ _ _ Hw).
    by repeat constructor.
  - unfold batch_set_best_block_hash, cf_handle, batch_commit, write_batch. destruct (rdb_cf_handle d CF_META) eqn:Hc1; [|done].
    cbn [mbind result_bind app]. destruct (rdb_write d _) as [d1|] eqn:Hw; [|done]. intros [= <-]. apply (write_raw _ _ _ _ _ Hw).
    by repeat constructor.
Qed.
Lemma commit_ops_writes b rs accs : commit_ops b rs accs = mjoin (ops_of <$> commit_writes b rs accs).
Proof.
  assert (∀ n txs k, mjoin (imap (λ i, tx_puts n (k + i)%nat) txs) =
    mjoin (ops_of <$> mjoin (imap (λ i t, [WTransaction t; WLocation (stx_tx_hash t) n (as_u 32 (Z.of_nat (k + i)))]) txs))) as Htx.
  { intros n txs. induction txs as [|t txs IH]; intros k; [done|]. rewrite !imap_cons. cbn [mjoin list_join].
    rewrite fmap_app, join_app. f_equal. specialize (IH (S k)).
    erewrite (imap_ext _ (λ i, tx_puts n (S k + i)%nat)) by (intros; cbn; by rewrite Nat.add_succ_r).
    erewrite (imap_ext (_ ∘ S)) by (intros; cbn; by rewrite Nat.add_succ_r). exact IH. }
  assert (∀ {A} (f : A → Write) (g : A → BatchOp) l, (∀ x, ops_of (f x) = [g x]) → mjoin (ops_of <$> (f <$> l)) = g <$> l) as Hmap.
  { intros A f g l Hfg. induction l as [|x l IH]; [done|]. rewrite !fmap_cons, <- IH, Hfg. done. }
  unfold commit_ops, commit_writes. specialize (Htx (hdr_number (blk_header b)) (blk_transactions b) 0%nat). cbn in Htx.
  rewrite !fmap_app, !join_app, <- Htx, (Hmap _ WReceipt (λ r, BPut CF_RECEIPTS (ba_bytes (rc_tx_hash r)) (bincode_ser r))) by done.
  rewrite (Hmap _ WAccount (λ a, BPut CF_ACCOUNTS (ba_bytes (acc_address a)) (bincode_ser a))) by done.
  unfold account_puts. cbn. by rewrite <- !app_assoc.
Qed.

Lemma commit_ops_families (P : string → Prop) b rs accs :
  (∀ c, c ∈ [CF_BLOCKS; CF_BLOCK_HASHES; CF_TRANSACTIONS; CF_TX_INDEX; CF_RECEIPTS; CF_ACCOUNTS; CF_META] → P c) →
  Forall (λ op, P (op_cf op)) (commit_ops b rs accs).
Proof.
  intros HP. unfold commit_ops. rewrite !Forall_app. split_and!.
  - repeat constructor; apply HP; set_solver.
  - apply Forall_forall. intros op (l & Hop & Hl)%list_elem_of_join.
    apply elem_of_lookup_imap in Hl as (i & t & -> & _). unfold tx_puts in Hop.
    set_unfold in Hop. destruct_or! Hop; subst op; apply HP; set_solver.
  - apply Forall_fmap, Forall_forall. intros r _. apply HP. set_solver.
  - apply Forall_fmap, Forall_forall. intros r _. apply HP. set_solver.
  - repeat constructor; apply HP; set_solver.
  - repeat constructor; apply HP; set_solver.
Qed.
Lemma commit_writes_wf b rs accs : in_u 64 (hdr_number (blk_header b)) → Forall write_wf (commit_writes b rs accs).
Proof.
  intros Hn. unfold commit_writes. rewrite !Forall_app. split_and!.
  - by constructor.
  - apply Forall_forall. intros w (l & Hw & Hl)%list_elem_of_join.
    apply elem_of_lookup_imap in Hl as (i & t & -> & _). set_unfold in Hw. by destruct_or! Hw; subst w.
  - by apply Forall_fmap, Forall_forall.
  - by apply Forall_fmap, Forall_forall.
  - by repeat constructor.
Qed.

(** C13: The RocksDB-backed database refines a record of typed maps: every write that
    succeeds (account, contract storage and its deletion, code, validator, epoch, block,
    transaction, transaction location, receipt, height, genesis hash, best hash) changes
    what the readers return at exactly the point written, to the value written, and no other
    reader's answer; a committed block is exactly the sequence of the writes of its block,
    transactions, locations, receipts, accounts, height and best hash. Block and epoch
    numbers are u64. *)
Theorem store_refines_view d d' :
  (∀ w, write_wf w → perform d w = Ok d' → view d' ≡ effect (view d) w) ∧
  (∀ b rs accs, in_u 64 (hdr_number (blk_header b)) → commit_block d b rs accs = Ok d' →
     view d' ≡ foldl effect (view d) (commit_writes b rs accs)).
Proof.
  rewrite !view_raw. split.
  - intros w Hwf Hp. etrans; [apply raw_view_ext; intros c k; by apply perform_raw|]. by apply raw_view_effect.
  - intros b rs accs Hn [Hw Hcf]%commit_block_Ok.
    etrans; [apply raw_view_ext; intros c k; apply (write_raw _ _ _ _ _ Hw)|].
    + apply (commit_ops_families (λ c, rdb_cf_handle d c = true)). by rewrite Forall_forall in Hcf.
    + rewrite commit_ops_writes. apply raw_view_effects. apply commit_writes_wf, Hn.
Qed.
End View.

Module StoreViewWitness.
Import ToyCrypto ToyRocks CoreWitness.
Definition t1 : SignedTransaction := SignedTransaction_new tx (kp Byte.x01).
Definition b1 : Block := {| blk_header := hdr; blk_transactions := [t1] |}.
Definition acc1 : Account := Account_new (KeyPair_address (kp Byte.x01)) 995.
Lemma store_refines_view_witness :
  ∃ d1 d2 : Db, commit_block ∅ b1 [] [acc1] = Ok d1 ∧ perform d1 (WGenesis (block_hash b1)) = Ok d2 ∧
    view d1 ≡ foldl effect (view (∅ : Db)) (commit_writes b1 [] [acc1]) ∧ get_transaction d1 (stx_tx_hash t1) = Ok (Some t1) ∧
    view d2 ≡ effect (view d1) (WGenesis (block_hash b1)) ∧ get_account d2 (acc_address acc1) = Ok (Some acc1).
Proof.
  assert (is_ok (commit_block (∅ : Db) b1 [] [acc1]) = true) as Hok by (by vm_compute).
  destruct (commit_block (∅ : Db) b1 [] [acc1]) as [d1|] eqn:Hc; [|discriminate Hok].
  pose proof (proj2 (store_refines_view (∅ : Db) d1) b1 [] [acc1] ltac:(by vm_compute) Hc) as Hv.
  assert (is_ok (perform d1 (WGenesis (block_hash b1))) = true) as Hok2 by reflexivity.
  destruct (perform d1 (WGenesis (block_hash b1))) as [d2|] eqn:Hp; [|discriminate Hok2].
  pose proof (proj1 (store_refines_view d1 d2) (WGenesis (block_hash b1)) I Hp) as Hv2.
  exists d1, d2. split; [reflexivity|]. split; [exact Hp|]. split; [exact Hv|]. split.
  - etrans; [exact (ve_transaction _ _ Hv (stx_tx_hash t1))|]. by vm_compute.
  - split; [exact Hv2|]. etrans; [exact (ve_account _ _ Hv2 (acc_address acc1))|].
    etrans; [exact (ve_account _ _ Hv (acc_address acc1))|]. by vm_compute.
Defined.
End StoreViewWitness.
