(* ===== verification/Vm.v ===== *)
(** * Vm: gas, execution contexts, host functions and the WASM engine
    (crates/vm)

    wasmtime is the class [Wasmtime].  The code of a contract is unknown: what
    it does between two host calls is a [Guest], a tree whose nodes are the
    host calls it makes, so that [run_guest] executes the host functions of
    register_host_functions on the execution context.  A tree is finite: with
    [fuel_metering] (the default configuration) every run of a guest ends.
    [None] is a panic of the host, which takes the node down. *)

From S2P Require Import Prelude Crypto Merkle CoreTypes Validators.

(** ** error.rs *)
Inductive VmError : Type :=
| Compilation (msg : string)
| Execution (msg : string)
| OutOfGas (limit used : Z)
| MemoryOutOfBounds (offset len memory_size : Z)
| CallDepthExceeded (max : Z)
| CodeTooLarge (max got : Z)
| InvalidModule (msg : string)
| FunctionNotFound (name : string)
| ContractNotFound (name : string)
| HostFunction (msg : string)
| Trap (msg : string)
| VmState (msg : string).

Definition vm_error_display (e : VmError) : string :=
  match e with
  | Compilation m => "compilation error: " +:+ m
  | Execution m => "execution error: " +:+ m
  | OutOfGas l u => "out of gas: limit " +:+ z_str l +:+ ", used " +:+ z_str u
  | MemoryOutOfBounds o l s => "memory access out of bounds: offset " +:+ z_str o +:+ ", len " +:+
      z_str l +:+ ", memory_size " +:+ z_str s
  | CallDepthExceeded m => "call depth exceeded: max " +:+ z_str m
  | CodeTooLarge m g => "code too large: max " +:+ z_str m +:+ ", got " +:+ z_str g
  | InvalidModule m => "invalid module: " +:+ m
  | FunctionNotFound m => "function not found: " +:+ m
  | ContractNotFound m => "contract not found: " +:+ m
  | HostFunction m => "host function error: " +:+ m
  | Trap m => "trap: " +:+ m
  | VmState m => "state error: " +:+ m
  end.

(** ** gas.rs *)
Record GasMeter : Type := { gm_limit : Z; gm_consumed : Z }.
Definition GasMeter_new (limit : Z) : GasMeter := {| gm_limit := limit; gm_consumed := 0 |}.
Definition consume (m : GasMeter) (amount : Z) : GasMeter * result VmError () :=
  let new_consumed := sat_add 64 (gm_consumed m) amount in
  if gm_limit m <? new_consumed then
    ({| gm_limit := gm_limit m; gm_consumed := gm_limit m |}, Err (OutOfGas (gm_limit m) new_consumed))
  else ({| gm_limit := gm_limit m; gm_consumed := new_consumed |}, Ok ()).
Definition remaining (m : GasMeter) : Z := sat_sub (gm_limit m) (gm_consumed m).
Definition is_exhausted (m : GasMeter) : bool := gm_limit m <=? gm_consumed m.

Record GasCosts : Type := {
  cost_storage_read : Z; cost_storage_write : Z; cost_storage_delete : Z;
  cost_balance_check : Z; cost_transfer : Z; cost_hash_blake3 : Z; cost_hash_per_byte : Z;
  cost_event_base : Z; cost_event_per_topic : Z; cost_event_per_byte : Z;
  cost_call_base : Z; cost_memory_page : Z; cost_wasm_instruction : Z
}.
Definition GasCosts_default : GasCosts := {|
  cost_storage_read := 200; cost_storage_write := 5000; cost_storage_delete := 5000;
  cost_balance_check := 100; cost_transfer := 2300; cost_hash_blake3 := 30;
  cost_hash_per_byte := 6; cost_event_base := 375; cost_event_per_topic := 375;
  cost_event_per_byte := 8; cost_call_base := 700; cost_memory_page := 3;
  cost_wasm_instruction := 1 |}.

(** ** context.rs *)
Record StateReader : Type := {
  sr_get_account : Address → result VmError (option Account);
  sr_get_storage : Address → bytes → result VmError (option bytes);
  sr_get_code : Blake3Hash → result VmError (option bytes)
}.

Record ExecutionContext : Type := {
  ctx_caller : Address;
  ctx_origin : Address;
  ctx_contract_address : Address;
  ctx_value : Z;
  ctx_block_number : Z;
  ctx_block_timestamp : Z;
  ctx_chain_id : Z;
  ctx_gas_meter : GasMeter;
  ctx_call_depth : Z;
  ctx_max_call_depth : Z;
  ctx_logs : list EventLog;
  ctx_storage_changes : gmap (Address * bytes) (option bytes);
  ctx_balance_changes : gmap Address Z;
  ctx_state_reader : StateReader;
  ctx_return_data : bytes
}.

Definition ExecutionContext_new (caller origin contract_address : Address)
    (value block_number block_timestamp chain_id gas_limit : Z) (r : StateReader) : ExecutionContext := {|
  ctx_caller := caller; ctx_origin := origin; ctx_contract_address := contract_address;
  ctx_value := value; ctx_block_number := block_number; ctx_block_timestamp := block_timestamp;
  ctx_chain_id := chain_id; ctx_gas_meter := GasMeter_new gas_limit; ctx_call_depth := 0;
  ctx_max_call_depth := 256; ctx_logs := []; ctx_storage_changes := ∅;
  ctx_balance_changes := ∅; ctx_state_reader := r; ctx_return_data := [] |}.

(** Assignments to the mutable fields. *)
Definition ctx_update (c : ExecutionContext) (addr : Address) (g : GasMeter) (logs : list EventLog)
    (sc : gmap (Address * bytes) (option bytes)) (bc : gmap Address Z) : ExecutionContext := {|
  ctx_caller := ctx_caller c; ctx_origin := ctx_origin c; ctx_contract_address := addr;
  ctx_value := ctx_value c; ctx_block_number := ctx_block_number c;
  ctx_block_timestamp := ctx_block_timestamp c; ctx_chain_id := ctx_chain_id c;
  ctx_gas_meter := g; ctx_call_depth := ctx_call_depth c;
  ctx_max_call_depth := ctx_max_call_depth c; ctx_logs := logs; ctx_storage_changes := sc;
  ctx_balance_changes := bc; ctx_state_reader := ctx_state_reader c;
  ctx_return_data := ctx_return_data c |}.
Definition ctx_set_address c a :=
  ctx_update c a (ctx_gas_meter c) (ctx_logs c) (ctx_storage_changes c) (ctx_balance_changes c).
Definition ctx_set_gas c g :=
  ctx_update c (ctx_contract_address c) g (ctx_logs c) (ctx_storage_changes c) (ctx_balance_changes c).
Definition ctx_set_logs c l :=
  ctx_update c (ctx_contract_address c) (ctx_gas_meter c) l (ctx_storage_changes c) (ctx_balance_changes c).
Definition ctx_set_storage c sc :=
  ctx_update c (ctx_contract_address c) (ctx_gas_meter c) (ctx_logs c) sc (ctx_balance_changes c).
Definition ctx_set_balances c bc :=
  ctx_update c (ctx_contract_address c) (ctx_gas_meter c) (ctx_logs c) (ctx_storage_changes c) bc.

Definition storage_read (c : ExecutionContext) (addr : Address) (key : bytes)
    : result VmError (option bytes) :=
  match ctx_storage_changes c !! (addr, key) with
  | Some value => Ok value
  | None => sr_get_storage (ctx_state_reader c) addr key
  end.
Definition storage_write (c : ExecutionContext) (addr : Address) (key value : bytes) : ExecutionContext :=
  ctx_set_storage c (<[(addr, key) := Some value]> (ctx_storage_changes c)).
Definition storage_delete (c : ExecutionContext) (addr : Address) (key : bytes) : ExecutionContext :=
  ctx_set_storage c (<[(addr, key) := None]> (ctx_storage_changes c)).

Definition get_balance (c : ExecutionContext) (addr : Address) : result VmError Z :=
  r ← sr_get_account (ctx_state_reader c) addr;
  let base := default 0 (acc_balance <$> r) in
  let delta := default 0 (ctx_balance_changes c !! addr) in
  Ok (as_u 128 (Z.max (iadd 128 (as_i 128 base) delta) 0)).

(** [entry(a).or_insert(0)] followed by an assignment. *)
Definition add_delta (m : gmap Address Z) (a : Address) (d : Z) : gmap Address Z :=
  <[a := iadd 128 (default 0 (m !! a)) d]> m.
Definition sub_delta (m : gmap Address Z) (a : Address) (d : Z) : gmap Address Z :=
  <[a := isub 128 (default 0 (m !! a)) d]> m.

Definition transfer (c : ExecutionContext) (from to : Address) (amount : Z)
    : result VmError ExecutionContext :=
  from_balance ← get_balance c from;
  if from_balance <? amount then
    Err (HostFunction ("insufficient balance: have " +:+ z_str from_balance +:+ ", need " +:+ z_str amount))
  else
    let bc := sub_delta (ctx_balance_changes c) from (as_i 128 amount) in
    Ok (ctx_set_balances c (add_delta bc to (as_i 128 amount))).

Definition emit_event (c : ExecutionContext) (log : EventLog) : ExecutionContext :=
  ctx_set_logs c (ctx_logs c ++ [log]).
Definition check_call_depth (c : ExecutionContext) : result VmError () :=
  if ctx_max_call_depth c <=? ctx_call_depth c then Err (CallDepthExceeded (ctx_max_call_depth c))
  else Ok ().

(** ** Host functions (engine.rs, register_host_functions)
    The guest's linear memory is [Some m] when it exports ["memory"]. *)
Definition memory := option bytes.

(** wasmtime's bounds-checked [Memory::read] / [Memory::write]. *)
Definition mem_read (m : bytes) (off len : Z) : option bytes :=
  if off + len <=? lenZ m then Some (take (Z.to_nat len) (drop (Z.to_nat off) m)) else None.
Definition mem_write (m : bytes) (off : Z) (data : bytes) : option bytes :=
  if off + lenZ data <=? lenZ m then
    Some (take (Z.to_nat off) m ++ data ++ drop (Z.to_nat off + length data) m)
  else None.
(** [x as usize] of an [i32]: sign extension. *)
Definition as_usize (z : Z) : Z := as_u 64 z.
(** [vec![0u8; n]] panics beyond [isize::MAX]. *)
Definition alloc_ok (n : Z) : bool := n <? 2 ^ 63.

Inductive HostOutcome :=
| HReturn (c : ExecutionContext) (m : memory) (v : Z)
| HAbort (c : ExecutionContext) (msg : bytes)
| HPanic.

Section HostFunctions.
Variable costs : GasCosts.
Implicit Types (c : ExecutionContext) (m : memory).

Definition host_storage_read c m (key_ptr key_len val_ptr : Z) : HostOutcome :=
  let '(g, r) := consume (ctx_gas_meter c) (cost_storage_read costs) in
  let c := ctx_set_gas c g in
  if is_err r then HReturn c m (-1) else
  match m with
  | None => HReturn c m (-1)
  | Some mem =>
      if negb (alloc_ok (as_usize key_len)) then HPanic else
      match mem_read mem (as_usize key_ptr) (as_usize key_len) with
      | None => HReturn c m (-1)
      | Some key =>
          match storage_read c (ctx_contract_address c) key with
          | Ok (Some value) =>
              match mem_write mem (as_usize val_ptr) value with
              | None => HReturn c m (-1)
              | Some mem' => HReturn c (Some mem') (as_i 32 (lenZ value))
              end
          | _ => HReturn c m 0
          end
      end
  end.

Definition host_storage_write c m (key_ptr key_len val_ptr val_len : Z) : HostOutcome :=
  let '(g, _) := consume (ctx_gas_meter c) (cost_storage_write costs) in
  let c := ctx_set_gas c g in
  match m with
  | None => HReturn c m 0
  | Some mem =>
      if negb (alloc_ok (as_usize key_len) && alloc_ok (as_usize val_len)) then HPanic else
      match mem_read mem (as_usize key_ptr) (as_usize key_len) with
      | None => HReturn c m 0
      | Some key =>
          match mem_read mem (as_usize val_ptr) (as_usize val_len) with
          | None => HReturn c m 0
          | Some value => HReturn (storage_write c (ctx_contract_address c) key value) m 0
          end
      end
  end.

(** The body shared by [host_caller] and [host_self_address]. *)
Definition write_address c m (out_ptr : Z) (a : Address) : HostOutcome :=
  match m with
  | None => HReturn c m 0
  | Some mem =>
      match mem_write mem (as_usize out_ptr) (ba_bytes a) with
      | Some mem' => HReturn c (Some mem') 0
      | None => HReturn c m 0
      end
  end.
Definition host_caller c m (out_ptr : Z) : HostOutcome := write_address c m out_ptr (ctx_caller c).
Definition host_self_address c m (out_ptr : Z) : HostOutcome :=
  write_address c m out_ptr (ctx_contract_address c).
Definition host_block_number c m : HostOutcome := HReturn c m (as_i 64 (ctx_block_number c)).
Definition host_block_timestamp c m : HostOutcome := HReturn c m (as_i 64 (ctx_block_timestamp c)).
Definition host_chain_id c m : HostOutcome := HReturn c m (as_i 64 (ctx_chain_id c)).
Definition host_self_balance c m : HostOutcome :=
  HReturn c m (as_i 64 (match get_balance c (ctx_contract_address c) with Ok b => b | Err _ => 0 end)).

Definition host_transfer c m (to_ptr amount : Z) : HostOutcome :=
  let '(g, r) := consume (ctx_gas_meter c) (cost_transfer costs) in
  let c := ctx_set_gas c g in
  if is_err r then HReturn c m (-1) else
  match m with
  | None => HReturn c m (-1)
  | Some mem =>
      match mem_read mem (as_usize to_ptr) 20 with
      | None => HReturn c m (-1)
      | Some to_bytes =>
          match transfer c (ctx_contract_address c) (ba_of 20 to_bytes) (as_u 128 amount) with
          | Ok c' => HReturn c' m 0
          | Err _ => HReturn c m (-1)
          end
      end
  end.

(** [as u64] of a negative count sign-extends, and the products wrap. *)
Definition event_cost (topics_count data_len : Z) : Z :=
  (cost_event_base costs +! cost_event_per_topic costs *! as_u 64 topics_count) +!
  cost_event_per_byte costs *! as_u 64 data_len.
Definition host_emit_event c m (topics_count data_ptr data_len : Z) : HostOutcome :=
  let '(g, r) := consume (ctx_gas_meter c) (event_cost topics_count data_len) in
  let c := ctx_set_gas c g in
  if is_err r then HReturn c m 0 else
  match m with
  | None => HReturn c m 0
  | Some mem =>
      if negb (alloc_ok (as_usize data_len)) then HPanic else
      match mem_read mem (as_usize data_ptr) (as_usize data_len) with
      | None => HReturn c m 0
      | Some data =>
          HReturn (emit_event c {| log_address := ctx_contract_address c; log_topics := []; log_data := data |}) m 0
      end
  end.

(** The bytes of the message the trap carries. *)
Definition host_abort c m (msg_ptr msg_len : Z) : HostOutcome :=
  if 0 <? msg_len then
    match m with
    | None => HAbort c (b_ "contract aborted")
    | Some mem =>
        match mem_read mem (as_usize msg_ptr) (as_usize msg_len) with
        | Some buf => HAbort c buf
        | None => HAbort c (b_ "contract aborted")
        end
    end
  else HAbort c (b_ "contract aborted").

(** The functions the linker registers under ["env"]. *)
Inductive HostCall :=
| HcStorageRead (key_ptr key_len val_ptr : Z)
| HcStorageWrite (key_ptr key_len val_ptr val_len : Z)
| HcCaller (out_ptr : Z)
| HcSelfAddress (out_ptr : Z)
| HcBlockNumber
| HcBlockTimestamp
| HcChainId
| HcSelfBalance
| HcTransfer (to_ptr amount : Z)
| HcEmitEvent (topics_ptr topics_count data_ptr data_len : Z)
| HcAbort (msg_ptr msg_len : Z).

Definition host_call c m (h : HostCall) : HostOutcome :=
  match h with
  | HcStorageRead kp kl vp => host_storage_read c m kp kl vp
  | HcStorageWrite kp kl vp vl => host_storage_write c m kp kl vp vl
  | HcCaller p => host_caller c m p
  | HcSelfAddress p => host_self_address c m p
  | HcBlockNumber => host_block_number c m
  | HcBlockTimestamp => host_block_timestamp c m
  | HcChainId => host_chain_id c m
  | HcSelfBalance => host_self_balance c m
  | HcTransfer tp a => host_transfer c m tp a
  | HcEmitEvent _ tc dp dl => host_emit_event c m tc dp dl
  | HcAbort p l => host_abort c m p l
  end.
End HostFunctions.

(** ** wasmtime (third party)
    A guest finishes, traps, or calls a host function with its memory and goes
    on with what the call left there. *)
Inductive Guest (A : Type) : Type :=
| GDone (a : A)
| GTrap (msg : string)
| GHost (h : HostCall) (m : memory) (k : memory → Z → Guest A).
Arguments GDone {A} a.
Arguments GTrap {A} msg.
Arguments GHost {A} h m k.

Class Wasmtime := {
  Module_ : Type;
  Inst : Type;
  wt_validate : bytes → result string ();
  wt_module : bytes → result string Module_;
  wt_set_fuel : Z → result string ();
  (** [linker.instantiate] with the fuel set on the store, if any: a start
      function may run. *)
  wt_instantiate : Module_ → option Z → Guest Inst;
  (** [get_typed_func] with the given number of [i32] parameters. *)
  wt_func : Inst → nat → string → option (list Z → Guest (Z * Inst));
  wt_memory : Inst → memory;
  wt_set_memory : Inst → bytes → Inst;
  wt_memory_size : Inst → Z;
  (** How an error raised by a host function prints. *)
  wt_abort_display : bytes → string
}.

Section Engine.
Context `{CryptoPrims} `{Wasmtime}.

Record VmConfig : Type := {
  vc_max_memory_pages : Z; vc_max_call_depth : Z; vc_max_code_size : Z;
  vc_max_stack_size : Z; vc_fuel_metering : bool
}.
Definition VmConfig_default : VmConfig := {|
  vc_max_memory_pages := 256; vc_max_call_depth := 256; vc_max_code_size := 256 * 1024;
  vc_max_stack_size := 1024 * 1024; vc_fuel_metering := true |}.

Record DeployResult : Type := {
  dr_contract_address : Address; dr_code_hash : Blake3Hash; dr_gas_used : Z; dr_logs : list EventLog
}.
Record CallResult : Type := {
  cr_return_data : bytes; cr_gas_used : Z; cr_logs : list EventLog; cr_status : TxStatus
}.
Record WasmEngine : Type := {
  we_module_cache : gmap Blake3Hash Module_;
  we_config : VmConfig;
  we_gas_costs : GasCosts
}.
Definition WasmEngine_new (config : VmConfig) : WasmEngine := {|
  we_module_cache := ∅; we_config := config; we_gas_costs := GasCosts_default |}.

Definition validate_module (e : WasmEngine) (bytecode : bytes) : result VmError () :=
  if vc_max_code_size (we_config e) <? lenZ bytecode then
    Err (CodeTooLarge (vc_max_code_size (we_config e)) (lenZ bytecode))
  else map_err InvalidModule (wt_validate bytecode).

Definition compile_module (e : WasmEngine) (bytecode : bytes)
    : WasmEngine * result VmError (Module_ * Blake3Hash) :=
  let code_hash := hash bytecode in
  match we_module_cache e !! code_hash with
  | Some cached => (e, Ok (cached, code_hash))
  | None =>
      match validate_module e bytecode with
      | Err err => (e, Err err)
      | Ok _ =>
          match wt_module bytecode with
          | Err m => (e, Err (Compilation m))
          | Ok module =>
              ({| we_module_cache := <[code_hash := module]> (we_module_cache e);
                  we_config := we_config e; we_gas_costs := we_gas_costs e |},
               Ok (module, code_hash))
          end
      end
  end.

(** The store's host state after a run, and the guest's result; [None] is a
    panic. *)
Fixpoint run_guest {A} (costs : GasCosts) (c : ExecutionContext) (g : Guest A)
    : option (ExecutionContext * result string A) :=
  match g with
  | GDone a => Some (c, Ok a)
  | GTrap msg => Some (c, Err msg)
  | GHost h m k =>
      match host_call costs c m h with
      | HReturn c' m' v => run_guest costs c' (k m' v)
      | HAbort c' msg => Some (c', Err (wt_abort_display msg))
      | HPanic => None
      end
  end.

(** A run whose error aborts [execute_function]. *)
Definition run_or {A} (costs : GasCosts) (err : string → VmError) (c : ExecutionContext) (g : Guest A)
    : option (result VmError (ExecutionContext * A)) :=
  '(c', r) ← run_guest costs c g;
  Some (match r with Ok a => Ok (c', a) | Err m => Err (err m) end).

(** What replaces the caller's context while the guest runs; it stays there
    when the run fails. *)
Definition blank_context (c : ExecutionContext) : ExecutionContext :=
  ExecutionContext_new Address_ZERO Address_ZERO Address_ZERO 0 0 0 0 0 (ctx_state_reader c).

(** The call of the exported function: its result as one byte. *)
Definition call_export (costs : GasCosts) (c : ExecutionContext) (inst : Inst) (name : string)
    (params : list Z) : option (result VmError (ExecutionContext * bytes)) :=
  match wt_func inst (length params) name with
  | None => Some (Err (FunctionNotFound name))
  | Some f =>
      r ← run_or costs Trap c (f params);
      Some ('(c, (res, _)) ← r; Ok (c, [byte_of_Z res]))
  end.

(** The body of [execute_function] once the module is instantiated. *)
Definition call_with_args (costs : GasCosts) (c : ExecutionContext) (inst : Inst) (name : string)
    (args : bytes) : option (result VmError (ExecutionContext * bytes)) :=
  match args with
  | [] => call_export costs c inst name []
  | _ :: _ =>
      let len := as_i 32 (lenZ args) in
      match wt_func inst 1 "allocate" with
      | None => call_export costs c inst name []
      | Some alloc =>
          r ← run_or costs Execution c (alloc [len]);
          match r with
          | Err e => Some (Err e)
          | Ok (c, (ptr, inst)) =>
              match wt_memory inst with
              | None => Some (Err (Execution "no memory export"))
              | Some mem =>
                  match mem_write mem (as_usize ptr) args with
                  | None => Some (Err (MemoryOutOfBounds (as_u 32 ptr) (as_u 32 (lenZ args))
                                         (as_u 32 (as_u 32 (wt_memory_size inst) * 65536))))
                  | Some mem' => call_export costs c (wt_set_memory inst mem') name [ptr; len]
                  end
              end
          end
      end
  end.

Definition execute_function (e : WasmEngine) (module : Module_) (name : string) (args : bytes)
    (context : ExecutionContext) : option (ExecutionContext * result VmError bytes) :=
  let costs := we_gas_costs e in
  let blank := blank_context context in
  let fuel := if vc_fuel_metering (we_config e) then Some (remaining (ctx_gas_meter context)) else None in
  match (match fuel with Some f => map_err Execution (wt_set_fuel f) | None => Ok () end) with
  | Err err => Some (blank, Err err)
  | Ok _ =>
      r ← run_or costs Execution context (wt_instantiate module fuel);
      match r with
      | Err err => Some (blank, Err err)
      | Ok (c, inst) =>
          r ← call_with_args costs c inst name args;
          Some (match r with Ok (c, data) => (c, Ok data) | Err err => (blank, Err err) end)
      end
  end.

(** The address of a deployed contract: the first 20 bytes of the hash of the
    sender and the block number. *)
Definition derive_contract_address (c : ExecutionContext) : Address :=
  ba_of 20 (take 20 (ba_bytes (hash_multiple
    [ba_bytes (ctx_caller c); to_le_bytes 8 (ctx_block_number c)]))).

Definition deploy_contract (e : WasmEngine) (code constructor_args : bytes) (context : ExecutionContext)
    : option (WasmEngine * ExecutionContext * result VmError DeployResult) :=
  match compile_module e code with
  | (e, Err err) => Some (e, context, Err err)
  | (e, Ok (module, code_hash)) =>
      let contract_address := derive_contract_address context in
      let context := ctx_set_address context contract_address in
      let gas_before := gm_consumed (ctx_gas_meter context) in
      '(context, r) ← execute_function e module "init" constructor_args context;
      let finish :=
        let gas_used := gm_consumed (ctx_gas_meter context) -! gas_before in
        Some (e, ctx_set_logs context [],
              Ok {| dr_contract_address := contract_address; dr_code_hash := code_hash;
                    dr_gas_used := gas_used; dr_logs := ctx_logs context |}) in
      match r with
      | Ok _ => finish
      | Err (FunctionNotFound _) => finish
      | Err err => Some (e, context, Err err)
      end
  end.

(** The module to run: from the cache, or recompiled from the stored code. *)
Definition load_module (e : WasmEngine) (code_hash : Blake3Hash) (context : ExecutionContext)
    : WasmEngine * result VmError Module_ :=
  match we_module_cache e !! code_hash with
  | Some cached => (e, Ok cached)
  | None =>
      match sr_get_code (ctx_state_reader context) code_hash with
      | Err err => (e, Err err)
      | Ok None => (e, Err (ContractNotFound (Blake3Hash_to_hex code_hash)))
      | Ok (Some bytecode) =>
          match compile_module e bytecode with
          | (e, Err err) => (e, Err err)
          | (e, Ok (module, _)) => (e, Ok module)
          end
      end
  end.

Definition call_contract (e : WasmEngine) (code_hash : Blake3Hash) (function : string) (args : bytes)
    (context : ExecutionContext) : option (WasmEngine * ExecutionContext * result VmError CallResult) :=
  match load_module e code_hash context with
  | (e, Err err) => Some (e, context, Err err)
  | (e, Ok module) =>
      let gas_before := gm_consumed (ctx_gas_meter context) in
      '(context, r) ← execute_function e module function args context;
      match r with
      | Ok return_data =>
          Some (e, ctx_set_logs context [],
                Ok {| cr_return_data := return_data;
                      cr_gas_used := gm_consumed (ctx_gas_meter context) -! gas_before;
                      cr_logs := ctx_logs context; cr_status := TxSuccess |})
      | Err (OutOfGas limit _) =>
          Some (e, context, Ok {| cr_return_data := []; cr_gas_used := limit;
                                  cr_logs := []; cr_status := TxOutOfGas |})
      | Err err =>
          Some (e, context, Ok {| cr_return_data := [];
                                  cr_gas_used := gm_consumed (ctx_gas_meter context) -! gas_before;
                                  cr_logs := []; cr_status := TxFailure (vm_error_display err) |})
      end
  end.
End Engine.

(** ** What a guest can do to its context
    One host call is a few of these effects; the invariants below are proved
    on them and follow for whole runs. *)
Inductive effect : ExecutionContext → ExecutionContext → Prop :=
| eff_gas c amount : 0 ≤ amount → effect c (ctx_set_gas c (consume (ctx_gas_meter c) amount).1)
| eff_write c key value : effect c (storage_write c (ctx_contract_address c) key value)
| eff_transfer c to amount c' :
    0 ≤ amount → transfer c (ctx_contract_address c) to amount = Ok c' → effect c c'
| eff_event c data :
    effect c (emit_event c {| log_address := ctx_contract_address c; log_topics := []; log_data := data |}).
Abbreviation effects := (rtc effect).

Definition outcome_ctx (o : HostOutcome) : option ExecutionContext :=
  match o with HReturn c _ _ => Some c | HAbort c _ => Some c | HPanic => None end.

(** The costs are [u64]s. *)
Definition costs_ok (costs : GasCosts) : Prop :=
  0 ≤ cost_storage_read costs ∧ 0 ≤ cost_storage_write costs ∧ 0 ≤ cost_transfer costs.

Lemma host_call_effects costs c m h c' :
  costs_ok costs → outcome_ctx (host_call costs c m h) = Some c' → effects c c'.
Proof.
  intros (Hr & Hw & Ht).
  assert (∀ tc dl, 0 ≤ event_cost costs tc dl) as Hev by (intros; by apply (wadd_in_u 64)).
  assert (∀ amount, 0 ≤ amount → effects c (ctx_set_gas c (consume (ctx_gas_meter c) amount).1)) as Hgas.
  { intros. by apply rtc_once, eff_gas. }
  assert (∀ amount c1, 0 ≤ amount →
    effect (ctx_set_gas c (consume (ctx_gas_meter c) amount).1) c1 → effects c c1) as Hthen.
  { intros. eapply rtc_l; [by apply eff_gas|by apply rtc_once]. }
  destruct h; simpl; unfold host_storage_read, host_storage_write, host_caller, host_self_address,
    write_address, host_transfer, host_emit_event, host_abort;
    repeat match goal with
    | |- context [consume ?g ?a] =>
        specialize (Hgas a ltac:(auto)); specialize (Hthen a); destruct (consume g a); simpl in Hgas, Hthen
    end; intros Ho; repeat (step_match || simplify_eq/=); try apply Hgas; try apply rtc_refl; apply Hthen; auto.
  - apply (eff_write (ctx_set_gas c g)).
  - eapply (eff_transfer (ctx_set_gas c g)); [|eassumption]. apply Z.mod_pos_bound. lia.
  - apply (eff_event (ctx_set_gas c g)).
Qed.

Section Runs.
Context `{CryptoPrims} `{Wasmtime}.

Lemma run_guest_effects {A} costs c (g : Guest A) c' r :
  costs_ok costs → run_guest costs c g = Some (c', r) → effects c c'.
Proof.
  intros Hcost. revert c. induction g as [a|msg|h m k IH]; intros c Hr; simpl in Hr; [by simplify_eq; apply rtc_refl..|].
  pose proof (λ c', host_call_effects costs c m h c' Hcost) as Hh.
  destruct (host_call costs c m h) as [c1 m1 v|c1 msg|]; simplify_eq/=.
  - etrans; [by apply Hh|]. by eapply IH.
  - by apply Hh.
Qed.
Lemma run_or_effects {A} costs err c (g : Guest A) c' a :
  costs_ok costs → run_or costs err c g = Some (Ok (c', a)) → effects c c'.
Proof.
  intros ?. unfold run_or. destruct (run_guest costs c g) as [[c1 [a1|m]]|] eqn:E; simpl; intros ?; simplify_eq.
  by eapply run_guest_effects.
Qed.
Lemma call_export_effects costs c inst name ps c' d :
  costs_ok costs → call_export costs c inst name ps = Some (Ok (c', d)) → effects c c'.
Proof.
  intros ?. unfold call_export. destruct (wt_func _ _ _); [|done].
  destruct (run_or costs Trap c _) as [[[c1 [v i]]|]|] eqn:E; simpl; intros ?; simplify_eq/=.
  by eapply run_or_effects.
Qed.
Lemma call_with_args_effects costs c inst name args c' d :
  costs_ok costs → call_with_args costs c inst name args = Some (Ok (c', d)) → effects c c'.
Proof.
  intros ?. unfold call_with_args. destruct args as [|b args]; [by apply call_export_effects|].
  destruct (wt_func inst 1 "allocate"); [|by apply call_export_effects].
  destruct (run_or costs Execution c _) as [[[c1 [p i]]|]|] eqn:E; simpl; [|done..].
  destruct (wt_memory i); [|done]. destruct (mem_write _ _ _); [|done].
  intros Hc%call_export_effects; [|done]. etrans; [by eapply run_or_effects|done].
Qed.

(** A successful run leaves a context reached by effects; a failed one leaves
    the blank context. *)
Lemma execute_function_effects e md name args c c' r :
  costs_ok (we_gas_costs e) → execute_function e md name args c = Some (c', r) →
  if is_ok r then effects c c' else c' = blank_context c.
Proof.
  unfold execute_function. intros Hcost Hx.
  destruct (match (if vc_fuel_metering (we_config e) then _ else None) with Some f => _ | None => Ok () end)
    eqn:Ef; [|by simplify_eq/=].
  destruct (run_or _ Execution c _) as [[[c1 i]|]|] eqn:E1; simpl in Hx; [|by simplify_eq/=..].
  destruct (call_with_args _ c1 i name args) as [[[c2 d]|]|] eqn:E2; simpl in Hx; simplify_eq/=; [|done].
  etrans; [by eapply run_or_effects|by eapply call_with_args_effects].
Qed.
End Runs.

(** ** Invariants of the effects *)
(** The meter never passes the limit, and the fixed fields stay. *)
Definition gas_ok (c : ExecutionContext) : Prop :=
  0 ≤ gm_consumed (ctx_gas_meter c) ≤ gm_limit (ctx_gas_meter c).
Definition same_frame (c c' : ExecutionContext) : Prop :=
  ctx_caller c' = ctx_caller c ∧ ctx_contract_address c' = ctx_contract_address c ∧
  ctx_state_reader c' = ctx_state_reader c ∧ ctx_block_number c' = ctx_block_number c ∧
  gm_limit (ctx_gas_meter c') = gm_limit (ctx_gas_meter c).

Lemma transfer_inv c from to amount c' :
  transfer c from to amount = Ok c' →
  ∃ bal, get_balance c from = Ok bal ∧ amount ≤ bal ∧
    c' = ctx_set_balances c (add_delta (sub_delta (ctx_balance_changes c) from (as_i 128 amount)) to (as_i 128 amount)).
Proof.
  unfold transfer. destruct (get_balance c from) as [bal|] eqn:E; simpl; [|done].
  destruct (bal <? amount) eqn:El; [done|]. intros [= <-]. zbool. eauto.
Qed.

Lemma consume_spec m amount :
  0 ≤ gm_consumed m ≤ gm_limit m → gm_limit m < 2 ^ 64 - 1 → 0 ≤ amount →
  let '(m', r) := consume m amount in
  gm_limit m' = gm_limit m ∧ gm_consumed m ≤ gm_consumed m' ≤ gm_limit m ∧
  (if is_ok r then gm_consumed m' = gm_consumed m + amount else gm_limit m < gm_consumed m + amount).
Proof.
  intros Hm Hl Ha. unfold consume. destruct (gm_limit m <? sat_add 64 (gm_consumed m) amount) eqn:E;
    zbool; simpl; unfold sat_add in *; lia.
Qed.

Lemma effects_frame c c' : effects c c' → same_frame c c'.
Proof.
  induction 1 as [|c c1 c' He _ IH]; [by repeat split|].
  assert (same_frame c c1) as (? & ? & ? & ? & ?).
  { destruct He as [c a Ha| | c to a c2 _ Ht%transfer_inv | ]; [|by repeat split| |by repeat split].
    - repeat split. simpl. unfold consume. by destruct (_ <? _).
    - destruct Ht as (b & _ & _ & ->). by repeat split. }
  destruct IH as (? & ? & ? & ? & ?). repeat split; congruence.
Qed.

Lemma effects_gas c c' :
  effects c c' → gas_ok c → gm_limit (ctx_gas_meter c) < 2 ^ 64 → gas_ok c'.
Proof.
  induction 1 as [|c c1 c' He Hs IH]; [done|]. intros Hc Hl.
  assert (gas_ok c1 ∧ gm_limit (ctx_gas_meter c1) = gm_limit (ctx_gas_meter c)) as [H1 H2].
  { destruct He as [c a Ha| | c to a c2 _ Ht%transfer_inv | ]; [|done| |done].
    - unfold gas_ok in *. simpl. unfold consume, sat_add.
      destruct (_ <? _) eqn:E; simpl; zbool; lia.
    - destruct Ht as (b & _ & _ & ->). done. }
  apply IH; [done|lia].
Qed.

(** What the account database holds for the contract. *)
Definition base_balance (c : ExecutionContext) (a : Address) : Z :=
  match sr_get_account (ctx_state_reader c) a with
  | Ok r => default 0 (acc_balance <$> r)
  | Err _ => 0
  end.
Definition delta (c : ExecutionContext) (a : Address) : Z := default 0 (ctx_balance_changes c !! a).

(** Only the contract is debited, by no more than it owns, and what it loses
    the others gain. *)
Definition money_ok (c : ExecutionContext) : Prop :=
  map_sum id (ctx_balance_changes c) = 0 ∧
  (∀ a, a ≠ ctx_contract_address c → 0 ≤ delta c a) ∧
  0 ≤ base_balance c (ctx_contract_address c) + delta c (ctx_contract_address c) < 2 ^ 127 ∧
  0 ≤ base_balance c (ctx_contract_address c) < 2 ^ 127.

(** Storage writes and logs carry the contract's own address. *)
Definition own_writes (c : ExecutionContext) : Prop :=
  (∀ a k v, ctx_storage_changes c !! (a, k) = Some v → a = ctx_contract_address c) ∧
  Forall (λ l, log_address l = ctx_contract_address c) (ctx_logs c).

Lemma effects_own_writes c c' : effects c c' → own_writes c → own_writes c'.
Proof.
  induction 1 as [|c c1 c' He _ IH]; [done|]. intros [Hs Hl]. apply IH. clear IH.
  destruct He as [c a Ha|c k v|c to a c2 _ Ht%transfer_inv|c data]; try done.
  - split; [|done]. simpl. intros a k' v' Hk.
    apply lookup_insert_cases in Hk as [[[= <- <-] _]|[_ Hk]]; [done|by eapply Hs].
  - destruct Ht as (b & _ & _ & ->). done.
  - split; [done|]. simpl. apply Forall_app. split; [done|]. by constructor.
Qed.

Lemma delta_le_total c a :
  money_ok c → a ≠ ctx_contract_address c → delta c a ≤ - delta c (ctx_contract_address c).
Proof.
  intros (Hsum & Hpos & _ & _) Ha.
  assert (map_sum id (delete (ctx_contract_address c) (ctx_balance_changes c)) =
          - delta c (ctx_contract_address c)) as <-.
  { rewrite map_sum_delete_eq, Hsum. unfold delta.
    destruct (ctx_balance_changes c !! _); simpl; lia. }
  assert (∀ k v, delete (ctx_contract_address c) (ctx_balance_changes c) !! k = Some v → 0 ≤ id v) as Hd.
  { intros k v [Hk Hv]%lookup_delete_Some. specialize (Hpos k). unfold delta in Hpos.
    rewrite Hv in Hpos. apply Hpos. done. }
  unfold delta. destruct (ctx_balance_changes c !! a) as [v|] eqn:E; simpl.
  - apply (map_sum_lookup_le id _ a); [done|]. by rewrite lookup_delete_ne.
  - by apply map_sum_nonneg.
Qed.

Lemma get_balance_exact c b :
  money_ok c → get_balance c (ctx_contract_address c) = Ok b →
  b = base_balance c (ctx_contract_address c) + delta c (ctx_contract_address c).
Proof.
  intros (_ & _ & Hown & Hbase). unfold get_balance, base_balance, delta in *.
  destruct (sr_get_account _ _) as [r|]; simpl; [|done]. intros [= <-].
  rewrite (as_i_small 128) by lia. unfold iadd.
  rewrite (as_i_small 128) by lia. rewrite as_u_small by (unfold in_u; lia). lia.
Qed.

(** The deltas after moving [amt] from [own] to [to]. *)
Lemma moved_lookup (bc : gmap Address Z) own to amt a :
  let bc1 := <[own := default 0 (bc !! own) - amt]> bc in
  default 0 (<[to := default 0 (bc1 !! to) + amt]> bc1 !! a) =
  default 0 (bc !! a) + (if decide (a = to) then amt else 0) - (if decide (a = own) then amt else 0).
Proof.
  simpl. destruct (decide (a = to)) as [->|Ht].
  - rewrite lookup_insert_eq. simpl. destruct (decide (to = own)) as [->|Ho].
    + rewrite lookup_insert_eq. simpl. lia.
    + rewrite lookup_insert_ne by done. lia.
  - rewrite lookup_insert_ne by done. destruct (decide (a = own)) as [->|Ho].
    + rewrite lookup_insert_eq. simpl. lia.
    + rewrite lookup_insert_ne by done. lia.
Qed.

Lemma effects_money c c' : effects c c' → money_ok c → money_ok c'.
Proof.
  induction 1 as [|c c1 c' He _ IH]; [done|]. intros Hm. apply IH. clear IH.
  destruct He as [c a Ha|c k v|c to amt c2 Hamt Ht%transfer_inv|c data]; try done.
  destruct Ht as (b & Hb & Hle & ->). pose proof (get_balance_exact _ _ Hm Hb) as Hbal.
  pose proof (delta_le_total c to Hm) as Hto. clear Hb.
  destruct Hm as (Hsum & Hpos & Hown & Hbase). specialize (Hpos to) as Hpos_to.
  set (own := ctx_contract_address c) in *. set (bc := ctx_balance_changes c) in *.
  rewrite (as_i_small 128 amt) by lia.
  assert (sub_delta bc own amt = <[own := delta c own - amt]> bc) as Hsub.
  { unfold sub_delta, isub. change (default 0 (bc !! own)) with (delta c own). by rewrite as_i_small by lia. }
  set (bc1 := <[own := delta c own - amt]> bc) in *.
  assert (default 0 (bc1 !! to) = if decide (own = to) then delta c own - amt else delta c to) as Hd1.
  { unfold bc1. rewrite lookup_insert. by destruct (decide (own = to)). }
  assert (add_delta bc1 to amt = <[to := default 0 (bc1 !! to) + amt]> bc1) as Hadd.
  { unfold add_delta, iadd. rewrite Hd1. destruct (decide (own = to)); rewrite as_i_small; try done; try lia.
    specialize (Hto ltac:(done)). specialize (Hpos_to ltac:(done)). lia. }
  rewrite Hsub, Hadd.
  assert (∀ a, delta (ctx_set_balances c (<[to := default 0 (bc1 !! to) + amt]> bc1)) a =
    delta c a + (if decide (a = to) then amt else 0) - (if decide (a = own) then amt else 0)) as Hdelta.
  { intros a. exact (moved_lookup bc own to amt a). }
  split; [|split; [|split]].
  - assert (map_sum id bc1 = - amt) as Hs1.
    { unfold bc1. rewrite map_sum_insert, Hsum. change (delta c own) with (default 0 (bc !! own)).
      destruct (bc !! own); simpl; unfold id; lia. }
    change (map_sum id (<[to:=default 0 (bc1 !! to) + amt]> bc1) = 0).
    rewrite map_sum_insert, Hs1. destruct (bc1 !! to); simpl; unfold id; lia.
  - intros a Ha. simpl in Ha. rewrite Hdelta. specialize (Hpos a Ha).
    destruct (decide (a = own)) as [Ho|_]; [by destruct Ha|]. destruct (decide (a = to)); lia.
  - change (0 ≤ base_balance c own +
      delta (ctx_set_balances c (<[to := default 0 (bc1 !! to) + amt]> bc1)) own < 2 ^ 127).
    rewrite Hdelta, (decide_True (P := own = own)) by done. destruct (decide (own = to)); lia.
  - exact Hbase.
Qed.

(** ** The engine's guarantees *)
Section EngineProperties.
Context `{CryptoPrims} `{Wasmtime}.

(** A context as the consensus crate builds one. *)
Definition fresh_context (caller addr : Address) (value block_number timestamp chain_id gas : Z)
    (r : StateReader) : ExecutionContext :=
  ExecutionContext_new caller caller addr value block_number timestamp chain_id gas r.

(** The whole contract of a run that started on a fresh context: confined to
    the contract's storage and money, within the gas limit. *)
Record confined (addr : Address) (gas : Z) (c0 c : ExecutionContext) : Prop := {
  cf_storage a k v : ctx_storage_changes c !! (a, k) = Some v → a = addr;
  cf_logs : Forall (λ l, log_address l = addr) (ctx_logs c);
  cf_sum : map_sum id (ctx_balance_changes c) = 0;
  cf_others a : a ≠ addr → 0 ≤ delta c a;
  cf_solvent : 0 ≤ base_balance c0 addr + delta c addr;
  cf_gas : 0 ≤ gm_consumed (ctx_gas_meter c) ≤ gas
}.

Lemma effects_confined addr gas c c' :
  effects c c' → ctx_contract_address c = addr → gm_limit (ctx_gas_meter c) = gas →
  in_u 64 gas → gas_ok c → money_ok c → own_writes c → confined addr gas c c'.
Proof.
  intros He Ha Hg [? ?] Hgas Hm Hw.
  destruct (effects_frame _ _ He) as (_ & Ha' & Hr & _ & Hl).
  pose proof (effects_gas _ _ He Hgas ltac:(lia)) as [? ?].
  destruct (effects_own_writes _ _ He Hw) as [Hs Hlogs].
  destruct (effects_money _ _ He Hm) as (Hsum & Hpos & Hown & _).
  unfold base_balance in *. rewrite Ha', Ha in *. rewrite Hr in *.
  split; first [lia|by eauto|exact (proj1 Hown)].
Qed.

Lemma blank_confined addr gas c0 c :
  in_u 64 gas → 0 ≤ base_balance c0 addr → confined addr gas c0 (blank_context c).
Proof. intros [? ?] ?. split; unfold delta; simpl; intros; rewrite ?lookup_empty in *; simplify_eq/=; first [lia|done]. Qed.

Lemma fresh_ok caller addr v bn ts cid gas r :
  in_u 64 gas → let c := fresh_context caller addr v bn ts cid gas r in
  0 ≤ base_balance c addr < 2 ^ 127 → gas_ok c ∧ money_ok c ∧ own_writes c.
Proof.
  intros [? ?] c Hb. split; [|split].
  - split; simpl; lia.
  - split; [apply map_sum_empty|]. unfold delta. simpl. split; [done|]. rewrite Z.add_0_r. done.
  - by split.
Qed.

Lemma compile_module_costs e code e' r :
  compile_module e code = (e', r) → we_gas_costs e' = we_gas_costs e ∧ we_config e' = we_config e.
Proof.
  unfold compile_module. destruct (_ !! _); [by intros [= <- <-]|].
  destruct (validate_module e code); [|by intros [= <- <-]].
  destruct (wt_module code); by intros [= <- <-].
Qed.
Lemma load_module_costs e h c e' r :
  load_module e h c = (e', r) → we_gas_costs e' = we_gas_costs e.
Proof.
  unfold load_module. destruct (_ !! _); [by intros [= <- <-]|].
  destruct (sr_get_code _ _) as [[code|]|]; try by intros [= <- <-].
  destruct (compile_module e code) as [e1 [[md ch]|]] eqn:E; intros [= <- <-];
    by eapply compile_module_costs.
Qed.

Lemma call_export_error costs c inst name ps err :
  call_export costs c inst name ps = Some (Err err) → ∀ l u, err ≠ OutOfGas l u.
Proof.
  unfold call_export, run_or. destruct (wt_func _ _ _); [|by intros; simplify_eq].
  destruct (run_guest _ _ _) as [[c1 [[v i]|m]]|]; simpl; intros; by simplify_eq/=.
Qed.
Lemma execute_function_error e md name args c c' err :
  execute_function e md name args c = Some (c', Err err) → ∀ l u, err ≠ OutOfGas l u.
Proof.
  unfold execute_function, run_or. intros Hx l u ->.
  destruct (if vc_fuel_metering (we_config e) then _ else None) as [f|]; simpl in Hx;
    [destruct (wt_set_fuel f); simpl in Hx; [|by simplify_eq]|].
  all: destruct (run_guest _ _ _) as [[c1 [i|m]]|]; simplify_eq/=.
  all: destruct (call_with_args _ c1 i name args) as [[[c2 d]|]|] eqn:E2; simplify_eq/=.
  all: unfold call_with_args, run_or in E2; destruct args;
    [by eapply call_export_error|]; destruct (wt_func i 1 "allocate"); [|by eapply call_export_error];
    destruct (run_guest _ _ _) as [[c3 [[p i']|m]]|]; simplify_eq/=;
    destruct (wt_memory i'); [|by simplify_eq]; destruct (mem_write _ _ _); [|by simplify_eq];
    by eapply call_export_error.
Qed.

(** C6: Whatever code a contract runs, a call on a fresh context writes storage and
    emits logs only under the contract's own address, moves money only out of the contract
    (the balance deltas sum to zero, nobody else is debited, the contract never goes below
    zero) and uses no more gas than the limit. *)
Theorem call_contract_confined e code_hash f args caller addr v bn ts cid gas r e' c' res :
  let c := fresh_context caller addr v bn ts cid gas r in
  costs_ok (we_gas_costs e) → in_u 64 gas → 0 ≤ base_balance c addr < 2 ^ 127 →
  call_contract e code_hash f args c = Some (e', c', Ok res) →
  (∀ a k w, ctx_storage_changes c' !! (a, k) = Some w → a = addr) ∧
  Forall (λ l, log_address l = addr) (cr_logs res) ∧
  map_sum id (ctx_balance_changes c') = 0 ∧
  (∀ a, a ≠ addr → 0 ≤ delta c' a) ∧
  0 ≤ base_balance c addr + delta c' addr ∧
  0 ≤ cr_gas_used res ≤ gas.
Proof.
  intros c Hcost Hgas Hb Hc. unfold call_contract in Hc.
  destruct (load_module e code_hash c) as [e1 [md|]] eqn:El; [|by simplify_eq].
  apply load_module_costs in El as Hc1. rewrite <- Hc1 in Hcost.
  destruct (execute_function e1 md f args c) as [[c1 [data|err]]|] eqn:Ex; simpl in Hc; [| |done].
  - pose proof (execute_function_effects _ _ _ _ _ _ _ Hcost Ex) as He. simpl in He.
    destruct (fresh_ok caller addr v bn ts cid gas r Hgas Hb) as (? & ? & ?).
    destruct (effects_confined addr gas c c1) as [? ? ? ? ? ?]; try done.
    simplify_eq. simpl. destruct Hgas. unwrap. rewrite !Z.sub_0_r. naive_solver.
  - pose proof (execute_function_effects _ _ _ _ _ _ _ Hcost Ex) as He. simpl in He. subst c1.
    destruct (blank_confined addr gas c c Hgas ltac:(lia)) as [? ? ? ? ? ?].
    pose proof (execute_function_error _ _ _ _ _ _ _ Ex) as Hne.
    destruct err; try (by destruct (Hne limit used)); simplify_eq; simpl in *; unwrap; naive_solver.
Qed.

(** A contract call that traps or fails leaves no storage change, no balance change
    and no log, is never reported as out of gas, and is charged no gas at all. *)
Theorem call_failure_no_effect_no_gas e code_hash f args caller addr v bn ts cid gas r e' c' res :
  let c := fresh_context caller addr v bn ts cid gas r in
  costs_ok (we_gas_costs e) →
  call_contract e code_hash f args c = Some (e', c', Ok res) →
  cr_status res ≠ TxSuccess →
  ctx_storage_changes c' = ∅ ∧ ctx_balance_changes c' = ∅ ∧ cr_logs res = [] ∧
  cr_gas_used res = 0 ∧ cr_status res ≠ TxOutOfGas.
Proof.
  intros c Hcost Hc Hs. unfold call_contract in Hc.
  destruct (load_module e code_hash c) as [e1 [md|]] eqn:El; [|by simplify_eq].
  apply load_module_costs in El as Hc1. rewrite <- Hc1 in Hcost.
  destruct (execute_function e1 md f args c) as [[c1 [data|err]]|] eqn:Ex; simpl in Hc;
    [by simplify_eq| |done].
  pose proof (execute_function_effects _ _ _ _ _ _ _ Hcost Ex) as He. simpl in He. subst c1.
  pose proof (execute_function_error _ _ _ _ _ _ _ Ex) as Hne.
  destruct err; try (by destruct (Hne limit used)); simplify_eq; by repeat split.
Qed.

(** Two deployments by one sender in one block get the same contract address,
    whatever their code: the address depends on the sender and the block number only. *)
Theorem deploys_in_one_block_share_address e1 code1 args1 c1 e1' c1' r1 e2 code2 args2 c2 e2' c2' r2 :
  ctx_caller c1 = ctx_caller c2 → ctx_block_number c1 = ctx_block_number c2 →
  deploy_contract e1 code1 args1 c1 = Some (e1', c1', Ok r1) →
  deploy_contract e2 code2 args2 c2 = Some (e2', c2', Ok r2) →
  dr_contract_address r1 = dr_contract_address r2.
Proof.
  assert (∀ e code args c e' c' res, deploy_contract e code args c = Some (e', c', Ok res) →
    dr_contract_address res = derive_contract_address c) as Haddr.
  { intros e code args c e' c' res Hd. unfold deploy_contract in Hd.
    destruct (compile_module e code) as [e3 [[md ch]|]]; [|done].
    destruct (execute_function _ _ _ _ _) as [[c3 [d|err]]|]; simpl in Hd; [by simplify_eq| |done].
    destruct err; by simplify_eq. }
  intros Hcall Hbn H1%Haddr H2%Haddr. rewrite H1, H2. unfold derive_contract_address.
  by rewrite Hcall, Hbn.
Qed.
End EngineProperties.

(** Metered events. *)
Theorem emit_event_can_be_free c mem data_ptr :
  0 ≤ data_ptr ≤ lenZ mem → gas_ok c → gm_limit (ctx_gas_meter c) < 2 ^ 64 - 1 →
  ∃ c', host_emit_event GasCosts_default c (Some mem) (-1) data_ptr 0 = HReturn c' (Some mem) 0 ∧
    gm_consumed (ctx_gas_meter c') = gm_consumed (ctx_gas_meter c) ∧
    length (ctx_logs c') = S (length (ctx_logs c)).
Proof.
  intros Hp Hg Hl. unfold host_emit_event.
  change (event_cost GasCosts_default (-1) 0) with 0.
  pose proof (consume_spec (ctx_gas_meter c) 0 Hg Hl ltac:(lia)) as Hc.
  destruct (consume _ 0) as [g [[]|]]; simpl in *; [|unfold gas_ok in Hg; lia].
  unfold mem_read. change (as_usize 0) with 0.
  rewrite (proj2 (Z.leb_le _ _)).
  - eexists. split; [done|]. simpl. rewrite length_app. simpl. lia.
  - unfold as_usize, as_u. pose proof (Z.mod_le data_ptr (2 ^ 64) ltac:(lia) ltac:(lia)). lia.
Qed.

(** A guest that calls host_storage_write with a negative key length makes the host
    panic. *)
Theorem negative_length_panics costs c mem key_ptr key_len val_ptr val_len :
  - 2 ^ 31 ≤ key_len < 0 →
  host_storage_write costs c (Some mem) key_ptr key_len val_ptr val_len = HPanic.
Proof.
  intros Hk. unfold host_storage_write. destruct (consume _ _) as [g r].
  assert (alloc_ok (as_usize key_len) = false) as ->; [|done].
  unfold alloc_ok, as_usize, as_u. apply Z.ltb_ge.
  rewrite <- (Z.mod_unique key_len (2 ^ 64) (-1) (key_len + 2 ^ 64)); lia.
Qed.

(** ** A concrete guest, for evaluation
    A module is the script of host calls its ["run"] function makes. *)
Module ToyWasm.
Fixpoint play (script : list HostCall) (m : memory) (i : list HostCall) : Guest (Z * list HostCall) :=
  match script with
  | [] => GDone (7, i)
  | h :: rest => GHost h m (λ m' _, play rest m' i)
  end.
#[export] Instance toy_wasm : Wasmtime := {|
  Module_ := list HostCall;
  Inst := list HostCall;
  wt_validate _ := Ok ();
  wt_module _ := Ok [];
  wt_set_fuel _ := Ok ();
  wt_instantiate md _ := GDone md;
  wt_func i n name :=
    if (n =? 0)%nat && bool_decide (name = "run"%string)
    then Some (λ _, play i (Some (replicate 64 Byte.x00)) i)
    else if bool_decide (name = "fail"%string) then Some (λ _, GTrap "unreachable") else None;
  wt_memory _ := None;
  wt_set_memory i _ := i;
  wt_memory_size _ := 1;
  wt_abort_display _ := "aborted"
|}.

Import ToyCrypto.
Definition addr : Address := ba_repeat 20 Byte.x05.
Definition user : Address := ba_repeat 20 Byte.x06.
Definition code_hash : Blake3Hash := ba_repeat 32 Byte.x01.
Definition reader : StateReader := {|
  sr_get_account a := Ok (if bool_decide (a = addr) then Some (Account_new addr 100) else None);
  sr_get_storage _ _ := Ok None;
  sr_get_code _ := Ok None |}.
Definition engine (script : list HostCall) : WasmEngine := {|
  we_module_cache := {[ code_hash := script ]}; we_config := VmConfig_default;
  we_gas_costs := GasCosts_default |}.
Definition script : list HostCall :=
  [HcStorageWrite 0 4 4 8; HcTransfer 0 40; HcTransfer 0 1000; HcEmitEvent 0 1 0 3].
Definition ctx : ExecutionContext := fresh_context user addr 0 9 1000 1 100000 reader.

Definition call (f : string) : option (ExecutionContext * CallResult) :=
  match call_contract (engine script) code_hash f [] ctx with
  | Some (_, c', Ok res) => Some (c', res) | _ => None end.
Lemma call_contract_confined_witness :
  (λ p, (cr_status p.2, cr_gas_used p.2, delta p.1 addr)) <$> call "run" = Some (TxSuccess, 10374, -40) ∧
  match call "run" with
  | Some (c', res) =>
      (∀ a k w, ctx_storage_changes c' !! (a, k) = Some w → a = addr) ∧
      map_sum id (ctx_balance_changes c') = 0 ∧ 0 ≤ cr_gas_used res ≤ 100000
  | None => False
  end.
Proof.
  assert ((λ p, (cr_status p.2, cr_gas_used p.2, delta p.1 addr)) <$> call "run" =
    Some (TxSuccess, 10374, -40)) as Hs by by vm_compute.
  split; [exact Hs|]. unfold call in *.
  destruct (call_contract (engine script) code_hash "run" [] ctx) as [[[e' c'] [res|]]|] eqn:E;
    [|discriminate Hs..].
  destruct (call_contract_confined (engine script) code_hash "run" [] user addr 0 9 1000 1 100000 reader e' c' res)
      as (? & ? & ? & ? & ? & ?); [by repeat split|by vm_compute|by vm_compute|exact E|].
  split; [assumption|split; assumption].
Defined.

Lemma call_failure_no_effect_no_gas_witness :
  (cr_status ∘ snd) <$> call "fail" = Some (TxFailure "trap: unreachable") ∧
  match call "fail" with
  | Some (c', res) => ctx_storage_changes c' = ∅ ∧ cr_gas_used res = 0
  | None => False
  end.
Proof.
  assert ((cr_status ∘ snd) <$> call "fail" = Some (TxFailure "trap: unreachable")) as Hs by by vm_compute.
  split; [done|]. unfold call in *.
  destruct (call_contract (engine script) code_hash "fail" [] ctx) as [[[e' c'] [res|]]|] eqn:E; [|done..].
  destruct (call_failure_no_effect_no_gas (engine script) code_hash "fail" [] user addr 0 9 1000 1 100000 reader e' c' res)
      as (? & ? & ? & ? & ?); [by repeat split|exact E| |done].
  simpl in Hs. by injection Hs as ->.
Defined.

Definition deploy (code : bytes) : option DeployResult :=
  match deploy_contract (engine []) code [] ctx with Some (_, _, Ok r) => Some r | _ => None end.
Lemma deploys_in_one_block_share_address_witness :
  dr_code_hash <$> deploy [Byte.x01] ≠ dr_code_hash <$> deploy [Byte.x02] ∧
  is_Some (deploy [Byte.x01]) ∧
  dr_contract_address <$> deploy [Byte.x01] = dr_contract_address <$> deploy [Byte.x02].
Proof.
  split; [by apply (bool_decide_eq_false_1 (dr_code_hash <$> deploy [Byte.x01] = _)); vm_compute|].
  assert (is_Some (deploy [Byte.x01])) as S1.
  { by apply (bool_decide_eq_true_1 (is_Some (deploy [Byte.x01]))); vm_compute. }
  assert (is_Some (deploy [Byte.x02])) as S2.
  { by apply (bool_decide_eq_true_1 (is_Some (deploy [Byte.x02]))); vm_compute. }
  split; [exact S1|]. unfold deploy in *.
  destruct (deploy_contract (engine []) [Byte.x01] [] ctx) as [[[e1 c1] [r1|]]|] eqn:E1;
    [|by destruct S1..].
  destruct (deploy_contract (engine []) [Byte.x02] [] ctx) as [[[e2 c2] [r2|]]|] eqn:E2;
    [|by destruct S2..].
  simpl. f_equal. by eapply (deploys_in_one_block_share_address (engine []) [Byte.x01] [] ctx e1 c1 r1
      (engine []) [Byte.x02] [] ctx e2 c2 r2).
Defined.

Lemma emit_event_can_be_free_witness :
  ∃ c', host_emit_event GasCosts_default ctx (Some (replicate 8 Byte.x00)) (-1) 4 0 =
          HReturn c' (Some (replicate 8 Byte.x00)) 0 ∧
        gm_consumed (ctx_gas_meter c') = 0 ∧ length (ctx_logs c') = 1%nat.
Proof.
  apply (emit_event_can_be_free ctx (replicate 8 Byte.x00) 4); [by vm_compute..].
Defined.

Lemma negative_length_panics_witness :
  host_storage_write GasCosts_default ctx (Some []) 0 (-1) 0 0 = HPanic.
Proof. apply (negative_length_panics GasCosts_default ctx [] 0 (-1) 0 0). lia. Defined.
End ToyWasm.
