(* ===== verification/Consensus.v ===== *)
(** * Consensus: errors, proposer selection and slashing
    (crates/consensus: error.rs, pos.rs, slashing.rs)

    The ChaCha20 generator of the [rand] crates is the class [Rng]: a number
    below the bound, determined by the seed. *)

From S2P Require Import Prelude Crypto Merkle CoreTypes Validators Storage Vm.

(** ** error.rs *)
Inductive ConsensusError : Type :=
| CInvalidBlock (msg : string)
| BlockValidation (msg : string)
| UnknownParent (msg : string)
| WrongProposer (expected got : string)
| StateTransition (msg : string)
| TransactionPoolError (msg : string)
| TransactionExecution (msg : string)
| FinalityError (msg : string)
| EpochError (msg : string)
| SlashingError (msg : string)
| NotValidator
| CStorage (e : StorageError)
| CCore (e : CoreError)
| CVm (e : VmError)
| CCrypto (e : CryptoError).

Definition consensus_error_display (e : ConsensusError) : string :=
  match e with
  | CInvalidBlock m => "invalid block: " +:+ m
  | BlockValidation m => "block validation failed: " +:+ m
  | UnknownParent m => "unknown parent block: " +:+ m
  | WrongProposer e g => "wrong proposer: expected " +:+ e +:+ ", got " +:+ g
  | StateTransition m => "state transition error: " +:+ m
  | TransactionPoolError m => "transaction pool error: " +:+ m
  | TransactionExecution m => "transaction execution error: " +:+ m
  | FinalityError m => "finality error: " +:+ m
  | EpochError m => "epoch error: " +:+ m
  | SlashingError m => "slashing error: " +:+ m
  | NotValidator => "not a validator"
  | CStorage e => "storage error: " +:+ storage_error_display e
  | CCore e => "core error: " +:+ core_error_display e
  | CVm e => "vm error: " +:+ vm_error_display e
  | CCrypto e => "crypto error: " +:+ crypto_error_display e
  end.

(** ** pos.rs *)
(** [ChaCha20Rng::from_seed(seed).gen_range(0..n)] *)
Class Rng := gen_range : barray 32 → Z → Z.
Class RngLaws `{Rng} : Prop := gen_range_bound seed n : 0 < n → 0 ≤ gen_range seed n < n.

(** The loop over the cumulative stake. *)
Fixpoint pick (cumulative target : Z) (l : list ValidatorInfo) : option Address :=
  match l with
  | [] => None
  | v :: l' =>
      let cumulative := cumulative +!! vi_stake v in
      if target <? cumulative then Some (vi_address v) else pick cumulative target l'
  end.

Section Pos.
Context `{CryptoPrims} `{Rng}.

Definition proposer_seed (parent_hash : Blake3Hash) (block_number : Z) : Blake3Hash :=
  hash_multiple [ba_bytes parent_hash; to_le_bytes 8 block_number; b_ "proposer_selection"].

Definition select_proposer (l : list ValidatorInfo) (parent_hash : Blake3Hash) (block_number : Z)
    : result ConsensusError Address :=
  match l with
  | [] => Err (EpochError "no active validators")
  | [v] => Ok (vi_address v)
  | v :: _ =>
      let seed := proposer_seed parent_hash block_number in
      let total_stake := wsum 128 vi_stake l in
      if total_stake =? 0 then Err (EpochError "total stake is zero")
      else
        let target := gen_range seed total_stake in
        match pick 0 target l with
        | Some a => Ok a
        | None => Ok (vi_address (default v (last l)))
        end
  end.

Definition verify_proposer (proposer : Address) (l : list ValidatorInfo) (parent_hash : Blake3Hash)
    (block_number : Z) : result ConsensusError () :=
  expected ← select_proposer l parent_hash block_number;
  if negb (bool_decide (proposer = expected)) then
    Err (WrongProposer (Address_to_hex expected) (Address_to_hex proposer))
  else Ok ().
End Pos.

(** ** slashing.rs *)
Inductive SlashReason :=
| DoubleSign (block_a block_b : Blake3Hash) (height : Z)
| Downtime (missed_blocks window : Z).
Record SlashPenalty : Type := { sp_amount : Z; sp_jail : bool; sp_jail_duration_ms : Z }.

Definition evaluate_evidence (p : ConsensusParams) (reason : SlashReason) (v : ValidatorInfo)
    : option SlashPenalty :=
  match reason with
  | DoubleSign _ _ _ =>
      Some {| sp_amount := vi_stake v *!! cp_slash_fraction_double_sign p / 10000;
              sp_jail := true; sp_jail_duration_ms := cp_downtime_jail_duration_ms p *! 10 |}
  | Downtime missed _ =>
      if cp_max_missed_blocks p <? missed then
        Some {| sp_amount := vi_stake v *!! cp_slash_fraction_downtime p / 10000;
                sp_jail := true; sp_jail_duration_ms := cp_downtime_jail_duration_ms p |}
      else None
  end.

Definition apply_slash (p : ConsensusParams) (v : ValidatorInfo) (pen : SlashPenalty) (current_time : Z)
    : ValidatorInfo :=
  let slash_amount := Z.min (sp_amount pen) (vi_stake v) in
  let v := vi_set_stake v (vi_stake v -!! slash_amount) in
  let v := vi_set_slash_count v (wadd 32 (vi_slash_count v) 1) in
  let v := if sp_jail pen then
             vi_set_active (vi_set_jailed v (Some (current_time +! sp_jail_duration_ms pen))) false
           else v in
  if vi_stake v <? cp_min_stake p then vi_set_active v false else v.

Definition detect_double_sign (hash_a hash_b : Blake3Hash) (height : Z) : option SlashReason :=
  if bool_decide (hash_a = hash_b) then None else Some (DoubleSign hash_a hash_b height).

(** ** Properties of proposer selection *)
Definition prefix_stake (l : list ValidatorInfo) (i : nat) : Z := sumZ vi_stake (take i l).

Section PosLemmas.
Implicit Types l : list ValidatorInfo.

Lemma pick_elem l cum t a : pick cum t l = Some a → ∃ v, v ∈ l ∧ vi_address v = a.
Proof.
  revert cum. induction l as [|v l IH]; intros cum; simpl; [done|].
  destruct (t <? _); [intros [= <-]; exists v; split; [left|done]|].
  intros (w & ? & ?)%IH. exists w. split; [by right|done].
Qed.

(** The target falls in the interval of the validator that is picked. *)
Lemma pick_interval l cum t i v :
  stakes_ok l → 0 ≤ cum → cum + sumZ vi_stake l < 2 ^ 128 → l !! i = Some v →
  cum + prefix_stake l i ≤ t < cum + prefix_stake l (S i) →
  pick cum t l = Some (vi_address v).
Proof.
  unfold prefix_stake. revert cum i. induction l as [|w l IH]; intros cum i Hok Hc Hs Hi Ht; [done|].
  apply Forall_cons in Hok as [Hw Hok]. simpl in Hs.
  assert (0 ≤ sumZ vi_stake l).
  { apply sumZ_nonneg. intros x Hx. by eapply (proj1 (Forall_forall _ _) Hok). }
  simpl. unwrap. destruct i as [|i]; simpl in *.
  - simplify_eq. by rewrite (proj2 (Z.ltb_lt _ _)) by lia.
  - assert (0 ≤ sumZ vi_stake (take i l)).
    { apply sumZ_nonneg. intros x Hx. eapply (proj1 (Forall_forall _ _) Hok).
      by eapply elem_of_take in Hx as (? & ? & _); eapply list_elem_of_lookup_2. }
    rewrite (proj2 (Z.ltb_ge _ _)) by lia. apply (IH _ i); try done; lia.
Qed.

Lemma pick_total l t :
  stakes_ok l → sumZ vi_stake l < 2 ^ 128 → 0 ≤ t < sumZ vi_stake l →
  ∃ i v, l !! i = Some v ∧ prefix_stake l i ≤ t < prefix_stake l (S i).
Proof.
  intros Hok Hs. unfold prefix_stake. revert t. induction l as [|w l IH]; intros t Ht; simpl in *; [lia|].
  apply Forall_cons in Hok as [Hw Hok].
  destruct (decide (t < vi_stake w)).
  - exists 0%nat, w. simpl. split; [done|lia].
  - destruct (IH Hok ltac:(lia) (t - vi_stake w) ltac:(lia)) as (i & v & Hi & Hv).
    exists (S i), v. simpl. split; [done|]. lia.
Qed.
End PosLemmas.

Section PosProperties.
Context `{CryptoPrims} `{RngLaws}.
Implicit Types l : list ValidatorInfo.

(** A validator list proposers are drawn from. *)
Definition drawable l : Prop :=
  stakes_ok l ∧ NoDup (vi_address <$> l) ∧ 0 < sumZ vi_stake l < 2 ^ 128.

Lemma pick_iff l t i v :
  drawable l → l !! i = Some v → 0 ≤ t < sumZ vi_stake l →
  pick 0 t l = Some (vi_address v) ↔ prefix_stake l i ≤ t < prefix_stake l i + vi_stake v.
Proof.
  intros (Hok & Hnd & Hs) Hi Ht.
  assert (prefix_stake l i + vi_stake v = prefix_stake l (S i)) as ->.
  { unfold prefix_stake. erewrite take_S_r by done. rewrite sumZ_app. simpl. lia. }
  split.
  - intros Hp. destruct (pick_total l t Hok ltac:(lia) Ht) as (j & w & Hj & Hw).
    rewrite (pick_interval l 0 t j w) in Hp by (done || lia). injection Hp as Ha.
    assert (i = j) as ->; [|done]. eapply NoDup_lookup; [exact Hnd|..]; rewrite list_lookup_fmap.
    + by rewrite Hi.
    + rewrite Hj. simpl. by rewrite Ha.
  - intros Hv. by apply (pick_interval l 0 t i v); try done; lia.
Qed.

Lemma prefix_stake_bounds l i v :
  stakes_ok l → l !! i = Some v →
  0 ≤ prefix_stake l i ∧ prefix_stake l i + vi_stake v ≤ sumZ vi_stake l.
Proof.
  intros Hok Hi.
  assert (sumZ vi_stake l = prefix_stake l i + (vi_stake v + sumZ vi_stake (drop (S i) l))) as Hsum.
  { pose proof (f_equal (sumZ vi_stake) (take_drop_middle l i v Hi)) as Heq.
    rewrite sumZ_app in Heq. simpl in Heq. unfold prefix_stake. lia. }
  assert (∀ l', (∀ x, x ∈ l' → x ∈ l) → 0 ≤ sumZ vi_stake l') as Hpos.
  { intros l' Hin. apply sumZ_nonneg. intros x Hx. eapply (proj1 (Forall_forall _ _) Hok). by apply Hin. }
  split.
  - apply Hpos. intros x Hx. by apply elem_of_take in Hx as (? & ?%list_elem_of_lookup_2 & _).
  - assert (0 ≤ sumZ vi_stake (drop (S i) l)); [|lia].
    apply Hpos. intros x [k Hk]%list_elem_of_lookup_1. rewrite lookup_drop in Hk.
    by apply list_elem_of_lookup_2 in Hk.
Qed.

(** C7: select_proposer is the walk over cumulative stake at a target below the total
    that depends only on the parent hash and the block number, and each validator is picked
    by exactly as many of the possible targets as it has stake: selection is proportional to
    stake. *)
Theorem proposer_stake_weighted l parent n :
  drawable l → (2 ≤ length l)%nat →
  (∃ t a, 0 ≤ t < sumZ vi_stake l ∧ t = gen_range (proposer_seed parent n) (sumZ vi_stake l) ∧
     pick 0 t l = Some a ∧ select_proposer l parent n = Ok a) ∧
  (∀ v, v ∈ l →
     length (filter (λ t, pick 0 t l = Some (vi_address v)) (seqZ 0 (sumZ vi_stake l))) = Z.to_nat (vi_stake v)).
Proof.
  intros Hd Hlen. pose proof Hd as (Hok & Hnd & Hs). split.
  - pose proof (gen_range_bound (proposer_seed parent n) (sumZ vi_stake l) ltac:(lia)) as Ht.
    destruct (pick_total l _ Hok ltac:(lia) Ht) as (i & v & Hi & Hv).
    pose proof (pick_interval l 0 _ i v Hok ltac:(lia) ltac:(lia) Hi Hv) as Hpick.
    eexists _, _. split; [exact Ht|]. split; [done|]. split; [exact Hpick|].
    destruct l as [|v0 [|v1 l]]; [simpl in Hlen; lia..|].
    unfold select_proposer. rewrite (wsum_small 128) by (unfold in_u; lia).
    rewrite (proj2 (Z.eqb_neq _ _)) by lia. by rewrite Hpick.
  - intros v [i Hi]%list_elem_of_lookup_1.
    destruct (prefix_stake_bounds l i v Hok Hi). pose proof (proj1 (Forall_lookup _ _) Hok i v Hi) as Hv.
    rewrite (filter_seqZ _ _ (prefix_stake l i) (vi_stake v)); try done.
    + apply length_seqZ.
    + intros z Hz. by apply pick_iff.
Qed.

(** The proposer is a member, and the check accepts only it. *)
Theorem verify_proposer_sound p l parent n :
  verify_proposer p l parent n = Ok () ↔ select_proposer l parent n = Ok p.
Proof.
  unfold verify_proposer. destruct (select_proposer l parent n) as [a|] eqn:E; simpl; [|by split].
  case_bool_decide as Hp; simpl; [by subst|]. split; [done|]. congruence.
Qed.
Lemma select_proposer_elem l parent n a :
  select_proposer l parent n = Ok a → ∃ v, v ∈ l ∧ vi_address v = a.
Proof.
  unfold select_proposer. destruct l as [|v [|w l]]; [done| |].
  - intros [= <-]. exists v. split; [left|done].
  - destruct (_ =? 0); [done|]. destruct (pick _ _ _) as [b|] eqn:E.
    + intros [= <-]. by eapply pick_elem.
    + intros [= <-]. destruct (last (v :: w :: l)) as [z|] eqn:El; simpl.
      * exists z. split; [|by simpl in El; rewrite El]. by eapply last_Some_elem_of.
      * exists v. split; [left|by simpl in El; rewrite El].
Qed.
End PosProperties.

(** ** Properties of slashing *)
(** Slashing on evidence takes the smaller of the penalty and the stake, so the
    stake never underflows, jails the validator until the computed time and removes it from
    the active validators. *)
Theorem apply_slash_spec p v reason pen now :
  in_u 128 (vi_stake v) → 0 ≤ cp_slash_fraction_double_sign p → 0 ≤ cp_slash_fraction_downtime p →
  evaluate_evidence p reason v = Some pen →
  let v' := apply_slash p v pen now in
  vi_stake v' = vi_stake v - Z.min (sp_amount pen) (vi_stake v) ∧
  0 ≤ vi_stake v' ≤ vi_stake v ∧ in_u 128 (vi_stake v') ∧
  vi_is_active v' = false ∧ is_votable v' = false ∧
  vi_jailed_until v' = Some (now +! sp_jail_duration_ms pen) ∧
  vi_address v' = vi_address v ∧ vi_public_key v' = vi_public_key v.
Proof.
  intros Hs Hf1 Hf2 He.
  assert (sp_jail pen = true ∧ 0 ≤ sp_amount pen) as [Hj Ha].
  { destruct reason; simpl in He; [|destruct (_ <? _); [|done]]; simplify_eq/=; split; try done;
      apply Z.div_pos; try lia; by apply (wmul_in_u 128). }
  unfold apply_slash. rewrite Hj. simpl. unfold in_u in Hs. unwrap.
  destruct (_ <? cp_min_stake p); simpl; unfold is_votable, in_u; simpl; repeat split; lia.
Qed.

Lemma apply_slash_spec_witness :
  let v := ValidatorInfo_new (ba_repeat 20 Byte.x01) (ba_repeat 32 Byte.x01) 1000 in
  let p := ConsensusParams_default in
  let r := DoubleSign (ba_repeat 32 Byte.x01) (ba_repeat 32 Byte.x02) 5 in
  ∃ pen, evaluate_evidence p r v = Some pen ∧ vi_stake (apply_slash p v pen 7) = 950 ∧
    is_votable (apply_slash p v pen 7) = false.
Proof.
  intros v p r. eexists. split; [reflexivity|].
  destruct (apply_slash_spec p v r {| sp_amount := 50; sp_jail := true; sp_jail_duration_ms := 6000000 |} 7)
    as (H1 & _ & _ & _ & H2 & _); [by vm_compute..|]. split; [exact H1|exact H2].
Defined.

(** ** A concrete generator, for evaluation *)
Module ToyRng.
#[export] Instance toy_rng : Rng := λ seed n, from_le_bytes (ba_bytes seed) mod n.
#[export] Instance toy_rng_laws : RngLaws.
Proof. intros seed n Hn. by apply Z.mod_pos_bound. Qed.
Import ToyCrypto.
Definition val (b : byte) (stake : Z) : ValidatorInfo :=
  ValidatorInfo_new (KeyPair_address (kp b)) (public_key (kp b)) stake.
Definition vals : list ValidatorInfo := [val Byte.x01 10; val Byte.x02 20; val Byte.x03 30].
Lemma vals_drawable : drawable vals.
Proof.
  split; [by repeat constructor|]. split; [|by vm_compute].
  apply (bool_decide_eq_true_1 (NoDup (vi_address <$> vals))). by vm_compute.
Qed.
Lemma proposer_stake_weighted_witness :
  drawable vals ∧ is_ok (select_proposer vals Blake3Hash_ZERO 3) = true ∧
  length (filter (λ t, pick 0 t vals = Some (vi_address (val Byte.x02 20))) (seqZ 0 60)) = 20%nat.
Proof.
  split; [exact vals_drawable|].
  destruct (proposer_stake_weighted vals Blake3Hash_ZERO 3 vals_drawable ltac:(simpl; lia)) as [(t & a & _ & _ & _ & Hs) Hc].
  split; [by rewrite Hs|]. apply (Hc (val Byte.x02 20)). apply list_elem_of_lookup_2 with 1%nat. reflexivity.
Defined.
End ToyRng.
