(* ===== verification/Finality.v ===== *)
(** * Finality: votes and the finality engine (crates/consensus/src/finality.rs)

    The engine's [DashMap] of votes, its atomic height and its shared validator
    set are the fields of [FinalityEngine]; every method is one atomic step. *)

From S2P Require Import Prelude Crypto Merkle CoreTypes Validators Storage Vm Consensus.

Record FinalityVote : Type := {
  fv_block_number : Z;
  fv_block_hash : Blake3Hash;
  fv_validator : Address;
  fv_validator_pubkey : PublicKey;
  fv_signature : Signature;
  fv_timestamp : Z
}.
#[export] Instance finality_vote_eq_dec : EqDecision FinalityVote.
Proof. solve_decision. Defined.

Inductive FinalityStatus := Pending (voted_stake needed : Z) | Finalized.
#[export] Instance finality_status_eq_dec : EqDecision FinalityStatus.
Proof. solve_decision. Defined.

Record FinalityEngine : Type := {
  fe_votes : gmap Z (list FinalityVote);
  fe_finalized_height : Z;
  fe_validator_set : ValidatorSet
}.

Section Finality.
Context `{CryptoPrims}.

Definition vote_data (block_number : Z) (block_hash : Blake3Hash) : bytes :=
  to_le_bytes 8 block_number ++ ba_bytes block_hash ++ b_ "finality_vote".

Definition FinalityVote_new (block_number : Z) (block_hash : Blake3Hash) (kp : KeyPair) (now : Z)
    : FinalityVote := {|
  fv_block_number := block_number; fv_block_hash := block_hash;
  fv_validator := KeyPair_address kp; fv_validator_pubkey := public_key kp;
  fv_signature := sign kp (vote_data block_number block_hash); fv_timestamp := now |}.

Definition vote_verify (v : FinalityVote) : result ConsensusError () :=
  map_err (λ _, FinalityError "invalid vote signature")
    (verify (fv_validator_pubkey v) (vote_data (fv_block_number v) (fv_block_hash v)) (fv_signature v)).

Definition FinalityEngine_new (vs : ValidatorSet) : FinalityEngine := {|
  fe_votes := ∅; fe_finalized_height := 0; fe_validator_set := vs |}.

(** [votes.iter().filter_map(|v| vs.get_validator(..).map(|vi| vi.stake)).sum()] *)
Definition voted_stake (vs : ValidatorSet) (votes : list FinalityVote) : Z :=
  wsum 128 id (omap (λ v, vi_stake <$> get_validator vs (fv_validator v)) votes).

Definition check_quorum (e : FinalityEngine) (block_number : Z)
    : FinalityEngine * result ConsensusError FinalityStatus :=
  let vs := fe_validator_set e in
  let threshold := quorum_threshold vs in
  match fe_votes e !! block_number with
  | None => (e, Ok (Pending 0 threshold))
  | Some votes =>
      let stake := voted_stake vs votes in
      if threshold <=? stake then
        let h := if fe_finalized_height e <? block_number then block_number else fe_finalized_height e in
        ({| fe_votes := filter (λ kv, ¬ kv.1 ≤ block_number) (fe_votes e);
            fe_finalized_height := h; fe_validator_set := vs |}, Ok Finalized)
      else (e, Ok (Pending stake threshold))
  end.

Definition add_vote (e : FinalityEngine) (v : FinalityVote)
    : FinalityEngine * result ConsensusError FinalityStatus :=
  match vote_verify v with
  | Err err => (e, Err err)
  | Ok _ =>
      if negb (is_validator (fe_validator_set e) (fv_validator v)) then
        (e, Err (FinalityError ("voter " +:+ Address_to_hex (fv_validator v) +:+
                                " is not an active validator")))
      else if fv_block_number v <=? fe_finalized_height e then (e, Ok Finalized)
      else
        check_quorum {| fe_votes := push_index (fv_block_number v) v (fe_votes e);
                        fe_finalized_height := fe_finalized_height e;
                        fe_validator_set := fe_validator_set e |} (fv_block_number v)
  end.

Definition is_finalized (e : FinalityEngine) (block_number : Z) : bool :=
  block_number <=? fe_finalized_height e.
Definition create_vote (block_number : Z) (block_hash : Blake3Hash) (kp : KeyPair) (now : Z) : FinalityVote :=
  FinalityVote_new block_number block_hash kp now.
Definition update_validator_set (e : FinalityEngine) (vs : ValidatorSet) : FinalityEngine := {|
  fe_votes := fe_votes e; fe_finalized_height := fe_finalized_height e; fe_validator_set := vs |}.

(** ** Invariant: pending votes are above the finalized height, filed under
    their height, properly signed and cast by active validators. *)
Definition vote_ok (vs : ValidatorSet) (n : Z) (v : FinalityVote) : Prop :=
  fv_block_number v = n ∧ vote_verify v = Ok () ∧ is_validator vs (fv_validator v) = true.
#[export] Instance vote_ok_dec vs n v : Decision (vote_ok vs n v).
Proof.
  unfold vote_ok. destruct (vote_verify v) as [[]|]; [|by right; intros (_ & ? & _)].
  destruct (decide (fv_block_number v = n ∧ is_validator vs (fv_validator v) = true)); [left|right]; naive_solver.
Defined.
Definition fe_inv (e : FinalityEngine) : Prop :=
  ∀ n l, fe_votes e !! n = Some l →
    fe_finalized_height e < n ∧ Forall (vote_ok (fe_validator_set e) n) l.

Lemma fe_inv_new vs : fe_inv (FinalityEngine_new vs).
Proof. intros n l. simpl. by rewrite lookup_empty. Qed.

(** What one vote does, in the four cases. *)
Lemma add_vote_cases e v e' r :
  add_vote e v = (e', r) →
  (e' = e ∧ is_err r = true) ∨
  (e' = e ∧ r = Ok Finalized ∧ fv_block_number v ≤ fe_finalized_height e) ∨
  (fe_finalized_height e < fv_block_number v ∧ vote_ok (fe_validator_set e) (fv_block_number v) v ∧
   let l := default [] (fe_votes e !! fv_block_number v) ++ [v] in
   let stake := voted_stake (fe_validator_set e) l in
   (stake < quorum_threshold (fe_validator_set e) ∧
    r = Ok (Pending stake (quorum_threshold (fe_validator_set e))) ∧
    e' = {| fe_votes := <[fv_block_number v := l]> (fe_votes e);
            fe_finalized_height := fe_finalized_height e; fe_validator_set := fe_validator_set e |}) ∨
   (quorum_threshold (fe_validator_set e) ≤ stake ∧ r = Ok Finalized ∧
    e' = {| fe_votes := filter (λ kv, ¬ kv.1 ≤ fv_block_number v) (<[fv_block_number v := l]> (fe_votes e));
            fe_finalized_height := fv_block_number v; fe_validator_set := fe_validator_set e |})).
Proof.
  unfold add_vote. destruct (vote_verify v) as [[]|] eqn:Ev; [|intros [= <- <-]; by left].
  destruct (is_validator _ _) eqn:Ei; simpl; [|intros [= <- <-]; by left].
  destruct (_ <=? _) eqn:Eh; zbool; [intros [= <- <-]; by right; left|].
  unfold check_quorum, push_index. simpl. rewrite lookup_insert_eq. simpl.
  intros Hq. right; right. split; [done|]. split; [done|].
  rewrite (proj2 (Z.ltb_lt _ _)) in Hq by lia.
  destruct (_ <=? _) eqn:Eq; zbool; simplify_eq; [right|left]; auto.
Qed.

Lemma add_vote_inv e v e' r : add_vote e v = (e', r) → fe_inv e → fe_inv e'.
Proof.
  intros Ha Hi. assert (vote_ok (fe_validator_set e) (fv_block_number v) v →
    Forall (vote_ok (fe_validator_set e) (fv_block_number v)) (default [] (fe_votes e !! fv_block_number v) ++ [v])) as Hl.
  { intros Hv. apply Forall_app. split; [|by constructor].
    destruct (fe_votes e !! fv_block_number v) eqn:E; simpl; [|done]. by eapply Hi. }
  destruct (add_vote_cases _ _ _ _ Ha) as [[-> _]|[[-> _]|(Hh & Hv & [(_ & _ & ->)|(_ & _ & ->)])]]; try done.
  - intros n l Hn. simpl in *. apply lookup_insert_cases in Hn as [[<- <-]|[_ Hn]]; [by auto|by eapply Hi].
  - intros n l Hn. simpl in *. apply map_lookup_filter_Some in Hn as [Hn Hle]. simpl in Hle.
    apply lookup_insert_cases in Hn as [[<- <-]|[_ Hn]]; [lia|]. split; [lia|by eapply Hi].
Qed.

(** A run of the engine on a fixed validator set. *)
Definition fe_run (e : FinalityEngine) (votes : list FinalityVote) : FinalityEngine :=
  foldl (λ e v, (add_vote e v).1) e votes.

Lemma fe_run_preserves e votes :
  fe_inv e → fe_inv (fe_run e votes) ∧ fe_validator_set (fe_run e votes) = fe_validator_set e ∧
  fe_finalized_height e ≤ fe_finalized_height (fe_run e votes).
Proof.
  revert e. induction votes as [|v votes IH]; intros e Hi; simpl; [done|].
  destruct (add_vote e v) as [e1 r] eqn:E. simpl.
  destruct (IH e1) as (? & Hs & Hh); [by eapply add_vote_inv|].
  split; [done|]. rewrite Hs.
  destruct (add_vote_cases _ _ _ _ E) as [[-> _]|[[-> _]|(? & _ & [(_ & _ & ->)|(_ & _ & ->)])]];
    simpl in *; (split; [done|lia]).
Qed.

(** ** The voted stake of distinct voters is their stake *)
Lemma stake_in_singleton s a :
  NoDup (vi_address <$> vs_validators s) → is_validator s a = true →
  ∃ v, get_validator s a = Some v ∧ stake_in s {[a]} = vi_stake v.
Proof.
  unfold stake_in, get_validator, active_validators. rewrite is_validator_true.
  intros Hnd (v & Hv & Ha). unfold active_validators in Hv.
  induction (vs_validators s) as [|w l IH]; [set_solver|].
  apply NoDup_cons in Hnd as [Hw Hnd]. simpl in *.
  case_bool_decide as Hwa.
  - exists w. split; [done|].
    assert (∀ l', (∀ x, x ∈ l' → x ∈ l) →
      sumZ (λ v, if bool_decide (vi_address v ∈ ({[a]} : gset Address)) then vi_stake v else 0) l' = 0) as Hz.
    { intros l' Hl'. transitivity (sumZ (λ _ : ValidatorInfo, 0) l').
      - apply sumZ_ext. intros x Hx. rewrite bool_decide_eq_false_2; [done|].
        rewrite elem_of_singleton. intros Hxa. apply Hw. apply list_elem_of_fmap.
        exists x. split; [congruence|by apply Hl'].
      - clear. induction l' as [|y l' IH]; simpl; lia. }
    destruct (is_votable w) eqn:Ew; simpl in *.
    + rewrite bool_decide_eq_true_2 by set_solver. rewrite Hz; [lia|].
      intros x. rewrite !list_elem_of_In, List.filter_In. naive_solver.
    + exfalso. apply Hw. apply list_elem_of_fmap. exists v. split; [congruence|].
      revert Hv. rewrite !list_elem_of_In, List.filter_In. naive_solver.
  - destruct (is_votable w) eqn:Ew; simpl in *.
    + rewrite bool_decide_eq_false_2 by set_solver. rewrite Z.add_0_l.
      apply IH; [done|]. apply elem_of_cons in Hv as [->|Hv]; [done|exact Hv].
    + by apply IH.
Qed.

Lemma stake_in_empty s : stake_in s ∅ = 0.
Proof.
  unfold stake_in. transitivity (sumZ (λ _ : ValidatorInfo, 0) (active_validators s)).
  - apply sumZ_ext. intros x _. by rewrite bool_decide_eq_false_2 by set_solver.
  - induction (active_validators s) as [|y l IH]; simpl; lia.
Qed.

Lemma sumZ_omap_cons {A} (f : A → option Z) x l :
  sumZ id (omap f (x :: l)) = default 0 (f x) + sumZ id (omap f l).
Proof. cbn. by destruct (f x). Qed.

Lemma voted_stake_distinct s votes :
  NoDup (vi_address <$> vs_validators s) → quorum_fits s →
  NoDup (fv_validator <$> votes) → Forall (λ v, is_validator s (fv_validator v) = true) votes →
  voted_stake s votes = stake_in s (list_to_set (fv_validator <$> votes)).
Proof.
  intros Hnd [Hs Hf] Hdv Hact.
  assert (sumZ id (omap (λ v, vi_stake <$> get_validator s (fv_validator v)) votes) =
    stake_in s (list_to_set (fv_validator <$> votes))) as Heq.
  { induction Hact as [|v votes Hv Hact IH]; [by rewrite stake_in_empty|].
    rewrite sumZ_omap_cons. simpl in Hdv. apply NoDup_cons in Hdv as [Hnew Hdv].
    destruct (stake_in_singleton s (fv_validator v) Hnd Hv) as (vi & Hg & Hsv). rewrite Hg, IH by done. simpl.
    pose proof (stake_in_union s {[fv_validator v]} (list_to_set (fv_validator <$> votes))) as Hu.
    assert (({[fv_validator v]} : gset Address) ∩ list_to_set (fv_validator <$> votes) ≡ ∅) as He.
    { apply disjoint_intersection. rewrite disjoint_singleton_l, elem_of_list_to_set. exact Hnew. }
    apply leibniz_equiv in He. rewrite He, stake_in_empty in Hu.
    change (vi_stake vi + stake_in s (list_to_set (fv_validator <$> votes)) =
      stake_in s ({[fv_validator v]} ∪ list_to_set (fv_validator <$> votes))). lia. }
  unfold voted_stake. rewrite wsum_small; [done|lia|]. rewrite Heq. unfold in_u.
  pose proof (stake_in_le_total s (list_to_set (fv_validator <$> votes)) Hs).
  split; [|lia]. apply sumZ_nonneg. intros x Hx. case_bool_decide; [|done].
  unfold stakes_ok in Hs. rewrite Forall_forall in Hs. by apply Hs, active_sublist.
Qed.
End Finality.

Section FinalityProperties.
Context `{CryptoPrims}.

(** The votes a finalizing vote was counted with. *)
Definition counted (e : FinalityEngine) (v : FinalityVote) : list FinalityVote :=
  default [] (fe_votes e !! fv_block_number v) ++ [v].
Definition voters (l : list FinalityVote) : gset Address := list_to_set (fv_validator <$> l).

(** Along every sequence of votes on a fixed validator set, pending votes stay
    above the finalized height, filed under their own height, signed and cast by active
    validators, and the finalized height never decreases. *)
Theorem finality_run_invariant vs votes1 votes2 :
  let e1 := fe_run (FinalityEngine_new vs) votes1 in
  let e2 := fe_run e1 votes2 in
  fe_inv e2 ∧ fe_validator_set e2 = vs ∧ 0 ≤ fe_finalized_height e1 ≤ fe_finalized_height e2.
Proof.
  intros e1 e2. destruct (fe_run_preserves (FinalityEngine_new vs) votes1 (fe_inv_new vs)) as (Hi & Hs & Hh).
  destruct (fe_run_preserves e1 votes2 Hi) as (Hi2 & Hs2 & Hh2).
  split; [done|]. split; [exact (eq_trans Hs2 Hs)|]. done.
Qed.

(** C2: Whenever add_vote changes the finalized height it returns Finalized, the new
    height is the vote's height and above the old one, the counted stake reaches the quorum
    threshold, and no votes at or below that height are kept. *)
Theorem finalized_height_moves_by_quorum e v e' r :
  add_vote e v = (e', r) → fe_finalized_height e' ≠ fe_finalized_height e →
  r = Ok Finalized ∧ fe_finalized_height e < fv_block_number v ∧
  fe_finalized_height e' = fv_block_number v ∧
  quorum_threshold (fe_validator_set e) ≤ voted_stake (fe_validator_set e) (counted e v) ∧
  (∀ n, n ≤ fv_block_number v → fe_votes e' !! n = None).
Proof.
  intros Ha Hne.
  destruct (add_vote_cases _ _ _ _ Ha) as [[-> _]|[[-> _]|(Hh & Hv & [(_ & _ & ->)|(Hq & -> & ->)])]]; try done.
  repeat split; try done. intros n Hn. simpl. apply map_lookup_filter_None. right. intros l _. simpl. lia.
Qed.

(** A finalizing vote was counted with a quorum of the stake, each voter counted once. *)
Lemma finalized_quorum e v e' :
  fe_inv e → NoDup (vi_address <$> vs_validators (fe_validator_set e)) → quorum_fits (fe_validator_set e) →
  fe_finalized_height e < fv_block_number v → add_vote e v = (e', Ok Finalized) →
  NoDup (fv_validator <$> counted e v) →
  quorum_threshold (fe_validator_set e) ≤ stake_in (fe_validator_set e) (voters (counted e v)) ∧
  Forall (vote_ok (fe_validator_set e) (fv_block_number v)) (counted e v).
Proof.
  intros Hi Hnd Hq Hh Ha Hd.
  destruct (add_vote_cases _ _ _ _ Ha) as [[_ ?]|[(_ & _ & ?)|(_ & Hv & [(_ & ? & _)|(Hle & _ & _)])]];
    try done; try lia.
  assert (Forall (vote_ok (fe_validator_set e) (fv_block_number v)) (counted e v)) as Hok.
  { unfold counted. apply Forall_app. split; [|by constructor].
    destruct (fe_votes e !! fv_block_number v) as [l|] eqn:E; simpl; [|done]. by apply (Hi _ _ E). }
  split; [|done]. unfold voters. rewrite <- (voted_stake_distinct (fe_validator_set e) (counted e v)); try done.
  eapply Forall_impl; [exact Hok|]. intros x Hx. apply Hx.
Qed.
Lemma elem_of_voters a l : a ∈ voters l ↔ ∃ w, w ∈ l ∧ fv_validator w = a.
Proof. unfold voters. rewrite elem_of_list_to_set, list_elem_of_fmap. naive_solver. Qed.

(** Two votes that convict their voter: the same validator and height, both properly
    signed, and different blocks. *)
Definition equivocation (w1 w2 : FinalityVote) : Prop :=
  fv_validator w1 = fv_validator w2 ∧ fv_block_number w1 = fv_block_number w2 ∧
  fv_block_hash w1 ≠ fv_block_hash w2 ∧ vote_verify w1 = Ok () ∧ vote_verify w2 = Ok ().

(** C1: Two finality engines over the same validator set (distinct addresses, stakes
    that fit) that each finalize the same height on votes naming one block, but different
    blocks, convict validators holding at least a third of the active stake: for each of
    them there is a counted, correctly signed vote in its name on either side, for the same
    height and different blocks. The counted votes of each side are assumed to name one
    block and to count each voter once, which the code does not enforce
    (mixed_votes_finalize and the findings). *)
Theorem finality_safety e1 e2 v1 v2 e1' e2' s n h1 h2 :
  fe_inv e1 → fe_inv e2 → fe_validator_set e1 = s → fe_validator_set e2 = s →
  NoDup (vi_address <$> vs_validators s) → quorum_fits s →
  fv_block_number v1 = n → fv_block_number v2 = n →
  fe_finalized_height e1 < n → fe_finalized_height e2 < n →
  add_vote e1 v1 = (e1', Ok Finalized) → add_vote e2 v2 = (e2', Ok Finalized) →
  NoDup (fv_validator <$> counted e1 v1) → NoDup (fv_validator <$> counted e2 v2) →
  Forall (λ w, fv_block_hash w = h1) (counted e1 v1) → Forall (λ w, fv_block_hash w = h2) (counted e2 v2) →
  h1 ≠ h2 →
  ∃ culprits : gset Address, total_active_stake s ≤ 3 * stake_in s culprits ∧
    ∀ a, a ∈ culprits → ∃ w1 w2, w1 ∈ counted e1 v1 ∧ w2 ∈ counted e2 v2 ∧
      fv_validator w1 = a ∧ equivocation w1 w2.
Proof.
  intros Hi1 Hi2 Hs1 Hs2 Hnd Hq Hn1 Hn2 Hh1 Hh2 Ha1 Ha2 Hd1 Hd2 Hb1 Hb2 Hne.
  destruct (finalized_quorum e1 v1 e1') as [Q1 V1]; rewrite ?Hs1, ?Hn1; try done.
  destruct (finalized_quorum e2 v2 e2') as [Q2 V2]; rewrite ?Hs2, ?Hn2; try done.
  rewrite Hs1, Hn1 in *. rewrite Hs2, Hn2 in *. rewrite !Forall_forall in *.
  exists (voters (counted e1 v1) ∩ voters (counted e2 v2)). split; [by apply quorum_intersection|].
  intros a. rewrite elem_of_intersection, !elem_of_voters. intros [(w1 & Hw1 & E1) (w2 & Hw2 & E2)].
  exists w1, w2. split_and!; [done|done|done|].
  destruct (V1 w1 Hw1) as (N1 & S1 & _), (V2 w2 Hw2) as (N2 & S2 & _).
  unfold equivocation. rewrite (Hb1 w1 Hw1), (Hb2 w2 Hw2). split_and!; congruence || done.
Qed.

(** The hypothesis that a quorum names one block is not enforced: a height is finalized
    as soon as valid votes of enough stake for it are in, whatever blocks they name. *)
Lemma fe_run_pending vs n votes :
  0 < n → Forall (vote_ok vs n) votes →
  let e := fe_run (FinalityEngine_new vs) votes in
  fe_finalized_height e = n ∨
  fe_finalized_height e = 0 ∧ default [] (fe_votes e !! n) = votes ∧
    (votes ≠ [] → voted_stake vs votes < quorum_threshold vs).
Proof.
  intros Hn. induction votes as [|v votes IH] using rev_ind; intros Hok; [by right|].
  apply Forall_app in Hok as [Hok [(Hv & Hs & Ha) _]%Forall_cons]. cbv zeta. unfold fe_run in *.
  rewrite foldl_app. cbn [foldl]. destruct (fe_run_preserves (FinalityEngine_new vs) votes (fe_inv_new vs)) as (_ & Hvs & _).
  unfold fe_run in Hvs. set (e := foldl _ _ votes) in *. cbn in Hvs. destruct (add_vote e v) as [e' r] eqn:E. cbn [fst].
  destruct (add_vote_cases _ _ _ _ E) as [[-> Herr]|[(-> & _ & Hle)|(_ & _ & Hcase)]].
  - exfalso. unfold add_vote in E. rewrite Hs, Hvs, Ha in E. cbn in E. destruct (_ <=? _) in E; [by injection E as <-|].
    unfold check_quorum, push_index in E. cbn in E. rewrite lookup_insert_eq in E. destruct (_ <=? _) in E; by injection E as _ <-.
  - destruct (IH Hok) as [Hh|(Hh & _)]; [by left|lia].
  - rewrite Hv, Hvs in Hcase. destruct Hcase as [(Hlt & _ & ->)|(_ & _ & ->)]; [|by left].
    destruct (IH Hok) as [Hh|(Hh & Hp & _)]; [by left|]. right. cbn. rewrite lookup_insert_eq. cbn.
    rewrite Hp in Hlt |- *. done.
Qed.
Theorem mixed_votes_finalize vs n votes :
  0 < n → votes ≠ [] → Forall (vote_ok vs n) votes → quorum_threshold vs ≤ voted_stake vs votes →
  is_finalized (fe_run (FinalityEngine_new vs) votes) n = true.
Proof.
  intros Hn Hne Hok Hq. unfold is_finalized. apply Z.leb_le.
  destruct (fe_run_pending vs n votes Hn Hok) as [->|(_ & _ & Hlt)]; [lia|]. specialize (Hlt Hne). lia.
Qed.

(** A single validator with less than a quorum of stake but at least half of it
    finalizes a block alone by sending the same vote twice: votes are not deduplicated. *)
Theorem duplicate_vote_finalizes e v vi :
  vote_verify v = Ok () → is_validator (fe_validator_set e) (fv_validator v) = true →
  get_validator (fe_validator_set e) (fv_validator v) = Some vi →
  fe_finalized_height e < fv_block_number v → fe_votes e !! fv_block_number v = None →
  0 ≤ vi_stake vi → 2 * vi_stake vi < 2 ^ 128 →
  vi_stake vi < quorum_threshold (fe_validator_set e) ≤ 2 * vi_stake vi →
  (add_vote e v).2 = Ok (Pending (vi_stake vi) (quorum_threshold (fe_validator_set e))) ∧
  (add_vote (add_vote e v).1 v).2 = Ok Finalized ∧
  is_finalized (add_vote (add_vote e v).1 v).1 (fv_block_number v) = true.
Proof.
  intros Hv Hi Hg Hh Hn H0 H1 Hq.
  assert (∀ k, 2 * vi_stake vi < 2 ^ 128 → (k = 1 ∨ k = 2)%nat →
    voted_stake (fe_validator_set e) (replicate k v) = Z.of_nat k * vi_stake vi) as Hst.
  { intros k Hb Hk. unfold voted_stake. rewrite wsum_small; [|lia|]; destruct Hk as [-> | ->]; simpl; rewrite Hg; simpl;
      unfold in_u, id; lia. }
  pose proof (Hst 1%nat H1 ltac:(auto)) as Hst1. pose proof (Hst 2%nat H1 ltac:(auto)) as Hst2.
  assert (add_vote e v = ({| fe_votes := <[fv_block_number v := [v]]> (fe_votes e);
      fe_finalized_height := fe_finalized_height e; fe_validator_set := fe_validator_set e |},
      Ok (Pending (vi_stake vi) (quorum_threshold (fe_validator_set e))))) as ->.
  { unfold add_vote. rewrite Hv, Hi. simpl. rewrite (proj2 (Z.leb_gt _ _)) by lia.
    unfold check_quorum, push_index. simpl. rewrite lookup_insert_eq, Hn. simpl in *.
    rewrite Hst1, (proj2 (Z.leb_gt _ _)) by lia. do 3 f_equal. lia. }
  split; [done|]. unfold add_vote. rewrite Hv. simpl. rewrite Hi. simpl. rewrite (proj2 (Z.leb_gt _ _)) by lia.
  unfold check_quorum, push_index. simpl. rewrite !lookup_insert_eq. simpl in *.
  rewrite Hst2, (proj2 (Z.leb_le _ _)) by lia. split; [done|]. unfold is_finalized. simpl.
  rewrite (proj2 (Z.ltb_lt _ _)) by lia. apply Z.leb_refl.
Qed.

Context `{!CryptoLaws}.

(** A vote signed with any key is accepted and counted for whatever active
    validator it names: the voter address is not tied to the public key. *)
Theorem forged_vote_is_counted e n h kp victim now :
  is_validator (fe_validator_set e) victim = true → fe_finalized_height e < n →
  let v := {| fv_block_number := n; fv_block_hash := h; fv_validator := victim;
              fv_validator_pubkey := public_key kp; fv_signature := sign kp (vote_data n h);
              fv_timestamp := now |} in
  ∃ e' st, add_vote e v = (e', Ok st) ∧
    (st = Finalized ∨ fe_votes e' !! n = Some (counted e v)).
Proof.
  intros Hi Hh v. unfold add_vote, vote_verify. simpl. rewrite verify_sign. simpl. rewrite Hi. simpl.
  rewrite (proj2 (Z.leb_gt _ _)) by lia. unfold check_quorum, push_index. simpl. rewrite lookup_insert_eq.
  destruct (_ <=? _); eexists _, _; (split; [done|]); [by left|right].
  simpl. by rewrite lookup_insert_eq.
Qed.
End FinalityProperties.

(** ** Witnesses *)
Module FinalityWitness.
Import ToyCrypto ToyRng.
Definition vset : ValidatorSet :=
  ValidatorSet_new [val Byte.x01 100; val Byte.x02 100; val Byte.x03 100; val Byte.x04 100] 10 100.
Definition h1 : Blake3Hash := ba_repeat 32 Byte.x11.
Definition h2 : Blake3Hash := ba_repeat 32 Byte.x22.
Definition vote (b : byte) (h : Blake3Hash) : FinalityVote := FinalityVote_new 1 h (kp b) 0.
Definition e1 : FinalityEngine := fe_run (FinalityEngine_new vset) [vote Byte.x01 h1; vote Byte.x02 h1].
Definition e2 : FinalityEngine := fe_run (FinalityEngine_new vset) [vote Byte.x03 h2; vote Byte.x04 h2].

Lemma finality_safety_witness :
  (add_vote e1 (vote Byte.x03 h1)).2 = Ok Finalized ∧ (add_vote e2 (vote Byte.x01 h2)).2 = Ok Finalized ∧
  ∃ culprits : gset Address, 400 ≤ 3 * stake_in vset culprits ∧
    ∀ a, a ∈ culprits → ∃ w1 w2, w1 ∈ counted e1 (vote Byte.x03 h1) ∧ w2 ∈ counted e2 (vote Byte.x01 h2) ∧
      fv_validator w1 = a ∧ equivocation w1 w2.
Proof.
  assert ((add_vote e1 (vote Byte.x03 h1)).2 = Ok Finalized) as F1 by by vm_compute.
  assert ((add_vote e2 (vote Byte.x01 h2)).2 = Ok Finalized) as F2 by by vm_compute.
  split; [exact F1|]. split; [exact F2|].
  destruct (fe_run_preserves (FinalityEngine_new vset) [vote Byte.x01 h1; vote Byte.x02 h1] (fe_inv_new vset))
    as (I1 & S1 & _).
  destruct (fe_run_preserves (FinalityEngine_new vset) [vote Byte.x03 h2; vote Byte.x04 h2] (fe_inv_new vset))
    as (I2 & S2 & _).
  refine (finality_safety e1 e2 (vote Byte.x03 h1) (vote Byte.x01 h2)
    (add_vote e1 (vote Byte.x03 h1)).1 (add_vote e2 (vote Byte.x01 h2)).1 vset 1 h1 h2
    I1 I2 S1 S2 _ _ eq_refl eq_refl _ _ _ _ _ _ _ _ _).
  - by apply (bool_decide_eq_true_1 (NoDup (vi_address <$> vs_validators vset))); vm_compute.
  - split; [by repeat constructor|by vm_compute].
  - by vm_compute.
  - by vm_compute.
  - exact (pair_snd _ _ F1).
  - exact (pair_snd _ _ F2).
  - by apply (bool_decide_eq_true_1 (NoDup (fv_validator <$> counted e1 (vote Byte.x03 h1)))); vm_compute.
  - by apply (bool_decide_eq_true_1 (NoDup (fv_validator <$> counted e2 (vote Byte.x01 h2)))); vm_compute.
  - by apply (bool_decide_eq_true_1 (Forall (λ w, fv_block_hash w = h1) (counted e1 (vote Byte.x03 h1)))); vm_compute.
  - by apply (bool_decide_eq_true_1 (Forall (λ w, fv_block_hash w = h2) (counted e2 (vote Byte.x01 h2)))); vm_compute.
  - by vm_compute.
Defined.

(** Four validators vote once each, two for each block; both blocks' supporters see their
    height finalized, and nobody equivocated. *)
Definition ballots1 : list FinalityVote := [vote Byte.x01 h1; vote Byte.x02 h1; vote Byte.x03 h2].
Definition ballots2 : list FinalityVote := [vote Byte.x03 h2; vote Byte.x04 h2; vote Byte.x01 h1].
Lemma mixed_votes_finalize_witness :
  is_finalized (fe_run (FinalityEngine_new vset) ballots1) 1 = true ∧
  is_finalized (fe_run (FinalityEngine_new vset) ballots2) 1 = true ∧
  Forall (λ w1, Forall (λ w2, fv_validator w1 = fv_validator w2 → fv_block_hash w1 = fv_block_hash w2) ballots2) ballots1.
Proof.
  assert (∀ l, bool_decide (Forall (vote_ok vset 1) l ∧ quorum_threshold vset ≤ voted_stake vset l ∧ l ≠ []) = true →
    is_finalized (fe_run (FinalityEngine_new vset) l) 1 = true) as Hfin.
  { intros l Hl. apply bool_decide_eq_true_1 in Hl as (Hok & Hq & Hne). by apply (mixed_votes_finalize vset 1 l). }
  split; [apply Hfin; by vm_compute|]. split; [apply Hfin; by vm_compute|].
  eapply bool_decide_unpack. by vm_compute.
Defined.

Lemma finalized_height_moves_by_quorum_witness :
  fe_finalized_height (add_vote e1 (vote Byte.x03 h1)).1 = 1 ∧
  quorum_threshold vset ≤ voted_stake vset (counted e1 (vote Byte.x03 h1)).
Proof.
  split; [by vm_compute|].
  apply (finalized_height_moves_by_quorum e1 (vote Byte.x03 h1) (add_vote e1 (vote Byte.x03 h1)).1
    (add_vote e1 (vote Byte.x03 h1)).2); [apply surjective_pairing|by vm_compute].
Defined.

Definition vset2 : ValidatorSet :=
  ValidatorSet_new [val Byte.x01 100; val Byte.x02 60; val Byte.x03 60] 10 100.
Lemma duplicate_vote_finalizes_witness :
  let e := FinalityEngine_new vset2 in
  is_finalized (add_vote (add_vote e (vote Byte.x01 h1)).1 (vote Byte.x01 h1)).1 1 = true.
Proof.
  intros e.
  refine (proj2 (proj2 (duplicate_vote_finalizes e (vote Byte.x01 h1) (val Byte.x01 100) _ _ _ _ _ _ _ _)));
    by vm_compute.
Defined.

Lemma forged_vote_is_counted_witness :
  ∃ e' st, add_vote (FinalityEngine_new vset)
      {| fv_block_number := 1; fv_block_hash := h1; fv_validator := KeyPair_address (kp Byte.x01);
         fv_validator_pubkey := public_key (kp Byte.x77);
         fv_signature := sign (kp Byte.x77) (vote_data 1 h1); fv_timestamp := 0 |} = (e', Ok st) ∧
    (st = Finalized ∨ fe_votes e' !! 1 = Some [
      {| fv_block_number := 1; fv_block_hash := h1; fv_validator := KeyPair_address (kp Byte.x01);
         fv_validator_pubkey := public_key (kp Byte.x77);
         fv_signature := sign (kp Byte.x77) (vote_data 1 h1); fv_timestamp := 0 |}]).
Proof.
  apply (forged_vote_is_counted (FinalityEngine_new vset) 1 h1 (kp Byte.x77) (KeyPair_address (kp Byte.x01)) 0);
    by vm_compute.
Defined.
End FinalityWitness.
