(* ===== verification/TxPool.v ===== *)
(** * TxPool: the transaction mempool (crates/consensus/src/tx_pool.rs)

    The two [DashMap]s are finite maps.  A method is one step here: the theorems are about
    calls one after the other, as the source holds no lock across its accesses to the maps;
    calls that interleave are in PoolThreads.v.
    Iterating a [DashMap] yields its entries in some order: the methods that
    iterate take that order as an argument, a permutation of the entries.
    [Instant::now()] is the argument [now]. *)

From S2P Require Import Prelude Crypto Merkle CoreTypes Validators Storage Vm Consensus.
From S2P Require Import Instances.

Record PooledTransaction : Type := {
  pt_tx : SignedTransaction;
  pt_added_at : Z;
  pt_gas_price : Z
}.
Record TransactionPool : Type := {
  tp_pending : gmap Blake3Hash PooledTransaction;
  tp_by_sender : gmap Address (gset (Z * Blake3Hash));
  tp_max_size : Z;
  tp_min_gas_price : Z
}.

Definition TransactionPool_new (max_size min_gas_price : Z) : TransactionPool := {|
  tp_pending := ∅; tp_by_sender := ∅; tp_max_size := max_size; tp_min_gas_price := min_gas_price |}.
Definition tp_update (p : TransactionPool) (pending : gmap Blake3Hash PooledTransaction)
    (by_sender : gmap Address (gset (Z * Blake3Hash))) : TransactionPool := {|
  tp_pending := pending; tp_by_sender := by_sender;
  tp_max_size := tp_max_size p; tp_min_gas_price := tp_min_gas_price p |}.

Definition tx_hash_of (t : SignedTransaction) : Blake3Hash := stx_tx_hash t.
Definition nonce_of (t : SignedTransaction) : Z := tx_nonce (stx_transaction t).
Definition price_of (t : SignedTransaction) : Z := tx_gas_price (stx_transaction t).
Definition gas_of (t : SignedTransaction) : Z := tx_gas_limit (stx_transaction t).

Section Pool.
Context `{CryptoPrims} `{Bincode Transaction}.
Implicit Types p : TransactionPool.

Definition pool_insert p (t : SignedTransaction) (now : Z) : TransactionPool * result ConsensusError () :=
  match stx_verify t with
  | Err e => (p, Err (TransactionPoolError ("invalid transaction: " +:+ core_error_display e)))
  | Ok _ =>
      if price_of t <? tp_min_gas_price p then
        (p, Err (TransactionPoolError ("gas price " +:+ z_str (price_of t) +:+ " below minimum " +:+
                                       z_str (tp_min_gas_price p))))
      else if tp_max_size p <=? Z.of_nat (size (tp_pending p)) then
        (p, Err (TransactionPoolError "transaction pool is full"))
      else if bool_decide (is_Some (tp_pending p !! tx_hash_of t)) then
        (p, Err (TransactionPoolError "duplicate transaction"))
      else
        let a := sender t in
        (tp_update p
           (<[tx_hash_of t := {| pt_tx := t; pt_added_at := now; pt_gas_price := price_of t |}]> (tp_pending p))
           (<[a := default ∅ (tp_by_sender p !! a) ∪ {[(nonce_of t, tx_hash_of t)]}]> (tp_by_sender p)),
         Ok ())
  end.

Definition pool_remove p (h : Blake3Hash) : TransactionPool * option SignedTransaction :=
  match tp_pending p !! h with
  | None => (p, None)
  | Some pooled =>
      let t := pt_tx pooled in
      let by_sender :=
        match tp_by_sender p !! sender t with
        | None => tp_by_sender p
        | Some set =>
            let set' := set ∖ {[(nonce_of t, h)]} in
            if bool_decide (set' = ∅) then delete (sender t) (tp_by_sender p)
            else <[sender t := set']> (tp_by_sender p)
        end in
      (tp_update p (delete h (tp_pending p)) by_sender, Some t)
  end.

Definition pool_get p (h : Blake3Hash) : option SignedTransaction := pt_tx <$> tp_pending p !! h.
Definition pending_count p : nat := size (tp_pending p).
Definition pool_contains p (h : Blake3Hash) : bool := bool_decide (is_Some (tp_pending p !! h)).

(** Gas price descending, then nonce ascending. *)
Definition cand_leb (a b : Z * Z * Blake3Hash) : bool :=
  (b.1.1 <? a.1.1) || ((a.1.1 =? b.1.1) && (a.1.2 <=? b.1.2)).

Fixpoint select_loop p (gas_limit : Z) (max_count : nat) (cands : list (Z * Z * Blake3Hash))
    (selected : list SignedTransaction) (total_gas : Z) : list SignedTransaction :=
  match cands with
  | [] => selected
  | c :: rest =>
      if (max_count <=? length selected)%nat then selected
      else
        match tp_pending p !! c.2 with
        | None => select_loop p gas_limit max_count rest selected total_gas
        | Some entry =>
            let t := pt_tx entry in
            if gas_limit <? total_gas +! gas_of t then
              select_loop p gas_limit max_count rest selected total_gas
            else select_loop p gas_limit max_count rest (selected ++ [t]) (total_gas +! gas_of t)
        end
  end.

Definition select_transactions p (order : list (Blake3Hash * PooledTransaction)) (gas_limit : Z)
    (max_count : nat) : list SignedTransaction :=
  let candidates := (λ e, (pt_gas_price e.2, nonce_of (pt_tx e.2), e.1)) <$> order in
  select_loop p gas_limit max_count (sort_by cand_leb candidates) [] 0.

Definition prune_committed p (hashes : list Blake3Hash) : TransactionPool :=
  foldl (λ p h, (pool_remove p h).1) p hashes.
Definition prune_expired p (order : list (Blake3Hash * PooledTransaction)) (now max_age : Z) : TransactionPool :=
  prune_committed p ((List.filter (λ e, max_age <? sat_sub now (pt_added_at e.2)) order).*1).
Definition pending_hashes (order : list (Blake3Hash * PooledTransaction)) : list Blake3Hash := order.*1.

(** ** Invariant *)
(** An entry: keyed by the transaction's hash, with a verified transaction
    that pays at least the minimum. *)
Definition entry_ok p (h : Blake3Hash) (e : PooledTransaction) : Prop :=
  tx_hash_of (pt_tx e) = h ∧ pt_gas_price e = price_of (pt_tx e) ∧
  tp_min_gas_price p ≤ price_of (pt_tx e) ∧ stx_verify (pt_tx e) = Ok ().
Record pool_inv p : Prop := {
  pi_entries h e : tp_pending p !! h = Some e → entry_ok p h e;
  (** The index lists exactly the pending transactions of each sender. *)
  pi_index a n h : (n, h) ∈ default ∅ (tp_by_sender p !! a) ↔
    ∃ e, tp_pending p !! h = Some e ∧ sender (pt_tx e) = a ∧ nonce_of (pt_tx e) = n;
  pi_nonempty a s : tp_by_sender p !! a = Some s → s ≠ ∅;
  pi_size : Z.of_nat (size (tp_pending p)) ≤ tp_max_size p
}.

Lemma pool_inv_new max_size min_price : 0 ≤ max_size → pool_inv (TransactionPool_new max_size min_price).
Proof.
  intros Hm. split; simpl; try (intros *; by rewrite lookup_empty).
  - intros a n h. rewrite lookup_empty. simpl. split; [set_solver|].
    intros (e & He & _). by rewrite lookup_empty in He.
  - by rewrite map_size_empty.
Qed.

(** [insert] fails and changes nothing, or adds the one entry. *)
Lemma pool_insert_cases p t now p' r :
  pool_insert p t now = (p', r) →
  (p' = p ∧ is_err r = true) ∨
  (r = Ok () ∧ stx_verify t = Ok () ∧ tp_min_gas_price p ≤ price_of t ∧
   Z.of_nat (size (tp_pending p)) < tp_max_size p ∧ tp_pending p !! tx_hash_of t = None ∧
   p' = tp_update p
     (<[tx_hash_of t := {| pt_tx := t; pt_added_at := now; pt_gas_price := price_of t |}]> (tp_pending p))
     (<[sender t := default ∅ (tp_by_sender p !! sender t) ∪ {[(nonce_of t, tx_hash_of t)]}]> (tp_by_sender p))).
Proof.
  unfold pool_insert. destruct (stx_verify t) as [[]|] eqn:Ev; [|intros [= <- <-]; by left].
  destruct (_ <? _) eqn:Ep; [intros [= <- <-]; by left|].
  destruct (_ <=? _) eqn:Es; [intros [= <- <-]; by left|].
  case_bool_decide as Hd; [intros [= <- <-]; by left|].
  intros [= <- <-]. right. zbool. repeat split; try done. by apply eq_None_not_Some.
Qed.

Lemma pool_insert_inv p t now : pool_inv p → pool_inv (pool_insert p t now).1.
Proof.
  intros Hi. destruct (pool_insert p t now) as [p' r] eqn:E.
  destruct (pool_insert_cases _ _ _ _ _ E) as [[-> _]|(_ & Hv & Hg & Hs & Hn & ->)]; [done|].
  destruct Hi as [He Hx Hne Hsz]. split; simpl.
  - intros h e Hh. apply lookup_insert_cases in Hh as [[<- <-]|[_ Hh]]; [done|by apply He].
  - intros a n h. destruct (decide (h = tx_hash_of t)) as [->|Hh].
    + rewrite (lookup_insert_eq (tp_pending p)). split.
      * intros Hin. eexists. split; [done|]. simpl.
        rewrite lookup_insert in Hin. destruct (decide (sender t = a)) as [<-|Ha]; simpl in Hin.
        -- split; [done|]. apply elem_of_union in Hin as [Hin|Hin]; [|set_solver].
           apply Hx in Hin as (e & He' & _). congruence.
        -- apply Hx in Hin as (e & He' & _). congruence.
      * intros (e & [= <-] & <- & <-). rewrite lookup_insert_eq. set_solver.
    + rewrite (lookup_insert_ne (tp_pending p)) by done. rewrite <- Hx, lookup_insert.
      destruct (decide (sender t = a)) as [<-|Ha]; simpl; [|done]. set_solver.
  - intros a s Hs'. apply lookup_insert_cases in Hs' as [[_ <-]|[_ Hs']]; [set_solver|by eapply Hne].
  - rewrite map_size_insert_None by done. lia.
Qed.

Lemma pool_remove_inv p h : pool_inv p → pool_inv (pool_remove p h).1.
Proof.
  intros [He Hx Hne Hsz]. unfold pool_remove.
  destruct (tp_pending p !! h) as [e|] eqn:E; simpl; [|by split].
  set (t := pt_tx e). set (bs := match tp_by_sender p !! sender t with None => _ | Some _ => _ end).
  assert (∀ a, default ∅ (bs !! a) =
    if decide (a = sender t) then default ∅ (tp_by_sender p !! a) ∖ {[(nonce_of t, h)]}
    else default ∅ (tp_by_sender p !! a)) as Hbs.
  { intros a. unfold bs. destruct (tp_by_sender p !! sender t) as [s|] eqn:Es.
    - case_bool_decide as Hd; destruct (decide (a = sender t)) as [->|Ha].
      + rewrite lookup_delete_eq, Es. simpl. by rewrite Hd.
      + by rewrite lookup_delete_ne.
      + rewrite lookup_insert_eq, Es. done.
      + by rewrite lookup_insert_ne.
    - destruct (decide (a = sender t)) as [->|Ha]; [|done]. rewrite Es. simpl. set_solver. }
  split; simpl.
  - intros h' e' [_ Hh]%lookup_delete_Some. by apply He.
  - intros a n h'. rewrite Hbs. destruct (decide (h' = h)) as [->|Hh].
    + rewrite (lookup_delete_eq (tp_pending p)). split; [|naive_solver].
      destruct (decide (a = sender t)) as [->|Ha].
      * rewrite elem_of_difference, Hx. intros ((e' & He' & Hs' & Hn') & Hnot).
        exfalso. apply Hnot. rewrite E in He'. injection He' as <-. rewrite <- Hn'. set_solver.
      * rewrite Hx. intros (e' & He' & Hs' & _). rewrite E in He'. injection He' as <-. done.
    + rewrite lookup_delete_ne by done. rewrite <- Hx.
      destruct (decide (a = sender t)); [|done]. set_solver.
  - intros a s Hs. unfold bs in Hs. destruct (tp_by_sender p !! sender t) as [s0|] eqn:Es; [|by eapply Hne].
    case_bool_decide as Hd.
    + apply lookup_delete_Some in Hs as [_ Hs]. by eapply Hne.
    + apply lookup_insert_cases in Hs as [[_ <-]|[_ Hs]]; [done|by eapply Hne].
  - rewrite map_size_delete, E. lia.
Qed.

Lemma prune_committed_inv p hs : pool_inv p → pool_inv (prune_committed p hs).
Proof.
  revert p. induction hs as [|h hs IH]; intros p Hi; simpl; [done|]. by apply IH, pool_remove_inv.
Qed.
End Pool.

Section PoolProperties.
Context `{CryptoPrims} `{Bincode Transaction}.
Implicit Types p : TransactionPool.

(** The operations of the pool, as steps. *)
Inductive pool_step : TransactionPool → TransactionPool → Prop :=
| ps_insert p t now : pool_step p (pool_insert p t now).1
| ps_remove p h : pool_step p (pool_remove p h).1
| ps_prune_committed p hs : pool_step p (prune_committed p hs)
| ps_prune_expired p order now max_age : pool_step p (prune_expired p order now max_age).

(** C8: In every pool reachable by insertions, removals and prunings that run one after
    the other: entries are keyed by their hash, verified and pay the minimum price; the per-
    sender index lists exactly the pending transactions and has no empty sets; the size
    never exceeds the maximum. *)
Theorem pool_reachable_inv max_size min_price p :
  0 ≤ max_size → rtc pool_step (TransactionPool_new max_size min_price) p → pool_inv p.
Proof.
  intros Hm Hr. pose proof (pool_inv_new max_size min_price Hm) as Hi.
  induction Hr as [|p1 p2 p3 Hs _ IH]; [done|]. apply IH. destruct Hs.
  - by apply pool_insert_inv.
  - by apply pool_remove_inv.
  - by apply prune_committed_inv.
  - by apply prune_committed_inv.
Qed.

(** A successful insertion makes the transaction readable by its hash and adds one
    to the count, and removing it gives back the transaction and the pool as it was. *)
Theorem insert_remove_roundtrip p t now p1 :
  pool_inv p → pool_insert p t now = (p1, Ok ()) →
  pool_get p1 (tx_hash_of t) = Some t ∧ pending_count p1 = S (pending_count p) ∧
  pool_remove p1 (tx_hash_of t) = (p, Some t).
Proof.
  intros [He Hx Hne Hsz] Hins.
  destruct (pool_insert_cases _ _ _ _ _ Hins) as [[_ ?]|(_ & _ & _ & _ & Hn & ->)]; [done|].
  unfold pool_get, pending_count, pool_remove, tp_update. simpl. rewrite lookup_insert_eq. simpl.
  split; [done|]. split; [by apply map_size_insert_None|].
  rewrite lookup_insert_eq, delete_insert_id by done. f_equal.
  assert ((default ∅ (tp_by_sender p !! sender t) ∪ {[(nonce_of t, tx_hash_of t)]}) ∖
    {[(nonce_of t, tx_hash_of t)]} = default ∅ (tp_by_sender p !! sender t)) as ->.
  { assert ((nonce_of t, tx_hash_of t) ∉ default ∅ (tp_by_sender p !! sender t)) as Hnin.
    { rewrite Hx. intros (e & He' & _). congruence. }
    apply leibniz_equiv. set_solver. }
  destruct (tp_by_sender p !! sender t) as [s|] eqn:Es; simpl.
  - rewrite bool_decide_eq_false_2 by (by eapply Hne).
    rewrite insert_insert_eq, insert_id by done. by destruct p.
  - rewrite bool_decide_eq_true_2 by done. rewrite delete_insert_id by done. by destruct p.
Qed.

(** The same signed transaction under another hash. *)
Definition with_hash (t : SignedTransaction) (h : Blake3Hash) : SignedTransaction := {|
  stx_transaction := stx_transaction t; stx_public_key := stx_public_key t;
  stx_signature := stx_signature t; stx_tx_hash := h |}.

(** The pool accepts the same signed transaction again under any other transaction
    hash: verification does not check the hash. *)
Theorem rehashed_transaction_accepted p t now p1 h :
  pool_insert p t now = (p1, Ok ()) → tp_pending p1 !! h = None →
  Z.of_nat (pending_count p1) < tp_max_size p →
  ∃ p2, pool_insert p1 (with_hash t h) now = (p2, Ok ()) ∧
    pool_get p2 (tx_hash_of t) = Some t ∧ pool_get p2 h = Some (with_hash t h).
Proof.
  intros Hins Hh Hsz. destruct (pool_insert_cases _ _ _ _ _ Hins) as [[_ ?]|(_ & Hv & Hg & _ & Hn & ->)]; [done|].
  unfold pool_insert. change (stx_verify (with_hash t h)) with (stx_verify t). rewrite Hv.
  change (price_of (with_hash t h)) with (price_of t). change (tx_hash_of (with_hash t h)) with h.
  rewrite (proj2 (Z.ltb_ge _ _)) by exact Hg. unfold pending_count in Hsz. simpl in *.
  rewrite (proj2 (Z.leb_gt _ _)) by lia. rewrite Hh, bool_decide_eq_false_2 by (by intros [? ?]).
  eexists. split; [done|]. unfold pool_get. simpl. rewrite lookup_insert_eq. split; [|done].
  rewrite lookup_insert_ne; [by rewrite lookup_insert_eq|].
  intros ->. by rewrite lookup_insert_eq in Hh.
Qed.

(** ** Selection *)
Lemma cand_leb_total x y : cand_leb x y = false → cand_leb y x = true.
Proof.
  unfold cand_leb. destruct (y.1.1 <? x.1.1) eqn:E1, (x.1.1 =? y.1.1) eqn:E2, (x.1.2 <=? y.1.2) eqn:E3;
    simpl; try done; intros _; zbool; apply orb_true_iff; rewrite andb_true_iff, Z.ltb_lt, Z.eqb_eq, Z.leb_le; lia.
Qed.
Lemma cand_leb_trans x y z : cand_leb x y = true → cand_leb y z = true → cand_leb x z = true.
Proof.
  unfold cand_leb. rewrite !orb_true_iff, !andb_true_iff, !Z.ltb_lt, !Z.eqb_eq, !Z.leb_le. lia.
Qed.

(** Sorted candidates give transactions of non-increasing price. *)
Lemma sorted_prices (es : list (Z * Z * Blake3Hash)) ts :
  StronglySorted (λ x y, cand_leb x y = true) es →
  Forall2 (λ c t, price_of t = c.1.1) es ts →
  StronglySorted (λ a b, price_of b ≤ price_of a) ts.
Proof.
  intros Hes Hf. induction Hf as [|c t es ts Hp Hf IH]; [constructor|].
  apply StronglySorted_inv in Hes as [Hes Hc]. constructor; [by apply IH|].
  clear IH Hes. induction Hf as [|c' t' es ts Hp' Hf IH]; [constructor|].
  apply Forall_cons in Hc as [Hcc Hc]. constructor; [|by apply IH].
  unfold cand_leb in Hcc. rewrite orb_true_iff, andb_true_iff, Z.ltb_lt, Z.eqb_eq in Hcc. lia.
Qed.

(** What the loop adds to the selection so far. *)
Lemma select_loop_spec p gas_limit max cands sel total :
  NoDup cands.*2 → (length sel ≤ max)%nat → total = sumZ gas_of sel → total ≤ gas_limit →
  (∀ h e, tp_pending p !! h = Some e → 0 ≤ gas_of (pt_tx e) ∧ gas_limit + gas_of (pt_tx e) < 2 ^ 64) →
  0 ≤ total →
  ∃ added, select_loop p gas_limit max cands sel total = sel ++ added ∧
    (length (sel ++ added) ≤ max)%nat ∧ sumZ gas_of (sel ++ added) ≤ gas_limit ∧
    ∃ es, es `sublist_of` cands ∧
      Forall2 (λ c t, ∃ e, tp_pending p !! c.2 = Some e ∧ pt_tx e = t) es added.
Proof.
  intros Hnd Hlen Htot Hle Hgas Hpos. revert sel total Hlen Htot Hle Hpos.
  induction cands as [|c cands IH]; intros sel total Hlen Htot Hle Hpos.
  - exists []. rewrite app_nil_r. simpl. subst total. repeat split; try done. exists []. by split.
  - apply NoDup_cons in Hnd as [_ Hnd]. specialize (IH Hnd).
    assert (∀ r, (∃ added, r = sel ++ added ∧ (length (sel ++ added) ≤ max)%nat ∧
        sumZ gas_of (sel ++ added) ≤ gas_limit ∧ ∃ es, es `sublist_of` cands ∧
        Forall2 (λ c t, ∃ e, tp_pending p !! c.2 = Some e ∧ pt_tx e = t) es added) →
      ∃ added, r = sel ++ added ∧ (length (sel ++ added) ≤ max)%nat ∧
        sumZ gas_of (sel ++ added) ≤ gas_limit ∧ ∃ es, es `sublist_of` c :: cands ∧
        Forall2 (λ c t, ∃ e, tp_pending p !! c.2 = Some e ∧ pt_tx e = t) es added) as Hskip.
    { intros r (added & ? & ? & ? & es & ? & ?). exists added. repeat split; try done.
      exists es. split; [by apply sublist_cons|done]. }
    simpl. destruct (_ <=? _)%nat eqn:Em; zbool.
    { exists []. rewrite app_nil_r. subst total. repeat split; try done.
      exists []. split; [apply sublist_nil_l|constructor]. }
    destruct (tp_pending p !! c.2) as [e|] eqn:Ec; [|by apply Hskip, IH].
    pose proof (Hgas _ _ Ec) as [Hg0 Hg]. unwrap.
    destruct (gas_limit <? _) eqn:El; zbool; [by apply Hskip, IH|].
    destruct (IH (sel ++ [pt_tx e]) (total + gas_of (pt_tx e))) as (added & -> & Hl & Hs & es & Hsub & Hf).
    + rewrite length_app. simpl. lia.
    + rewrite sumZ_app. simpl. lia.
    + lia.
    + lia.
    + exists (pt_tx e :: added). rewrite <- app_assoc in *. simpl in *. repeat split; try done.
      exists (c :: es). split; [by constructor|]. constructor; [by exists e|done].
Qed.

(** C9: Whatever the iteration order of the pool, select_transactions returns at most
    the requested number of distinct, verified, pending transactions, in non-increasing gas
    price, whose gas limits sum to at most the block gas limit (when that sum does not
    overflow). *)
Theorem select_transactions_spec p order gas_limit max :
  pool_inv p → order ≡ₚ map_to_list (tp_pending p) → 0 ≤ gas_limit →
  (∀ h e, tp_pending p !! h = Some e → 0 ≤ gas_of (pt_tx e) ∧ gas_limit + gas_of (pt_tx e) < 2 ^ 64) →
  let sel := select_transactions p order gas_limit max in
  (length sel ≤ max)%nat ∧ sumZ gas_of sel ≤ gas_limit ∧ NoDup (tx_hash_of <$> sel) ∧
  Forall (λ t, pool_get p (tx_hash_of t) = Some t ∧ stx_verify t = Ok ()) sel ∧
  StronglySorted (λ a b, price_of b ≤ price_of a) sel.
Proof.
  intros Hi Hord Hg0 Hgas sel. unfold sel, select_transactions.
  set (cands := sort_by cand_leb _).
  assert (cands ≡ₚ ((λ e, (pt_gas_price e.2, nonce_of (pt_tx e.2), e.1)) <$> order)) as Hperm by apply sort_by_perm.
  assert (NoDup cands.*2) as Hnd.
  { rewrite Hperm, <- list_fmap_compose.
    replace (snd ∘ (λ e : Blake3Hash * PooledTransaction, (pt_gas_price e.2, nonce_of (pt_tx e.2), e.1)))
      with (@fst Blake3Hash PooledTransaction) by done.
    rewrite Hord. apply NoDup_fst_map_to_list. }
  assert (∀ c, c ∈ cands → ∃ e, tp_pending p !! c.2 = Some e ∧ c.1.1 = price_of (pt_tx e)) as Hin.
  { intros c. rewrite Hperm, Hord, list_elem_of_fmap. intros ([h e] & -> & Hhe%elem_of_map_to_list).
    exists e. split; [done|]. by destruct (pi_entries _ Hi _ _ Hhe) as (_ & ? & _). }
  destruct (select_loop_spec p gas_limit max cands [] 0 Hnd) as (added & -> & Hl & Hs & es & Hsub & Hf);
    [simpl; lia|done|lia|done|done|]. simpl in *.
  split; [done|]. split; [done|].
  assert (Forall2 (λ c t, tx_hash_of t = c.2 ∧ price_of t = c.1.1 ∧
    pool_get p (tx_hash_of t) = Some t ∧ stx_verify t = Ok ()) es added) as Hf2.
  { apply Forall2_same_length_lookup_2; [by eapply Forall2_length|].
    intros i c t Hc Ht. destruct (Forall2_lookup_lr _ _ _ _ _ _ Hf Hc Ht) as (e & He & <-).
    destruct (pi_entries _ Hi _ _ He) as (Hh & Hp & Hm & Hv).
    destruct (Hin c) as (e' & He' & Hprice).
    { eapply sublist_subseteq; [exact Hsub|]. by eapply list_elem_of_lookup_2. }
    rewrite He in He'. injection He' as <-. rewrite Hh, Hprice. unfold pool_get. by rewrite He. }
  split.
  - replace (tx_hash_of <$> added) with es.*2.
    + eapply sublist_NoDup; [exact Hnd|]. by apply fmap_sublist.
    + clear -Hf2. induction Hf2 as [|c t es added (Hh & _) _ IH]; [done|].
      rewrite !fmap_cons, Hh. by f_equal.
  - split.
    + clear -Hf2. induction Hf2; constructor; naive_solver.
    + apply (sorted_prices es); [|by eapply Forall2_impl; [exact Hf2|naive_solver]].
      eapply StronglySorted_sublist; [exact Hsub|].
      apply sort_by_sorted; [exact cand_leb_total|exact cand_leb_trans].
Qed.
End PoolProperties.

(** ** Evaluations and witnesses *)
Module PoolWitness.
Import ToyCrypto.
Definition stx (b : byte) (nonce price gas : Z) : SignedTransaction :=
  SignedTransaction_new {| tx_chain_id := 1; tx_nonce := nonce; tx_from := KeyPair_address (kp b);
    tx_to := Some Address_ZERO; tx_value := 100; tx_tx_type := Transfer; tx_gas_limit := gas;
    tx_gas_price := price; tx_data := []; tx_timestamp := 1000 |} (kp b).
Definition insert_all (l : list SignedTransaction) : TransactionPool :=
  foldl (λ p t, (pool_insert p t 0).1) (TransactionPool_new 100 1) l.
Definition select (p : TransactionPool) (gas_limit : Z) (max : nat) : list SignedTransaction :=
  select_transactions p (map_to_list (tp_pending p)) gas_limit max.

Lemma insert_all_reachable l : rtc pool_step (TransactionPool_new 100 1) (insert_all l).
Proof.
  unfold insert_all. generalize (TransactionPool_new 100 1). induction l as [|t l IH]; intros p; [apply rtc_refl|].
  eapply rtc_l; [apply (ps_insert p t 0)|]. apply IH.
Qed.

(** Of two transactions of one sender the one with the later nonce and the higher
    price is selected first. *)
Theorem selection_not_nonce_ordered :
  let p := insert_all [stx Byte.x01 0 1 21000; stx Byte.x01 1 2 21000] in
  (λ t, (sender t, nonce_of t)) <$> select p 100000 10 =
  [(KeyPair_address (kp Byte.x01), 1); (KeyPair_address (kp Byte.x01), 0)].
Proof. by apply (bool_decide_eq_true_1 (_ = _)); vm_compute. Qed.

(** Gas overflow in the selection. *)
Theorem selection_gas_overflow :
  let p := insert_all [stx Byte.x01 0 3 21000; stx Byte.x02 0 2 (2 ^ 64 - 1)] in
  gas_of <$> select p 30000 10 = [21000; 2 ^ 64 - 1].
Proof. by apply (bool_decide_eq_true_1 (_ = _)); vm_compute. Qed.

Lemma pool_reachable_inv_witness :
  pool_inv (insert_all [stx Byte.x01 0 1 21000; stx Byte.x01 1 2 21000]).
Proof. apply (pool_reachable_inv 100 1); [lia|apply insert_all_reachable]. Defined.

Lemma insert_remove_roundtrip_witness :
  let p := TransactionPool_new 100 1 in
  let t := stx Byte.x01 0 1 21000 in
  pool_remove (pool_insert p t 5).1 (tx_hash_of t) = (p, Some t).
Proof.
  intros p t. refine (proj2 (proj2 (insert_remove_roundtrip p t 5 (pool_insert p t 5).1 _ _))).
  - apply pool_inv_new. lia.
  - apply pair_snd. by vm_compute.
Defined.

Lemma rehashed_transaction_accepted_witness :
  let t := stx Byte.x01 0 1 21000 in
  let p1 := (pool_insert (TransactionPool_new 100 1) t 0).1 in
  ∃ p2, pool_insert p1 (with_hash t Blake3Hash_ZERO) 0 = (p2, Ok ()) ∧
    pool_get p2 (tx_hash_of t) = Some t ∧ pool_get p2 Blake3Hash_ZERO = Some (with_hash t Blake3Hash_ZERO).
Proof.
  intros t p1. apply (rehashed_transaction_accepted (TransactionPool_new 100 1) t 0 p1 Blake3Hash_ZERO).
  - apply pair_snd. by vm_compute.
  - by apply eq_None_not_Some, (bool_decide_eq_false_1 (is_Some _)); vm_compute.
  - by vm_compute.
Defined.

Definition pool3 : TransactionPool :=
  insert_all [stx Byte.x01 0 1 21000; stx Byte.x02 0 5 21000; stx Byte.x03 0 3 90000].
Lemma pool3_gas h e : tp_pending pool3 !! h = Some e → 0 ≤ gas_of (pt_tx e) ∧ 50000 + gas_of (pt_tx e) < 2 ^ 64.
Proof.
  assert (map_Forall (λ _ e, 0 ≤ gas_of (pt_tx e) ∧ 50000 + gas_of (pt_tx e) < 2 ^ 64) (tp_pending pool3)) as Hf.
  { by apply (bool_decide_eq_true_1 (map_Forall _ _)); vm_compute. }
  apply Hf.
Qed.
Lemma select_transactions_spec_witness :
  price_of <$> select pool3 50000 10 = [5; 1] ∧
  StronglySorted (λ a b, price_of b ≤ price_of a) (select pool3 50000 10).
Proof.
  split; [by apply (bool_decide_eq_true_1 (_ = _)); vm_compute|].
  assert (pool_inv pool3) as Hi.
  { unfold pool3. assert (∀ l p, pool_inv p → pool_inv (foldl (λ p t, (pool_insert p t 0).1) p l)) as Hl.
    { intros l. induction l as [|t l IH]; intros p Hp; [done|]. by apply IH, pool_insert_inv. }
    apply Hl, pool_inv_new. lia. }
  apply (select_transactions_spec pool3 (map_to_list (tp_pending pool3)) 50000 10 Hi (reflexivity _) ltac:(lia) pool3_gas).
Defined.
End PoolWitness.
