(* ===== verification/PoolThreads.v ===== *)
(** * PoolThreads: the mempool under concurrent calls (crates/consensus/src/tx_pool.rs)

    [TransactionPool] is shared between the API handlers and the engine without a lock:
    each access to one of its [DashMap]s is atomic, a method is not.  TxPool.v reads the
    methods as single steps; here a call is a thread that makes one access per step, and
    threads interleave.  Alone, a thread does what the method of TxPool.v does.  In any
    interleaving the entries stay verified, priced and keyed by their hash; the capacity and
    the index do not survive: the pool can exceed its maximum by one less than the number of
    insertions under way, and an entry of the index can get lost. *)

From S2P Require Import Prelude Crypto Merkle CoreTypes Validators Storage Vm Consensus TxPool.
From S2P Require Import Instances.

(** Where a call stands: before the access it makes next, or at its result. *)
Inductive Thread : Type :=
| InsertStart (t : SignedTransaction)
| InsertCapacity (t : SignedTransaction)
| InsertDuplicate (t : SignedTransaction)
| InsertPending (t : SignedTransaction)
| InsertIndex (t : SignedTransaction)
| Inserted (r : result ConsensusError ())
| RemovePending (h : Blake3Hash)
| RemoveIndex (t : SignedTransaction) (h : Blake3Hash)
| RemoveEmpty (t : SignedTransaction)
| Removed (r : option SignedTransaction).

Section Threads.
Context `{CryptoPrims} `{Bincode Transaction}.
Implicit Types (p : TransactionPool) (th : Thread) (ths : list Thread).

Definition thread_step p (now : Z) th : TransactionPool * Thread :=
  match th with
  | InsertStart t =>
      match stx_verify t with
      | Err e => (p, Inserted (Err (TransactionPoolError ("invalid transaction: " +:+ core_error_display e))))
      | Ok _ =>
          if price_of t <? tp_min_gas_price p then
            (p, Inserted (Err (TransactionPoolError ("gas price " +:+ z_str (price_of t) +:+ " below minimum " +:+
                                                     z_str (tp_min_gas_price p)))))
          else (p, InsertCapacity t)
      end
  | InsertCapacity t =>
      if tp_max_size p <=? Z.of_nat (size (tp_pending p)) then
        (p, Inserted (Err (TransactionPoolError "transaction pool is full")))
      else (p, InsertDuplicate t)
  | InsertDuplicate t =>
      if bool_decide (is_Some (tp_pending p !! tx_hash_of t)) then
        (p, Inserted (Err (TransactionPoolError "duplicate transaction")))
      else (p, InsertPending t)
  | InsertPending t =>
      (tp_update p
         (<[tx_hash_of t := {| pt_tx := t; pt_added_at := now; pt_gas_price := price_of t |}]> (tp_pending p))
         (tp_by_sender p), InsertIndex t)
  | InsertIndex t =>
      let a := sender t in
      (tp_update p (tp_pending p)
         (<[a := default ∅ (tp_by_sender p !! a) ∪ {[(nonce_of t, tx_hash_of t)]}]> (tp_by_sender p)), Inserted (Ok ()))
  | RemovePending h =>
      match tp_pending p !! h with
      | None => (p, Removed None)
      | Some pooled => (tp_update p (delete h (tp_pending p)) (tp_by_sender p), RemoveIndex (pt_tx pooled) h)
      end
  | RemoveIndex t h =>
      match tp_by_sender p !! sender t with
      | None => (p, Removed (Some t))
      | Some set =>
          let set' := set ∖ {[(nonce_of t, h)]} in
          (tp_update p (tp_pending p) (<[sender t := set']> (tp_by_sender p)),
           if bool_decide (set' = ∅) then RemoveEmpty t else Removed (Some t))
      end
  | RemoveEmpty t => (tp_update p (tp_pending p) (delete (sender t) (tp_by_sender p)), Removed (Some t))
  | Inserted _ | Removed _ => (p, th)
  end.

(** *** A call that is not interrupted *)
Fixpoint alone (n : nat) p (now : Z) th : TransactionPool * Thread :=
  match n with
  | O => (p, th)
  | S n => let '(p, th) := thread_step p now th in alone n p now th
  end.
Lemma insert_alone p t now :
  alone 5 p now (InsertStart t) = ((pool_insert p t now).1, Inserted (pool_insert p t now).2).
Proof.
  unfold alone, pool_insert. cbn [thread_step]. destruct (stx_verify t); [|done].
  destruct (_ <? _); [done|]. cbn [thread_step]. destruct (_ <=? _); [done|]. cbn [thread_step].
  by destruct (bool_decide _).
Qed.
Lemma remove_alone p h now :
  alone 3 p now (RemovePending h) = ((pool_remove p h).1, Removed (pool_remove p h).2).
Proof.
  unfold alone, pool_remove. cbn [thread_step]. destruct (tp_pending p !! h) as [e|]; [|done].
  cbn [thread_step tp_update tp_by_sender]. destruct (tp_by_sender p !! sender (pt_tx e)) as [set|]; [|by destruct p].
  cbv zeta. destruct (bool_decide (set ∖ _ = ∅)); cbn [thread_step fst snd]; [|done].
  unfold tp_update. cbn. by rewrite delete_insert_eq.
Qed.

(** *** Threads that interleave *)
Definition starts th : Prop := match th with InsertStart _ | RemovePending _ => True | _ => False end.
(** The insertions past the capacity check that have not inserted yet. *)
Definition passed th : Z := match th with InsertDuplicate _ | InsertPending _ => 1 | _ => 0 end.
Definition in_flight ths : Z := sumZ passed ths.
(** Calls come and threads move in any order, with at most [k] insertions in flight. *)
Inductive interleaved (max_size min_price k : Z) : TransactionPool → list Thread → Prop :=
| il_new : interleaved max_size min_price k (TransactionPool_new max_size min_price) []
| il_call p ths th : interleaved max_size min_price k p ths → starts th → interleaved max_size min_price k p (ths ++ [th])
| il_move p ths i th now p' th' :
    interleaved max_size min_price k p ths → ths !! i = Some th → thread_step p now th = (p', th') →
    in_flight (<[i := th']> ths) ≤ k → interleaved max_size min_price k p' (<[i := th']> ths).

Lemma in_flight_insert ths i th th' :
  ths !! i = Some th → in_flight (<[i := th']> ths) = in_flight ths - passed th + passed th'.
Proof.
  intros Hi. unfold in_flight. rewrite insert_take_drop by (by eapply lookup_lt_Some).
  rewrite <- (take_drop_middle _ _ _ Hi) at 3. rewrite !sumZ_app. simpl. lia.
Qed.
Lemma in_flight_nonneg ths : 0 ≤ in_flight ths.
Proof. apply sumZ_nonneg. intros [] _; simpl; lia. Qed.

(** What a thread has already checked of its transaction. *)
Definition checked (min_price : Z) (t : SignedTransaction) : Prop :=
  (∃ u, stx_verify t = Ok u) ∧ min_price ≤ price_of t.
Definition thread_ok (min_price : Z) th : Prop :=
  match th with
  | InsertCapacity t | InsertDuplicate t | InsertPending t | InsertIndex t => checked min_price t
  | _ => True
  end.
Definition entries_ok (min_price : Z) p : Prop :=
  map_Forall (λ h e, h = tx_hash_of (pt_tx e) ∧ pt_gas_price e = price_of (pt_tx e) ∧ checked min_price (pt_tx e)) (tp_pending p).

Lemma thread_step_ok min_price p now th p' th' :
  thread_step p now th = (p', th') → tp_min_gas_price p = min_price →
  thread_ok min_price th → entries_ok min_price p →
  tp_min_gas_price p' = min_price ∧ tp_max_size p' = tp_max_size p ∧ thread_ok min_price th' ∧ entries_ok min_price p'.
Proof.
  intros Hs <- Ht He. destruct th; cbn [thread_step] in Hs.
  all: try (destruct (stx_verify t) eqn:Hv; [destruct (Z.ltb_spec (price_of t) (tp_min_gas_price p))|]; injection Hs as <- <-;
            split_and!; try done; split; [by eexists|done]).
  all: try (destruct (_ <=? _); injection Hs as <- <-; by split_and!).
  all: try (destruct (bool_decide _); injection Hs as <- <-; by split_and!).
  all: try (destruct (tp_pending p !! h); injection Hs as <- <-; split_and!; try done; by apply map_Forall_delete).
  all: try (destruct (tp_by_sender p !! sender t); injection Hs as <- <-; split_and!; try done;
            by destruct (bool_decide _)).
  all: injection Hs as <- <-; split_and!; try done.
  by apply map_Forall_insert_2.
Qed.
(** Insertions in flight are counted against the capacity. *)
Lemma thread_step_size p now th p' th' :
  thread_step p now th = (p', th') →
  Z.of_nat (size (tp_pending p')) + passed th' ≤ Z.of_nat (size (tp_pending p)) + passed th ∨
  p' = p ∧ passed th = 0 ∧ passed th' = 1 ∧ Z.of_nat (size (tp_pending p)) < tp_max_size p.
Proof.
  intros Hs. destruct th; cbn [thread_step] in Hs.
  - left. destruct (stx_verify t); [destruct (_ <? _)|]; injection Hs as <- <-; simpl; lia.
  - destruct (Z.leb_spec (tp_max_size p) (Z.of_nat (size (tp_pending p)))); injection Hs as <- <-; [left; simpl; lia|by right].
  - left. destruct (bool_decide _); injection Hs as <- <-; simpl; lia.
  - left. injection Hs as <- <-. simpl.
    destruct (tp_pending p !! tx_hash_of t) eqn:E.
    + rewrite map_size_insert_Some by (by rewrite E). lia.
    + rewrite map_size_insert_None by done. lia.
  - left. injection Hs as <- <-. simpl. lia.
  - left. injection Hs as <- <-. lia.
  - left. destruct (tp_pending p !! h) eqn:E; injection Hs as <- <-; simpl; [|lia].
    rewrite map_size_delete, E. lia.
  - left. destruct (tp_by_sender p !! sender t); injection Hs as <- <-; simpl; [|lia]. destruct (bool_decide _); simpl; lia.
  - left. injection Hs as <- <-. simpl. lia.
  - left. injection Hs as <- <-. lia.
Qed.

(** In every interleaving of insertions and removals with at most [k] insertions past the
    capacity check at once, every pending transaction is verified, pays the minimum price and
    is stored under its hash, and there are at most [k - 1] more than the maximum size. *)
Theorem interleaved_pool max_size min_price k p ths :
  0 ≤ max_size → 1 ≤ k → interleaved max_size min_price k p ths →
  entries_ok min_price p ∧ Z.of_nat (size (tp_pending p)) ≤ max_size + k - 1.
Proof.
  intros Hm Hk Hi.
  assert (tp_min_gas_price p = min_price ∧ tp_max_size p = max_size ∧ Forall (thread_ok min_price) ths ∧
          entries_ok min_price p ∧ in_flight ths ≤ k ∧
          Z.of_nat (size (tp_pending p)) + in_flight ths ≤ max_size + k - 1) as (_ & _ & _ & He & _ & Hs).
  { induction Hi as [|p ths th Hi IH Hst|p ths i th now p' th' Hi IH Hth Hstep Hk'].
    - change (in_flight []) with 0. cbn [tp_pending TransactionPool_new]. rewrite map_size_empty.
      split_and!; try done; lia.
    - destruct IH as (H1 & H2 & H3 & H4 & H5 & H6). unfold in_flight in *. rewrite sumZ_app. simpl.
      assert (passed th = 0) as -> by (by destruct th).
      split_and!; try done; try lia. apply Forall_app. split; [done|]. repeat constructor. by destruct th.
    - destruct IH as (H1 & H2 & H3 & H4 & H5 & H6).
      destruct (thread_step_ok min_price p now th p' th' Hstep H1 ltac:(by eapply Forall_lookup_1) H4) as (G1 & G2 & G3 & G4).
      pose proof (in_flight_insert ths i th th' Hth) as Hf. rewrite Hf in Hk' |- *.
      split_and!; try done; [by rewrite G2|by apply Forall_insert|].
      destruct (thread_step_size p now th p' th' Hstep) as [Hle|(-> & Ha & Hb & Hlt)]; lia. }
  split; [done|]. pose proof (in_flight_nonneg ths). lia.
Qed.
End Threads.

(** ** Concrete interleavings *)
Module PoolThreadsWitness.
Import ToyCrypto PoolWitness.
Abbreviation t1 := (stx Byte.x01 0 1 21000).
Abbreviation t2 := (stx Byte.x02 0 1 21000).
Abbreviation t3 := (stx Byte.x01 1 1 21000).

(** One step of each thread named, in that order. *)
Fixpoint run_turns (p : TransactionPool) (ths : list Thread) (turns : list nat) : TransactionPool * list Thread :=
  match turns with
  | [] => (p, ths)
  | i :: turns =>
      match ths !! i with
      | None => run_turns p ths turns
      | Some th => let '(p, th) := thread_step p 0 th in run_turns p (<[i := th]> ths) turns
      end
  end.
(** A pool for one transaction takes two: both insertions pass the capacity check first. *)
Theorem concurrent_inserts_exceed_capacity :
  let '(p, ths) := run_turns (TransactionPool_new 1 1) [InsertStart t1; InsertStart t2] [0; 0; 1; 1; 0; 0; 0; 1; 1; 1]%nat in
  size (tp_pending p) = 2%nat ∧ tp_max_size p = 1.
Proof. by vm_compute. Qed.
(** While the last transaction of a sender is removed its next one is inserted: the removal
    of the empty set takes the new entry of the index with it. *)
Theorem concurrent_removal_loses_index :
  let p0 := (pool_insert (TransactionPool_new 100 1) t1 0).1 in
  let '(p, ths) := run_turns p0 [RemovePending (tx_hash_of t1); InsertStart t3] [0; 0; 1; 1; 1; 1; 1; 0]%nat in
  size (tp_pending p) = 1%nat ∧ size (tp_by_sender p) = 0%nat.
Proof. by vm_compute. Qed.
Lemma interleaved_pool_witness :
  ∃ p ths, interleaved 1 1 2 p ths ∧ Z.of_nat (size (tp_pending p)) ≤ 2.
Proof.
  assert (interleaved 1 1 2 (TransactionPool_new 1 1) [InsertStart t1]) as Hi by (apply (il_call _ _ _ _ [] _); [constructor|exact I]).
  exists (TransactionPool_new 1 1), [InsertStart t1]. split; [exact Hi|].
  exact (proj2 (interleaved_pool 1 1 2 _ _ ltac:(lia) ltac:(lia) Hi)).
Defined.
End PoolThreadsWitness.
