(* ===== verification/ChainState.v ===== *)
(** * ChainState: block execution, accounts and epochs
    (crates/consensus/src/state.rs)

    The state is generic in the database, which it uses through the interface
    [ChainStore].  [None] is a panic.  [HashMap]s are finite maps; the loops
    over them run in the order of [map_to_list] (the keys are distinct, so the
    order does not show: [apply_balance_changes_perm]).  Writes whose result
    the code discards keep the old database when they fail. *)

From S2P Require Import Prelude Crypto Merkle CoreTypes Validators Storage Vm Consensus.

(** ** [std::str::from_utf8] *)
Definition cont_byte (b : Z) : bool := (128 <=? b) && (b <=? 191).
Fixpoint utf8_valid (fuel : nat) (l : list Z) : bool :=
  match fuel with
  | O => false
  | S fuel =>
      match l with
      | [] => true
      | b :: l =>
          if b <? 128 then utf8_valid fuel l
          else if (194 <=? b) && (b <=? 223) then
            match l with c1 :: l => cont_byte c1 && utf8_valid fuel l | _ => false end
          else if (224 <=? b) && (b <=? 239) then
            match l with
            | c1 :: c2 :: l =>
                (if b =? 224 then (160 <=? c1) && (c1 <=? 191)
                 else if b =? 237 then (128 <=? c1) && (c1 <=? 159)
                 else cont_byte c1) && cont_byte c2 && utf8_valid fuel l
            | _ => false
            end
          else if (240 <=? b) && (b <=? 244) then
            match l with
            | c1 :: c2 :: c3 :: l =>
                (if b =? 240 then (144 <=? c1) && (c1 <=? 191)
                 else if b =? 244 then (128 <=? c1) && (c1 <=? 143)
                 else cont_byte c1) && cont_byte c2 && cont_byte c3 && utf8_valid fuel l
            | _ => false
            end
          else false
      end
  end.
Definition from_utf8 (bs : bytes) : option string :=
  if utf8_valid (S (length bs)) (byte_to_Z <$> bs) then Some (String.string_of_list_byte bs) else None.

(** Contract call data: a length-prefixed function name and the arguments. *)
Definition extract_function_name (data : bytes) : string * bytes :=
  let fallback := ("call"%string, data) in
  if (4 <=? length data)%nat then
    let name_len := Z.to_nat (from_le_bytes (take 4 data)) in
    if (0 <? name_len)%nat && (name_len <=? 256)%nat && (4 + name_len <=? length data)%nat then
      match from_utf8 (take name_len (drop 4 data)) with
      | Some name => (name, drop (4 + name_len) data)
      | None => fallback
      end
    else fallback
  else fallback.

(** [Address]es compare byte by byte. *)
Fixpoint bytes_leb (a b : bytes) : bool :=
  match a, b with
  | [], _ => true
  | _ :: _, [] => false
  | x :: a, y :: b =>
      (byte_to_Z x <? byte_to_Z y) || ((byte_to_Z x =? byte_to_Z y) && bytes_leb a b)
  end.

Record ChainState (D : Type) : Type := {
  cst_head : Block;
  cst_height : Z;
  cst_current_epoch : EpochInfo;
  cst_storage : D
}.
Arguments cst_head {D}.
Arguments cst_height {D}.
Arguments cst_current_epoch {D}.
Arguments cst_storage {D}.

(** What the execution of a block threads through its transactions: the
    database, the VM with its module cache, the validator set of the current
    epoch and the modified accounts. *)
Record Exec (D : Type) `{Wasmtime} : Type := {
  ex_db : D;
  ex_vm : WasmEngine;
  ex_vset : ValidatorSet;
  ex_accounts : gmap Address Account
}.
Arguments ex_db {D _}.
Arguments ex_vm {D _}.
Arguments ex_vset {D _}.
Arguments ex_accounts {D _}.
Arguments Build_Exec {D _}.

Section State.
Context `{CryptoPrims} `{Wasmtime} `{Bincode Transaction} `{Bincode BlockHeader}.
Context {D : Type} `{ChainStore D}.
Implicit Types (d : D) (x : Exec D).

Definition db_state_reader d : StateReader := {|
  sr_get_account a := map_err (λ e, VmState (storage_error_display e)) (cs_get_account d a);
  sr_get_storage a k := map_err (λ e, VmState (storage_error_display e)) (cs_get_storage d a k);
  sr_get_code h := map_err (λ e, VmState (storage_error_display e)) (cs_get_code d h) |}.

(** [let _ = ..] and [.ok()] on a write. *)
Definition keep d (r : result StorageError D) : D := match r with Ok d' => d' | Err _ => d end.

Definition set_accounts x (m : gmap Address Account) : Exec D :=
  {| ex_db := ex_db x; ex_vm := ex_vm x; ex_vset := ex_vset x; ex_accounts := m |}.
Definition put_acct x (a : Address) (acc : Account) : Exec D := set_accounts x (<[a := acc]> (ex_accounts x)).
Definition set_db x d : Exec D :=
  {| ex_db := d; ex_vm := ex_vm x; ex_vset := ex_vset x; ex_accounts := ex_accounts x |}.
Definition set_vm x (e : WasmEngine) : Exec D :=
  {| ex_db := ex_db x; ex_vm := e; ex_vset := ex_vset x; ex_accounts := ex_accounts x |}.
Definition set_vset x (s : ValidatorSet) : Exec D :=
  {| ex_db := ex_db x; ex_vm := ex_vm x; ex_vset := s; ex_accounts := ex_accounts x |}.

(** [modified.get(a).cloned().or_else(|| storage.get_account(a).ok().flatten())] *)
Definition find_account d (m : gmap Address Account) (a : Address) : option Account :=
  match m !! a with
  | Some acc => Some acc
  | None => mjoin (result_ok (cs_get_account d a))
  end.
Definition get_or_new d (m : gmap Address Account) (a : Address) : Account :=
  default (Account_new a 0) (find_account d m a).

Definition apply_delta d (m : gmap Address Account) (ad : Address * Z) : gmap Address Account :=
  let acct := get_or_new d m ad.1 in
  <[ad.1 := set_balance acct (as_u 128 (Z.max (iadd 128 (as_i 128 (acc_balance acct)) ad.2) 0))]> m.
Definition apply_balance_changes d (changes : gmap Address Z) (m : gmap Address Account)
    : gmap Address Account :=
  foldl (apply_delta d) m (map_to_list changes).

Definition flush_storage d (changes : gmap (Address * bytes) (option bytes)) : D :=
  foldl (λ d '((a, k), v),
    match v with
    | Some v => keep d (cs_put_storage d a k v)
    | None => keep d (cs_delete_storage d a k)
    end) d (map_to_list changes).

Definition compute_state_root (m : gmap Address Account) : Blake3Hash :=
  if bool_decide (m = ∅) then Blake3Hash_ZERO
  else
    let sorted := sort_by (λ p q : Address * Account, bytes_leb (ba_bytes p.1) (ba_bytes q.1)) (map_to_list m) in
    hash (mjoin ((λ '(a, acct), ba_bytes a ++ to_le_bytes 16 (acc_balance acct) ++
                                to_le_bytes 8 (acc_nonce acct)) <$> sorted)).

(** ** Execution of one transaction *)
Definition BASE_GAS : Z := 21000.
Definition receipt (b : Block) (i : nat) (t : SignedTransaction) (st : TxStatus) (gas : Z)
    (logs : list EventLog) (addr : option Address) (data : bytes) : TransactionReceipt := {|
  rc_tx_hash := stx_tx_hash t; rc_block_number := hdr_number (blk_header b);
  rc_block_hash := block_hash b; rc_index := as_u 32 (Z.of_nat i); rc_status := st;
  rc_gas_used := gas; rc_logs := logs; rc_contract_address := addr; rc_return_data := data |}.

(** The refund product is computed in [u64]. *)
Definition gas_refund (tx : Transaction) (used : Z) : Z := sat_sub (tx_gas_limit tx) used *! tx_gas_price tx.
Definition credit (a : Account) (v : Z) : Account := set_balance a (acc_balance a +!! v).
Definition debit (a : Account) (v : Z) : Account := set_balance a (acc_balance a -!! v).

(** Each branch of the [match tx.tx_type]: the execution state, the sender's
    account so far, and the receipt (whose gas is the gas counted). *)
Definition exec_transfer x (b : Block) (i : nat) (t : SignedTransaction) (snd : Account)
    : Exec D * Account * TransactionReceipt :=
  let tx := stx_transaction t in
  let to_addr := default Address_ZERO (tx_to tx) in
  let to_account := get_or_new (ex_db x) (ex_accounts x) to_addr in
  let snd := debit snd (tx_value tx) in
  let x := put_acct x to_addr (credit to_account (tx_value tx)) in
  let snd := credit snd (gas_refund tx BASE_GAS) in
  (x, snd, receipt b i t TxSuccess BASE_GAS [] None []).

Definition tx_context x (b : Block) (a to_addr : Address) (tx : Transaction) : ExecutionContext :=
  ExecutionContext_new a a to_addr (tx_value tx) (hdr_number (blk_header b))
    (hdr_timestamp (blk_header b)) (hdr_chain_id (blk_header b)) (tx_gas_limit tx)
    (db_state_reader (ex_db x)).

Definition exec_deploy x (b : Block) (i : nat) (t : SignedTransaction) (snd : Account)
    : option (Exec D * Account * TransactionReceipt) :=
  let tx := stx_transaction t in
  '(vm, context, r) ← deploy_contract (ex_vm x) (tx_data tx) [] (tx_context x b (sender t) Address_ZERO tx);
  let x := set_vm x vm in
  Some (match r with
  | Ok res =>
      let db := keep (ex_db x) (cs_put_code (ex_db x) (dr_code_hash res) (tx_data tx)) in
      let x := put_acct (set_db x db) (dr_contract_address res)
                 (Account_new_contract (dr_contract_address res) (tx_value tx) (dr_code_hash res)) in
      let x := set_db x (flush_storage (ex_db x) (ctx_storage_changes context)) in
      let x := set_accounts x (apply_balance_changes (ex_db x) (ctx_balance_changes context) (ex_accounts x)) in
      let snd := credit (debit snd (tx_value tx)) (gas_refund tx (dr_gas_used res)) in
      (x, snd, receipt b i t TxSuccess (dr_gas_used res) (dr_logs res) (Some (dr_contract_address res)) [])
  | Err e =>
      (x, snd, receipt b i t (TxFailure (vm_error_display e)) (tx_gas_limit tx) [] None [])
  end).

Definition exec_call x (b : Block) (i : nat) (t : SignedTransaction) (snd : Account)
    : option (Exec D * Account * TransactionReceipt) :=
  let tx := stx_transaction t in
  let to_addr := default Address_ZERO (tx_to tx) in
  match find_account (ex_db x) (ex_accounts x) to_addr with
  | None => Some (x, snd, receipt b i t (TxFailure "contract not found") BASE_GAS [] None [])
  | Some acct =>
      match acc_code_hash acct with
      | None => Some (x, snd, receipt b i t (TxFailure "target is not a contract") BASE_GAS [] None [])
      | Some code_hash =>
          let '(func_name, call_args) := extract_function_name (tx_data tx) in
          '(vm, context, r) ← call_contract (ex_vm x) code_hash func_name call_args
                                (tx_context x b (sender t) to_addr tx);
          let x := set_vm x vm in
          Some (match r with
          | Ok res =>
              let x :=
                if bool_decide (cr_status res = TxSuccess) then
                  let x := set_db x (flush_storage (ex_db x) (ctx_storage_changes context)) in
                  set_accounts x (apply_balance_changes (ex_db x) (ctx_balance_changes context) (ex_accounts x))
                else x in
              let snd := credit snd (gas_refund tx (cr_gas_used res)) in
              (x, snd, receipt b i t (cr_status res) (cr_gas_used res) (cr_logs res) None (cr_return_data res))
          | Err e =>
              (x, snd, receipt b i t (TxFailure (vm_error_display e)) (tx_gas_limit tx) [] None [])
          end)
      end
  end.

Definition exec_stake x (b : Block) (i : nat) (t : SignedTransaction) (snd : Account)
    : Exec D * Account * TransactionReceipt :=
  let tx := stx_transaction t in
  let a := sender t in
  let snd := debit snd (tx_value tx) in
  let x :=
    match get_validator (ex_vset x) a with
    | Some vi =>
        let grow v := vi_set_active (vi_set_stake v (vi_stake v +!! tx_value tx)) true in
        set_db (set_vset x (get_validator_mut (ex_vset x) a grow))
          (keep (ex_db x) (cs_put_validator (ex_db x) (grow vi)))
    | None =>
        let vi := ValidatorInfo_new a (stx_public_key t) (tx_value tx) in
        set_db (set_vset x (set_validators (ex_vset x) (vs_validators (ex_vset x) ++ [vi])))
          (keep (ex_db x) (cs_put_validator (ex_db x) vi))
    end in
  let x := set_vset x (recalculate_total_stake (ex_vset x)) in
  let snd := credit snd (gas_refund tx BASE_GAS) in
  (x, snd, receipt b i t TxSuccess BASE_GAS [] None []).

Definition exec_unstake x (b : Block) (i : nat) (t : SignedTransaction) (snd : Account)
    : Exec D * Account * TransactionReceipt :=
  let tx := stx_transaction t in
  let a := sender t in
  match get_validator (ex_vset x) a with
  | Some vi =>
      if vi_stake vi <? tx_value tx then
        (x, credit snd (gas_refund tx BASE_GAS),
         receipt b i t (TxFailure ("insufficient stake: have " +:+ z_str (vi_stake vi) +:+
           ", want to unstake " +:+ z_str (tx_value tx))) BASE_GAS [] None [])
      else
        let shrink v :=
          let v := vi_set_stake v (vi_stake v -!! tx_value tx) in
          if vi_stake v <? vs_min_stake (ex_vset x) then vi_set_active v false else v in
        let x := set_db (set_vset x (recalculate_total_stake (get_validator_mut (ex_vset x) a shrink)))
                   (keep (ex_db x) (cs_put_validator (ex_db x) (shrink vi))) in
        let snd := credit (credit snd (tx_value tx)) (gas_refund tx BASE_GAS) in
        (x, snd, receipt b i t TxSuccess BASE_GAS [] None [])
  | None =>
      (x, credit snd (gas_refund tx BASE_GAS),
       receipt b i t (TxFailure "not a validator") BASE_GAS [] None [])
  end.

Definition exec_by_type x (b : Block) (i : nat) (t : SignedTransaction) (snd : Account)
    : option (Exec D * Account * TransactionReceipt) :=
  match tx_tx_type (stx_transaction t) with
  | Transfer => Some (exec_transfer x b i t snd)
  | ContractDeploy => exec_deploy x b i t snd
  | ContractCall => exec_call x b i t snd
  | Stake => Some (exec_stake x b i t snd)
  | Unstake => Some (exec_unstake x b i t snd)
  end.

(** The body of the loop over the block's transactions. *)
Definition exec_tx x (b : Block) (i : nat) (t : SignedTransaction)
    : option (Exec D * TransactionReceipt) :=
  let tx := stx_transaction t in
  let a := sender t in
  let snd := get_or_new (ex_db x) (ex_accounts x) a in
  if negb (tx_nonce tx =? acc_nonce snd) then
    Some (x, receipt b i t (TxFailure ("nonce mismatch: expected " +:+ z_str (acc_nonce snd) +:+
                                       ", got " +:+ z_str (tx_nonce tx))) 0 [] None [])
  else if negb (has_sufficient_balance snd (total_cost tx)) then
    Some (x, receipt b i t (TxFailure ("insufficient balance: have " +:+ z_str (acc_balance snd) +:+
                                       ", need " +:+ z_str (total_cost tx))) 0 [] None [])
  else
    let snd := increment_nonce (debit snd (max_gas_cost tx)) in
    '(x, snd, r) ← exec_by_type x b i t snd;
    Some (put_acct x a snd, r).

Fixpoint exec_txs x (b : Block) (i : nat) (txs : list SignedTransaction)
    : option (Exec D * list TransactionReceipt) :=
  match txs with
  | [] => Some (x, [])
  | t :: rest =>
      '(x, r) ← exec_tx x b i t;
      '(x, rs) ← exec_txs x b (S i) rest;
      Some (x, r :: rs)
  end.

(** ** Blocks *)
Definition set_epoch_vset (c : ChainState D) (d : D) (s : ValidatorSet) : ChainState D := {|
  cst_head := cst_head c; cst_height := cst_height c;
  cst_current_epoch := set_validator_set (cst_current_epoch c) s; cst_storage := d |}.

Definition apply_block (c : ChainState D) (vm : WasmEngine) (b : Block)
    : option (ChainState D * WasmEngine * result ConsensusError (list TransactionReceipt)) :=
  let expected_parent := block_hash (cst_head c) in
  if negb (bool_decide (hdr_parent_hash (blk_header b) = expected_parent)) then
    Some (c, vm, Err (CInvalidBlock ("parent hash mismatch: expected " +:+
      Blake3Hash_display expected_parent +:+ ", got " +:+ Blake3Hash_display (hdr_parent_hash (blk_header b)))))
  else if negb (hdr_number (blk_header b) =? cst_height c +! 1) then
    Some (c, vm, Err (CInvalidBlock ("block number mismatch: expected " +:+ z_str (cst_height c +! 1) +:+
      ", got " +:+ z_str (hdr_number (blk_header b)))))
  else
    '(x, receipts) ← exec_txs {| ex_db := cst_storage c; ex_vm := vm;
        ex_vset := ep_validator_set (cst_current_epoch c); ex_accounts := ∅ |} b 0 (blk_transactions b);
    Some (match cs_commit (ex_db x) b receipts (map_to_list (ex_accounts x)).*2 with
    | Err e => (set_epoch_vset c (ex_db x) (ex_vset x), ex_vm x, Err (CStorage e))
    | Ok d => ({| cst_head := b; cst_height := hdr_number (blk_header b);
                  cst_current_epoch := set_validator_set (cst_current_epoch c) (ex_vset x);
                  cst_storage := d |}, ex_vm x, Ok receipts)
    end).

(** ** Genesis *)
(** Writes in sequence, stopping at the first error. *)
Fixpoint run_puts (d : D) (puts : list (D → result StorageError D)) : D * result StorageError () :=
  match puts with
  | [] => (d, Ok ())
  | p :: rest => match p d with Ok d' => run_puts d' rest | Err e => (d, Err e) end
  end.

Definition genesis_validator_set (g : GenesisConfig) : ValidatorSet :=
  ValidatorSet_new (to_validator_infos g) (cp_min_stake (gc_consensus_params g))
    (cp_max_validators (gc_consensus_params g)).

(** The restart path: the head is read back, the validator set is the one of
    the genesis file. *)
Definition load_existing (g : GenesisConfig) (d : D) : option (result ConsensusError (ChainState D)) :=
  let len := cp_epoch_length (gc_consensus_params g) in
  match cs_get_chain_height d with
  | Err e => Some (Err (CStorage e))
  | Ok h =>
      let height := default 0 h in
      match cs_get_block_by_number d height with
      | Err e => Some (Err (CStorage e))
      | Ok None => Some (Err (StateTransition "head block not found"))
      | Ok (Some head) =>
          if len =? 0 then None
          else
            let epoch_number := height / len in
            let epoch_start := epoch_number *! len in
            let epoch_end := epoch_start +! len -! 1 in
            Some (Ok {| cst_head := head; cst_height := height;
              cst_current_epoch := {| ep_epoch_number := epoch_number; ep_start_block := epoch_start;
                ep_end_block := epoch_end; ep_validator_set := genesis_validator_set g;
                ep_finalized_block := None |};
              cst_storage := d |})
      end
  end.

Definition from_genesis (g : GenesisConfig) (d : D)
    : option (D * result ConsensusError (ChainState D)) :=
  match genesis_validate g with
  | Err e => Some (d, Err (CCore e))
  | Ok _ =>
      genesis_block ← to_genesis_block g;
      let genesis_hash := block_hash genesis_block in
      match cs_get_genesis_hash d with
      | Err e => Some (d, Err (CStorage e))
      | Ok (Some existing_hash) =>
          if negb (bool_decide (existing_hash = genesis_hash)) then
            Some (d, Err (StateTransition "genesis hash mismatch with existing database"))
          else r ← load_existing g d; Some (d, r)
      | Ok None =>
          let infos := to_validator_infos g in
          let current_epoch := {| ep_epoch_number := 0; ep_start_block := 0;
            ep_end_block := cp_epoch_length (gc_consensus_params g) -! 1;
            ep_validator_set := genesis_validator_set g; ep_finalized_block := None |} in
          let '(d, r) := run_puts d
            ([(λ d, cs_put_block d genesis_block); (λ d, cs_set_chain_height d 0);
              (λ d, cs_set_genesis_hash d genesis_hash)] ++
             ((λ a d, cs_put_account d (Account_new (ga_address a) (ga_balance a))) <$> gc_initial_accounts g) ++
             ((λ v d, cs_put_validator d v) <$> infos) ++
             [(λ d, cs_put_epoch d current_epoch)]) in
          Some (d, match r with
                   | Err e => Err (CStorage e)
                   | Ok _ => Ok {| cst_head := genesis_block; cst_height := 0;
                                   cst_current_epoch := current_epoch; cst_storage := d |}
                   end)
      end
  end.

(** ** Epochs *)
Definition unjail (p : ConsensusParams) (now : Z) (v : ValidatorInfo) : ValidatorInfo :=
  match vi_jailed_until v with
  | Some until =>
      if until <=? now then
        let v := vi_set_jailed v None in
        if cp_min_stake p <=? vi_stake v then vi_set_active v true else v
      else v
  | None => v
  end.
(** [b.stake.cmp(&a.stake)]: descending stake. *)
Definition stake_desc (a b : ValidatorInfo) : bool := vi_stake b <=? vi_stake a.
Definition next_validators (p : ConsensusParams) (now : Z) (l : list ValidatorInfo) : list ValidatorInfo :=
  take (Z.to_nat (cp_max_validators p))
    (sort_by stake_desc (List.filter (λ v, cp_min_stake p <=? vi_stake v) (unjail p now <$> l))).

Definition maybe_advance_epoch (c : ChainState D) (p : ConsensusParams) (now : Z)
    : ChainState D * result ConsensusError (option EpochInfo) :=
  let ep := cst_current_epoch c in
  if negb (is_last_block ep (cst_height c)) then (c, Ok None)
  else
    let start_block := cst_height c +! 1 in
    let new_epoch := {|
      ep_epoch_number := ep_epoch_number ep +! 1;
      ep_start_block := start_block;
      ep_end_block := start_block +! cp_epoch_length p -! 1;
      ep_validator_set := ValidatorSet_new (next_validators p now (vs_validators (ep_validator_set ep)))
        (cp_min_stake p) (cp_max_validators p);
      ep_finalized_block := None |} in
    match cs_put_epoch (cst_storage c) new_epoch with
    | Err e => (c, Err (CStorage e))
    | Ok d => ({| cst_head := cst_head c; cst_height := cst_height c; cst_current_epoch := new_epoch;
                  cst_storage := d |}, Ok (Some new_epoch))
    end.
End State.

(** ** Properties of execution *)
Section ExecProperties.
Context `{CryptoPrims} `{Wasmtime} `{Bincode Transaction} `{Bincode BlockHeader}.
Context {D : Type} `{ChainStore D}.
Implicit Types (d : D) (x : Exec D).

(** The account the next transaction sees. *)
Definition account_of x (a : Address) : Account := get_or_new (ex_db x) (ex_accounts x) a.
Definition balance_of x (a : Address) : Z := acc_balance (account_of x a).
Definition stake_of x (a : Address) : Z := default 0 (vi_stake <$> get_validator (ex_vset x) a).

(** The transaction passes the nonce and the balance check. *)
Definition executable x (t : SignedTransaction) : Prop :=
  tx_nonce (stx_transaction t) = acc_nonce (account_of x (sender t)) ∧
  total_cost (stx_transaction t) ≤ balance_of x (sender t).

Lemma exec_tx_executed x b i t :
  executable x t →
  exec_tx x b i t =
    '(x', snd, r) ← exec_by_type x b i t
       (increment_nonce (debit (account_of x (sender t)) (max_gas_cost (stx_transaction t))));
    Some (put_acct x' (sender t) snd, r).
Proof.
  intros [Hn Hb]. unfold exec_tx. fold (account_of x (sender t)).
  rewrite (proj2 (Z.eqb_eq _ _) Hn). simpl. unfold has_sufficient_balance. fold (balance_of x (sender t)).
  by rewrite (proj2 (Z.leb_le _ _) Hb).
Qed.
Lemma exec_tx_skipped x b i t :
  ¬ executable x t → ∃ msg, exec_tx x b i t = Some (x, receipt b i t (TxFailure msg) 0 [] None []).
Proof.
  intros Hn. unfold exec_tx. destruct (tx_nonce _ =? _) eqn:En; simpl; [|by eexists].
  unfold has_sufficient_balance. destruct (total_cost _ <=? _) eqn:Eb; simpl; [|by eexists].
  zbool. destruct Hn. by split.
Qed.
#[export] Instance executable_dec x t : Decision (executable x t).
Proof. unfold executable. apply _. Defined.

(** What every branch leaves of the sender's account and of the receipt. *)
Lemma exec_by_type_frame x b i t snd x' snd' r :
  exec_by_type x b i t snd = Some (x', snd', r) →
  acc_nonce snd' = acc_nonce snd ∧ acc_address snd' = acc_address snd ∧
  rc_tx_hash r = stx_tx_hash t ∧ rc_index r = as_u 32 (Z.of_nat i) ∧ rc_block_hash r = block_hash b.
Proof.
  unfold exec_by_type. destruct (tx_tx_type _).
  - by intros [= <- <- <-].
  - unfold exec_deploy. destruct (deploy_contract _ _ _ _) as [[[vm c] [res|e]]|]; simpl;
      [by intros [= <- <- <-]..|done].
  - unfold exec_call. destruct (find_account _ _ _) as [acct|]; [|by intros [= <- <- <-]].
    destruct (acc_code_hash acct) as [ch|]; [|by intros [= <- <- <-]].
    destruct (extract_function_name _) as [f args].
    destruct (call_contract _ _ _ _ _) as [[[vm c] [res|e]]|]; simpl; [by intros [= <- <- <-]..|done].
  - by intros [= <- <- <-].
  - unfold exec_unstake. destruct (get_validator _ _); [destruct (_ <? _)|]; by intros [= <- <- <-].
Qed.

Lemma account_of_put x a acc a' :
  account_of (put_acct x a acc) a' = if decide (a = a') then acc else account_of x a'.
Proof.
  unfold account_of, get_or_new, find_account. simpl. rewrite lookup_insert. by destruct (decide (a = a')).
Qed.

(** C5: After a transaction of any kind was executed, its sender's nonce is one more,
    and executing the same signed transaction again is refused with a failure receipt that
    uses no gas and changes nothing. *)
Theorem replayed_transaction_rejected x b i t x' r b' j :
  in_u 64 (tx_nonce (stx_transaction t)) → executable x t →
  exec_tx x b i t = Some (x', r) →
  acc_nonce (account_of x' (sender t)) = tx_nonce (stx_transaction t) +! 1 ∧
  ∃ msg, exec_tx x' b' j t = Some (x', receipt b' j t (TxFailure msg) 0 [] None []).
Proof.
  intros Hu Hx He. rewrite exec_tx_executed in He by done.
  destruct (exec_by_type _ _ _ _ _) as [[[x1 snd] r1]|] eqn:E; simpl in He; [|done].
  injection He as <- <-. apply exec_by_type_frame in E as (Hn & _). simpl in Hn.
  destruct Hx as [Hn0 _].
  assert (acc_nonce (account_of (put_acct x1 (sender t) snd) (sender t)) = tx_nonce (stx_transaction t) +! 1) as Hn1.
  { rewrite account_of_put, decide_True by done. by rewrite Hn, Hn0. }
  split; [done|]. apply exec_tx_skipped. intros [Hn2 _]. rewrite Hn1 in Hn2. revert Hn2.
  unfold wadd, wrap. destruct (decide (tx_nonce (stx_transaction t) = 2 ^ 64 - 1)) as [->|].
  - by vm_compute.
  - unfold in_u in Hu. rewrite Z.mod_small by lia. lia.
Qed.

(** One receipt per transaction, in order. *)
Lemma exec_txs_receipts x b i txs x' rs :
  exec_txs x b i txs = Some (x', rs) →
  rc_tx_hash <$> rs = stx_tx_hash <$> txs ∧
  rc_index <$> rs = (λ k, as_u 32 (Z.of_nat k)) <$> seq i (length txs) ∧
  Forall (λ r, rc_block_hash r = block_hash b) rs.
Proof.
  revert x i rs. induction txs as [|t txs IH]; intros x i rs Hx; simpl in Hx; [by simplify_eq|].
  destruct (exec_tx x b i t) as [[x1 r]|] eqn:E; simpl in Hx; [|done].
  destruct (exec_txs x1 b (S i) txs) as [[x2 rs']|] eqn:E2; simpl in Hx; [|done].
  injection Hx as <- <-. destruct (IH _ _ _ E2) as (Hh & Hi & Hb).
  assert (rc_tx_hash r = stx_tx_hash t ∧ rc_index r = as_u 32 (Z.of_nat i) ∧ rc_block_hash r = block_hash b)
    as (? & ? & ?).
  { destruct (decide (executable x t)) as [Hx|Hx].
    - rewrite exec_tx_executed in E by done.
      destruct (exec_by_type _ _ _ _ _) as [[[x3 snd] r3]|] eqn:E3; simpl in E; [|done].
      injection E as <- <-. by apply exec_by_type_frame in E3 as (_ & _ & ? & ? & ?).
    - destruct (exec_tx_skipped x b i t Hx) as [msg Hs]. rewrite Hs in E. by injection E as <- <-. }
  simpl. split; [by f_equal|]. split; [by f_equal|]. by constructor.
Qed.
End ExecProperties.

Section MoneyProperties.
Context `{CryptoPrims} `{Wasmtime} `{Bincode Transaction} `{Bincode BlockHeader}.
Context {D : Type} `{ChainStore D} `{!ChainStoreLaws D}.
Implicit Types (d : D) (x : Exec D).

(** What a transaction without code pays: at most the base gas. *)
Definition base_fee (tx : Transaction) : Z := Z.min (tx_gas_limit tx) BASE_GAS * tx_gas_price tx.
(** No product or sum of the transaction leaves its integer type. *)
Definition tx_fits x (t : SignedTransaction) : Prop :=
  let tx := stx_transaction t in
  tx_wf tx ∧ tx_gas_limit tx * tx_gas_price tx < 2 ^ 64 ∧
  tx_value tx + tx_gas_limit tx * tx_gas_price tx < 2 ^ 128 ∧
  in_u 128 (balance_of x (sender t)).

Lemma tx_fits_costs x t :
  tx_fits x t → executable x t →
  let tx := stx_transaction t in
  max_gas_cost tx = tx_gas_limit tx * tx_gas_price tx ∧
  gas_refund tx BASE_GAS = max_gas_cost tx - base_fee tx ∧
  0 ≤ base_fee tx ≤ max_gas_cost tx ∧
  tx_value tx + max_gas_cost tx ≤ balance_of x (sender t).
Proof.
  intros ((Hc & Hn & Hv & Hg & Hp & Ht) & Hgp & Htot & Hb) [_ Hcost] tx. fold tx in Hc, Hn, Hv, Hg, Hp, Hgp, Htot, Hcost.
  assert (max_gas_cost tx = tx_gas_limit tx * tx_gas_price tx) as Hmax.
  { unfold max_gas_cost. apply wmul_small. by apply mul_u64_in_u128. }
  unfold total_cost in Hcost. rewrite Hmax in *. unfold in_u in *.
  assert (0 ≤ tx_gas_limit tx * tx_gas_price tx) by nia.
  rewrite wadd_small in Hcost by (unfold in_u; lia).
  unfold gas_refund, base_fee, sat_sub, BASE_GAS.
  assert (Z.max 0 (tx_gas_limit tx - 21000) * tx_gas_price tx =
    tx_gas_limit tx * tx_gas_price tx - Z.min (tx_gas_limit tx) 21000 * tx_gas_price tx) as Heq by nia.
  rewrite wmul_small by (unfold in_u; nia). split; [done|]. split; [exact Heq|]. split; [nia|exact Hcost].
Qed.

(** Amounts after the up-front charge and the refund. *)
Lemma charge_refund x t v :
  tx_fits x t → executable x t → 0 ≤ v ≤ tx_value (stx_transaction t) →
  let tx := stx_transaction t in
  acc_balance (credit (debit (increment_nonce (debit (account_of x (sender t)) (max_gas_cost tx))) v)
    (gas_refund tx BASE_GAS)) = balance_of x (sender t) - v - base_fee tx.
Proof.
  intros Hf Hx Hv tx. destruct (tx_fits_costs x t Hf Hx) as (Hm & Hr & Hfee & Hle). fold tx in Hm, Hr, Hfee, Hle, Hv.
  destruct Hf as (_ & _ & _ & Hb). unfold in_u in Hb. simpl. fold (balance_of x (sender t)). rewrite Hr.
  unwrap. lia.
Qed.

(** C4: Executing a transfer between two different accounts whose sender has the right
    nonce and the balance for value plus maximal gas cost, where gas limit times gas price
    is below 2^64, value plus that product below 2^128 and the recipient's balance does not
    overflow, succeeds, takes exactly the value plus the base fee from the sender, gives
    exactly the value to the recipient, and changes no other account, no stake and nothing
    in the database. *)
Theorem transfer_moves_value x b i t to x' r :
  tx_tx_type (stx_transaction t) = Transfer → tx_to (stx_transaction t) = Some to →
  executable x t → tx_fits x t → to ≠ sender t →
  0 ≤ balance_of x to → balance_of x to + tx_value (stx_transaction t) < 2 ^ 128 →
  exec_tx x b i t = Some (x', r) →
  rc_status r = TxSuccess ∧
  balance_of x' (sender t) = balance_of x (sender t) - tx_value (stx_transaction t) - base_fee (stx_transaction t) ∧
  balance_of x' to = balance_of x to + tx_value (stx_transaction t) ∧
  (∀ a, a ≠ sender t → a ≠ to → account_of x' a = account_of x a) ∧
  ex_vset x' = ex_vset x ∧ ex_db x' = ex_db x.
Proof.
  intros Hty Hto Hx Hf Hne Hb0 Hb1 He. rewrite exec_tx_executed in He by done.
  unfold exec_by_type in He. rewrite Hty in He. cbn [exec_transfer mbind option_bind] in He.
  unfold exec_transfer in He. rewrite Hto in He. simpl in He. injection He as <- <-.
  split; [done|]. split; [|split; [|split; [|done]]].
  - unfold balance_of at 1. rewrite account_of_put, decide_True by done.
    apply (charge_refund x t); try done. destruct Hf as ((_ & _ & [? ?] & _) & _). lia.
  - unfold balance_of at 1. rewrite account_of_put, decide_False by done.
    rewrite account_of_put, decide_True by done. simpl. fold (account_of x to). fold (balance_of x to).
    destruct Hf as ((_ & _ & [? ?] & _) & _). by unwrap.
  - intros a Ha1 Ha2. rewrite !account_of_put, !decide_False by done. done.
Qed.

(** A transfer to oneself succeeds and destroys the value: the recipient's credit
    is overwritten by the sender's debited account. *)
Theorem self_transfer_burns_value x b i t x' r :
  tx_tx_type (stx_transaction t) = Transfer → tx_to (stx_transaction t) = Some (sender t) →
  executable x t → tx_fits x t →
  exec_tx x b i t = Some (x', r) →
  rc_status r = TxSuccess ∧
  balance_of x' (sender t) = balance_of x (sender t) - tx_value (stx_transaction t) - base_fee (stx_transaction t) ∧
  (∀ a, a ≠ sender t → account_of x' a = account_of x a).
Proof.
  intros Hty Hto Hx Hf He. rewrite exec_tx_executed in He by done.
  unfold exec_by_type in He. rewrite Hty in He. unfold exec_transfer in He. rewrite Hto in He.
  simpl in He. injection He as <- <-. split; [done|]. split.
  - unfold balance_of at 1. rewrite account_of_put, decide_True by done.
    apply (charge_refund x t); try done. destruct Hf as ((_ & _ & [? ?] & _) & _). lia.
  - intros a Ha. rewrite !account_of_put, !decide_False by done. done.
Qed.

(** A failed or successful validator write does not touch the accounts. *)
Lemma keep_put_validator_account d v a :
  cs_get_account (keep d (cs_put_validator d v)) a = cs_get_account d a.
Proof.
  destruct (cs_put_validator d v) as [d'|] eqn:E; simpl; [|done]. by eapply cs_put_validator_account.
Qed.
Lemma account_of_db x d a :
  (∀ a, cs_get_account d a = cs_get_account (ex_db x) a) → account_of (set_db x d) a = account_of x a.
Proof. intros Hd. unfold account_of, get_or_new, find_account. simpl. by rewrite Hd. Qed.

Lemma get_validator_app s v a :
  get_validator s a = None → vi_address v = a →
  List.find (λ v, bool_decide (vi_address v = a)) (vs_validators s ++ [v]) = Some v.
Proof.
  unfold get_validator. intros Hn Ha. rewrite find_app, Hn. simpl. by rewrite bool_decide_eq_true_2.
Qed.

(** Executing a stake transaction moves exactly the value from the sender's balance
    to its validator stake (registering the validator when it is new), at the base fee, and
    changes no other account. *)
Theorem stake_moves_balance_to_stake x b i t x' r :
  tx_tx_type (stx_transaction t) = Stake → executable x t → tx_fits x t →
  0 ≤ stake_of x (sender t) → stake_of x (sender t) + tx_value (stx_transaction t) < 2 ^ 128 →
  exec_tx x b i t = Some (x', r) →
  rc_status r = TxSuccess ∧
  balance_of x' (sender t) = balance_of x (sender t) - tx_value (stx_transaction t) - base_fee (stx_transaction t) ∧
  stake_of x' (sender t) = stake_of x (sender t) + tx_value (stx_transaction t) ∧
  (∀ a, a ≠ sender t → account_of x' a = account_of x a).
Proof.
  intros Hty Hx Hf Hs0 Hs1 He. rewrite exec_tx_executed in He by done.
  unfold exec_by_type in He. rewrite Hty in He. unfold exec_stake in He.
  pose proof (proj1 Hf) as (_ & _ & [Hv0 Hv1] & _).
  pose proof (charge_refund x t (tx_value (stx_transaction t)) Hf Hx ltac:(lia)) as Hch.
  destruct (get_validator (ex_vset x) (sender t)) as [vi|] eqn:Eg; simpl in He; injection He as <- <-.
  - split; [done|]. split; [|split].
    + unfold balance_of at 1. rewrite account_of_put, decide_True by done. exact Hch.
    + unfold stake_of in *. rewrite Eg in *. simpl in *. unfold get_validator. simpl.
      rewrite (find_update_first _ _ _ vi) by (done || exact Eg). simpl. by unwrap.
    + intros a Ha. rewrite account_of_put, decide_False by done.
      apply (account_of_db x). intros. apply keep_put_validator_account.
  - split; [done|]. split; [|split].
    + unfold balance_of at 1. rewrite account_of_put, decide_True by done. exact Hch.
    + unfold stake_of in *. rewrite Eg in *. simpl in *. unfold get_validator. simpl.
      rewrite (get_validator_app (ex_vset x) _ (sender t)) by done. simpl. lia.
    + intros a Ha. rewrite account_of_put, decide_False by done.
      apply (account_of_db x). intros. apply keep_put_validator_account.
Qed.

(** Executing an unstake transaction of at most the stake returns exactly the value
    to the sender's balance at the base fee, takes it from the stake, and deactivates the
    validator when it falls below the minimum stake. *)
Theorem unstake_returns_stake x b i t x' r :
  tx_tx_type (stx_transaction t) = Unstake → executable x t → tx_fits x t →
  tx_value (stx_transaction t) ≤ stake_of x (sender t) < 2 ^ 128 →
  is_Some (get_validator (ex_vset x) (sender t)) →
  balance_of x (sender t) + tx_value (stx_transaction t) < 2 ^ 128 →
  exec_tx x b i t = Some (x', r) →
  rc_status r = TxSuccess ∧
  balance_of x' (sender t) = balance_of x (sender t) + tx_value (stx_transaction t) - base_fee (stx_transaction t) ∧
  stake_of x' (sender t) = stake_of x (sender t) - tx_value (stx_transaction t) ∧
  (stake_of x' (sender t) < vs_min_stake (ex_vset x) →
     is_Some (get_validator (ex_vset x') (sender t)) ∧
     vi_is_active <$> get_validator (ex_vset x') (sender t) = Some false).
Proof.
  intros Hty Hx Hf Hs [vi Eg] Hb He. rewrite exec_tx_executed in He by done.
  unfold exec_by_type in He. rewrite Hty in He. unfold exec_unstake in He. rewrite Eg in He.
  unfold stake_of in *. rewrite Eg in Hs. simpl in Hs. rewrite (proj2 (Z.ltb_ge _ _)) in He by lia.
  simpl in He. injection He as <- <-. split; [done|].
  set (shrink := λ v, if _ : bool then _ else _).
  assert (∀ v, vi_address (shrink v) = vi_address v) as Ha by (intros v; unfold shrink; by destruct (_ <? _)).
  pose proof (proj1 Hf) as (_ & _ & [Hv0 Hv1] & _).
  assert (get_validator (recalculate_total_stake (get_validator_mut (ex_vset x) (sender t) shrink)) (sender t) =
    Some (shrink vi)) as Hg.
  { unfold get_validator. simpl. by rewrite (find_update_first _ _ _ vi) by (done || exact Eg). }
  assert (vi_stake (shrink vi) = vi_stake vi - tx_value (stx_transaction t)) as Hst.
  { unfold shrink. destruct (_ <? _); simpl; by unwrap. }
  split; [|split].
  - unfold balance_of at 1. rewrite account_of_put, decide_True by done.
    destruct (tx_fits_costs x t Hf Hx) as (Hm & Hr & Hfee & Hle).
    destruct Hf as (_ & _ & _ & Hbal). unfold in_u in Hbal. simpl. fold (balance_of x (sender t)). rewrite Hr.
    unwrap. lia.
  - simpl. rewrite Hg, Eg. simpl. exact Hst.
  - simpl. rewrite Hg. simpl. intros Hlt. split; [by eexists|]. f_equal. rewrite Hst in Hlt.
    unfold shrink. simpl. unwrap. by rewrite (proj2 (Z.ltb_lt _ _)) by lia.
Qed.
End MoneyProperties.

(** ** Applying the VM's balance deltas *)
Section Deltas.
Context {D : Type} `{ChainStore D}.
Implicit Types (d : D) (m : gmap Address Account).

Lemma apply_delta_other d m ad a : a ≠ ad.1 → get_or_new d (apply_delta d m ad) a = get_or_new d m a.
Proof. intros Ha. unfold get_or_new, find_account, apply_delta. by rewrite lookup_insert_ne. Qed.
Lemma apply_delta_comm d m ad1 ad2 :
  ad1.1 ≠ ad2.1 → apply_delta d (apply_delta d m ad1) ad2 = apply_delta d (apply_delta d m ad2) ad1.
Proof.
  intros Hne. unfold apply_delta at 1 3.
  rewrite !apply_delta_other by done. unfold apply_delta. by apply insert_insert_ne.
Qed.

(** The order in which the deltas are flushed does not matter. *)
Lemma apply_balance_changes_perm d m l1 l2 :
  l1 ≡ₚ l2 → NoDup l1.*1 → foldl (apply_delta d) m l1 = foldl (apply_delta d) m l2.
Proof.
  intros Hp. revert m. induction Hp as [|ad l1 l2 Hp IH|ad1 ad2 l|l1 l2 l3 Hp1 IH1 Hp2 IH2]; intros m Hnd; simpl.
  - done.
  - apply NoDup_cons in Hnd as [_ Hnd]. by apply IH.
  - apply NoDup_cons in Hnd as [Hn _]. rewrite apply_delta_comm; [done|]. set_solver.
  - rewrite IH1 by done. apply IH2. by rewrite <- Hp1.
Qed.

Lemma foldl_delta_lookup d m l a :
  NoDup l.*1 →
  get_or_new d (foldl (apply_delta d) m l) a =
  match list_find (λ ad, ad.1 = a) l with
  | Some (_, ad) => set_balance (get_or_new d m a)
      (as_u 128 (Z.max (iadd 128 (as_i 128 (acc_balance (get_or_new d m a))) ad.2) 0))
  | None => get_or_new d m a
  end.
Proof.
  revert m. induction l as [|ad l IH]; intros m Hnd; [done|].
  apply NoDup_cons in Hnd as [Hn Hnd]. simpl. rewrite (IH _ Hnd).
  destruct (decide (ad.1 = a)) as [<-|Ha].
  - assert (list_find (λ ad', ad'.1 = ad.1) l = None) as ->.
    { apply list_find_None, Forall_forall. intros ad' Hin Heq. apply Hn. rewrite <- Heq.
      by apply list_elem_of_fmap_2. }
    unfold get_or_new at 1, find_account, apply_delta. by rewrite lookup_insert_eq.
  - rewrite apply_delta_other by done. by destruct (list_find _ l) as [[? ?]|].
Qed.

(** Flushing the VM's balance deltas into the accounts adds each delta to the
    account's balance exactly, and changes no other balance, as long as the resulting
    balances are in range. *)
Theorem apply_balance_changes_exact d m changes :
  (∀ a, 0 ≤ acc_balance (get_or_new d m a) < 2 ^ 127) →
  (∀ a v, changes !! a = Some v →
     0 ≤ acc_balance (get_or_new d m a) + v < 2 ^ 127 ∧ - 2 ^ 127 ≤ v < 2 ^ 127) →
  ∀ a, acc_balance (get_or_new d (apply_balance_changes d changes m) a) =
       acc_balance (get_or_new d m a) + default 0 (changes !! a).
Proof.
  intros Hm Hc a. unfold apply_balance_changes. rewrite foldl_delta_lookup by apply NoDup_fst_map_to_list.
  destruct (list_find _ _) as [[i [a' v]]|] eqn:E.
  - apply list_find_Some in E as (Hi & Ha & _). simpl in Ha. subst a'.
    apply list_elem_of_lookup_2, elem_of_map_to_list in Hi. rewrite Hi. simpl.
    destruct (Hc a v Hi). specialize (Hm a). rewrite (as_i_small 128) by lia. unfold iadd.
    rewrite (as_i_small 128) by lia. rewrite as_u_small by (unfold in_u; lia). lia.
  - apply list_find_None in E. rewrite Forall_forall in E.
    destruct (changes !! a) as [v|] eqn:Ec; simpl; [|lia].
    exfalso. by apply (E (a, v)); [apply elem_of_map_to_list|].
Qed.
End Deltas.

(** ** Blocks and the database *)
Section BlockProperties.
Context `{CryptoPrims} `{Wasmtime} `{Bincode Transaction} `{Bincode BlockHeader}.
Context {D : Type} `{ChainStore D} `{!ChainStoreLaws D}.
Implicit Types (d : D) (x : Exec D) (c : ChainState D).

Definition same_accounts d d' : Prop := ∀ a, cs_get_account d' a = cs_get_account d a.
(** Accounts are stored under their own address. *)
Definition keyed d (m : gmap Address Account) : Prop :=
  (∀ a acc, m !! a = Some acc → acc_address acc = a) ∧
  (∀ a acc, cs_get_account d a = Ok (Some acc) → acc_address acc = a).

Lemma get_or_new_keyed d m a : keyed d m → acc_address (get_or_new d m a) = a.
Proof.
  intros [Hm Hd]. unfold get_or_new, find_account.
  destruct (m !! a) as [acc|] eqn:E; [by apply Hm|].
  destruct (cs_get_account d a) as [[acc|]|] eqn:Ea; simpl; [by apply Hd|done..].
Qed.
Lemma keyed_insert d m a acc : keyed d m → acc_address acc = a → keyed d (<[a := acc]> m).
Proof.
  intros [Hm Hd] Ha. split; [|done]. intros a' acc' Hl.
  apply lookup_insert_cases in Hl as [[<- <-]|[_ Hl]]; [done|by apply Hm].
Qed.
Lemma keyed_same d d' m : same_accounts d d' → keyed d m → keyed d' m.
Proof. intros Hs [Hm Hd]. split; [done|]. intros a acc. rewrite Hs. apply Hd. Qed.
Lemma apply_balance_changes_keyed d changes m : keyed d m → keyed d (apply_balance_changes d changes m).
Proof.
  unfold apply_balance_changes. generalize (map_to_list changes). intros l. revert m.
  induction l as [|ad l IH]; intros m Hk; simpl; [done|]. apply IH, keyed_insert; [done|].
  simpl. by apply get_or_new_keyed.
Qed.

Lemma keep_same (f : D → result StorageError D) d :
  (∀ d', f d = Ok d' → same_accounts d d') → same_accounts d (keep d (f d)).
Proof. intros Hf. destruct (f d) as [d'|] eqn:E; simpl; [by apply Hf|done]. Qed.
Lemma flush_storage_same d changes : same_accounts d (flush_storage d changes).
Proof.
  unfold flush_storage. generalize (map_to_list changes). intros l. revert d.
  induction l as [|[[a k] v] l IH]; intros d a'; [done|]. cbn [foldl]. rewrite IH.
  destruct v as [v|].
  - destruct (cs_put_storage d a k v) as [d'|] eqn:E; simpl; [|done]. by eapply cs_put_storage_account.
  - destruct (cs_delete_storage d a k) as [d'|] eqn:E; simpl; [|done]. by eapply cs_delete_storage_account.
Qed.

(** Executing transactions leaves the stored accounts alone, and keeps the
    modified ones under their address. *)
Definition exec_keeps x x' : Prop :=
  same_accounts (ex_db x) (ex_db x') ∧ (keyed (ex_db x) (ex_accounts x) → keyed (ex_db x') (ex_accounts x')).

Lemma exec_keeps_put x x' a acc :
  exec_keeps x x' → (keyed (ex_db x) (ex_accounts x) → acc_address acc = a) →
  exec_keeps x (put_acct x' a acc).
Proof. intros [Hs Hk] Ha. split; [done|]. intros Hx. simpl. apply keyed_insert; auto. Qed.
Lemma exec_keeps_db x x' d :
  exec_keeps x x' → same_accounts (ex_db x') d → exec_keeps x (set_db x' d).
Proof.
  intros [Hs Hk] Hd. split; [intros a; simpl; by rewrite Hd|]. intros Hx. simpl. by eapply keyed_same; [|apply Hk].
Qed.
Lemma exec_keeps_changes x x' ch :
  exec_keeps x x' → exec_keeps x (set_accounts x' (apply_balance_changes (ex_db x') ch (ex_accounts x'))).
Proof. intros [Hs Hk]. split; [done|]. intros Hx. simpl. by apply apply_balance_changes_keyed, Hk. Qed.
Lemma exec_keeps_refl x : exec_keeps x x.
Proof. by split. Qed.

Lemma exec_by_type_keeps x b i t snd x' snd' r :
  exec_by_type x b i t snd = Some (x', snd', r) → exec_keeps x x'.
Proof.
  unfold exec_by_type. destruct (tx_tx_type _).
  - intros [= <- <- <-]. apply exec_keeps_put; [apply exec_keeps_refl|]. by apply get_or_new_keyed.
  - unfold exec_deploy. destruct (deploy_contract _ _ _ _) as [[[vm c] [res|e]]|]; cbn [mbind option_bind]; [|by intros [= <- <- <-]|done];
      intros [= <- <- <-].
    apply exec_keeps_changes, exec_keeps_db; [|apply flush_storage_same].
    apply exec_keeps_put; [|done]. apply (exec_keeps_db x (set_vm x vm)); [done|].
    apply (keep_same (λ d, cs_put_code d _ _)). intros d' Hd' a. by eapply cs_put_code_account.
  - unfold exec_call. destruct (find_account _ _ _) as [acct|]; [|by intros [= <- <- <-]].
    destruct (acc_code_hash acct) as [ch|]; [|by intros [= <- <- <-]].
    destruct (extract_function_name _) as [f args].
    destruct (call_contract _ _ _ _ _) as [[[vm c] [res|e]]|]; cbn [mbind option_bind]; [|by intros [= <- <- <-]|done];
      intros [= <- <- <-].
    case_bool_decide; [|done].
    refine (exec_keeps_changes x (set_db (set_vm x vm) (flush_storage (ex_db x) _)) _ _).
    apply exec_keeps_db; [done|apply flush_storage_same].
  - unfold exec_stake. intros ?; simplify_eq. destruct (get_validator _ _); (split; [intros a; apply keep_put_validator_account|]);
      intros Hk; (eapply keyed_same; [|exact Hk]); intros a; apply keep_put_validator_account.
  - unfold exec_unstake. destruct (get_validator _ _); [destruct (_ <? _)|]; intros ?; simplify_eq; try done.
    split; [intros a; apply keep_put_validator_account|].
    intros Hk. eapply keyed_same; [|exact Hk]. intros a. apply keep_put_validator_account.
Qed.
Lemma exec_tx_keeps x b i t x' r : exec_tx x b i t = Some (x', r) → exec_keeps x x'.
Proof.
  destruct (decide (executable x t)) as [Hx|Hx].
  - rewrite exec_tx_executed by done. intros He.
    destruct (exec_by_type _ _ _ _ _) as [[[x3 snd] r3]|] eqn:E3; simpl in He; [|done].
    injection He as <- <-. apply exec_by_type_frame in E3 as Hfr. destruct Hfr as (_ & Ha & _).
    apply exec_keeps_put; [by eapply exec_by_type_keeps|]. intros Hk. rewrite Ha. simpl.
    by apply get_or_new_keyed.
  - destruct (exec_tx_skipped x b i t Hx) as [msg ->]. by intros [= <- <-].
Qed.
Lemma exec_txs_keeps x b i txs x' rs : exec_txs x b i txs = Some (x', rs) → exec_keeps x x'.
Proof.
  revert x i rs. induction txs as [|t txs IH]; intros x i rs Hx; simpl in Hx; [by simplify_eq|].
  destruct (exec_tx x b i t) as [[x1 r]|] eqn:E; simpl in Hx; [|done].
  destruct (exec_txs x1 b (S i) txs) as [[x2 rs']|] eqn:E2; simpl in Hx; [|done].
  injection Hx as <- <-. destruct (exec_tx_keeps _ _ _ _ _ _ E) as [Hs1 Hk1].
  destruct (IH _ _ _ E2) as [Hs2 Hk2]. split; [intros a; by rewrite Hs2|auto].
Qed.

(** The batch writes each modified account under its address. *)
Lemma last_account_keyed d m a : keyed d m → last_account (map_to_list m).*2 a = m !! a.
Proof.
  intros [Hm _]. unfold last_account.
  destruct (m !! a) as [acc|] eqn:E.
  - destruct (List.find _ _) as [acc'|] eqn:Ef.
    + apply find_some in Ef as [Hin Ha]. zbool. rewrite <- in_rev, <- list_elem_of_In in Hin.
      apply list_elem_of_fmap in Hin as ([a' acc2] & -> & Hin%elem_of_map_to_list). simpl in *.
      rewrite (Hm _ _ Hin) in Ha. subst a'. congruence.
    + assert (In acc (rev (map_to_list m).*2)) as Hin.
      { rewrite <- in_rev, <- list_elem_of_In. apply list_elem_of_fmap. exists (a, acc).
        split; [done|]. by apply elem_of_map_to_list. }
      pose proof (find_none _ _ Ef acc Hin) as Hf. simpl in Hf. zbool.
      destruct Hf. by apply Hm.
  - destruct (List.find _ _) as [acc'|] eqn:Ef; [|done]. exfalso.
    apply find_some in Ef as [Hin Ha]. zbool. rewrite <- in_rev, <- list_elem_of_In in Hin.
    apply list_elem_of_fmap in Hin as ([a' acc2] & -> & Hin%elem_of_map_to_list). simpl in *.
    rewrite (Hm _ _ Hin) in Ha. subst a'. congruence.
Qed.

(** C3: When apply_block accepts a block, its parent hash is the hash of the head and
    its number the next height; the block becomes the head, every transaction has its
    receipt in order, the database returns the new height and the block, and each account in
    the database is exactly what executing the transactions left (untouched accounts
    unchanged). *)
Theorem apply_block_commits c vm b c' vm' rs :
  keyed (cst_storage c) ∅ →
  apply_block c vm b = Some (c', vm', Ok rs) →
  hdr_parent_hash (blk_header b) = block_hash (cst_head c) ∧
  hdr_number (blk_header b) = cst_height c +! 1 ∧
  cst_head c' = b ∧ cst_height c' = hdr_number (blk_header b) ∧
  rc_tx_hash <$> rs = stx_tx_hash <$> blk_transactions b ∧
  cs_get_chain_height (cst_storage c') = Ok (Some (cst_height c')) ∧
  cs_get_block_by_number (cst_storage c') (cst_height c') = Ok (Some (cst_head c')) ∧
  keyed (cst_storage c') ∅ ∧
  ∃ x, exec_txs {| ex_db := cst_storage c; ex_vm := vm;
         ex_vset := ep_validator_set (cst_current_epoch c); ex_accounts := ∅ |} b 0 (blk_transactions b) = Some (x, rs) ∧
    ep_validator_set (cst_current_epoch c') = ex_vset x ∧
    ∀ a, cs_get_account (cst_storage c') a =
      match ex_accounts x !! a with Some acc => Ok (Some acc) | None => cs_get_account (cst_storage c) a end.
Proof.
  intros Hk Ha. unfold apply_block in Ha.
  case_bool_decide as Hp; simpl in Ha; [|done].
  destruct (_ =? _) eqn:En; simpl in Ha; [|done]. zbool.
  destruct (exec_txs _ b 0 _) as [[x rs']|] eqn:E; simpl in Ha; [|done].
  destruct (cs_commit _ _ _ _) as [d|] eqn:Ec; [|done]. injection Ha as <- <- <-. simpl.
  pose proof (exec_txs_keeps _ _ _ _ _ _ E) as [Hs Hkx]. simpl in Hs, Hkx. specialize (Hkx Hk).
  assert (∀ a, cs_get_account d a = match ex_accounts x !! a with
    Some acc => Ok (Some acc) | None => cs_get_account (cst_storage c) a end) as Hacc.
  { intros a. rewrite (cs_commit_account _ _ _ _ _ a Ec), (last_account_keyed _ _ _ Hkx).
    destruct (ex_accounts x !! a); [done|]. apply Hs. }
  assert (keyed d ∅) as Hkd.
  { split; [intros a acc; by rewrite lookup_empty|]. intros a acc. rewrite Hacc.
    destruct (ex_accounts x !! a) as [acc'|] eqn:Em; [intros [= <-]; by apply (proj1 Hkx)|apply (proj2 Hk)]. }
  refine (conj Hp (conj En (conj eq_refl (conj eq_refl (conj _ (conj _ (conj _ (conj Hkd _)))))))).
  - by eapply exec_txs_receipts.
  - by eapply cs_commit_height.
  - by eapply cs_commit_block.
  - by exists x.
Qed.

(** C39: When apply_block refuses a block the head and the height stay; a refusal for
    the parent hash or the number leaves the whole state and the VM unchanged, and any other
    error comes from the database. *)
Theorem apply_block_rejects c vm b c' vm' e :
  apply_block c vm b = Some (c', vm', Err e) →
  cst_head c' = cst_head c ∧ cst_height c' = cst_height c ∧
  ((hdr_parent_hash (blk_header b) ≠ block_hash (cst_head c) ∨
    hdr_number (blk_header b) ≠ cst_height c +! 1) ∧ c' = c ∧ vm' = vm ∨
   ∃ se, e = CStorage se).
Proof.
  unfold apply_block. case_bool_decide as Hp; simpl; [|intros [= <- <- <-]; naive_solver].
  destruct (_ =? _) eqn:En; simpl; zbool; [|intros [= <- <- <-]; naive_solver].
  destruct (exec_txs _ b 0 _) as [[x rs']|] eqn:E; simpl; [|done].
  destruct (cs_commit _ _ _ _) as [d|se] eqn:Ec; [done|]. intros [= <- <- <-]. simpl.
  split; [done|]. split; [done|]. right. by exists se.
Qed.

(** ** Epochs *)
Lemma stake_desc_total u v : stake_desc u v = false → stake_desc v u = true.
Proof. unfold stake_desc. intros H'. zbool. apply Z.leb_le. lia. Qed.
Lemma stake_desc_trans u v w : stake_desc u v = true → stake_desc v w = true → stake_desc u w = true.
Proof. unfold stake_desc. intros. zbool. apply Z.leb_le. lia. Qed.

(** The top validators: the ones left out have no more stake. *)
Lemma next_validators_spec p now l :
  let kept := next_validators p now l in
  (length kept ≤ Z.to_nat (cp_max_validators p))%nat ∧
  StronglySorted (λ u v, vi_stake v ≤ vi_stake u) kept ∧
  Forall (λ v, cp_min_stake p ≤ vi_stake v) kept ∧
  ∃ dropped, kept ++ dropped ≡ₚ List.filter (λ v, cp_min_stake p <=? vi_stake v) (unjail p now <$> l) ∧
    ∀ u v, u ∈ kept → v ∈ dropped → vi_stake v ≤ vi_stake u.
Proof.
  intros kept. subst kept. unfold next_validators. set (el := List.filter _ _). set (n := Z.to_nat _).
  pose proof (sort_by_sorted stake_desc stake_desc_total stake_desc_trans el) as Hsort.
  pose proof (sort_by_perm stake_desc el) as Hperm.
  set (s := sort_by stake_desc el) in *.
  assert (StronglySorted (λ u v, vi_stake v ≤ vi_stake u) s) as Hs.
  { clear -Hsort. induction Hsort as [|v s Hs IH Hv]; constructor; [done|].
    eapply Forall_impl; [exact Hv|]. intros w Hw. unfold stake_desc in Hw. zbool. lia. }
  split; [rewrite length_take; lia|]. split; [by apply StronglySorted_take|]. split.
  - apply Forall_take. rewrite Hperm. apply Forall_forall. intros v. unfold el.
    rewrite list_elem_of_In, List.filter_In. intros [_ Hv]. zbool. lia.
  - exists (drop n s). split; [by rewrite take_drop|].
    intros u v Hu Hv. clear -Hs Hu Hv. generalize dependent n. clearbody s.
    induction Hs as [|w s Hs IH Hw]; intros [|n] Hu Hv; simpl in *; try set_solver.
    apply elem_of_cons in Hu as [->|Hu]; [|by eapply IH].
    rewrite Forall_forall in Hw. apply Hw. rewrite <- (take_drop n s). set_solver.
Qed.

(** C24: When the epoch advances, the height was the last block of the old epoch; the
    new epoch starts right after it with the configured length, and its validators are
    sorted by descending stake, all at or above the minimum stake and at most the configured
    number. *)
Theorem epoch_transition c p now c' ep :
  maybe_advance_epoch c p now = (c', Ok (Some ep)) →
  in_u 64 (cst_height c) → cst_height c + 1 + cp_epoch_length p < 2 ^ 64 → 0 < cp_epoch_length p →
  cst_height c = ep_end_block (cst_current_epoch c) ∧
  cst_current_epoch c' = ep ∧ cst_head c' = cst_head c ∧ cst_height c' = cst_height c ∧
  ep_start_block ep = ep_end_block (cst_current_epoch c) + 1 ∧
  contains_block ep (cst_height c) = false ∧ contains_block ep (cst_height c + 1) = true ∧
  ep_end_block ep - ep_start_block ep + 1 = cp_epoch_length p ∧
  let vs := vs_validators (ep_validator_set ep) in
  (length vs ≤ Z.to_nat (cp_max_validators p))%nat ∧
  StronglySorted (λ u v, vi_stake v ≤ vi_stake u) vs ∧
  Forall (λ v, cp_min_stake p ≤ vi_stake v) vs ∧
  vs_total_stake (ep_validator_set ep) = flagged_stake vs.
Proof.
  intros Hm [Hh0 Hh1] Hb Hl. unfold maybe_advance_epoch in Hm.
  destruct (is_last_block _ _) eqn:Elast; simpl in Hm; [|done]. unfold is_last_block in Elast. zbool.
  destruct (cs_put_epoch _ _) as [d|]; [|done]. injection Hm as <- <-. simpl.
  destruct (next_validators_spec p now (vs_validators (ep_validator_set (cst_current_epoch c)))) as (? & ? & ? & _).
  unfold contains_block. simpl. unwrap.
  rewrite !andb_true_iff, andb_false_iff, !Z.leb_le, !Z.leb_gt.
  repeat split; try done; lia.
Qed.

(** Restarting on an initialised database restores the stored head and height and
    an epoch that contains the height, but the validator set is the one of the genesis file,
    whatever staking and slashing happened since. *)
Theorem restart_restores_head_not_stakes g d h d' c :
  cs_get_genesis_hash d = Ok (Some h) → from_genesis g d = Some (d', Ok c) →
  0 < cp_epoch_length (gc_consensus_params g) →
  in_u 64 (cst_height c) → cst_height c + cp_epoch_length (gc_consensus_params g) < 2 ^ 64 →
  d' = d ∧ cst_storage c = d ∧
  cs_get_block_by_number d (cst_height c) = Ok (Some (cst_head c)) ∧
  contains_block (cst_current_epoch c) (cst_height c) = true ∧
  ep_validator_set (cst_current_epoch c) = genesis_validator_set g.
Proof.
  intros Hg Hf Hl [Hh0 Hh1] Hb. unfold from_genesis in Hf.
  destruct (genesis_validate g); [|done]. destruct (to_genesis_block g) as [gb|]; simpl in Hf; [|done].
  rewrite Hg in Hf. case_bool_decide; simpl in Hf; [|done]. unfold load_existing in Hf.
  destruct (cs_get_chain_height d) as [oh|]; simpl in Hf; [|done].
  destruct (cs_get_block_by_number d (default 0 oh)) as [[hd|]|] eqn:Eb; simpl in Hf; [|done..].
  rewrite (proj2 (Z.eqb_neq _ _)) in Hf by lia. simpl in Hf. injection Hf as <- <-. simpl in *.
  repeat split; try done. unfold contains_block. simpl.
  set (len := cp_epoch_length _) in *. set (n := default 0 oh) in *.
  pose proof (Z.div_mod n len ltac:(lia)). pose proof (Z.mod_pos_bound n len ltac:(lia)).
  assert (0 ≤ n / len) by (apply Z.div_pos; lia). assert (0 ≤ n / len * len ≤ n) by nia.
  unwrap. rewrite andb_true_iff, !Z.leb_le. lia.
Qed.
End BlockProperties.

(** The refund is computed in 64 bits. *)
Theorem gas_refund_overflow :
  ∃ tx, tx_wf tx ∧ tx_validate_basic tx = Ok () ∧
    max_gas_cost tx - gas_refund tx BASE_GAS > 1000000 * base_fee tx.
Proof.
  exists {| tx_chain_id := 1; tx_nonce := 0; tx_from := Address_ZERO; tx_to := Some Address_ZERO; tx_value := 0;
    tx_tx_type := Transfer; tx_gas_limit := 2 ^ 53 + 21000; tx_gas_price := 2 ^ 32; tx_data := []; tx_timestamp := 0 |}.
  repeat split; by vm_compute.
Qed.
