(* ===== verification/Metrics.v ===== *)
(** * Metrics: the Prometheus endpoint (crates/api/src/metrics.rs)

    The prometheus crate is the class [Prometheus]; its documented behaviour (which names
    are accepted, that a name is registered once, that gathered families encode) is
    [PrometheusLaws].  [None] is the panic of an [expect]. *)

From S2P Require Import Prelude ChainState.

Class Prometheus := {
  PromRegistry : Type;
  PromMetric : Type;
  PromFamily : Type;
  Registry_new : PromRegistry;
  IntCounter_new : string → string → result string PromMetric;
  IntGauge_new : string → string → result string PromMetric;
  register : PromRegistry → PromMetric → result string PromRegistry;
  gather : PromRegistry → list PromFamily;
  text_encode : list PromFamily → result string bytes;
  metric_name : PromMetric → string;
  registered : PromRegistry → list string
}.

(** [[a-zA-Z_:][a-zA-Z0-9_:]*], the names Prometheus allows. *)
Definition name_start (c : Ascii.ascii) : bool :=
  let n := Ascii.nat_of_ascii c in
  ((97 <=? n) && (n <=? 122) || (65 <=? n) && (n <=? 90) || (n =? 95) || (n =? 58))%nat.
Definition name_char (c : Ascii.ascii) : bool :=
  let n := Ascii.nat_of_ascii c in (name_start c || (48 <=? n) && (n <=? 57))%nat.
Definition valid_metric_name (s : string) : bool :=
  match s with
  | EmptyString => false
  | String c rest => name_start c && forallb name_char (String.list_ascii_of_string rest)
  end.

Class PrometheusLaws `{Prometheus} : Prop := {
  counter_new_ok name help : valid_metric_name name = true → help ≠ ""%string →
    ∃ m, IntCounter_new name help = Ok m ∧ metric_name m = name;
  gauge_new_ok name help : valid_metric_name name = true → help ≠ ""%string →
    ∃ m, IntGauge_new name help = Ok m ∧ metric_name m = name;
  registry_empty : registered Registry_new = [];
  register_fresh r m : metric_name m ∉ registered r →
    ∃ r', register r m = Ok r' ∧ registered r' = registered r ++ [metric_name m];
  register_again r m : metric_name m ∈ registered r → is_ok (register r m) = false;
  gathered_encode r : ∃ text, text_encode (gather r) = Ok (b_ text) ∧ from_utf8 (b_ text) = Some text
}.

Section Metrics.
Context `{Prometheus}.

Record MetricsRegistry : Type := {
  registry : PromRegistry;
  blocks_processed : PromMetric;
  transactions_processed : PromMetric;
  active_connections : PromMetric;
  chain_height : PromMetric;
  peer_count : PromMetric
}.
(** [.expect(..)] *)
Definition expect {A} (r : result string A) : option A := match r with Ok a => Some a | Err _ => None end.
Definition MetricsRegistry_new : option MetricsRegistry :=
  let registry := Registry_new in
  blocks_processed ← expect (IntCounter_new "rustchain_blocks_processed_total" "Total number of blocks processed");
  transactions_processed ← expect (IntCounter_new "rustchain_transactions_processed_total"
    "Total number of transactions processed");
  active_connections ← expect (IntGauge_new "rustchain_active_connections" "Number of active API / WebSocket connections");
  chain_height ← expect (IntGauge_new "rustchain_chain_height" "Current blockchain height");
  peer_count ← expect (IntGauge_new "rustchain_peer_count" "Number of connected P2P peers");
  registry ← expect (register registry blocks_processed);
  registry ← expect (register registry transactions_processed);
  registry ← expect (register registry active_connections);
  registry ← expect (register registry chain_height);
  registry ← expect (register registry peer_count);
  Some {| registry := registry; blocks_processed := blocks_processed;
          transactions_processed := transactions_processed; active_connections := active_connections;
          chain_height := chain_height; peer_count := peer_count |}.
Definition MetricsRegistry_default : option MetricsRegistry := MetricsRegistry_new.

Definition encode (m : MetricsRegistry) : result string string :=
  let metric_families := gather (registry m) in
  buffer ← text_encode metric_families;
  match from_utf8 buffer with Some s => Ok s | None => Err "invalid utf-8 sequence"%string end.

Record MetricsResponse : Type := { mr_status : Z; mr_content_type : string; mr_body : string }.
Definition metrics_handler (m : MetricsRegistry) : MetricsResponse :=
  match encode m with
  | Ok body => {| mr_status := 200; mr_content_type := "text/plain; version=0.0.4; charset=utf-8"; mr_body := body |}
  | Err e => {| mr_status := 500; mr_content_type := "text/plain; charset=utf-8";
                mr_body := "Failed to encode metrics: " +:+ e |}
  end.

Context `{!PrometheusLaws}.

Lemma counter_created name help : valid_metric_name name = true → help ≠ ""%string →
  ∃ m, expect (IntCounter_new name help) = Some m ∧ metric_name m = name.
Proof. intros Hn Hh. destruct (counter_new_ok name help Hn Hh) as (m & -> & Hm). by exists m. Qed.
Lemma gauge_created name help : valid_metric_name name = true → help ≠ ""%string →
  ∃ m, expect (IntGauge_new name help) = Some m ∧ metric_name m = name.
Proof. intros Hn Hh. destruct (gauge_new_ok name help Hn Hh) as (m & -> & Hm). by exists m. Qed.
Lemma registered_fresh r m l n :
  registered r = l → metric_name m = n → n ∉ l → ∃ r', expect (register r m) = Some r' ∧ registered r' = l ++ [n].
Proof. intros <- <- Hn. destruct (register_fresh r m Hn) as (r' & -> & Hr). by exists r'. Qed.

(** Start-up never panics on its metrics: the five are created and registered under five
    different names, and every scrape answers 200 with their text. *)
Lemma metrics_served :
  ∃ m, MetricsRegistry_new = Some m ∧
    registered (registry m) = ["rustchain_blocks_processed_total"; "rustchain_transactions_processed_total";
      "rustchain_active_connections"; "rustchain_chain_height"; "rustchain_peer_count"]%string ∧
    mr_status (metrics_handler m) = 200 ∧ encode m = Ok (mr_body (metrics_handler m)).
Proof.
  unfold MetricsRegistry_new.
  destruct (counter_created "rustchain_blocks_processed_total" "Total number of blocks processed") as (m1 & -> & N1); [done|done|].
  destruct (counter_created "rustchain_transactions_processed_total" "Total number of transactions processed") as (m2 & -> & N2); [done|done|].
  destruct (gauge_created "rustchain_active_connections" "Number of active API / WebSocket connections") as (m3 & -> & N3); [done|done|].
  destruct (gauge_created "rustchain_chain_height" "Current blockchain height") as (m4 & -> & N4); [done|done|].
  destruct (gauge_created "rustchain_peer_count" "Number of connected P2P peers") as (m5 & -> & N5); [done|done|].
  cbn [mbind option_bind].
  edestruct registered_fresh as (r1 & -> & R1); [apply registry_empty|exact N1|set_solver|cbn [mbind option_bind]].
  edestruct registered_fresh as (r2 & -> & R2); [exact R1|exact N2|set_solver|cbn [mbind option_bind]].
  edestruct registered_fresh as (r3 & -> & R3); [exact R2|exact N3|set_solver|cbn [mbind option_bind]].
  edestruct registered_fresh as (r4 & -> & R4); [exact R3|exact N4|set_solver|cbn [mbind option_bind]].
  edestruct registered_fresh as (r5 & -> & R5); [exact R4|exact N5|set_solver|cbn [mbind option_bind]].
  eexists. split; [done|]. cbn. split; [exact R5|].
  destruct (gathered_encode r5) as (text & Ht & Hu). unfold metrics_handler, encode. cbn. rewrite Ht. cbn. by rewrite Hu.
Qed.
End Metrics.

(** ** A registry of names *)
Module ToyPrometheus.
#[export] Instance toy_prometheus : Prometheus := {|
  PromRegistry := list string; PromMetric := string; PromFamily := string; Registry_new := [];
  IntCounter_new name help := if valid_metric_name name then Ok name else Err "invalid metric name"%string;
  IntGauge_new name help := if valid_metric_name name then Ok name else Err "invalid metric name"%string;
  register r m := if bool_decide (m ∈ r) then Err "Duplicate metrics collector registration attempted"%string else Ok (r ++ [m]);
  gather r := r;
  text_encode l := Ok (b_ (match l with [] => "" | _ => "# TYPE" end)%string);
  metric_name m := m;
  registered r := r |}.
#[export] Instance toy_prometheus_laws : PrometheusLaws.
Proof.
  split; cbn.
  - intros name help -> _. by exists name.
  - intros name help -> _. by exists name.
  - done.
  - intros r m Hm. rewrite bool_decide_eq_false_2 by done. by exists (r ++ [m]).
  - intros r m Hm. by rewrite bool_decide_eq_true_2.
  - intros [|x r]; by eexists.
Qed.
Example scrape : mr_status <$> (metrics_handler <$> MetricsRegistry_new) = Some 200.
Proof. reflexivity. Qed.
End ToyPrometheus.
