(* ===== verification/Engine.v ===== *)
(** * Engine: the consensus orchestrator (crates/consensus/src/engine.rs)

    The engine owns the chain state, the mempool, the finality engine, the VM
    and the double-sign table; its locks make each handler one atomic step.
    The broadcast channel is the list of the events sent so far.  [None] is a
    panic of the VM host. *)

From S2P Require Import Prelude Crypto Merkle CoreTypes Validators Storage Vm Consensus Finality TxPool ChainState.

Inductive ConsensusEvent :=
| NewBlock (b : Block)
| BlockFinalized (n : Z)
| EpochChanged (e : EpochInfo)
| TransactionPooled (h : Blake3Hash).

Record ConsensusConfig : Type := {
  cc_chain_id : Z;
  cc_block_time_ms : Z;
  cc_max_transactions_per_block : nat;
  cc_mempool_size : Z;
  cc_min_gas_price : Z;
  cc_enable_block_production : bool;
  cc_consensus_params : ConsensusParams;
  cc_gas_limit_per_block : Z
}.
Definition ConsensusConfig_default : ConsensusConfig := {|
  cc_chain_id := 1; cc_block_time_ms := 5000; cc_max_transactions_per_block := 1000;
  cc_mempool_size := 10000; cc_min_gas_price := 1; cc_enable_block_production := false;
  cc_consensus_params := ConsensusParams_default; cc_gas_limit_per_block := 10000000 |}.

Record ChainInfo : Type := {
  ci_chain_id : Z;
  ci_height : Z;
  ci_best_block_hash : Blake3Hash;
  ci_epoch : Z;
  ci_finalized_height : Z;
  ci_pending_transactions : nat;
  ci_active_validators : nat
}.

Record ConsensusEngine (D : Type) `{Wasmtime} : Type := {
  en_config : ConsensusConfig;
  en_chain_state : ChainState D;
  en_tx_pool : TransactionPool;
  en_finality : FinalityEngine;
  en_vm_engine : WasmEngine;
  en_events : list ConsensusEvent;
  en_keypair : option KeyPair;
  en_seen_blocks : gmap (Z * Address) Blake3Hash
}.
Arguments en_config {D _}.
Arguments en_chain_state {D _}.
Arguments en_tx_pool {D _}.
Arguments en_finality {D _}.
Arguments en_vm_engine {D _}.
Arguments en_events {D _}.
Arguments en_keypair {D _}.
Arguments en_seen_blocks {D _}.

Section ConsensusEngine.
Context `{CryptoPrims} `{Wasmtime} `{Rng} `{Bincode Transaction} `{Bincode BlockHeader}.
Context {D : Type} `{ChainStore D}.
Implicit Types (e : ConsensusEngine D).

(** Assignments to the fields behind the locks. *)
Definition en_update e (c : ChainState D) (p : TransactionPool) (f : FinalityEngine) (vm : WasmEngine)
    (ev : list ConsensusEvent) (seen : gmap (Z * Address) Blake3Hash) : ConsensusEngine D := {|
  en_config := en_config e; en_chain_state := c; en_tx_pool := p; en_finality := f;
  en_vm_engine := vm; en_events := ev; en_keypair := en_keypair e; en_seen_blocks := seen |}.
Definition en_set_state e c :=
  en_update e c (en_tx_pool e) (en_finality e) (en_vm_engine e) (en_events e) (en_seen_blocks e).
Definition en_set_pool e p :=
  en_update e (en_chain_state e) p (en_finality e) (en_vm_engine e) (en_events e) (en_seen_blocks e).
Definition en_set_finality e f :=
  en_update e (en_chain_state e) (en_tx_pool e) f (en_vm_engine e) (en_events e) (en_seen_blocks e).
Definition en_set_vm e vm :=
  en_update e (en_chain_state e) (en_tx_pool e) (en_finality e) vm (en_events e) (en_seen_blocks e).
Definition en_send e ev :=
  en_update e (en_chain_state e) (en_tx_pool e) (en_finality e) (en_vm_engine e) (en_events e ++ [ev]) (en_seen_blocks e).
Definition en_set_seen e seen :=
  en_update e (en_chain_state e) (en_tx_pool e) (en_finality e) (en_vm_engine e) (en_events e) seen.
Definition cst_set_storage (c : ChainState D) (d : D) : ChainState D := {|
  cst_head := cst_head c; cst_height := cst_height c; cst_current_epoch := cst_current_epoch c;
  cst_storage := d |}.

Definition ConsensusEngine_new (config : ConsensusConfig) (g : GenesisConfig) (d : D) (vm : WasmEngine)
    (keypair : option KeyPair) : option (D * result ConsensusError (ConsensusEngine D)) :=
  '(d, r) ← from_genesis g d;
  Some (d, c ← r; Ok {|
    en_config := config; en_chain_state := c;
    en_tx_pool := TransactionPool_new (cc_mempool_size config) (cc_min_gas_price config);
    en_finality := FinalityEngine_new (ep_validator_set (cst_current_epoch c));
    en_vm_engine := vm; en_events := []; en_keypair := keypair; en_seen_blocks := ∅ |}).

(** The tail shared by the two block handlers: advance the epoch, and on a
    change update the finality engine and tell the subscribers. *)
Definition advance_epoch e (now : Z) : ConsensusEngine D * result ConsensusError () :=
  let '(c, r) := maybe_advance_epoch (en_chain_state e) (cc_consensus_params (en_config e)) now in
  let e := en_set_state e c in
  match r with
  | Err err => (e, Err err)
  | Ok None => (e, Ok ())
  | Ok (Some new_epoch) =>
      let e := en_set_finality e (update_validator_set (en_finality e) (ep_validator_set new_epoch)) in
      (en_send e (EpochChanged new_epoch), Ok ())
  end.

(** The header a proposer builds before execution. *)
Definition proposal_header e (keypair : KeyPair) (parent : Block) (epoch : EpochInfo) (timestamp : Z)
    (transactions : list SignedTransaction) : BlockHeader := {|
  hdr_version := PROTOCOL_VERSION; hdr_chain_id := cc_chain_id (en_config e);
  hdr_number := hdr_number (blk_header parent) +! 1; hdr_timestamp := timestamp;
  hdr_parent_hash := block_hash parent; hdr_state_root := Blake3Hash_ZERO;
  hdr_transactions_root := compute_merkle_root ((λ t, ba_bytes (stx_tx_hash t)) <$> transactions);
  hdr_receipts_root := Blake3Hash_ZERO; hdr_validator := KeyPair_address keypair;
  hdr_validator_pubkey := public_key keypair; hdr_validator_signature := Signature_default;
  hdr_epoch := ep_epoch_number epoch; hdr_gas_used := 0;
  hdr_gas_limit := cc_gas_limit_per_block (en_config e); hdr_extra_data := [] |}.

Definition try_produce_block e (keypair : KeyPair) (order : list (Blake3Hash * PooledTransaction))
    (timestamp epoch_now vote_now : Z) : option (ConsensusEngine D * result ConsensusError ()) :=
  let parent := cst_head (en_chain_state e) in
  let epoch := cst_current_epoch (en_chain_state e) in
  let next_number := hdr_number (blk_header parent) +! 1 in
  match select_proposer (active_validators (ep_validator_set epoch)) (block_hash parent) next_number with
  | Err err => Some (e, Err err)
  | Ok proposer =>
      if negb (bool_decide (proposer = KeyPair_address keypair)) then Some (e, Ok ())
      else
        let transactions := select_transactions (en_tx_pool e) order
          (cc_gas_limit_per_block (en_config e)) (cc_max_transactions_per_block (en_config e)) in
        let block := {| blk_header := proposal_header e keypair parent epoch timestamp transactions;
                        blk_transactions := transactions |} in
        '(c, vm, r) ← apply_block (en_chain_state e) (en_vm_engine e) block;
        let e := en_set_vm (en_set_state e c) vm in
        match r with
        | Err err => Some (e, Err err)
        | Ok receipts =>
            let block := {|
              blk_header := header_sign (set_gas_used (blk_header block) (wsum 64 rc_gas_used receipts)) keypair;
              blk_transactions := transactions |} in
            let e := en_set_pool e (prune_committed (en_tx_pool e) (stx_tx_hash <$> transactions)) in
            match advance_epoch e epoch_now with
            | (e, Err err) => Some (e, Err err)
            | (e, Ok _) =>
                let vote := create_vote next_number (block_hash block) keypair vote_now in
                let e := en_set_finality e (add_vote (en_finality e) vote).1 in
                Some (en_send e (NewBlock block), Ok ())
            end
        end
  end.

(** The double-sign check: [Some] the engine after slashing, when the block is
    refused. *)
Definition check_double_sign e (block : Block) (now : Z) : option (ConsensusEngine D) :=
  let h := blk_header block in
  match en_seen_blocks e !! (hdr_number h, hdr_validator h) with
  | None => None
  | Some prev_hash =>
      if bool_decide (prev_hash = block_hash block) then None
      else
        evidence ← detect_double_sign prev_hash (block_hash block) (hdr_number h);
        let c := en_chain_state e in
        Some (match get_validator (ep_validator_set (cst_current_epoch c)) (hdr_validator h) with
        | None => e
        | Some vi =>
            match evaluate_evidence (cc_consensus_params (en_config e)) evidence vi with
            | None => e
            | Some penalty =>
                let vi := apply_slash (cc_consensus_params (en_config e)) vi penalty now in
                en_set_state e (cst_set_storage c (keep (cst_storage c) (cs_put_validator (cst_storage c) vi)))
            end
        end)
  end.

Definition on_block_received e (block : Block) (slash_now epoch_now : Z)
    : option (ConsensusEngine D * result ConsensusError ()) :=
  let h := blk_header block in
  match block_validate_basic block with
  | Err err => Some (e, Err (CCore err))
  | Ok _ =>
      let c := en_chain_state e in
      match verify_proposer (hdr_validator h) (active_validators (ep_validator_set (cst_current_epoch c)))
              (block_hash (cst_head c)) (hdr_number h) with
      | Err err => Some (e, Err err)
      | Ok _ =>
          match verify_signature h with
          | Err err => Some (e, Err (CCore err))
          | Ok _ =>
              match check_double_sign e block slash_now with
              | Some e => Some (e, Err (CInvalidBlock "double-sign detected"))
              | None =>
                  let key := (hdr_number h, hdr_validator h) in
                  let e := match en_seen_blocks e !! key with
                           | None => en_set_seen e (<[key := block_hash block]> (en_seen_blocks e))
                           | Some _ => e
                           end in
                  '(c, vm, r) ← apply_block (en_chain_state e) (en_vm_engine e) block;
                  let e := en_set_vm (en_set_state e c) vm in
                  match r with
                  | Err err => Some (e, Err err)
                  | Ok _ =>
                      let e := en_set_pool e (prune_committed (en_tx_pool e) (stx_tx_hash <$> blk_transactions block)) in
                      match advance_epoch e epoch_now with
                      | (e, Err err) => Some (e, Err err)
                      | (e, Ok _) => Some (en_send e (NewBlock block), Ok ())
                      end
                  end
              end
          end
      end
  end.

Definition on_transaction_received e (tx : SignedTransaction) (now : Z)
    : ConsensusEngine D * result ConsensusError () :=
  match pool_insert (en_tx_pool e) tx now with
  | (p, Err err) => (en_set_pool e p, Err err)
  | (p, Ok _) => (en_send (en_set_pool e p) (TransactionPooled (stx_tx_hash tx)), Ok ())
  end.

Definition on_vote_received e (vote : FinalityVote) : ConsensusEngine D * result ConsensusError () :=
  match add_vote (en_finality e) vote with
  | (f, Err err) => (en_set_finality e f, Err err)
  | (f, Ok Finalized) => (en_send (en_set_finality e f) (BlockFinalized (fe_finalized_height f)), Ok ())
  | (f, Ok (Pending _ _)) => (en_set_finality e f, Ok ())
  end.

Definition chain_info e : ChainInfo := {|
  ci_chain_id := cc_chain_id (en_config e);
  ci_height := cst_height (en_chain_state e);
  ci_best_block_hash := block_hash (cst_head (en_chain_state e));
  ci_epoch := ep_epoch_number (cst_current_epoch (en_chain_state e));
  ci_finalized_height := fe_finalized_height (en_finality e);
  ci_pending_transactions := pending_count (en_tx_pool e);
  ci_active_validators := length (active_validators (ep_validator_set (cst_current_epoch (en_chain_state e)))) |}.

(** ** Properties *)
Lemma advance_epoch_frame e now e' r :
  advance_epoch e now = (e', r) →
  cst_head (en_chain_state e') = cst_head (en_chain_state e) ∧
  cst_height (en_chain_state e') = cst_height (en_chain_state e) ∧
  en_tx_pool e' = en_tx_pool e.
Proof.
  unfold advance_epoch, maybe_advance_epoch.
  destruct (is_last_block _ _); simpl; [|by intros [= <- <-]].
  destruct (cs_put_epoch _ _); simpl; by intros [= <- <-].
Qed.

Lemma prune_committed_pending p hs h :
  tp_pending (prune_committed p hs) !! h = if decide (h ∈ hs) then None else tp_pending p !! h.
Proof.
  revert p. induction hs as [|h' hs IH]; intros p; [done|]. cbn [prune_committed foldl].
  change (foldl _ ?q hs) with (prune_committed q hs). rewrite IH.
  assert (tp_pending (pool_remove p h').1 !! h = if decide (h = h') then None else tp_pending p !! h) as ->.
  { unfold pool_remove. destruct (tp_pending p !! h') as [e'|] eqn:E; simpl.
    - destruct (decide (h = h')) as [->|]; [by rewrite lookup_delete_eq|by rewrite lookup_delete_ne].
    - by destruct (decide (h = h')) as [->|]. }
  destruct (decide (h ∈ hs)), (decide (h = h')), (decide (h ∈ h' :: hs)); set_solver.
Qed.

(** C26: A block from the network is accepted only if it validates, comes from the
    selected proposer with a valid signature and extends the head; it then is the head, none
    of its transactions is left in the mempool, and subscribers are told. *)
Theorem on_block_received_ok e b now1 now2 e' :
  on_block_received e b now1 now2 = Some (e', Ok ()) →
  block_validate_basic b = Ok () ∧
  select_proposer (active_validators (ep_validator_set (cst_current_epoch (en_chain_state e))))
    (block_hash (cst_head (en_chain_state e))) (hdr_number (blk_header b)) = Ok (hdr_validator (blk_header b)) ∧
  verify_signature (blk_header b) = Ok () ∧
  hdr_parent_hash (blk_header b) = block_hash (cst_head (en_chain_state e)) ∧
  hdr_number (blk_header b) = cst_height (en_chain_state e) +! 1 ∧
  cst_head (en_chain_state e') = b ∧ cst_height (en_chain_state e') = hdr_number (blk_header b) ∧
  (∀ t, t ∈ blk_transactions b → pool_contains (en_tx_pool e') (stx_tx_hash t) = false) ∧
  last (en_events e') = Some (NewBlock b).
Proof.
  unfold on_block_received. intros Hr.
  destruct (block_validate_basic b) as [[]|]; [|done].
  destruct (verify_proposer _ _ _ _) as [[]|] eqn:Ep; [|done].
  destruct (verify_signature _) as [[]|] eqn:Es; [|done].
  destruct (check_double_sign e b now1); [done|].
  set (e1 := match en_seen_blocks e !! _ with None => _ | Some _ => e end) in *.
  assert (en_chain_state e1 = en_chain_state e) as He1 by (unfold e1; by destruct (en_seen_blocks e !! _)).
  destruct (apply_block (en_chain_state e1) (en_vm_engine e1) b) as [[[c vm] [rs|]]|] eqn:Ea;
    simpl in Hr; [|done..]. rewrite He1 in Ea.
  destruct (advance_epoch _ now2) as [e2 [[]|]] eqn:Ev; [|done]. injection Hr as <-.
  apply advance_epoch_frame in Ev as (Hhead & Hheight & Hpool). simpl in *.
  unfold apply_block in Ea. case_bool_decide as Hp; simpl in Ea; [|done].
  destruct (_ =? _) eqn:En; simpl in Ea; [|done]. zbool.
  destruct (exec_txs _ b 0 _) as [[x rs']|]; simpl in Ea; [|done].
  destruct (cs_commit _ _ _ _); [|done]. injection Ea as <- <- <-. simpl in *.
  repeat split; try done.
  - unfold verify_proposer in Ep. destruct (select_proposer _ _ _) as [pa|]; simpl in Ep; [|done].
    case_bool_decide; simpl in Ep; [by subst|done].
  - intros t Ht. unfold pool_contains. rewrite Hpool, prune_committed_pending.
    rewrite decide_True by (by apply list_elem_of_fmap_2). by rewrite bool_decide_eq_false_2 by (by intros [? ?]).
  - by rewrite last_snoc.
Qed.

(** A second block by the same validator at the same height is refused and leaves
    the head, the height, the epoch and the finality engine's validator set as they were:
    the slashed copy is only written to the database. *)
Theorem double_sign_rejected_set_unchanged e b prev now1 now2 e' r :
  en_seen_blocks e !! (hdr_number (blk_header b), hdr_validator (blk_header b)) = Some prev →
  prev ≠ block_hash b → on_block_received e b now1 now2 = Some (e', r) →
  is_err r = true ∧
  cst_head (en_chain_state e') = cst_head (en_chain_state e) ∧
  cst_height (en_chain_state e') = cst_height (en_chain_state e) ∧
  cst_current_epoch (en_chain_state e') = cst_current_epoch (en_chain_state e) ∧
  fe_validator_set (en_finality e') = fe_validator_set (en_finality e).
Proof.
  intros Hs Hne. unfold on_block_received.
  destruct (block_validate_basic b) as [[]|]; [|by intros [= <- <-]].
  destruct (verify_proposer _ _ _ _) as [[]|]; [|by intros [= <- <-]].
  destruct (verify_signature _) as [[]|]; [|by intros [= <- <-]].
  unfold check_double_sign, detect_double_sign. rewrite Hs. rewrite bool_decide_eq_false_2 by done. simpl.
  intros [= <- <-]. by destruct (get_validator _ _).
Qed.

Context `{!BincodeLaws BlockHeader}.

(** After producing a block the proposer's own head has gas_used 0 while the block
    it signs and broadcasts carries the gas used; whenever gas was used the two hashes
    differ (up to a Blake3 collision), so the producer and its followers disagree on the
    head. *)
Theorem producer_head_differs_from_broadcast e kp order t1 t2 t3 e' :
  try_produce_block e kp order t1 t2 t3 = Some (e', Ok ()) →
  select_proposer (active_validators (ep_validator_set (cst_current_epoch (en_chain_state e))))
    (block_hash (cst_head (en_chain_state e))) (hdr_number (blk_header (cst_head (en_chain_state e))) +! 1) =
    Ok (KeyPair_address kp) →
  ∃ b, last (en_events e') = Some (NewBlock b) ∧
    hdr_gas_used (blk_header (cst_head (en_chain_state e'))) = 0 ∧
    blk_transactions (cst_head (en_chain_state e')) = blk_transactions b ∧
    (hdr_gas_used (blk_header b) = 0 ∨ block_hash (cst_head (en_chain_state e')) ≠ block_hash b ∨
     ∃ x y : bytes, x ≠ y ∧ blake3 x = blake3 y).
Proof.
  unfold try_produce_block. intros Hr Hp. rewrite Hp in Hr. rewrite bool_decide_eq_true_2 in Hr by done.
  simpl negb in Hr. cbv iota zeta in Hr.
  destruct (apply_block _ _ _) as [[[c vm] [rs|]]|] eqn:Ea; simpl in Hr; [|done..].
  destruct (advance_epoch _ t2) as [e2 [[]|]] eqn:Ev; [|done]. injection Hr as <-.
  apply advance_epoch_frame in Ev as (Hhead & _ & _). simpl in *.
  unfold apply_block in Ea. case_bool_decide; simpl in Ea; [|done].
  destruct (_ =? _); simpl in Ea; [|done].
  destruct (exec_txs _ _ 0 _) as [[x rs']|]; simpl in Ea; [|done].
  destruct (cs_commit _ _ _ _); [|done]. injection Ea as <- <- <-. simpl in *.
  eexists. rewrite last_snoc, Hhead. split; [done|]. simpl. split; [done|]. split; [done|].
  destruct (decide (wsum 64 rc_gas_used rs' = 0)) as [Hz|Hz]; [by left|]. right.
  match goal with |- ?h1 ≠ ?h2 ∨ _ => destruct (decide (h1 = h2)) as [Heq|Hne] end; [|by left].
  right. unfold block_hash, header_hash, hash in Heq. simpl in Heq.
  eexists _, _. split; [|exact Heq]. intros Hser.
  apply (f_equal (bincode_de (A := BlockHeader))) in Hser. rewrite !bincode_de_ser in Hser.
  injection Hser as Hg. by apply Hz.
Qed.
End ConsensusEngine.
