(* ===== verification/Ranges.v ===== *)
(** * Ranges: execution keeps every amount in its integer type

    Integers are modelled as [Z]; the lemmas of this file say that balances and stakes
    stay in [u128] and nonces in [u64] through every kind of transaction.  Supply.v uses
    them for its exact accounting. *)

From S2P Require Import Prelude Crypto Merkle CoreTypes Validators Storage Vm Consensus Finality TxPool ChainState.

Definition account_wf (acc : Account) : Prop := in_u 128 (acc_balance acc) ∧ in_u 64 (acc_nonce acc).
Definition vset_wf (s : ValidatorSet) : Prop := Forall (λ v, in_u 128 (vi_stake v)) (vs_validators s).
#[export] Instance account_wf_dec acc : Decision (account_wf acc).
Proof. unfold account_wf. apply _. Defined.
#[export] Instance vset_wf_dec s : Decision (vset_wf s).
Proof. unfold vset_wf. apply _. Defined.

Create HintDb ranges.
#[export] Hint Resolve wadd_in_u wsub_in_u wmul_in_u wrap_in_u : ranges.
#[export] Hint Extern 1 (0 ≤ _) => lia : ranges.

Lemma credit_wf acc v : account_wf acc → account_wf (credit acc v).
Proof. intros [Hb Hn]. split; simpl; auto with ranges. Qed.
Lemma debit_wf acc v : account_wf acc → account_wf (debit acc v).
Proof. intros [Hb Hn]. split; simpl; auto with ranges. Qed.
Lemma increment_nonce_wf acc : account_wf acc → account_wf (increment_nonce acc).
Proof. intros [Hb Hn]. split; simpl; auto with ranges. Qed.
Lemma account_new_wf a : account_wf (Account_new a 0).
Proof. split; simpl; unfold in_u; lia. Qed.
#[export] Hint Resolve credit_wf debit_wf increment_nonce_wf account_new_wf : ranges.

Section Exec.
Context `{CryptoPrims} `{Wasmtime} `{Bincode Transaction} `{Bincode BlockHeader}.
Context {D : Type} `{ChainStore D} `{!ChainStoreLaws D}.
Implicit Types (d : D) (x : Exec D) (c : ChainState D).

Definition view_wf d (m : gmap Address Account) : Prop := ∀ a, account_wf (get_or_new d m a).
Definition exec_wf x : Prop := view_wf (ex_db x) (ex_accounts x) ∧ vset_wf (ex_vset x).

Lemma view_wf_insert d m a acc : view_wf d m → account_wf acc → view_wf d (<[a := acc]> m).
Proof.
  intros Hv Ha a'. unfold get_or_new, find_account. rewrite lookup_insert. case_decide; [done|]. apply Hv.
Qed.
Lemma view_wf_same d d' m : same_accounts d d' → view_wf d m → view_wf d' m.
Proof. intros Hs Hv a. specialize (Hv a). unfold get_or_new, find_account in *. by rewrite Hs. Qed.
Lemma apply_balance_changes_wf d changes m : view_wf d m → view_wf d (apply_balance_changes d changes m).
Proof.
  unfold apply_balance_changes. generalize (map_to_list changes). intros l. revert m.
  induction l as [|ad l IH]; intros m Hv; simpl; [done|]. apply IH, view_wf_insert; [done|].
  split; simpl; [|apply Hv]. by apply wrap_in_u.
Qed.
Lemma update_first_wf a f l :
  (∀ v, in_u 128 (vi_stake (f v))) → Forall (λ v, in_u 128 (vi_stake v)) l →
  Forall (λ v, in_u 128 (vi_stake v)) (update_first a f l).
Proof.
  intros Hf. induction 1 as [|v l Hv Hl IH]; simpl; [done|]. case_bool_decide; by constructor.
Qed.
Lemma exec_wf_put x a acc : exec_wf x → account_wf acc → exec_wf (put_acct x a acc).
Proof. intros [Hv Hs] Ha. split; [|done]. by apply view_wf_insert. Qed.
Lemma exec_wf_db x d : exec_wf x → same_accounts (ex_db x) d → exec_wf (set_db x d).
Proof. intros [Hv Hs] Hd. split; [|done]. by eapply view_wf_same. Qed.
Lemma exec_wf_vset x s : exec_wf x → vset_wf s → exec_wf (set_vset x s).
Proof. intros [Hv _] Hs. by split. Qed.
Lemma exec_wf_changes x ch :
  exec_wf x → exec_wf (set_accounts x (apply_balance_changes (ex_db x) ch (ex_accounts x))).
Proof. intros [Hv Hs]. split; [|done]. by apply apply_balance_changes_wf. Qed.
Lemma put_validator_same d v : same_accounts d (keep d (cs_put_validator d v)).
Proof. intros a. apply keep_put_validator_account. Qed.
Lemma put_code_same d h code : same_accounts d (keep d (cs_put_code d h code)).
Proof. apply (keep_same (λ d, cs_put_code d h code)). intros d' Hd' a. by eapply cs_put_code_account. Qed.
#[local] Hint Resolve exec_wf_put exec_wf_db exec_wf_vset exec_wf_changes put_validator_same put_code_same
  flush_storage_same : ranges.

Lemma exec_by_type_wf x b i t snd x' snd' r :
  exec_wf x → account_wf snd → tx_wf (stx_transaction t) →
  exec_by_type x b i t snd = Some (x', snd', r) → exec_wf x' ∧ account_wf snd'.
Proof.
  intros Hx Hsnd (_ & _ & Hval & _). unfold exec_by_type. destruct (tx_tx_type _).
  - intros [= <- <- <-]. split; [|auto with ranges]. apply exec_wf_put; [done|]. apply credit_wf, Hx.
  - unfold exec_deploy. destruct (deploy_contract _ _ _ _) as [[[vm cx] [res|e]]|]; cbn [mbind option_bind];
      [|by intros [= <- <- <-]|done]; intros [= <- <- <-]. split; [|auto with ranges].
    apply exec_wf_changes, exec_wf_db; [|apply flush_storage_same]. apply exec_wf_put.
    + apply (exec_wf_db (set_vm x vm)); [exact Hx|apply put_code_same].
    + split; simpl; [done|unfold in_u; lia].
  - unfold exec_call. destruct (find_account _ _ _) as [acct|]; [|by intros [= <- <- <-]].
    destruct (acc_code_hash acct) as [ch|]; [|by intros [= <- <- <-]].
    destruct (extract_function_name _) as [f args].
    destruct (call_contract _ _ _ _ _) as [[[vm cx] [res|e]]|]; cbn [mbind option_bind];
      [|by intros [= <- <- <-]|done]; intros [= <- <- <-]. split; [|auto with ranges].
    case_bool_decide; [|exact Hx].
    refine (exec_wf_changes (set_db (set_vm x vm) (flush_storage (ex_db x) _)) _ _).
    apply exec_wf_db; [exact Hx|apply flush_storage_same].
  - unfold exec_stake. intros ?; simplify_eq. split; [|auto with ranges]. destruct Hx as [Hv Hs].
    destruct (get_validator _ _); (split; [eapply view_wf_same; [apply put_validator_same|exact Hv]|]); simpl.
    + apply update_first_wf; [|exact Hs]. intros v'. simpl. auto with ranges.
    + apply Forall_app. split; [exact Hs|]. by constructor.
  - unfold exec_unstake. destruct (get_validator _ _); [destruct (_ <? _)|]; intros ?; simplify_eq;
      (split; [|auto with ranges]); try exact Hx. destruct Hx as [Hv Hs].
    split; [eapply view_wf_same; [apply put_validator_same|exact Hv]|]. simpl.
    apply update_first_wf; [|exact Hs]. intros v'. simpl. case_match; simpl; auto with ranges.
Qed.
Lemma exec_tx_wf x b i t x' r :
  exec_wf x → tx_wf (stx_transaction t) → exec_tx x b i t = Some (x', r) → exec_wf x'.
Proof.
  intros Hx Ht. destruct (decide (executable x t)) as [He|He].
  - rewrite exec_tx_executed by done.
    destruct (exec_by_type _ _ _ _ _) as [[[x1 snd] r1]|] eqn:E; simpl; [|done]. intros [= <- <-].
    eapply exec_by_type_wf in E as [Hx1 Hs]; [|done| |done]; [by apply exec_wf_put|].
    apply increment_nonce_wf, debit_wf, Hx.
  - destruct (exec_tx_skipped x b i t He) as [msg ->]. by intros [= <- <-].
Qed.
Lemma exec_txs_wf x b i txs x' rs :
  exec_wf x → Forall (λ t, tx_wf (stx_transaction t)) txs → exec_txs x b i txs = Some (x', rs) → exec_wf x'.
Proof.
  intros Hx Hall. revert x i rs Hx. induction Hall as [|t txs Ht _ IH]; intros x i rs Hx; simpl; [by intros [= <- <-]|].
  destruct (exec_tx x b i t) as [[x1 r]|] eqn:E; simpl; [|done].
  destruct (exec_txs x1 b (S i) txs) as [[x2 rs']|] eqn:E2; simpl; [|done]. intros [= <- <-].
  eapply IH; [|exact E2]. by eapply exec_tx_wf.
Qed.

(** The stored accounts and the stakes of the current epoch. *)
Definition state_wf c : Prop :=
  (∀ a acc, cs_get_account (cst_storage c) a = Ok (Some acc) → account_wf acc) ∧
  vset_wf (ep_validator_set (cst_current_epoch c)).
Lemma stored_view_wf d :
  (∀ a acc, cs_get_account d a = Ok (Some acc) → account_wf acc) → view_wf d ∅.
Proof.
  intros Hd a. unfold get_or_new, find_account. rewrite lookup_empty.
  destruct (cs_get_account d a) as [[acc|]|] eqn:E; simpl; [by eapply Hd|apply account_new_wf..].
Qed.

End Exec.
