(* ===== verification/Supply.v ===== *)
(** * Supply: blocks of native transactions conserve value

    Balances and stakes together are the money of the chain.  A block of transfers,
    stakes and unstakes burns exactly the fees of the transactions it executed: nothing
    else appears or disappears, whatever their order, failures and repetitions.  The two
    ways in which the code does lose or create value are excluded by hypotheses and shown
    elsewhere: a transfer to oneself ([self_transfer_burns_value]) and a gas cost beyond
    64 bits ([gas_refund_overflow]). *)

From S2P Require Import Prelude Crypto Merkle CoreTypes Validators Storage Vm Consensus Finality TxPool ChainState Ranges.

Section Sums.
Context {A : Type} (f g : A → Z).
Lemma sumZ_cons (h : A → Z) x l : sumZ h (x :: l) = h x + sumZ h l.
Proof. done. Qed.
Lemma sumZ_change1 l a : NoDup l → a ∈ l → (∀ x, x ≠ a → g x = f x) → sumZ g l = sumZ f l - f a + g a.
Proof.
  induction 1 as [|x l Hx Hnd IH]; [by intros ?%not_elem_of_nil|]. intros Ha Hfg. rewrite !sumZ_cons.
  apply elem_of_cons in Ha as [->|Ha].
  - rewrite (sumZ_ext g f l); [lia|]. intros y Hy. apply Hfg. by intros ->.
  - rewrite IH by done. rewrite (Hfg x); [lia|]. by intros ->.
Qed.
End Sums.
Lemma sumZ_change2 {A} `{EqDecision A} (f g : A → Z) l a b :
  NoDup l → a ∈ l → b ∈ l → a ≠ b → (∀ x, x ≠ a → x ≠ b → g x = f x) →
  sumZ g l = sumZ f l - f a + g a - f b + g b.
Proof.
  intros Hnd Ha Hb Hab Hfg. set (h := λ x, if decide (x = a) then g a else f x).
  rewrite (sumZ_change1 h g l b), (sumZ_change1 f h l a); try done.
  - unfold h. rewrite decide_True, decide_False by done. lia.
  - intros x Hx. unfold h. by rewrite decide_False.
  - intros x Hx. unfold h. destruct (decide (x = a)) as [->|]; [done|]. by apply Hfg.
Qed.
Lemma sumZ_two_le {A} `{EqDecision A} (f : A → Z) l a b :
  NoDup l → a ∈ l → b ∈ l → a ≠ b → (∀ x, 0 ≤ f x) → f a + f b ≤ sumZ f l.
Proof.
  intros Hnd Ha Hb Hab Hf. set (g := λ x, if decide (x = a ∨ x = b) then 0 else f x).
  assert (∀ x, x ≠ a → x ≠ b → g x = f x) as Hg by (intros x H1 H2; unfold g; rewrite decide_False; naive_solver).
  pose proof (sumZ_change2 f g l a b Hnd Ha Hb Hab Hg) as Hs.
  assert (g a = 0 ∧ g b = 0) as [Hga Hgb] by (unfold g; by rewrite !decide_True by auto).
  assert (0 ≤ sumZ g l); [apply sumZ_nonneg; intros x _; unfold g; case_decide; [lia|done]|]. lia.
Qed.

Definition total_stakes (s : ValidatorSet) : Z := sumZ vi_stake (vs_validators s).
Lemma stakes_update s a f vi :
  get_validator s a = Some vi → total_stakes (get_validator_mut s a f) = total_stakes s - vi_stake vi + vi_stake (f vi).
Proof.
  unfold total_stakes, get_validator. cbn [get_validator_mut set_validators vs_validators]. induction (vs_validators s) as [|v l IH]; [done|]. cbn [List.find update_first].
  case_bool_decide; [intros [= ->]; rewrite !sumZ_cons; lia|]. intros Hg. rewrite !sumZ_cons, IH by done. lia.
Qed.
Lemma stake_le_total s a vi : vset_wf s → get_validator s a = Some vi → 0 ≤ vi_stake vi ≤ total_stakes s.
Proof.
  unfold get_validator, vset_wf. rewrite Forall_forall. intros Hwf [Hin _]%find_some. rewrite <- list_elem_of_In in Hin.
  split; [by apply Hwf|]. apply sumZ_elem_le; [|done]. intros y Hy. by apply Hwf.
Qed.

Section Money.
Context `{CryptoPrims} `{Wasmtime} `{Bincode Transaction} `{Bincode BlockHeader}.
Context {D : Type} `{ChainStore D} `{!ChainStoreLaws D}.
Implicit Types (d : D) (x : Exec D) (c : ChainState D) (t : SignedTransaction) (U : gset Address).

(** The balances of the accounts in [U], and all stakes. *)
Definition money x U : Z := sumZ (balance_of x) (elements U) + total_stakes (ex_vset x).
(** A native transaction among the accounts of [U] whose amounts fit their types. *)
Definition native_tx U t : Prop :=
  let tx := stx_transaction t in
  tx_wf tx ∧ tx_gas_limit tx * tx_gas_price tx < 2 ^ 64 ∧
  tx_value tx + tx_gas_limit tx * tx_gas_price tx < 2 ^ 128 ∧ sender t ∈ U ∧
  match tx_tx_type tx with
  | Transfer => let to := default Address_ZERO (tx_to tx) in to ∈ U ∧ to ≠ sender t
  | Stake | Unstake => True
  | ContractDeploy | ContractCall => False
  end.
#[export] Instance native_dec U t : Decision (native_tx U t).
Proof. unfold native_tx. destruct (tx_tx_type _); apply _. Defined.
(** What a transaction paid, by its receipt: a skipped one has used no gas. *)
Definition fee_paid t (r : TransactionReceipt) : Z := if rc_gas_used r =? 0 then 0 else base_fee (stx_transaction t).

Lemma native_fits x U t : exec_wf x → native_tx U t → tx_fits x t.
Proof. intros [Hv _] (Hwf & Hg & Hs & _). split_and!; try done. apply Hv. Qed.
Lemma balance_in_money x U a : exec_wf x → a ∈ U → 0 ≤ balance_of x a ≤ money x U - total_stakes (ex_vset x).
Proof.
  intros [Hv _] Ha. unfold money. pose proof (λ a, proj1 (Hv a)) as Hb. unfold in_u in Hb.
  split; [apply Hb|]. assert (balance_of x a ≤ sumZ (balance_of x) (elements U)); [|lia].
  apply sumZ_elem_le; [intros y _; apply Hb|by apply elem_of_elements].
Qed.
Lemma stakes_nonneg x : exec_wf x → 0 ≤ total_stakes (ex_vset x).
Proof. intros [_ Hs]. apply sumZ_nonneg. unfold vset_wf in Hs. rewrite Forall_forall in Hs. intros v Hv. by apply Hs. Qed.
(** The sender's account changes; no other balance does. *)
Lemma money_sender x x' U a snd :
  a ∈ U → (∀ a', a' ≠ a → balance_of x' a' = balance_of x a') →
  money (put_acct x' a snd) U = money x U - balance_of x a + acc_balance snd - total_stakes (ex_vset x) + total_stakes (ex_vset x').
Proof.
  intros Ha Ho. unfold money. rewrite (sumZ_change1 (balance_of x) _ (elements U) a).
  - unfold balance_of at 3. rewrite account_of_put, decide_True by done. cbn [put_acct set_accounts ex_vset]. lia.
  - apply NoDup_elements.
  - by apply elem_of_elements.
  - intros a' Ha'. unfold balance_of at 1. rewrite account_of_put, decide_False by done. by apply Ho.
Qed.

(** *** One transaction *)
(** The three native branches, on an executable transaction. *)
Lemma transfer_money x b i t x' r U :
  exec_wf x → native_tx U t → money x U < 2 ^ 128 → executable x t → tx_tx_type (stx_transaction t) = Transfer →
  exec_tx x b i t = Some (x', r) → money x' U = money x U - base_fee (stx_transaction t) ∧ rc_gas_used r = BASE_GAS.
Proof.
  intros Hx Hn Hm He Hty Hr. pose proof (native_fits x U t Hx Hn) as Hf.
  destruct Hn as ((_ & _ & Hv & _) & _ & _ & Hs & Hto). rewrite Hty in Hto. destruct Hto as [Hto Hne].
  pose proof (charge_refund x t (tx_value (stx_transaction t)) Hf He ltac:(unfold in_u in Hv; lia)) as Hch.
  destruct (tx_fits_costs x t Hf He) as (_ & _ & Hfee & Hcost). pose proof (stakes_nonneg x Hx) as Hst.
  pose proof (balance_in_money x U _ Hx Hto) as Hbt.
  rewrite exec_tx_executed in Hr by done. unfold exec_by_type in Hr. rewrite Hty in Hr. unfold exec_transfer in Hr.
  set (to := default Address_ZERO (tx_to (stx_transaction t))) in *. cbn in Hr. injection Hr as <- <-. split; [|done].
  assert (balance_of x (sender t) + balance_of x to ≤ sumZ (balance_of x) (elements U)) as Htwo.
  { apply sumZ_two_le; [apply NoDup_elements|by apply elem_of_elements|by apply elem_of_elements|done|].
    intros a. apply Hx. }
  unfold money in *. cbn [put_acct set_accounts ex_vset] in *.
  rewrite (sumZ_change2 (balance_of x) _ (elements U) (sender t) to);
    [|apply NoDup_elements|by apply elem_of_elements|by apply elem_of_elements|done|].
  - unfold balance_of at 3 5. rewrite !account_of_put, decide_True, decide_False, decide_True by done.
    rewrite Hch. cbn [credit set_balance acc_balance]. fold (account_of x to). fold (balance_of x to). unwrap. lia.
  - intros a Ha1 Ha2. unfold balance_of. by rewrite !account_of_put, !decide_False.
Qed.
(** A validator write leaves the balances alone. *)
Lemma balance_of_db x x' v a :
  ex_db x' = keep (ex_db x) (cs_put_validator (ex_db x) v) → ex_accounts x' = ex_accounts x → balance_of x' a = balance_of x a.
Proof.
  intros Hd Ha. unfold balance_of, account_of, get_or_new, find_account. by rewrite Hd, Ha, keep_put_validator_account.
Qed.
Lemma stake_money x b i t x' r U :
  exec_wf x → native_tx U t → money x U < 2 ^ 128 → executable x t → tx_tx_type (stx_transaction t) = Stake →
  exec_tx x b i t = Some (x', r) → money x' U = money x U - base_fee (stx_transaction t) ∧ rc_gas_used r = BASE_GAS.
Proof.
  intros Hx Hn Hm He Hty Hr. pose proof (native_fits x U t Hx Hn) as Hf.
  destruct Hn as ((_ & _ & Hv & _) & _ & _ & Hs & _).
  pose proof (charge_refund x t (tx_value (stx_transaction t)) Hf He ltac:(unfold in_u in Hv; lia)) as Hch.
  destruct (tx_fits_costs x t Hf He) as (_ & _ & Hfee & Hcost).
  pose proof (balance_in_money x U _ Hx Hs) as Hb. pose proof (stakes_nonneg x Hx).
  rewrite exec_tx_executed in Hr by done. unfold exec_by_type in Hr. rewrite Hty in Hr. unfold exec_stake in Hr.
  destruct (get_validator (ex_vset x) (sender t)) as [vi|] eqn:Eg; cbn in Hr; injection Hr as <- <-; (split; [|done]).
  - rewrite (money_sender x) by (done || (intros; by eapply balance_of_db)). rewrite Hch.
    change (total_stakes (recalculate_total_stake ?v)) with (total_stakes v). cbn [set_vset ex_vset].
    change (total_stakes (recalculate_total_stake ?v)) with (total_stakes v). rewrite (stakes_update _ _ _ vi) by done.
    pose proof (stake_le_total _ _ _ (proj2 Hx) Eg). cbn [vi_stake vi_set_active vi_set_stake]. unfold in_u in Hv. unwrap. lia.
  - rewrite (money_sender x) by (done || (intros; by eapply balance_of_db)). rewrite Hch. cbn [set_vset ex_vset].
    assert (∀ s v, total_stakes (recalculate_total_stake (set_validators s (vs_validators s ++ [v]))) = total_stakes s + vi_stake v)
      as -> by (intros s v; unfold total_stakes; cbn [recalculate_total_stake set_validators vs_validators]; rewrite sumZ_app; cbn; lia).
    cbn. lia.
Qed.
Lemma unstake_money x b i t x' r U :
  exec_wf x → native_tx U t → money x U < 2 ^ 128 → executable x t → tx_tx_type (stx_transaction t) = Unstake →
  exec_tx x b i t = Some (x', r) → money x' U = money x U - base_fee (stx_transaction t) ∧ rc_gas_used r = BASE_GAS.
Proof.
  intros Hx Hn Hm He Hty Hr. pose proof (native_fits x U t Hx Hn) as Hf.
  destruct Hn as ((_ & _ & Hv & _) & _ & _ & Hs & _). unfold in_u in Hv.
  destruct (tx_fits_costs x t Hf He) as (_ & Href & Hfee & Hcost).
  pose proof (balance_in_money x U _ Hx Hs) as Hb. pose proof (stakes_nonneg x Hx).
  assert (∀ v, 0 ≤ v → balance_of x (sender t) + v < 2 ^ 128 →
    balance_of x (sender t) -!! max_gas_cost (stx_transaction t) +!! v +!! gas_refund (stx_transaction t) BASE_GAS =
    balance_of x (sender t) + v - base_fee (stx_transaction t)) as Hbal by (intros v Hv0 Hv1; rewrite Href; unwrap; lia).
  assert (acc_balance (credit (increment_nonce (debit (account_of x (sender t)) (max_gas_cost (stx_transaction t))))
    (gas_refund (stx_transaction t) BASE_GAS)) = balance_of x (sender t) - base_fee (stx_transaction t)) as Hplain.
  { cbn [credit set_balance acc_balance increment_nonce debit]. fold (balance_of x (sender t)). rewrite Href. unwrap. lia. }
  rewrite exec_tx_executed in Hr by done. unfold exec_by_type in Hr. rewrite Hty in Hr. unfold exec_unstake in Hr.
  destruct (get_validator (ex_vset x) (sender t)) as [vi|] eqn:Eg;
    [destruct (vi_stake vi <? tx_value (stx_transaction t)) eqn:El|]; cbn -[credit debit] in Hr; injection Hr as <- <-; (split; [|done]).
  1, 3: rewrite (money_sender x) by done; rewrite Hplain; lia.
  pose proof (stake_le_total _ _ _ (proj2 Hx) Eg). zbool.
  rewrite (money_sender x) by (done || (intros; by eapply balance_of_db)). cbn [set_vset set_db ex_vset].
  change (total_stakes (recalculate_total_stake ?v)) with (total_stakes v). rewrite (stakes_update _ _ _ vi) by done.
  assert (∀ (q : bool) v, vi_stake (if q then vi_set_active v false else v) = vi_stake v) as Hif by (by intros []).
  rewrite Hif. cbn [vi_stake vi_set_stake credit set_balance acc_balance increment_nonce debit]. fold (balance_of x (sender t)).
  rewrite Hbal by lia. unwrap. lia.
Qed.
Lemma native_money x b i t x' r U :
  exec_wf x → native_tx U t → money x U < 2 ^ 128 → exec_tx x b i t = Some (x', r) →
  money x' U = money x U - fee_paid t r ∧ 0 ≤ fee_paid t r ≤ base_fee (stx_transaction t).
Proof.
  intros Hx Hn Hm Hr. assert (0 ≤ base_fee (stx_transaction t)) as Hb.
  { destruct Hn as ((_ & _ & _ & Hg & Hp & _) & _). unfold in_u, base_fee, BASE_GAS in *. nia. }
  destruct (decide (executable x t)) as [He|He].
  - assert (money x' U = money x U - base_fee (stx_transaction t) ∧ rc_gas_used r = BASE_GAS) as [-> Hg].
    { pose proof (proj2 (proj2 (proj2 (proj2 Hn)))) as Hty. destruct (tx_tx_type _) eqn:E; try done;
        eauto using transfer_money, stake_money, unstake_money. }
    unfold fee_paid. rewrite Hg. cbn. lia.
  - destruct (exec_tx_skipped x b i t He) as [msg Hs]. rewrite Hs in Hr. injection Hr as <- <-. unfold fee_paid. cbn. lia.
Qed.

(** *** Blocks *)
Definition fees_paid (txs : list SignedTransaction) (rs : list TransactionReceipt) : Z :=
  sumZ (λ tr, fee_paid tr.1 tr.2) (zip txs rs).
Lemma natives_money x b i txs x' rs U :
  exec_wf x → Forall (native_tx U) txs → money x U < 2 ^ 128 → exec_txs x b i txs = Some (x', rs) →
  money x' U = money x U - fees_paid txs rs ∧ 0 ≤ fees_paid txs rs.
Proof.
  intros Hx Hall. revert x i rs Hx. induction Hall as [|t txs Ht _ IH]; intros x i rs Hx Hm; cbn [exec_txs].
  - intros [= <- <-]. unfold fees_paid. cbn. lia.
  - destruct (exec_tx x b i t) as [[x1 r]|] eqn:E; cbn [mbind option_bind]; [|done].
    destruct (exec_txs x1 b (S i) txs) as [[x2 rs']|] eqn:E2; cbn [mbind option_bind]; [|done]. intros [= <- <-].
    destruct (native_money _ _ _ _ _ _ _ Hx Ht Hm E) as [Hm1 Hp1].
    destruct (IH x1 (S i) rs') as [Hm2 Hp2];
      [by eapply exec_tx_wf; [|apply Ht|exact E]|lia|done|].
    unfold fees_paid in *. cbn [zip zip_with]. rewrite sumZ_cons. cbn [fst snd]. lia.
Qed.

(** The money of a chain state: the stored balances and the stakes of the epoch. *)
Definition chain_money c U : Z :=
  sumZ (λ a, acc_balance (get_or_new (cst_storage c) ∅ a)) (elements U) +
  total_stakes (ep_validator_set (cst_current_epoch c)).

(** C16: A block of transfers, stakes and unstakes conserves value: the stored balances
    of the accounts involved plus all stakes of the epoch shrink by exactly the base fees of
    the transactions that were executed, whatever their order, failures and repetitions. The
    accounts are among a given set and stored under their own address, stored values are in
    the range of their types, the total is below 2^128, no transfer goes to its own sender,
    and of each transaction gas limit times gas price is below 2^64 and value plus that
    product below 2^128. *)
Theorem block_conserves_value c vm b c' vm' rs U :
  state_wf c → keyed (cst_storage c) ∅ → Forall (native_tx U) (blk_transactions b) → chain_money c U < 2 ^ 128 →
  apply_block c vm b = Some (c', vm', Ok rs) →
  chain_money c' U = chain_money c U - fees_paid (blk_transactions b) rs ∧ 0 ≤ fees_paid (blk_transactions b) rs.
Proof.
  intros [Hc Hv] Hk Hn Hm Ha. unfold apply_block in Ha. case_bool_decide; cbn in Ha; [|done].
  destruct (_ =? _) in Ha; cbn in Ha; [|done].
  destruct (exec_txs _ b 0 _) as [[x rs']|] eqn:E; cbn in Ha; [|done].
  destruct (cs_commit _ _ _ _) as [d|] eqn:Ec; [|done]. injection Ha as <- <- ->.
  pose proof (exec_txs_keeps _ _ _ _ _ _ E) as [Hs Hkx]. cbn in Hs, Hkx. specialize (Hkx Hk).
  destruct (natives_money {| ex_db := cst_storage c; ex_vm := vm; ex_vset := ep_validator_set (cst_current_epoch c);
    ex_accounts := ∅ |} _ _ _ _ _ U ltac:(split; [by apply stored_view_wf|done]) Hn Hm E) as [Hmoney Hpos].
  split; [|done]. etrans; [|exact Hmoney]. unfold chain_money, money. cbn [cst_storage cst_current_epoch set_validator_set ep_validator_set].
  f_equal. apply sumZ_ext. intros a _.
  unfold balance_of, account_of, get_or_new, find_account. rewrite lookup_empty.
  rewrite (cs_commit_account _ _ _ _ _ a Ec), (last_account_keyed _ _ _ Hkx).
  by destruct (ex_accounts x !! a).
Qed.
End Money.
