(* ===== verification/ChainExamples.v ===== *)
(** * ChainExamples: block execution on concrete inputs

    Evaluations of the chain state on the in-memory database and the concrete
    instances: instances of the theorems of ChainState.v, and the behaviour of
    two contract calls in one block. *)

From S2P Require Import Prelude Crypto Merkle CoreTypes Validators Storage Vm Consensus Finality TxPool ChainState Engine Ranges Supply Instances.

Import ToyCrypto ToyWasm ToyRng MemStore.

Definition alice : KeyPair := kp Byte.x01.
Definition bob : KeyPair := kp Byte.x02.
Definition mk_tx (k : KeyPair) (ty : TxType) (to : option Address) (nonce value gas : Z) (data : bytes)
    : SignedTransaction :=
  SignedTransaction_new {| tx_chain_id := 1; tx_nonce := nonce; tx_from := KeyPair_address k;
    tx_to := to; tx_value := value; tx_tx_type := ty; tx_gas_limit := gas; tx_gas_price := 1;
    tx_data := data; tx_timestamp := 0 |} k.

Definition acct (k : KeyPair) (bal : Z) : Account := Account_new (KeyPair_address k) bal.
Definition contract : Account := Account_new_contract ToyWasm.addr 100 ToyWasm.code_hash.
Definition db : Mem := {|
  ms_accounts := put_accounts [acct alice 1000000; acct bob 1000000; contract] ∅;
  ms_storage := ∅; ms_code := ∅; ms_validators := ∅; ms_epochs := ∅; ms_blocks := ∅;
  ms_height := None; ms_genesis := None |}.
Definition vset : ValidatorSet :=
  ValidatorSet_new [ValidatorInfo_new (KeyPair_address alice) (public_key alice) 5000] 1000 10.
Definition genesis_block : Block := Block_genesis 1 0 (KeyPair_address alice) (public_key alice) 10000000 [].
Definition mk_block (parent : Block) (txs : list SignedTransaction) : Block := {|
  blk_header := {| hdr_version := 1; hdr_chain_id := 1; hdr_number := hdr_number (blk_header parent) + 1;
    hdr_timestamp := 5; hdr_parent_hash := block_hash parent; hdr_state_root := Blake3Hash_ZERO;
    hdr_transactions_root := Blake3Hash_ZERO; hdr_receipts_root := Blake3Hash_ZERO;
    hdr_validator := KeyPair_address alice; hdr_validator_pubkey := public_key alice;
    hdr_validator_signature := Signature_default; hdr_epoch := 0; hdr_gas_used := 0;
    hdr_gas_limit := 10000000; hdr_extra_data := [] |};
  blk_transactions := txs |}.
(** A contract that sends 60 tokens to the zero address when called. *)
Definition spender : WasmEngine := engine [HcTransfer 0 60].
Definition x0 : Exec Mem := {| ex_db := db; ex_vm := spender; ex_vset := vset; ex_accounts := ∅ |}.
(** Call data for the function ["run"]. *)
Definition run_data : bytes := to_le_bytes 4 3 ++ b_ "run".

Definition balances (txs : list SignedTransaction) (as_ : list Address) : option (list Z) :=
  '(x, _) ← exec_txs x0 genesis_block 0 txs; Some (balance_of x <$> as_).

(** Two calls in one block of a contract that holds 100 tokens and sends 60 per
    call pay out 120: the VM reads balances from the database, not from the accounts the
    block already modified. *)
Theorem contract_spends_twice_in_block :
  let call k := mk_tx k ContractCall (Some ToyWasm.addr) 0 0 50000 run_data in
  balances [] [ToyWasm.addr; Address_ZERO] = Some [100; 0] ∧
  balances [call alice] [ToyWasm.addr; Address_ZERO] = Some [40; 60] ∧
  balances [call alice; call bob] [ToyWasm.addr; Address_ZERO] = Some [0; 120].
Proof. by repeat split; vm_compute. Qed.

(** Witnesses. *)
Definition t_transfer : SignedTransaction := mk_tx alice Transfer (Some (KeyPair_address bob)) 0 500 30000 [].
Definition t_self : SignedTransaction := mk_tx alice Transfer (Some (KeyPair_address alice)) 0 500 30000 [].
Definition t_stake : SignedTransaction := mk_tx alice Stake None 0 700 30000 [].
Definition t_unstake : SignedTransaction := mk_tx alice Unstake None 0 4500 30000 [].

Ltac by_eval := by apply (bool_decide_eq_true_1 _); vm_compute.
Ltac fits := repeat split; by vm_compute.

Definition after (t : SignedTransaction) : Exec Mem :=
  match exec_tx x0 genesis_block 0 t with Some (x, _) => x | None => x0 end.
Definition receipt_of (t : SignedTransaction) : TransactionReceipt :=
  match exec_tx x0 genesis_block 0 t with
  | Some (_, r) => r | None => receipt genesis_block 0 t TxOutOfGas 0 [] None [] end.
Lemma exec_after t : is_Some (exec_tx x0 genesis_block 0 t) →
  exec_tx x0 genesis_block 0 t = Some (after t, receipt_of t).
Proof. unfold after, receipt_of. by intros [[x r] ->]. Qed.

Lemma transfer_moves_value_witness :
  executable x0 t_transfer ∧
  balance_of (after t_transfer) (KeyPair_address alice) = 1000000 - 500 - 21000 ∧
  balance_of (after t_transfer) (KeyPair_address bob) = 1000000 + 500.
Proof.
  assert (executable x0 t_transfer) as Hx by by_eval. split; [exact Hx|].
  destruct (transfer_moves_value x0 genesis_block 0 t_transfer (KeyPair_address bob) (after t_transfer)
    (receipt_of t_transfer)) as (_ & Ha & Hb & _).
  - reflexivity.
  - reflexivity.
  - exact Hx.
  - fits.
  - by apply (bool_decide_eq_false_1 (KeyPair_address bob = sender t_transfer)); vm_compute.
  - by vm_compute.
  - by vm_compute.
  - apply exec_after. by_eval.
  - split; [refine (eq_trans Ha _)|refine (eq_trans Hb _)]; by vm_compute.
Defined.

Lemma self_transfer_burns_value_witness :
  executable x0 t_self ∧ balance_of (after t_self) (KeyPair_address alice) = 1000000 - 500 - 21000.
Proof.
  assert (executable x0 t_self) as Hx by by_eval. split; [exact Hx|].
  destruct (self_transfer_burns_value x0 genesis_block 0 t_self (after t_self) (receipt_of t_self)) as (_ & Ha & _).
  - reflexivity.
  - reflexivity.
  - exact Hx.
  - fits.
  - apply exec_after. by_eval.
  - refine (eq_trans Ha _). by vm_compute.
Defined.

Lemma stake_moves_balance_to_stake_witness :
  executable x0 t_stake ∧ stake_of (after t_stake) (KeyPair_address alice) = 5700.
Proof.
  assert (executable x0 t_stake) as Hx by by_eval. split; [exact Hx|].
  destruct (stake_moves_balance_to_stake x0 genesis_block 0 t_stake (after t_stake) (receipt_of t_stake))
    as (_ & _ & Hs & _).
  - reflexivity.
  - exact Hx.
  - fits.
  - by vm_compute.
  - by vm_compute.
  - apply exec_after. by_eval.
  - transitivity (stake_of x0 (sender t_stake) + tx_value (stx_transaction t_stake)); [exact Hs|by vm_compute].
Defined.

Lemma unstake_returns_stake_witness :
  executable x0 t_unstake ∧ stake_of (after t_unstake) (KeyPair_address alice) = 500 ∧
  vi_is_active <$> get_validator (ex_vset (after t_unstake)) (KeyPair_address alice) = Some false.
Proof.
  assert (executable x0 t_unstake) as Hx by by_eval. split; [exact Hx|].
  destruct (unstake_returns_stake x0 genesis_block 0 t_unstake (after t_unstake) (receipt_of t_unstake))
    as (_ & _ & Hs & Hd).
  - reflexivity.
  - exact Hx.
  - fits.
  - split; by vm_compute.
  - by_eval.
  - by vm_compute.
  - apply exec_after. by_eval.
  - assert (stake_of (after t_unstake) (sender t_unstake) = 500) as Hs'.
    { transitivity (stake_of x0 (sender t_unstake) - tx_value (stx_transaction t_unstake)); [exact Hs|by vm_compute]. }
    split; [exact Hs'|]. apply Hd. rewrite Hs'. by vm_compute.
Defined.

Lemma replayed_transaction_rejected_witness :
  executable x0 t_transfer ∧
  ∃ msg, exec_tx (after t_transfer) genesis_block 1 t_transfer =
    Some (after t_transfer, receipt genesis_block 1 t_transfer (TxFailure msg) 0 [] None []).
Proof.
  assert (executable x0 t_transfer) as Hx by by_eval. split; [exact Hx|].
  refine (proj2 (replayed_transaction_rejected x0 genesis_block 0 t_transfer (after t_transfer)
    (receipt_of t_transfer) genesis_block 1 _ Hx _)).
  - by vm_compute.
  - apply exec_after. by_eval.
Defined.

Lemma apply_balance_changes_exact_witness :
  let ch : gmap Address Z := <[ToyWasm.addr := -30]> {[ KeyPair_address bob := 30 ]} in
  acc_balance (get_or_new db (apply_balance_changes db ch ∅) ToyWasm.addr) = 70.
Proof.
  intros ch.
  assert (∀ a, 0 ≤ acc_balance (get_or_new db ∅ a) < 2 ^ 127) as Hall.
  { intros a. unfold get_or_new, find_account. rewrite lookup_empty. simpl.
    unfold put_accounts. simpl. rewrite !lookup_insert. repeat case_decide; simpl; try lia; by rewrite lookup_empty. }
  rewrite (apply_balance_changes_exact db ∅ ch Hall).
  - by vm_compute.
  - intros a v Hv. unfold ch in Hv.
    apply lookup_insert_cases in Hv as [[<- <-]|[_ Hv]].
    + by vm_compute.
    + apply lookup_singleton_Some in Hv as [<- <-]. by vm_compute.
Defined.

Definition c0 : ChainState Mem := {|
  cst_head := genesis_block; cst_height := 0;
  cst_current_epoch := {| ep_epoch_number := 0; ep_start_block := 0; ep_end_block := 0;
    ep_validator_set := vset; ep_finalized_block := None |};
  cst_storage := db |}.
Definition b1 : Block := mk_block genesis_block [t_transfer].
Lemma db_keyed : keyed db ∅.
Proof.
  split; [intros a acc; by rewrite lookup_empty|]. intros a acc [= Ha]. revert a acc Ha.
  change (map_Forall (λ a acc, acc_address acc = a) (ms_accounts db)).
  by apply (bool_decide_eq_true_1 (map_Forall _ _)); vm_compute.
Qed.

Lemma apply_block_commits_witness :
  match apply_block c0 spender b1 with
  | Some (c', _, Ok rs) => cst_height c' = 1 ∧ cs_get_block_by_number (cst_storage c') (cst_height c') = Ok (Some (cst_head c'))
  | _ => False
  end.
Proof.
  assert ((λ r, is_ok r.2) <$> apply_block c0 spender b1 = Some true) as Hok by by vm_compute.
  destruct (apply_block c0 spender b1) as [[[c' vm'] [rs|e]]|] eqn:E; [|discriminate Hok..].
  destruct (apply_block_commits c0 spender b1 c' vm' rs db_keyed E) as (_ & _ & _ & Hh & _ & _ & Hb & _).
  split; [refine (eq_trans Hh _); by vm_compute|exact Hb].
Defined.

Lemma apply_block_rejects_witness :
  match apply_block c0 spender (mk_block b1 []) with
  | Some (c', _, Err e) => cst_height c' = 0
  | _ => False
  end.
Proof.
  assert ((λ r, is_ok r.2) <$> apply_block c0 spender (mk_block b1 []) = Some false) as Hok by by vm_compute.
  destruct (apply_block c0 spender (mk_block b1 [])) as [[[c' vm'] [rs|e]]|] eqn:E; [discriminate Hok| |discriminate Hok].
  exact (proj1 (proj2 (apply_block_rejects c0 spender (mk_block b1 []) c' vm' e E))).
Defined.

(** A transfer, a stake of a new validator, a withdrawal, and a replay that is skipped. *)
Definition b_native : Block := mk_block genesis_block
  [t_transfer; mk_tx bob Stake None 0 700 30000 []; mk_tx alice Unstake None 1 4500 30000 []; t_transfer].
Definition participants : gset Address := {[KeyPair_address alice; KeyPair_address bob]}.
Lemma block_conserves_value_witness :
  chain_money c0 participants = 2005000 ∧
  match apply_block c0 spender b_native with
  | Some (c', _, Ok rs) => fees_paid (blk_transactions b_native) rs = 63000 ∧ chain_money c' participants = 2005000 - 63000
  | _ => False
  end.
Proof.
  assert (chain_money c0 participants = 2005000) as H0 by by vm_compute. split; [exact H0|].
  assert ((λ r, match r.2 with Ok rs => fees_paid (blk_transactions b_native) rs | Err _ => 0 end) <$>
    apply_block c0 spender b_native = Some 63000) as Hok by by vm_compute.
  destruct (apply_block c0 spender b_native) as [[[c' vm'] [rs|e]]|] eqn:E; [|discriminate Hok|discriminate Hok].
  assert (fees_paid (blk_transactions b_native) rs = 63000) as Hfee by (by injection Hok). split; [exact Hfee|].
  assert (state_wf c0) as Hwf.
  { split; [|by_eval]. intros a acc [= Ha]. revert a acc Ha.
    change (map_Forall (λ _ acc, account_wf acc) (ms_accounts db)). by_eval. }
  assert (Forall (native_tx participants) (blk_transactions b_native)) as Hn by by_eval.
  destruct (block_conserves_value c0 spender b_native c' vm' rs participants Hwf db_keyed Hn ltac:(rewrite H0; lia) E) as [Hm _].
  rewrite Hfee, H0 in Hm. exact Hm.
Defined.

Definition params : ConsensusParams := ConsensusParams_default.
Lemma epoch_transition_witness :
  match maybe_advance_epoch c0 params 0 with
  | (c', Ok (Some ep)) => contains_block ep 1 = true ∧ ep_start_block ep = 1
  | _ => False
  end.
Proof.
  destruct (maybe_advance_epoch c0 params 0) as [c' [[ep|]|]] eqn:E; [|discriminate E..].
  destruct (epoch_transition c0 params 0 c' ep E) as (_ & _ & _ & _ & Hs & _ & Hc & _); [by vm_compute..|].
  split; [exact Hc|exact Hs].
Defined.

Definition gen : GenesisConfig := {|
  gc_chain_id := 1; gc_chain_name := "test"; gc_timestamp := 0;
  gc_initial_validators := [{| gv_address := KeyPair_address alice; gv_public_key := public_key alice;
    gv_stake := 2000000000000000000 |}];
  gc_initial_accounts := []; gc_consensus_params := params; gc_gas_limit := 1000000 |}.
Definition db_after : Mem :=
  match from_genesis gen MemStore.empty with Some (d, _) => d | None => MemStore.empty end.
Lemma restart_restores_head_not_stakes_witness :
  match from_genesis gen db_after with
  | Some (_, Ok c) => cst_height c = 0 ∧ ep_validator_set (cst_current_epoch c) = genesis_validator_set gen
  | _ => False
  end.
Proof.
  assert ((λ r, match r.2 with Ok c => cst_height c | Err _ => -1 end) <$> from_genesis gen db_after = Some 0)
    as Hok by by vm_compute.
  assert (∃ h, cs_get_genesis_hash db_after = Ok (Some h)) as [h Hh] by (eexists; by vm_compute).
  destruct (from_genesis gen db_after) as [[d' [c|e]]|] eqn:E; [|discriminate Hok..].
  simpl in Hok. injection Hok as Hz.
  destruct (restart_restores_head_not_stakes gen db_after h d' c Hh E) as (_ & _ & _ & _ & Hv);
    [by vm_compute|rewrite Hz; by vm_compute..|].
  split; [exact Hz|exact Hv].
Defined.

(** ** The consensus engine *)
Definition engine0 (pool : TransactionPool) : ConsensusEngine Mem := {|
  en_config := ConsensusConfig_default;
  en_chain_state := {| cst_head := genesis_block; cst_height := 0;
    cst_current_epoch := {| ep_epoch_number := 0; ep_start_block := 0; ep_end_block := 99;
      ep_validator_set := vset; ep_finalized_block := None |};
    cst_storage := db |};
  en_tx_pool := pool; en_finality := FinalityEngine_new vset; en_vm_engine := spender; en_events := [];
  en_keypair := Some alice; en_seen_blocks := ∅ |}.
Definition pool1 : TransactionPool := (pool_insert (TransactionPool_new 10 1) t_transfer 0).1.
Definition producer : ConsensusEngine Mem := engine0 pool1.
Abbreviation produced := (try_produce_block producer alice (map_to_list (tp_pending pool1)) 7 8 9).
Definition sent_block : Block :=
  match produced with
  | Some (e, _) => match last (en_events e) with Some (NewBlock b) => b | _ => genesis_block end
  | None => genesis_block end.

Lemma alice_proposes :
  select_proposer (active_validators (ep_validator_set (cst_current_epoch (en_chain_state producer))))
    (block_hash (cst_head (en_chain_state producer)))
    (hdr_number (blk_header (cst_head (en_chain_state producer))) +! 1) = Ok (KeyPair_address alice).
Proof. reflexivity. Qed.
Lemma producer_head_differs_from_broadcast_witness :
  hdr_gas_used (blk_header sent_block) = 21000 ∧
  match produced with
  | Some (e', Ok _) => ∃ b, last (en_events e') = Some (NewBlock b) ∧
      hdr_gas_used (blk_header (cst_head (en_chain_state e'))) = 0
  | _ => False
  end.
Proof.
  split; [by vm_compute|].
  assert ((λ p, is_ok p.2) <$> produced = Some true) as Hok by by vm_compute.
  destruct produced as [[e' [[]|]]|] eqn:E; [|discriminate Hok..].
  destruct (producer_head_differs_from_broadcast producer alice (map_to_list (tp_pending pool1)) 7 8 9 e' E alice_proposes)
    as (b & Hb & Hg & _).
  exists b. split; [exact Hb|exact Hg].
Defined.

Definition follower : ConsensusEngine Mem := engine0 pool1.
Lemma on_block_received_ok_witness :
  match on_block_received follower sent_block 10 11 with
  | Some (e', Ok _) => cst_head (en_chain_state e') = sent_block ∧
      pool_contains (en_tx_pool e') (stx_tx_hash t_transfer) = false
  | _ => False
  end.
Proof.
  assert ((λ p, is_ok p.2) <$> on_block_received follower sent_block 10 11 = Some true) as Hok by by vm_compute.
  assert ((λ t, stx_tx_hash t) <$> blk_transactions sent_block = [stx_tx_hash t_transfer]) as Htx by by_eval.
  destruct (on_block_received follower sent_block 10 11) as [[e' [[]|]]|] eqn:E; [|discriminate Hok..].
  destruct (on_block_received_ok follower sent_block 10 11 e' E) as (_ & _ & _ & _ & _ & Hh & _ & Hp & _).
  split; [exact Hh|].
  assert (stx_tx_hash t_transfer ∈ stx_tx_hash <$> blk_transactions sent_block) as Hin.
  { change (stx_tx_hash <$> blk_transactions sent_block) with ((λ t, stx_tx_hash t) <$> blk_transactions sent_block).
    rewrite Htx. left. }
  apply list_elem_of_fmap in Hin as (t & -> & Hin). by apply Hp.
Defined.

(** A follower that has seen another block of alice at height 1. *)
Definition suspicious : ConsensusEngine Mem :=
  en_set_seen follower {[ (1, KeyPair_address alice) := Blake3Hash_ZERO ]}.
Lemma double_sign_rejected_set_unchanged_witness :
  match on_block_received suspicious sent_block 10 11 with
  | Some (e', Err (CInvalidBlock msg)) => msg = "double-sign detected"%string ∧
      cst_current_epoch (en_chain_state e') = cst_current_epoch (en_chain_state suspicious)
  | _ => False
  end.
Proof.
  assert ((λ p, match p.2 with Err (CInvalidBlock m) => m | _ => ""%string end) <$>
    on_block_received suspicious sent_block 10 11 = Some "double-sign detected"%string) as Hok by by vm_compute.
  destruct (on_block_received suspicious sent_block 10 11) as [[e' r]|] eqn:E; [|discriminate Hok].
  destruct (double_sign_rejected_set_unchanged suspicious sent_block Blake3Hash_ZERO 10 11 e' r) as (_ & _ & _ & Hep & _).
  - by_eval.
  - by apply (bool_decide_eq_false_1 (Blake3Hash_ZERO = block_hash sent_block)); vm_compute.
  - exact E.
  - simpl in Hok. destruct r as [[]|[]]; try discriminate Hok. injection Hok as Hm. split; [exact Hm|exact Hep].
Defined.
