(* ===== verification/BridgeTypes.v ===== *)
(** * BridgeTypes: data of the cross-chain bridge (crates/bridge/src/types.rs, error.rs, registry.rs)

    The external chains with their names and identifiers, transfer and swap
    statuses, the bridge configuration, and the registry of bridgeable tokens.
    [str::to_lowercase] is modelled on ASCII letters; no name that [from_name]
    compares with contains a letter that a non-ASCII character lowers to. *)

From S2P Require Import Prelude Crypto.

(** ** Errors (error.rs) *)
Inductive BridgeError : Type :=
| UnsupportedChain (name : string)
| InvalidAmount (msg : string)
| HtlcNotFound (id : string)
| HtlcAlreadyExists (id : string)
| HtlcExpired
| HtlcNotExpired
| HtlcAlreadyClaimed
| HtlcAlreadyRefunded
| InvalidPreimage
| Unauthorized (msg : string)
| TransferNotFound (id : string)
| TransferAlreadyProcessed
| InsufficientLiquidity
| InsufficientSignatures (needed got : Z)
| BridgeInvalidSignature
| AdapterError (msg : string)
| BridgePaused
| BelowMinimum (min got : Z)
| AboveMaximum (max got : Z)
| BridgeStorage (msg : string)
| BridgeSerialization (msg : string).

#[export] Instance BridgeError_eq_dec : EqDecision BridgeError.
Proof. solve_decision. Defined.

Definition bridge_error_display (e : BridgeError) : string :=
  match e with
  | UnsupportedChain n => "Unsupported chain: " +:+ n
  | InvalidAmount m => "Invalid amount: " +:+ m
  | HtlcNotFound i => "HTLC not found: " +:+ i
  | HtlcAlreadyExists i => "HTLC already exists: " +:+ i
  | HtlcExpired => "HTLC expired"
  | HtlcNotExpired => "HTLC not expired yet"
  | HtlcAlreadyClaimed => "HTLC already claimed"
  | HtlcAlreadyRefunded => "HTLC already refunded"
  | InvalidPreimage => "Invalid hash preimage"
  | Unauthorized m => "Unauthorized: " +:+ m
  | TransferNotFound i => "Bridge transfer not found: " +:+ i
  | TransferAlreadyProcessed => "Bridge transfer already processed"
  | InsufficientLiquidity => "Insufficient bridge liquidity"
  | InsufficientSignatures n g =>
      "Insufficient validator signatures: need " +:+ z_str n +:+ ", got " +:+ z_str g
  | BridgeInvalidSignature => "Invalid validator signature"
  | AdapterError m => "Chain adapter error: " +:+ m
  | BridgePaused => "Bridge paused"
  | BelowMinimum m g => "Amount below minimum: min " +:+ z_str m +:+ ", got " +:+ z_str g
  | AboveMaximum m g => "Amount above maximum: max " +:+ z_str m +:+ ", got " +:+ z_str g
  | BridgeStorage m => "Storage error: " +:+ m
  | BridgeSerialization m => "Serialization error: " +:+ m
  end.

(** ** External chains (types.rs) *)
Inductive ExternalChain : Type := Bitcoin | Ethereum | BnbChain | Polygon | Solana.

#[export] Instance ExternalChain_eq_dec : EqDecision ExternalChain.
Proof. solve_decision. Defined.

Definition chain_name (c : ExternalChain) : string :=
  match c with
  | Bitcoin => "Bitcoin"
  | Ethereum => "Ethereum"
  | BnbChain => "BNB Chain"
  | Polygon => "Polygon"
  | Solana => "Solana"
  end.
Definition chain_symbol (c : ExternalChain) : string :=
  match c with
  | Bitcoin => "BTC"
  | Ethereum => "ETH"
  | BnbChain => "BNB"
  | Polygon => "MATIC"
  | Solana => "SOL"
  end.
Definition chain_id (c : ExternalChain) : Z :=
  match c with
  | Bitcoin => 0
  | Ethereum => 1
  | BnbChain => 56
  | Polygon => 137
  | Solana => 501
  end.
Definition is_evm (c : ExternalChain) : bool :=
  match c with Ethereum | BnbChain | Polygon => true | _ => false end.
Definition address_length (c : ExternalChain) : Z :=
  match c with
  | Bitcoin => 34
  | Ethereum | BnbChain | Polygon => 20
  | Solana => 32
  end.
Definition all_chains : list ExternalChain := [Bitcoin; Ethereum; BnbChain; Polygon; Solana].

(** [str::to_lowercase] on ASCII. *)
Definition ascii_lower (c : Ascii.ascii) : Ascii.ascii :=
  let n := Ascii.N_of_ascii c in
  if ((65 <=? n) && (n <=? 90))%N then Ascii.ascii_of_N (n + 32) else c.
Fixpoint to_lowercase (s : string) : string :=
  match s with
  | EmptyString => EmptyString
  | String c s' => String (ascii_lower c) (to_lowercase s')
  end.
(** One arm of a [match] on string literals. *)
Definition one_of (s : string) (l : list string) : bool := bool_decide (s ∈ l).

Definition from_name (name : string) : option ExternalChain :=
  let n := to_lowercase name in
  if one_of n ["bitcoin"; "btc"] then Some Bitcoin
  else if one_of n ["ethereum"; "eth"] then Some Ethereum
  else if one_of n ["bnb"; "bnbchain"; "bsc"; "binance"] then Some BnbChain
  else if one_of n ["polygon"; "matic"] then Some Polygon
  else if one_of n ["solana"; "sol"] then Some Solana
  else None.

(** The chain id is injective, so it encodes chains as map keys. *)
Definition chain_of_id (n : Z) : option ExternalChain :=
  List.find (λ c, chain_id c =? n) all_chains.
Lemma chain_of_id_id c : chain_of_id (chain_id c) = Some c.
Proof. by destruct c. Qed.
#[export] Instance ExternalChain_countable : Countable ExternalChain :=
  inj_countable chain_id chain_of_id chain_of_id_id.

Lemma all_chains_complete c : c ∈ all_chains.
Proof. destruct c; set_solver. Qed.
Lemma all_chains_nodup : NoDup all_chains.
Proof. by apply (bool_decide_eq_true_1 (NoDup all_chains)). Qed.
Lemma chain_name_inj : Inj (=) (=) chain_name.
Proof. intros [] []; done. Qed.

(** [from_name] recognises every chain's symbol, and every chain's display
    name but one. *)
Lemma from_name_symbol c : from_name (chain_symbol c) = Some c.
Proof. by destruct c. Qed.
Lemma from_name_name c : from_name (chain_name c) = if decide (c = BnbChain) then None else Some c.
Proof. by destruct c. Qed.

(** ** Records (types.rs) *)
Record BridgeToken : Type := {
  bt_symbol : string;
  bt_name : string;
  bt_decimals : Z;
  bt_origin_chain : ExternalChain;
  bt_external_address : string;
  bt_enabled : bool;
  bt_min_amount : Z;
  bt_max_amount : Z;
  bt_fee_bps : Z
}.

Inductive BridgeDirection : Type := Inbound | Outbound.
#[export] Instance BridgeDirection_eq_dec : EqDecision BridgeDirection.
Proof. solve_decision. Defined.

Inductive BridgeTransferStatus : Type :=
| Pending | SourceConfirmed | RelaySubmitted | Validated | Completed | Failed | Expired | Refunded.
#[export] Instance BridgeTransferStatus_eq_dec : EqDecision BridgeTransferStatus.
Proof. solve_decision. Defined.

Record BridgeTransfer : Type := {
  br_id : string;
  br_direction : BridgeDirection;
  br_source_chain : string;
  br_dest_chain : string;
  br_sender : string;
  br_recipient : string;
  br_token_symbol : string;
  br_amount : Z;
  br_fee : Z;
  br_status : BridgeTransferStatus;
  br_source_tx_hash : option string;
  br_dest_tx_hash : option string;
  br_confirmations : Z;
  br_required_confirmations : Z;
  br_created_at : Z;
  br_updated_at : Z;
  br_expires_at : Z
}.
#[export] Instance BridgeTransfer_eq_dec : EqDecision BridgeTransfer.
Proof. solve_decision. Defined.

Inductive HtlcStatus : Type := HActive | HClaimed | HRefunded | HExpired.
#[export] Instance HtlcStatus_eq_dec : EqDecision HtlcStatus.
Proof. solve_decision. Defined.

Record BridgeFeeSchedule : Type := {
  fs_chain : ExternalChain;
  fs_token_symbol : string;
  fs_fee_bps : Z;
  fs_min_fee : Z;
  fs_estimated_gas_cost : string
}.
Record BridgeLiquidity : Type := {
  bl_chain : ExternalChain;
  bl_token_symbol : string;
  bl_locked_amount : Z;
  bl_wrapped_supply : Z;
  bl_available_outbound : Z
}.
Record BridgeConfig : Type := {
  bc_enabled : bool;
  bc_min_signatures : Z;
  bc_htlc_timelock_seconds : Z;
  bc_transfer_timeout_seconds : Z;
  bc_operator : Address;
  bc_accept_inbound : bool;
  bc_allow_outbound : bool
}.
Definition BridgeConfig_default : BridgeConfig := {|
  bc_enabled := true;
  bc_min_signatures := 2;
  bc_htlc_timelock_seconds := 3600;
  bc_transfer_timeout_seconds := 86400;
  bc_operator := Address_ZERO;
  bc_accept_inbound := true;
  bc_allow_outbound := true |}.

(** ** The registry of bridgeable tokens (registry.rs) *)
Record ChainRegistry : Type := { cr_tokens : gmap ExternalChain (list BridgeToken) }.

(** The fields the entries of the table share: enabled, fee of 10 bps. *)
Definition token (symbol name : string) (decimals : Z) (origin : ExternalChain) (addr : string)
    (min max : Z) : BridgeToken := {|
  bt_symbol := symbol; bt_name := name; bt_decimals := decimals; bt_origin_chain := origin;
  bt_external_address := addr; bt_enabled := true; bt_min_amount := min; bt_max_amount := max;
  bt_fee_bps := 10 |}.

Definition default_tokens : gmap ExternalChain (list BridgeToken) :=
  <[Solana := [token "SOL" "Solana" 9 Solana "" 1000000 1000000000000]]>
  (<[Polygon := [token "MATIC" "Polygon" 18 Polygon "" 1000000000000000000 10000000000000000000000000]]>
  (<[BnbChain :=
      [token "BNB" "BNB" 18 BnbChain "" 1000000000000000 100000000000000000000000;
       token "BUSD" "Binance USD" 18 BnbChain "0xe9e7CEA3DedcA5984780Bafc599bD69ADd087D56"
         1000000000000000000 1000000000000000000000000]]>
  (<[Ethereum :=
      [token "ETH" "Ether" 18 Ethereum "" 1000000000000000 1000000000000000000000;
       token "USDT" "Tether USD" 6 Ethereum "0xdAC17F958D2ee523a2206206994597C13D831ec7"
         1000000 1000000000000;
       token "USDC" "USD Coin" 6 Ethereum "0xA0b86991c6218b36c1d19D4a2e9Eb0cE3606eB48"
         1000000 1000000000000]]>
  (<[Bitcoin := [token "BTC" "Bitcoin" 8 Bitcoin "" 10000 100000000000]]> ∅)))).
Definition ChainRegistry_new : ChainRegistry := {| cr_tokens := default_tokens |}.

Section Registry.
Implicit Types (r : ChainRegistry) (c : ExternalChain).

(** The keys of a [HashMap], in its iteration order [map_to_list]. *)
Definition supported_chains r : list ExternalChain := (map_to_list (cr_tokens r)).*1.
Definition tokens_for_chain r c : list BridgeToken := default [] (cr_tokens r !! c).
Definition all_tokens r : list BridgeToken := concat (map_to_list (cr_tokens r)).*2.
Definition is_supported r c (symbol : string) : bool :=
  match cr_tokens r !! c with
  | Some ts => existsb (λ t, bool_decide (bt_symbol t = symbol) && bt_enabled t) ts
  | None => false
  end.
Definition get_token r c (symbol : string) : option BridgeToken :=
  ts ← cr_tokens r !! c; List.find (λ t, bool_decide (bt_symbol t = symbol)) ts.

(** What a well-formed registry promises to its readers. *)
Definition token_ok c (t : BridgeToken) : Prop :=
  bt_origin_chain t = c ∧ 0 < bt_min_amount t ∧ bt_min_amount t ≤ bt_max_amount t ∧
  in_u 128 (bt_max_amount t) ∧ 0 ≤ bt_decimals t < 256 ∧ 0 ≤ bt_fee_bps t < 10000.
#[export] Instance token_ok_dec c t : Decision (token_ok c t).
Proof. unfold token_ok. apply _. Defined.
Definition registry_ok r : Prop :=
  map_Forall (λ c ts, Forall (token_ok c) ts ∧ NoDup (bt_symbol <$> ts)) (cr_tokens r).
#[export] Instance registry_ok_dec r : Decision (registry_ok r).
Proof. unfold registry_ok. apply _. Defined.

Lemma registry_new_ok : registry_ok ChainRegistry_new.
Proof. apply (bool_decide_eq_true_1 _). by vm_compute. Qed.
(** A pair is supported exactly when the token it names is enabled. *)
Lemma is_supported_get_token r c s :
  registry_ok r → is_supported r c s = match get_token r c s with Some t => bt_enabled t | None => false end.
Proof.
  intros Hok. unfold is_supported, get_token. destruct (cr_tokens r !! c) as [ts|] eqn:E; [|done]. simpl.
  destruct (Hok _ _ E) as [_ Hnd]. clear E. induction ts as [|t ts IH]; [done|]. simpl in *.
  apply NoDup_cons in Hnd as [Hnot Hnd]. case_bool_decide as Hs; simpl; [|by apply IH].
  destruct (bt_enabled t); [done|]. simpl. apply not_true_iff_false. intros Hex.
  apply existsb_exists in Hex as (t' & Hin & Ht'). apply andb_true_iff in Ht' as [Hs' _].
  apply bool_decide_eq_true in Hs'. apply Hnot. rewrite Hs, <- Hs'.
  apply list_elem_of_fmap_2. by apply list_elem_of_In.
Qed.
End Registry.
