(* ===== verification/Text.v ===== *)
(** * Text: the string functions of the standard library the services use

    [str::parse] for unsigned integers with its overflow checks, prefix and
    suffix trimming, splitting and lower-casing.  [parse_uint] is shown equal
    to a reference that reads an unbounded decimal number and then tests the
    range, and it inverts [to_string].  Strings are their UTF-8 bytes. *)

From S2P Require Import Prelude Crypto BridgeTypes.

(** ** Decimal numbers *)
Definition digit_val (c : Ascii.ascii) : option Z :=
  let n := Z.of_N (Ascii.N_of_ascii c) in
  if (48 <=? n) && (n <=? 57) then Some (n - 48) else None.

(** The loop of [u<w>::from_str]: [checked_mul(10)], then [checked_add(digit)]. *)
Fixpoint parse_digits (w acc : Z) (s : string) : option Z :=
  match s with
  | EmptyString => Some acc
  | String c s' =>
      d ← digit_val c;
      if 2 ^ w <=? acc * 10 then None
      else if 2 ^ w <=? acc * 10 + d then None
      else parse_digits w (acc * 10 + d) s'
  end.
(** [s.parse::<u<w>>().ok()]: one leading [+] is allowed, an empty number is not. *)
Definition parse_uint (w : Z) (s : string) : option Z :=
  match s with
  | EmptyString => None
  | String "+"%char EmptyString => None
  | String "+"%char s' => parse_digits w 0 s'
  | _ => parse_digits w 0 s
  end.

(** The reference: the value of a string of digits, without a bound. *)
Fixpoint decimal (acc : Z) (s : string) : option Z :=
  match s with
  | EmptyString => Some acc
  | String c s' => d ← digit_val c; decimal (acc * 10 + d) s'
  end.
Definition unsigned_digits (s : string) : string :=
  match s with String "+"%char s' => s' | _ => s end.
Definition parse_reference (w : Z) (s : string) : option Z :=
  if bool_decide (unsigned_digits s = EmptyString) then None
  else z ← decimal 0 (unsigned_digits s); if z <? 2 ^ w then Some z else None.

Section Decimal.
Lemma digit_val_bound c d : digit_val c = Some d → 0 ≤ d < 10.
Proof. unfold digit_val. case_match eqn:E; [|done]. intros [= <-]. lia. Qed.

Lemma decimal_mono acc s z : 0 ≤ acc → decimal acc s = Some z → acc ≤ z.
Proof.
  revert acc. induction s as [|c s IH]; simpl; intros acc Hacc; [intros [= ->]; lia|].
  destruct (digit_val c) as [d|] eqn:E; simpl; [|done]. apply digit_val_bound in E.
  intros Hd. apply IH in Hd; lia.
Qed.

Lemma parse_digits_decimal w acc s :
  0 ≤ acc < 2 ^ w →
  parse_digits w acc s = (z ← decimal acc s; if z <? 2 ^ w then Some z else None).
Proof.
  revert acc. induction s as [|c s IH]; simpl; intros acc Hacc.
  - by rewrite (proj2 (Z.ltb_lt acc (2 ^ w))) by lia.
  - destruct (digit_val c) as [d|] eqn:E; simpl; [|done]. apply digit_val_bound in E.
    destruct (Z.leb_spec (2 ^ w) (acc * 10)); [|destruct (Z.leb_spec (2 ^ w) (acc * 10 + d))].
    3: { apply IH. lia. }
    all: destruct (decimal _ s) as [z|] eqn:Hd; simpl; [|done].
    all: apply decimal_mono in Hd; [|lia]; by rewrite (proj2 (Z.ltb_ge z (2 ^ w))) by lia.
Qed.

Lemma parse_uint_reference w s : 0 ≤ w → parse_uint w s = parse_reference w s.
Proof.
  intros Hw. assert (0 ≤ 0 < 2 ^ w) as Hp by (split; [lia|by apply Z.pow_pos_nonneg]).
  unfold parse_uint, parse_reference, unsigned_digits.
  destruct s as [|c s]; [done|].
  destruct (decide (c = "+"%char)) as [->|Hc].
  - destruct s as [|c' s]; [done|]. rewrite bool_decide_eq_false_2 by done.
    by apply parse_digits_decimal.
  - transitivity (parse_digits w 0 (String c s)).
    + by repeat case_match; simplify_eq.
    + rewrite parse_digits_decimal by done. by repeat case_match; simplify_eq.
Qed.

Lemma parse_uint_range w s z : 0 ≤ w → parse_uint w s = Some z → in_u w z.
Proof.
  intros Hw. rewrite parse_uint_reference by done. unfold parse_reference.
  case_bool_decide; [done|]. destruct (decimal 0 _) as [z'|] eqn:Hd; simpl; [|done].
  apply decimal_mono in Hd; [|done]. destruct (Z.ltb_spec z' (2 ^ w)); [|done].
  intros [= <-]. done.
Qed.

Lemma digit_val_pretty n : (n < 10)%N → digit_val (pretty_N_char n) = Some (Z.of_N n).
Proof.
  intros Hn. assert (n = 0 ∨ n = 1 ∨ n = 2 ∨ n = 3 ∨ n = 4 ∨ n = 5 ∨ n = 6 ∨ n = 7 ∨ n = 8 ∨ n = 9)%N
    as Hc by lia. destruct_or! Hc; by subst.
Qed.

(** Reading digits after those [pretty] puts in front of [s]. *)
Lemma decimal_pretty_go n s : decimal 0 (pretty_N_go n s) = decimal (Z.of_N n) s.
Proof.
  revert s. induction (N.lt_wf_0 n) as [n _ IH]; intros s.
  destruct (decide (n = 0)%N) as [->|Hn]; [by rewrite pretty_N_go_0|].
  rewrite pretty_N_go_step by lia. rewrite IH by (apply N.div_lt; lia). cbn [decimal].
  rewrite digit_val_pretty by (apply N.mod_lt; lia). cbn.
  f_equal. rewrite (N.div_mod n 10) at 3 by done. lia.
Qed.

Lemma pretty_go_head n s : (0 < n)%N → ∃ c s', pretty_N_go n s = String c s' ∧ is_Some (digit_val c).
Proof.
  revert s. induction (N.lt_wf_0 n) as [n _ IH]; intros s Hn.
  rewrite pretty_N_go_step by done.
  destruct (decide (n `div` 10 = 0)%N) as [->|Hd]; [|apply IH; [by apply N.div_lt|by apply N.neq_0_lt_0]].
  rewrite pretty_N_go_0. eexists _, _. split; [done|].
  rewrite digit_val_pretty by (apply N.mod_lt; lia). done.
Qed.

(** [x.to_string().parse()] gives [x] back. *)
Lemma parse_uint_print w z : in_u w z → parse_uint w (z_str z) = Some z.
Proof.
  intros [Hz Hlt]. assert (0 ≤ w) as Hw by (destruct (Z.le_gt_cases 0 w); [done|]; rewrite Z.pow_neg_r in Hlt; lia).
  rewrite parse_uint_reference by done. unfold parse_reference, z_str.
  destruct z as [|p|p]; [|change (pretty (Z.pos p)) with (pretty_N_go (N.pos p) "")|done].
  { change (pretty 0) with "0"%string. change (unsigned_digits "0") with "0"%string.
    rewrite bool_decide_eq_false_2 by done. change (decimal 0 "0") with (Some 0). cbn [mbind option_bind]. by rewrite (proj2 (Z.ltb_lt 0 (2 ^ w))) by lia. }
  destruct (pretty_go_head (N.pos p) "" ltac:(done)) as (c & s' & Hs & Hc).
  assert (unsigned_digits (pretty_N_go (N.pos p) "") = pretty_N_go (N.pos p) "") as ->.
  { rewrite Hs. unfold unsigned_digits. repeat case_match; simplify_eq; try done.
    by destruct Hc. }
  rewrite bool_decide_eq_false_2 by (by rewrite Hs).
  rewrite decimal_pretty_go. cbn -[Z.ltb Z.pow]. by rewrite (proj2 (Z.ltb_lt _ _)) by lia.
Qed.
End Decimal.

(** Parsing an unsigned integer digit by digit with overflow checks is parsing it
    without bounds and testing the range. *)
Theorem parse_uint_correct w s : 0 ≤ w →
  parse_uint w s = parse_reference w s ∧
  (∀ z, parse_uint w s = Some z → in_u w z) ∧
  (∀ z, in_u w z → parse_uint w (z_str z) = Some z).
Proof.
  intros Hw. split_and!; intros *; [by apply parse_uint_reference|by apply parse_uint_range|apply parse_uint_print].
Qed.
Lemma parse_uint_correct_witness :
  parse_uint 128 (z_str (2 ^ 128 - 1)) = Some (2 ^ 128 - 1) ∧
  parse_uint 128 "340282366920938463463374607431768211456" = None ∧ parse_uint 64 "+7" = Some 7.
Proof.
  destruct (parse_uint_correct 128 "340282366920938463463374607431768211456" ltac:(done)) as (H1 & _ & H2).
  split; [refine (H2 (2 ^ 128 - 1) _); unfold in_u; lia|]. split; [rewrite H1; by vm_compute|by vm_compute].
Defined.

(** ** Prefixes, suffixes and pieces *)
Fixpoint strip_prefix (pre s : string) : option string :=
  match pre, s with
  | EmptyString, _ => Some s
  | String c pre', String c' s' => if bool_decide (c = c') then strip_prefix pre' s' else None
  | String _ _, EmptyString => None
  end.
(** [s.split(c).next()]: the text before the first [c], the whole when there is none. *)
Fixpoint before (c : Ascii.ascii) (s : string) : string :=
  match s with
  | EmptyString => EmptyString
  | String c' s' => if bool_decide (c = c') then EmptyString else String c' (before c s')
  end.
(** [s.trim_end_matches(p)] for a test on characters. *)
Fixpoint trim_end (p : Ascii.ascii → bool) (s : string) : string :=
  match s with
  | EmptyString => EmptyString
  | String c s' =>
      match trim_end p s' with
      | EmptyString => if p c then EmptyString else String c EmptyString
      | t => String c t
      end
  end.
Fixpoint trim_start (p : Ascii.ascii → bool) (s : string) : string :=
  match s with
  | EmptyString => EmptyString
  | String c s' => if p c then trim_start p s' else s
  end.
(** [str::trim] on the ASCII text of a header value. *)
Definition trim (s : string) : string :=
  let space c := bool_decide (c = " "%char) || bool_decide (c = Ascii.ascii_of_nat 9) in
  trim_end space (trim_start space s).

(** [str::to_lowercase] on ASCII letters and on the one other character whose
    lower case is an ASCII letter alone, the Kelvin sign (U+212A), which lowers
    to [k]. *)
Definition kelvin : string := String.string_of_list_byte [Byte.xe2; Byte.x84; Byte.xaa].
Fixpoint lower (fuel : nat) (s : string) : string :=
  match fuel, s with
  | O, _ | _, EmptyString => EmptyString
  | S n, String c s' =>
      match strip_prefix kelvin s with
      | Some rest => String "k" (lower n rest)
      | None => String (ascii_lower c) (lower n s')
      end
  end.
Definition str_to_lowercase (s : string) : string := lower (String.length s) s.

Lemma strip_prefix_app pre s : strip_prefix pre (pre +:+ s) = Some s.
Proof. induction pre as [|c pre IH]; simpl; [done|]. by rewrite bool_decide_eq_true_2 by done. Qed.
Lemma strip_prefix_Some pre s t : strip_prefix pre s = Some t ↔ s = pre +:+ t.
Proof.
  split; [|intros ->; apply strip_prefix_app].
  revert s. induction pre as [|c pre IH]; simpl; intros s; [by intros [= ->]|].
  destruct s as [|c' s]; [done|]. case_bool_decide as Hc; [|done]. subst. intros H. by rewrite (IH _ H).
Qed.
Lemma append_assoc (a b c : string) : a +:+ (b +:+ c) = (a +:+ b) +:+ c.
Proof.
  induction a as [|x a IH]; [done|].
  change (String x (a +:+ (b +:+ c)) = String x ((a +:+ b) +:+ c)). by rewrite IH.
Qed.

(** [Path::join] of a relative name. *)
Definition path_join (dir name : string) : string :=
  match last (String.list_ascii_of_string dir) with
  | None => name
  | Some c => if bool_decide (c = "/"%char) then dir +:+ name else dir +:+ "/" +:+ name
  end.
