(* ===== verification/Htlc.v ===== *)
(** * Htlc: hash time-locked swaps (crates/bridge/src/htlc.rs)

    [HtlcManager] with its three [DashMap]s as finite maps; calls are one after the
    other, each a single step (a claim, a refund and an expiry hold the entry they
    change; creating is several accesses), and [chrono::Utc::now().timestamp() as u64]
    is the argument [now].  SHA-256 of the [sha2] crate is the parameter [sha256].  A method
    that iterates the map takes the iteration order as an argument, a
    permutation of its values. *)

From S2P Require Import Prelude Crypto BridgeTypes.

(** [Sha256::new().update(data).finalize()] of the [sha2] crate. *)
Class Sha2 := { sha256 : bytes → barray 32 }.

Record HtlcSwap : Type := {
  sw_id : string;
  sw_hash_lock : barray 32;
  sw_preimage : option bytes;
  sw_sender : Address;
  sw_recipient : Address;
  sw_amount : Z;
  sw_external_chain : ExternalChain;
  sw_external_address : string;
  sw_external_amount : string;
  sw_timelock : Z;
  sw_status : HtlcStatus;
  sw_created_at : Z;
  sw_settled_at : option Z
}.
Record HtlcManager : Type := {
  hm_swaps : gmap string HtlcSwap;
  hm_by_sender : gmap Address (list string);
  hm_by_recipient : gmap Address (list string);
  hm_default_timelock : Z
}.

(** The assignments through [get_mut] that the methods make. *)
Definition sw_set (s : HtlcSwap) (pre : option bytes) (st : HtlcStatus) (settled : option Z) : HtlcSwap := {|
  sw_id := sw_id s; sw_hash_lock := sw_hash_lock s; sw_preimage := pre;
  sw_sender := sw_sender s; sw_recipient := sw_recipient s; sw_amount := sw_amount s;
  sw_external_chain := sw_external_chain s; sw_external_address := sw_external_address s;
  sw_external_amount := sw_external_amount s; sw_timelock := sw_timelock s;
  sw_status := st; sw_created_at := sw_created_at s; sw_settled_at := settled |}.
Definition sw_set_status (s : HtlcSwap) (st : HtlcStatus) : HtlcSwap :=
  sw_set s (sw_preimage s) st (sw_settled_at s).
Definition hm_set_swaps (m : HtlcManager) (swaps : gmap string HtlcSwap) : HtlcManager := {|
  hm_swaps := swaps; hm_by_sender := hm_by_sender m; hm_by_recipient := hm_by_recipient m;
  hm_default_timelock := hm_default_timelock m |}.

Section Htlc.
Context `{CryptoPrims} `{Sha2}.
Implicit Types (m : HtlcManager) (s : HtlcSwap) (now : Z).

Definition HtlcManager_new (default_timelock : Z) : HtlcManager := {|
  hm_swaps := ∅; hm_by_sender := ∅; hm_by_recipient := ∅; hm_default_timelock := default_timelock |}.

Definition hash_secret (preimage : bytes) : barray 32 := sha256 preimage.

Definition create_swap m (sender recipient : Address) (amount : Z) (hash_lock : barray 32)
    (chain : ExternalChain) (ext_address ext_amount : string) (timelock : option Z) now
    : HtlcManager * result BridgeError HtlcSwap :=
  let id := hex_enc (ba_bytes hash_lock) in
  if bool_decide (is_Some (hm_swaps m !! id)) then (m, Err (HtlcAlreadyExists id))
  else if amount =? 0 then (m, Err (InvalidAmount "Amount must be > 0"))
  else
    let tl := default (now +! hm_default_timelock m) timelock in
    if tl <=? now then (m, Err (InvalidAmount "Timelock must be in the future"))
    else
      let swap := {|
        sw_id := id; sw_hash_lock := hash_lock; sw_preimage := None;
        sw_sender := sender; sw_recipient := recipient; sw_amount := amount;
        sw_external_chain := chain; sw_external_address := ext_address;
        sw_external_amount := ext_amount; sw_timelock := tl;
        sw_status := HActive; sw_created_at := now; sw_settled_at := None |} in
      ({| hm_swaps := <[id := swap]> (hm_swaps m);
          hm_by_sender := push_index sender id (hm_by_sender m);
          hm_by_recipient := push_index recipient id (hm_by_recipient m);
          hm_default_timelock := hm_default_timelock m |}, Ok swap).

Definition claim_swap m (swap_id : string) (preimage : bytes) (claimer : Address) now
    : HtlcManager * result BridgeError HtlcSwap :=
  match hm_swaps m !! swap_id with
  | None => (m, Err (HtlcNotFound swap_id))
  | Some s =>
      if bool_decide (sw_status s = HClaimed) then (m, Err HtlcAlreadyClaimed)
      else if bool_decide (sw_status s = HRefunded) then (m, Err HtlcAlreadyRefunded)
      else if negb (bool_decide (claimer = sw_recipient s)) then
        (m, Err (Unauthorized "Only the recipient can claim"))
      else if sw_timelock s <=? now then
        (hm_set_swaps m (<[swap_id := sw_set_status s HExpired]> (hm_swaps m)), Err HtlcExpired)
      else if negb (bool_decide (hash_secret preimage = sw_hash_lock s)) then (m, Err InvalidPreimage)
      else
        let s' := sw_set s (Some preimage) HClaimed (Some now) in
        (hm_set_swaps m (<[swap_id := s']> (hm_swaps m)), Ok s')
  end.

Definition refund_swap m (swap_id : string) (refunder : Address) now
    : HtlcManager * result BridgeError HtlcSwap :=
  match hm_swaps m !! swap_id with
  | None => (m, Err (HtlcNotFound swap_id))
  | Some s =>
      if bool_decide (sw_status s = HClaimed) then (m, Err HtlcAlreadyClaimed)
      else if bool_decide (sw_status s = HRefunded) then (m, Err HtlcAlreadyRefunded)
      else if negb (bool_decide (refunder = sw_sender s)) then
        (m, Err (Unauthorized "Only the sender can refund"))
      else if now <? sw_timelock s then (m, Err HtlcNotExpired)
      else
        let s' := sw_set s (sw_preimage s) HRefunded (Some now) in
        (hm_set_swaps m (<[swap_id := s']> (hm_swaps m)), Ok s')
  end.

Definition get_swap m (swap_id : string) : option HtlcSwap := hm_swaps m !! swap_id.
Definition get_swaps_by_sender m (sender : Address) : list HtlcSwap :=
  match hm_by_sender m !! sender with Some ids => omap (λ id, hm_swaps m !! id) ids | None => [] end.
Definition get_swaps_by_recipient m (recipient : Address) : list HtlcSwap :=
  match hm_by_recipient m !! recipient with Some ids => omap (λ id, hm_swaps m !! id) ids | None => [] end.

(** Most recent first. *)
Definition list_swaps (order : list HtlcSwap) (limit offset : nat) : list HtlcSwap :=
  newest_window sw_created_at order limit offset.

Definition swap_active s : Prop := sw_status s = HActive.
Definition swap_stale now s : Prop := sw_status s = HActive ∧ sw_timelock s ≤ now.
#[local] Instance swap_active_dec s : Decision (swap_active s).
Proof. unfold swap_active. apply _. Defined.
#[local] Instance swap_stale_dec now s : Decision (swap_stale now s).
Proof. unfold swap_stale. apply _. Defined.

Definition htlc_active_count m : nat := length (filter swap_active (map_to_list (hm_swaps m)).*2).

(** The loop over [iter_mut] changes each entry on its own, and counts. *)
Definition expire_swap now s : HtlcSwap :=
  if decide (swap_stale now s) then sw_set_status s HExpired else s.
Definition expire_stale_swaps m now : HtlcManager * nat :=
  (hm_set_swaps m (expire_swap now <$> hm_swaps m),
   length (filter (swap_stale now) (map_to_list (hm_swaps m)).*2)).

(** ** Runs: any sequence of calls, each at its own time *)
Inductive HtlcOp : Type :=
| OpCreate (sender recipient : Address) (amount : Z) (hash_lock : barray 32) (chain : ExternalChain)
    (ext_address ext_amount : string) (timelock : option Z)
| OpClaim (swap_id : string) (preimage : bytes) (claimer : Address)
| OpRefund (swap_id : string) (refunder : Address)
| OpExpire.

Definition htlc_apply m (o : HtlcOp) now : HtlcManager :=
  match o with
  | OpCreate a b v h c ea ev tl => (create_swap m a b v h c ea ev tl now).1
  | OpClaim i p a => (claim_swap m i p a now).1
  | OpRefund i a => (refund_swap m i a now).1
  | OpExpire => (expire_stale_swaps m now).1
  end.
Definition htlc_run m (ops : list (HtlcOp * Z)) : HtlcManager :=
  foldl (λ m o, htlc_apply m o.1 o.2) m ops.
Inductive htlc_reachable (tl : Z) : HtlcManager → Prop :=
| hr_new : htlc_reachable tl (HtlcManager_new tl)
| hr_step m o now : htlc_reachable tl m → (∀ a b v h c ea ev t, o = OpCreate a b v h c ea ev t → in_u 128 v) →
    htlc_reachable tl (htlc_apply m o now).
End Htlc.
#[export] Existing Instance swap_active_dec.
#[export] Existing Instance swap_stale_dec.

(** ** One swap as a state machine
    The contract of a hash time-lock: what may happen to a record at time
    [now].  [Claimed] and [Refunded] have no way out; [Expired] is a note that
    the deadline passed. *)
Section SwapMachine.
Context `{Sha2}.
Implicit Types (s : HtlcSwap) (now : Z).

Definition settled s : Prop := sw_status s = HClaimed ∨ sw_status s = HRefunded.
#[export] Instance settled_dec s : Decision (settled s).
Proof. unfold settled. apply _. Defined.

Inductive swap_step now : HtlcSwap → HtlcSwap → Prop :=
| ss_stay s : swap_step now s s
| ss_expire s : ¬ settled s → sw_timelock s ≤ now → swap_step now s (sw_set_status s HExpired)
| ss_claim s p : ¬ settled s → now < sw_timelock s → sha256 p = sw_hash_lock s →
    swap_step now s (sw_set s (Some p) HClaimed (Some now))
| ss_refund s : ¬ settled s → sw_timelock s ≤ now →
    swap_step now s (sw_set s (sw_preimage s) HRefunded (Some now)).

(** The terms of a swap: what never changes. *)
Definition same_terms s s' : Prop :=
  sw_id s' = sw_id s ∧ sw_hash_lock s' = sw_hash_lock s ∧ sw_sender s' = sw_sender s ∧
  sw_recipient s' = sw_recipient s ∧ sw_amount s' = sw_amount s ∧
  sw_timelock s' = sw_timelock s ∧ sw_created_at s' = sw_created_at s.

Lemma swap_step_terms now s s' : swap_step now s s' → same_terms s s'.
Proof. destruct 1; done. Qed.
Lemma swap_step_settled now s s' : swap_step now s s' → settled s → s' = s.
Proof. destruct 1; intros; done. Qed.

(** The record of a swap is consistent with its status: a claim shows a
    preimage of the lock and happened in time, a refund came after the
    deadline and reveals nothing. *)
Definition swap_ok s : Prop :=
  0 < sw_amount s ∧ sw_created_at s < sw_timelock s ∧
  match sw_status s with
  | HActive | HExpired => sw_preimage s = None ∧ sw_settled_at s = None
  | HClaimed => ∃ p t, sw_preimage s = Some p ∧ sha256 p = sw_hash_lock s ∧
                       sw_settled_at s = Some t ∧ t < sw_timelock s
  | HRefunded => sw_preimage s = None ∧ ∃ t, sw_settled_at s = Some t ∧ sw_timelock s ≤ t
  end.

Lemma unsettled_blank s :
  ¬ settled s → swap_ok s → sw_preimage s = None ∧ sw_settled_at s = None.
Proof. unfold settled. intros Hs (_ & _ & Hst). destruct (sw_status s); naive_solver. Qed.
Lemma swap_step_ok now s s' : swap_step now s s' → swap_ok s → swap_ok s'.
Proof.
  destruct 1 as [s|s Hs Ht|s p Hs Ht Hp|s Hs Ht]; intros Hok; [done|..];
    pose proof (unsettled_blank s Hs Hok) as [Hp0 Hst0]; destruct Hok as (Ha & Hc & _);
    unfold swap_ok; simpl; rewrite ?Hp0; naive_solver.
Qed.
End SwapMachine.

Ltac htlc_cases :=
  repeat match goal with
  | |- context [bool_decide ?P] => destruct (bool_decide_reflect P)
  | |- context [Z.leb ?a ?b] => destruct (Z.leb_spec a b)
  | |- context [Z.ltb ?a ?b] => destruct (Z.ltb_spec a b)
  | |- context [Z.eqb ?a ?b] => destruct (Z.eqb_spec a b)
  end.

Section HtlcProperties.
Context `{CryptoPrims} `{Sha2}.
Implicit Types (m : HtlcManager) (s : HtlcSwap) (now : Z).

(** ** The operations refine the state machine *)
Lemma update_one m id s s' k now :
  hm_swaps m !! id = Some s → swap_step now s s' →
  ∀ t, hm_swaps m !! k = Some t →
  ∃ t', <[id := s']> (hm_swaps m) !! k = Some t' ∧ swap_step now t t'.
Proof.
  intros Hid Hs t Ht. destruct (decide (id = k)) as [<-|Hne].
  - rewrite lookup_insert_eq. exists s'. split; [done|]. congruence.
  - rewrite lookup_insert_ne by done. exists t. split; [done|constructor].
Qed.

Lemma claim_swap_cases m id p a now :
  (claim_swap m id p a now).1 = m ∨
  ∃ s s', hm_swaps m !! id = Some s ∧ swap_step now s s' ∧
          (claim_swap m id p a now).1 = hm_set_swaps m (<[id := s']> (hm_swaps m)).
Proof.
  unfold claim_swap. destruct (hm_swaps m !! id) as [s|] eqn:E; [|by left].
  htlc_cases; simpl; try (by left); right; exists s; eexists; (split; [done|]);
    (split; [|reflexivity]); constructor; unfold settled; naive_solver.
Qed.
Lemma refund_swap_cases m id a now :
  (refund_swap m id a now).1 = m ∨
  ∃ s s', hm_swaps m !! id = Some s ∧ swap_step now s s' ∧
          (refund_swap m id a now).1 = hm_set_swaps m (<[id := s']> (hm_swaps m)).
Proof.
  unfold refund_swap. destruct (hm_swaps m !! id) as [s|] eqn:E; [|by left].
  htlc_cases; simpl; try (by left); right; exists s; eexists; (split; [done|]);
    (split; [|reflexivity]); constructor; unfold settled; naive_solver.
Qed.
Lemma create_swap_cases m a b v h c ea ev tl now :
  0 ≤ v → let r := create_swap m a b v h c ea ev tl now in
  (r.1 = m ∧ is_ok r.2 = false) ∨
  ∃ s, r.2 = Ok s ∧ hm_swaps m !! sw_id s = None ∧ sw_id s = hex_enc (ba_bytes (sw_hash_lock s)) ∧
       swap_ok s ∧ sw_status s = HActive ∧ sw_sender s = a ∧ sw_recipient s = b ∧ sw_amount s = v ∧
       sw_hash_lock s = h ∧ sw_timelock s = default (now +! hm_default_timelock m) tl ∧
       r.1 = {| hm_swaps := <[sw_id s := s]> (hm_swaps m);
                hm_by_sender := push_index a (sw_id s) (hm_by_sender m);
                hm_by_recipient := push_index b (sw_id s) (hm_by_recipient m);
                hm_default_timelock := hm_default_timelock m |}.
Proof.
  intros Hv. unfold create_swap. htlc_cases; simpl; try (by left). right.
  eexists. split; [reflexivity|]. simpl. rewrite <- eq_None_not_Some in *.
  split_and!; try done. unfold swap_ok. simpl. split_and!; [lia|lia|done|done].
Qed.
Lemma expire_swap_step now s : swap_step now s (expire_swap now s).
Proof.
  unfold expire_swap. destruct (decide _) as [[Ha Ht]|]; constructor; [|done].
  unfold settled. rewrite Ha. naive_solver.
Qed.

(** Every operation moves each existing swap by a step of its machine. *)
Lemma htlc_apply_step m o now id s :
  hm_swaps m !! id = Some s →
  ∃ s', hm_swaps (htlc_apply m o now) !! id = Some s' ∧ swap_step now s s'.
Proof.
  intros Hid. destruct o as [a b v h c ea ev tl|i p a|i a|]; simpl.
  - unfold create_swap. htlc_cases; simpl; try (exists s; split; [done|constructor]).
    assert (hex_enc (ba_bytes h) ≠ id) by (intros Heq; rewrite Heq, Hid in *; naive_solver).
    rewrite lookup_insert_ne by done. exists s. split; [done|constructor].
  - destruct (claim_swap_cases m i p a now) as [->|(t & t' & Ht & Hst & ->)].
    + exists s. split; [done|constructor].
    + by eapply update_one.
  - destruct (refund_swap_cases m i a now) as [->|(t & t' & Ht & Hst & ->)].
    + exists s. split; [done|constructor].
    + by eapply update_one.
  - rewrite lookup_fmap, Hid. simpl. eexists. split; [done|]. apply expire_swap_step.
Qed.

(** Over any sequence of operations at any times, a swap keeps its terms, and
    once settled it keeps everything. *)
Lemma htlc_run_terms ops : ∀ m id s, hm_swaps m !! id = Some s →
  ∃ s', hm_swaps (htlc_run m ops) !! id = Some s' ∧ same_terms s s' ∧ (settled s → s' = s).
Proof.
  induction ops as [|[o now] ops IH]; intros m id s Hid; [by exists s|]. simpl.
  destruct (htlc_apply_step m o now id s Hid) as (s1 & Hid1 & Hs1).
  destruct (IH _ _ _ Hid1) as (s2 & Hid2 & Ht2 & Hset2). exists s2. split; [done|].
  pose proof (swap_step_terms _ _ _ Hs1) as Ht1. split.
  - unfold same_terms in *. naive_solver congruence.
  - intros Hs. pose proof (swap_step_settled _ _ _ Hs1 Hs) as ->. by apply Hset2.
Qed.

(** ** The manager's invariant *)
Record htlc_inv m : Prop := {
  hi_swaps id s : hm_swaps m !! id = Some s →
    sw_id s = id ∧ id = hex_enc (ba_bytes (sw_hash_lock s)) ∧ swap_ok s;
  hi_sender : index_of (hm_by_sender m) (λ s, Some (sw_sender s)) (hm_swaps m);
  hi_recipient : index_of (hm_by_recipient m) (λ s, Some (sw_recipient s)) (hm_swaps m)
}.

Lemma htlc_inv_new tl : htlc_inv (HtlcManager_new tl).
Proof. split; [done|apply index_of_empty..]. Qed.

(** Any change of existing records by steps of their machines keeps it. *)
Lemma htlc_inv_steps m swaps now :
  htlc_inv m →
  (∀ id, match hm_swaps m !! id, swaps !! id with
         | Some s, Some s' => swap_step now s s' | None, None => True | _, _ => False end) →
  htlc_inv (hm_set_swaps m swaps).
Proof.
  intros [Hsw Hse Hre] Hst. split.
  - intros id s' Hid. simpl in Hid. specialize (Hst id). rewrite Hid in Hst.
    destruct (hm_swaps m !! id) as [s|] eqn:E; [|done].
    destruct (Hsw _ _ E) as (H1 & H2 & H3). destruct (swap_step_terms _ _ _ Hst) as (T1 & T2 & _).
    rewrite T1, T2. split_and!; [done|done|]. by eapply swap_step_ok.
  - eapply index_of_update; [exact Hse|]. intros id. specialize (Hst id). simpl.
    destruct (hm_swaps m !! id), (swaps !! id); try done.
    apply swap_step_terms in Hst as (_ & _ & T & _). simpl. by rewrite T.
  - eapply index_of_update; [exact Hre|]. intros id. specialize (Hst id). simpl.
    destruct (hm_swaps m !! id), (swaps !! id); try done.
    apply swap_step_terms in Hst as (_ & _ & _ & T & _). simpl. by rewrite T.
Qed.
Lemma htlc_inv_update m id s s' now :
  htlc_inv m → hm_swaps m !! id = Some s → swap_step now s s' →
  htlc_inv (hm_set_swaps m (<[id := s']> (hm_swaps m))).
Proof.
  intros Hi Hid Hst. apply (htlc_inv_steps m _ now Hi). intros k.
  destruct (decide (id = k)) as [<-|Hne].
  - by rewrite lookup_insert_eq, Hid.
  - rewrite lookup_insert_ne by done. destruct (hm_swaps m !! k); [constructor|done].
Qed.
Lemma htlc_inv_apply m o now :
  htlc_inv m → (∀ a b v h c ea ev t, o = OpCreate a b v h c ea ev t → in_u 128 v) →
  htlc_inv (htlc_apply m o now).
Proof.
  intros Hi Ho. destruct o as [a b v h c ea ev tl|i p a|i a|]; simpl.
  - destruct (create_swap_cases m a b v h c ea ev tl now) as [[-> _]|Hc]; [|done|].
    { destruct (Ho _ _ _ _ _ _ _ _ eq_refl). lia. }
    destruct Hc as (s & _ & Hnew & Hid & Hok & _ & <- & <- & _ & _ & _ & ->). split; simpl.
    + intros id s' [[<- <-]|[? ?]]%lookup_insert_cases; [done|by apply Hi].
    + apply index_of_insert; [apply Hi|done|done].
    + apply index_of_insert; [apply Hi|done|done].
  - destruct (claim_swap_cases m i p a now) as [->|(t & t' & Ht & Hst & ->)]; [done|].
    by eapply htlc_inv_update.
  - destruct (refund_swap_cases m i a now) as [->|(t & t' & Ht & Hst & ->)]; [done|].
    by eapply htlc_inv_update.
  - apply (htlc_inv_steps m _ now Hi). intros id. rewrite lookup_fmap.
    destruct (hm_swaps m !! id); [apply expire_swap_step|done].
Qed.

Lemma htlc_inv_reachable tl m : htlc_reachable tl m → htlc_inv m.
Proof. induction 1; [apply htlc_inv_new|by apply htlc_inv_apply]. Qed.

(** C35: In every manager reachable by creating, claiming, refunding and expiring, a
    swap is stored under the hex of its hash lock, holds a positive amount, and its record
    agrees with its status (a claimed one shows a preimage of the lock and an in-time
    settlement, a refunded one no preimage and a settlement after the deadline); the lists
    by sender and by recipient are exactly the swaps of that address. *)
Theorem htlc_reachable_spec tl m :
  htlc_reachable tl m →
  (∀ id s, get_swap m id = Some s → id = hex_enc (ba_bytes (sw_hash_lock s)) ∧ swap_ok s) ∧
  (∀ a s, s ∈ get_swaps_by_sender m a ↔ sw_sender s = a ∧ ∃ id, get_swap m id = Some s) ∧
  (∀ a s, s ∈ get_swaps_by_recipient m a ↔ sw_recipient s = a ∧ ∃ id, get_swap m id = Some s).
Proof.
  intros Hr%htlc_inv_reachable. split_and!.
  - intros id s Hs. apply (hi_swaps _ Hr) in Hs. naive_solver.
  - intros a s. pose proof (index_of_omap _ _ _ a s (hi_sender _ Hr)) as Hi.
    unfold get_swaps_by_sender, get_swap. destruct (hm_by_sender m !! a); rewrite Hi; naive_solver.
  - intros a s. pose proof (index_of_omap _ _ _ a s (hi_recipient _ Hr)) as Hi.
    unfold get_swaps_by_recipient, get_swap. destruct (hm_by_recipient m !! a); rewrite Hi; naive_solver.
Qed.

(** ** What the operations do *)
Lemma claim_swap_ok m id p a now m' s' :
  claim_swap m id p a now = (m', Ok s') ↔
  ∃ s, hm_swaps m !! id = Some s ∧ ¬ settled s ∧ a = sw_recipient s ∧ now < sw_timelock s ∧
       sha256 p = sw_hash_lock s ∧ s' = sw_set s (Some p) HClaimed (Some now) ∧
       m' = hm_set_swaps m (<[id := s']> (hm_swaps m)).
Proof.
  unfold claim_swap, settled, hash_secret. destruct (hm_swaps m !! id) as [s|]; [|naive_solver].
  htlc_cases; simpl; try (split; [done|]; intros (t & [= <-] & ?); naive_solver lia).
  split; [intros [= <- <-]; exists s; naive_solver|]. intros (t & [= <-] & ?). naive_solver.
Qed.
Lemma refund_swap_ok m id a now m' s' :
  refund_swap m id a now = (m', Ok s') ↔
  ∃ s, hm_swaps m !! id = Some s ∧ ¬ settled s ∧ a = sw_sender s ∧ sw_timelock s ≤ now ∧
       s' = sw_set s (sw_preimage s) HRefunded (Some now) ∧
       m' = hm_set_swaps m (<[id := s']> (hm_swaps m)).
Proof.
  unfold refund_swap, settled. destruct (hm_swaps m !! id) as [s|]; [|naive_solver].
  htlc_cases; simpl; try (split; [done|]; intros (t & [= <-] & ?); naive_solver lia).
  split; [intros [= <- <-]; exists s; naive_solver|]. intros (t & [= <-] & ?). naive_solver.
Qed.
(** A claim that fails changes nothing, but for noting that the deadline has
    passed; a refund that fails changes nothing. *)
Lemma claim_swap_err m id p a now e :
  (claim_swap m id p a now).2 = Err e →
  (claim_swap m id p a now).1 = m ∨
  e = HtlcExpired ∧ ∃ s, hm_swaps m !! id = Some s ∧ ¬ settled s ∧ sw_timelock s ≤ now ∧
    (claim_swap m id p a now).1 = hm_set_swaps m (<[id := sw_set_status s HExpired]> (hm_swaps m)).
Proof.
  unfold claim_swap, settled. destruct (hm_swaps m !! id) as [s|]; [|by left].
  htlc_cases; simpl; intros [= <-]; try (by left);
    right; (split; [done|]); exists s; naive_solver.
Qed.

(** A swap can be claimed exactly by its recipient, before the timelock, with a
    preimage of the hash lock, and refunded exactly by its sender from the timelock on, in
    both cases only while it is unsettled; the effect is exactly the new status, and at no
    time do both a claim and a refund succeed. *)
Theorem htlc_settlement m id s :
  hm_swaps m !! id = Some s →
  (∀ p a now m' s', claim_swap m id p a now = (m', Ok s') ↔
     (¬ settled s ∧ a = sw_recipient s ∧ now < sw_timelock s ∧ sha256 p = sw_hash_lock s) ∧
     s' = sw_set s (Some p) HClaimed (Some now) ∧ m' = hm_set_swaps m (<[id := s']> (hm_swaps m))) ∧
  (∀ a now m' s', refund_swap m id a now = (m', Ok s') ↔
     (¬ settled s ∧ a = sw_sender s ∧ sw_timelock s ≤ now) ∧
     s' = sw_set s (sw_preimage s) HRefunded (Some now) ∧
     m' = hm_set_swaps m (<[id := s']> (hm_swaps m))) ∧
  (∀ p a b now, is_ok (claim_swap m id p a now).2 = true → is_ok (refund_swap m id b now).2 = false).
Proof.
  intros Hid. split_and!.
  - intros. rewrite claim_swap_ok, Hid. naive_solver.
  - intros. rewrite refund_swap_ok, Hid. naive_solver.
  - intros p a b now. destruct (claim_swap m id p a now) as [m' [s'|]] eqn:Ec; [|done].
    apply claim_swap_ok in Ec as (t & Ht & _ & _ & Hnow & _). rewrite Hid in Ht. injection Ht as <-.
    unfold refund_swap. rewrite Hid. htlc_cases; simpl; try done. lia.
Qed.

(** The secret a claim reveals opens every other lock on the same hash: the
    second leg of an atomic swap. *)
Lemma revealed_secret_claims tl m id s m2 id2 s2 now :
  htlc_reachable tl m → hm_swaps m !! id = Some s → sw_status s = HClaimed →
  hm_swaps m2 !! id2 = Some s2 → sw_hash_lock s2 = sw_hash_lock s → ¬ settled s2 → now < sw_timelock s2 →
  ∃ p, sw_preimage s = Some p ∧
       (claim_swap m2 id2 p (sw_recipient s2) now).2 = Ok (sw_set s2 (Some p) HClaimed (Some now)).
Proof.
  intros Hr Hid Hc Hid2 Hh Hs2 Hnow.
  pose proof (htlc_inv_reachable _ _ Hr) as Hi.
  destruct (hi_swaps _ Hi _ _ Hid) as (_ & _ & _ & _ & Hst). rewrite Hc in Hst.
  destruct Hst as (p & t & Hp & Hsha & _). exists p. split; [done|].
  set (s' := sw_set s2 (Some p) HClaimed (Some now)).
  assert (claim_swap m2 id2 p (sw_recipient s2) now =
          (hm_set_swaps m2 (<[id2 := s']> (hm_swaps m2)), Ok s')) as ->; [|done].
  apply claim_swap_ok. exists s2. split_and!; try done. congruence.
Qed.

(** Expiry sweeps exactly the stale active swaps, and reports how many. *)
Lemma expire_stale_swaps_spec m now m' n :
  expire_stale_swaps m now = (m', n) →
  (htlc_active_count m = n + htlc_active_count m')%nat ∧
  (∀ id s, hm_swaps m' !! id = Some s → ¬ swap_stale now s).
Proof.
  intros [= <- <-]. split.
  - apply Nat2Z.inj. unfold htlc_active_count. rewrite Nat2Z.inj_add, !length_filter_sumZ.
    cbn [hm_swaps hm_set_swaps]. rewrite !sumZ_fmap, map_to_list_fmap, sumZ_fmap, <- sumZ_add.
    apply sumZ_ext. intros [k s] _. simpl. unfold expire_swap, ind, swap_stale, swap_active.
    repeat case_decide; simpl in *; naive_solver lia.
  - intros id s. cbn [hm_swaps hm_set_swaps]. rewrite lookup_fmap_Some.
    intros (t & <- & _). unfold expire_swap. case_decide as Hst; [|done]. intros [? _]. done.
Qed.
(** Whatever the iteration order, the listing is a window of all swaps,
    newest first. *)
Lemma list_swaps_newest_first m order limit offset :
  order ≡ₚ (map_to_list (hm_swaps m)).*2 →
  StronglySorted (λ a b, sw_created_at b ≤ sw_created_at a) (list_swaps order limit offset) ∧
  (length (list_swaps order limit offset) = limit `min` (size (hm_swaps m) - offset))%nat ∧
  ∀ s, s ∈ list_swaps order limit offset → ∃ id, hm_swaps m !! id = Some s.
Proof.
  intros Ho. destruct (newest_window_spec sw_created_at order limit offset) as (Hs & Hl & Hin).
  unfold list_swaps. split_and!; [done|by rewrite Hl, Ho, length_fmap, length_map_to_list|].
  intros s Hin'%Hin. rewrite Ho in Hin'.
  apply list_elem_of_fmap in Hin' as ([k v] & -> & Hkv). exists k. by apply elem_of_map_to_list in Hkv.
Qed.

(** C10: Once a swap is claimed or refunded its record never changes again, whatever
    calls follow and at whatever times, and every later claim or refund of it fails: the
    locked amount goes to exactly one party. *)
Theorem htlc_settles_once m id s ops :
  hm_swaps m !! id = Some s → settled s →
  hm_swaps (htlc_run m ops) !! id = Some s ∧
  (∀ p a now, is_ok (claim_swap (htlc_run m ops) id p a now).2 = false) ∧
  (∀ a now, is_ok (refund_swap (htlc_run m ops) id a now).2 = false).
Proof.
  intros Hid Hs. destruct (htlc_run_terms ops m id s Hid) as (s' & Hid' & _ & Heq).
  rewrite (Heq Hs) in Hid'. split; [done|]. unfold claim_swap, refund_swap. rewrite Hid'.
  destruct Hs as [-> | ->]; done.
Qed.
End HtlcProperties.

(** ** A concrete run *)
Module HtlcWitness.
Import ToyCrypto.
#[export] Instance toy_sha2 : Sha2 := {| sha256 := toy_blake3 |}.
Definition alice : Address := ba_repeat 20 Byte.x01.
Definition bob : Address := ba_repeat 20 Byte.x02.
Definition secret : bytes := [Byte.x2a; Byte.x2b].
Definition lock : barray 32 := sha256 secret.
Definition lock_id : string := hex_enc (ba_bytes lock).
Definition ops1 : list (HtlcOp * Z) :=
  [(OpCreate alice bob 500 lock Ethereum "0xabc" "1" (Some 100), 10)].
Definition m1 : HtlcManager := htlc_run (HtlcManager_new 3600) ops1.
Definition m2 : HtlcManager := htlc_run m1 [(OpClaim lock_id secret bob, 20)].
Definition s1 : HtlcSwap := {|
  sw_id := lock_id; sw_hash_lock := lock; sw_preimage := None; sw_sender := alice;
  sw_recipient := bob; sw_amount := 500; sw_external_chain := Ethereum;
  sw_external_address := "0xabc"; sw_external_amount := "1"; sw_timelock := 100;
  sw_status := HActive; sw_created_at := 10; sw_settled_at := None |}.
Definition s2 : HtlcSwap := sw_set s1 (Some secret) HClaimed (Some 20).

Lemma m1_swap : hm_swaps m1 !! lock_id = Some s1.
Proof. by vm_compute. Qed.
Lemma m2_swap : hm_swaps m2 !! lock_id = Some s2.
Proof. by vm_compute. Qed.
Lemma m1_reachable : htlc_reachable 3600 m1.
Proof. apply (hr_step 3600 _ _ 10 (hr_new 3600)). intros ? ? v ? ? ? ? ? [= _ _ <-]. by vm_compute. Qed.
Lemma m2_reachable : htlc_reachable 3600 m2.
Proof. by apply (hr_step 3600 m1 (OpClaim lock_id secret bob) 20 m1_reachable). Qed.

Lemma htlc_reachable_spec_witness :
  htlc_reachable 3600 m2 ∧ swap_ok s2 ∧ s2 ∈ get_swaps_by_sender m2 alice.
Proof.
  destruct (htlc_reachable_spec 3600 m2 m2_reachable) as (Hok & Hs & _).
  split; [exact m2_reachable|]. split; [exact (proj2 (Hok lock_id s2 m2_swap))|].
  apply Hs. split; [done|]. exists lock_id. exact m2_swap.
Defined.
Lemma htlc_settlement_witness :
  is_ok (claim_swap m1 lock_id secret bob 20).2 = true ∧
  is_ok (refund_swap m1 lock_id alice 20).2 = false ∧
  is_ok (refund_swap m1 lock_id alice 100).2 = true.
Proof.
  destruct (htlc_settlement m1 lock_id s1 m1_swap) as (_ & _ & Hex).
  assert (is_ok (claim_swap m1 lock_id secret bob 20).2 = true) as Hc by (by vm_compute).
  split; [exact Hc|]. split; [exact (Hex secret bob alice 20 Hc)|]. by vm_compute.
Defined.
Lemma htlc_settles_once_witness :
  settled s2 ∧
  is_ok (refund_swap (htlc_run m2 [(OpExpire, 300); (OpRefund lock_id alice, 400)]) lock_id alice 500).2 = false.
Proof.
  assert (settled s2) as Hs by (by left). split; [exact Hs|].
  destruct (htlc_settles_once m2 lock_id s2 [(OpExpire, 300); (OpRefund lock_id alice, 400)] m2_swap Hs)
    as (_ & _ & Hr). exact (Hr alice 500).
Defined.

(** Wrong secrets, wrong parties and wrong times are refused. *)
Example claim_refusals :
  ((claim_swap m1 lock_id [Byte.x00] bob 20).2, (claim_swap m1 lock_id secret alice 20).2,
   (claim_swap m1 lock_id secret bob 100).2, (refund_swap m1 lock_id alice 99).2,
   (claim_swap m2 lock_id secret bob 30).2, (claim_swap m2 "x" secret bob 30).2) =
  (Err InvalidPreimage, Err (Unauthorized "Only the recipient can claim"), Err HtlcExpired,
   Err HtlcNotExpired, Err HtlcAlreadyClaimed, Err (HtlcNotFound "x")).
Proof. by vm_compute. Qed.
(** With a default timelock near [u64::MAX] the sum wraps and creation fails. *)
Example default_timelock_wraps :
  (create_swap (HtlcManager_new (2 ^ 64 - 5)) alice bob 1 lock Bitcoin "a" "1" None 10).2 =
  Err (InvalidAmount "Timelock must be in the future").
Proof. by vm_compute. Qed.
End HtlcWitness.
