(* ===== verification/BridgeState.v ===== *)
(** * BridgeState: transfers, locks and wrapped supply (crates/bridge/src/state.rs)
      and the bridge validators (crates/bridge/src/validator.rs)

    [DashMap]s are finite maps, every method is one atomic step, and a read of
    the clock is an argument ([now] in milliseconds, as [u64]).  [next_id]
    reads the clock once more, hence the second time [id_now] of the methods
    that call it. *)

From S2P Require Import Prelude Crypto BridgeTypes.

Record WrappedTokenState : Type := {
  wt_total_minted : Z;
  wt_total_burned : Z;
  wt_balances : gmap string Z
}.
Definition WrappedTokenState_default : WrappedTokenState := {|
  wt_total_minted := 0; wt_total_burned := 0; wt_balances := ∅ |}.
Definition circulating_supply (w : WrappedTokenState) : Z :=
  sat_sub (wt_total_minted w) (wt_total_burned w).

Record BridgeState : Type := {
  bs_transfers : gmap string BridgeTransfer;
  bs_by_sender : gmap string (list string);
  bs_locked : gmap string Z;
  bs_wrapped : gmap string WrappedTokenState;
  bs_config : BridgeConfig;
  bs_paused : bool;
  bs_counter : Z
}.
Definition BridgeState_new (config : BridgeConfig) : BridgeState := {|
  bs_transfers := ∅; bs_by_sender := ∅; bs_locked := ∅; bs_wrapped := ∅;
  bs_config := config; bs_paused := false; bs_counter := 0 |}.

Definition bs_set_transfers (b : BridgeState) (ts : gmap string BridgeTransfer) : BridgeState := {|
  bs_transfers := ts; bs_by_sender := bs_by_sender b; bs_locked := bs_locked b;
  bs_wrapped := bs_wrapped b; bs_config := bs_config b; bs_paused := bs_paused b;
  bs_counter := bs_counter b |}.
Definition bs_set_paused (b : BridgeState) (p : bool) : BridgeState := {|
  bs_transfers := bs_transfers b; bs_by_sender := bs_by_sender b; bs_locked := bs_locked b;
  bs_wrapped := bs_wrapped b; bs_config := bs_config b; bs_paused := p; bs_counter := bs_counter b |}.

Definition lock_key (chain : ExternalChain) (token : string) : string :=
  chain_name chain +:+ ":" +:+ token.
(** The text of a transfer id. *)
Definition bridge_id (now counter : Z) : string := "bridge-" +:+ z_str now +:+ "-" +:+ z_str counter.
(** The new counter, and the id made of it. *)
Definition next_id (b : BridgeState) (id_now : Z) : Z * string :=
  let c := bs_counter b +! 1 in (c, bridge_id id_now c).

Definition is_paused (b : BridgeState) : bool := bs_paused b.
Definition pause (b : BridgeState) : BridgeState := bs_set_paused b true.
Definition unpause (b : BridgeState) : BridgeState := bs_set_paused b false.

(** The assignments of the methods that change a transfer in place. *)
Definition br_set (t : BridgeTransfer) (st : BridgeTransferStatus) (dest : option string)
    (confs now : Z) : BridgeTransfer := {|
  br_id := br_id t; br_direction := br_direction t; br_source_chain := br_source_chain t;
  br_dest_chain := br_dest_chain t; br_sender := br_sender t; br_recipient := br_recipient t;
  br_token_symbol := br_token_symbol t; br_amount := br_amount t; br_fee := br_fee t;
  br_status := st; br_source_tx_hash := br_source_tx_hash t; br_dest_tx_hash := dest;
  br_confirmations := confs; br_required_confirmations := br_required_confirmations t;
  br_created_at := br_created_at t; br_updated_at := now; br_expires_at := br_expires_at t |}.

Section State.
Context `{CryptoPrims}.
Implicit Types (b : BridgeState) (now : Z).

Definition initiate_outbound b (sender : Address) (dest : ExternalChain) (recipient token : string)
    (amount fee : Z) now (id_now : Z) : BridgeState * result BridgeError BridgeTransfer :=
  if is_paused b then (b, Err BridgePaused)
  else if negb (bc_allow_outbound (bs_config b)) then
    (b, Err (Unauthorized "Outbound transfers disabled"))
  else
    let '(c, id) := next_id b id_now in
    let t := {|
      br_id := id; br_direction := Outbound; br_source_chain := "RustChain";
      br_dest_chain := chain_name dest; br_sender := Address_to_hex sender;
      br_recipient := recipient; br_token_symbol := token; br_amount := amount; br_fee := fee;
      br_status := Pending; br_source_tx_hash := None; br_dest_tx_hash := None;
      br_confirmations := 0; br_required_confirmations := bc_min_signatures (bs_config b);
      br_created_at := now; br_updated_at := now;
      br_expires_at := now +! bc_transfer_timeout_seconds (bs_config b) *! 1000 |} in
    let key := lock_key dest token in
    ({| bs_transfers := <[id := t]> (bs_transfers b);
        bs_by_sender := push_index (Address_to_hex sender) id (bs_by_sender b);
        bs_locked := <[key := default 0 (bs_locked b !! key) +!! amount]> (bs_locked b);
        bs_wrapped := bs_wrapped b; bs_config := bs_config b; bs_paused := bs_paused b;
        bs_counter := c |}, Ok t).

Definition mint (w : WrappedTokenState) (n : Z) : WrappedTokenState := {|
  wt_total_minted := wt_total_minted w +!! n; wt_total_burned := wt_total_burned w;
  wt_balances := wt_balances w |}.

Definition record_inbound b (source : ExternalChain) (sender : string) (recipient : Address)
    (token : string) (amount fee : Z) (source_tx_hash : string) now (id_now : Z)
    : BridgeState * result BridgeError BridgeTransfer :=
  if is_paused b then (b, Err BridgePaused)
  else if negb (bc_accept_inbound (bs_config b)) then
    (b, Err (Unauthorized "Inbound transfers disabled"))
  else
    let '(c, id) := next_id b id_now in
    let t := {|
      br_id := id; br_direction := Inbound; br_source_chain := chain_name source;
      br_dest_chain := "RustChain"; br_sender := sender;
      br_recipient := Address_to_hex recipient; br_token_symbol := token;
      br_amount := amount; br_fee := fee; br_status := SourceConfirmed;
      br_source_tx_hash := Some source_tx_hash; br_dest_tx_hash := None;
      br_confirmations := 0; br_required_confirmations := bc_min_signatures (bs_config b);
      br_created_at := now; br_updated_at := now;
      br_expires_at := now +! bc_transfer_timeout_seconds (bs_config b) *! 1000 |} in
    let key := lock_key source token in
    let net_amount := sat_sub amount fee in
    ({| bs_transfers := <[id := t]> (bs_transfers b); bs_by_sender := bs_by_sender b;
        bs_locked := bs_locked b;
        bs_wrapped := <[key := mint (default WrappedTokenState_default (bs_wrapped b !! key)) net_amount]>
                        (bs_wrapped b);
        bs_config := bs_config b; bs_paused := bs_paused b; bs_counter := c |}, Ok t).

(** The common shape of the three methods that update one transfer. *)
Definition update_transfer b (id : string)
    (f : BridgeTransfer → result BridgeError BridgeTransfer)
    : BridgeState * result BridgeError BridgeTransfer :=
  match bs_transfers b !! id with
  | None => (b, Err (TransferNotFound id))
  | Some t =>
      match f t with
      | Err e => (b, Err e)
      | Ok t' => (bs_set_transfers b (<[id := t']> (bs_transfers b)), Ok t')
      end
  end.
(** The validator is not looked at. *)
Definition add_confirmation b (id : string) (_validator : Address) now :=
  update_transfer b id (λ t,
    if bool_decide (br_status t = Completed) then Err TransferAlreadyProcessed
    else
      let confs := br_confirmations t +! 1 in
      Ok (br_set t (if br_required_confirmations t <=? confs then Validated else br_status t)
            (br_dest_tx_hash t) confs now)).
Definition complete_transfer b (id dest_tx_hash : string) now :=
  update_transfer b id (λ t, Ok (br_set t Completed (Some dest_tx_hash) (br_confirmations t) now)).
Definition fail_transfer b (id : string) now :=
  update_transfer b id (λ t, Ok (br_set t Failed (br_dest_tx_hash t) (br_confirmations t) now)).

Definition get_transfer b (id : string) : option BridgeTransfer := bs_transfers b !! id.
Definition get_transfers_by_sender b (sender : string) : list BridgeTransfer :=
  match bs_by_sender b !! sender with
  | Some ids => omap (λ id, bs_transfers b !! id) ids
  | None => []
  end.
(** [order]: the iteration order of the map. *)
Definition list_transfers (order : list BridgeTransfer) (limit offset : nat) : list BridgeTransfer :=
  newest_window br_created_at order limit offset.

Definition chain_liquidity b (c : ExternalChain) : BridgeLiquidity :=
  let key := lock_key c (chain_symbol c) in
  let locked := default 0 (bs_locked b !! key) in
  let wrapped := match bs_wrapped b !! key with Some w => circulating_supply w | None => 0 end in
  {| bl_chain := c; bl_token_symbol := chain_symbol c; bl_locked_amount := locked;
     bl_wrapped_supply := wrapped; bl_available_outbound := sat_sub locked wrapped |}.
Definition get_liquidity b : list BridgeLiquidity := chain_liquidity b <$> all_chains.
Definition total_transfers b : nat := size (bs_transfers b).
Definition is_pending (t : BridgeTransfer) : Prop :=
  br_status t ∈ [Pending; SourceConfirmed; RelaySubmitted].
#[export] Instance is_pending_dec t : Decision (is_pending t).
Proof. unfold is_pending. apply _. Defined.
Definition pending_transfers b : nat := length (filter is_pending (map_to_list (bs_transfers b)).*2).
End State.

(** ** Bridge validators (validator.rs) *)
Record BridgeValidator : Type := {
  bv_address : Address;
  bv_public_key : PublicKey;
  bv_weight : Z;
  bv_is_active : bool;
  bv_confirmations_count : Z;
  bv_added_at : Z
}.
Record BridgeValidatorSet : Type := {
  vs_validators : gmap Address BridgeValidator;
  vs_min_signatures : Z;
  vs_total_weight : Z
}.

Section ValidatorSet.
Implicit Types (v : BridgeValidatorSet) (a : Address).

Definition BridgeValidatorSet_new (min_signatures : Z) : BridgeValidatorSet := {|
  vs_validators := ∅; vs_min_signatures := min_signatures; vs_total_weight := 0 |}.
Definition vs_set v (vals : gmap Address BridgeValidator) (w : Z) : BridgeValidatorSet := {|
  vs_validators := vals; vs_min_signatures := vs_min_signatures v; vs_total_weight := w |}.
Definition add_validator v a (pk : PublicKey) (weight now : Z) : BridgeValidatorSet * result BridgeError () :=
  let val := {| bv_address := a; bv_public_key := pk; bv_weight := weight; bv_is_active := true;
                bv_confirmations_count := 0; bv_added_at := now |} in
  (vs_set v (<[a := val]> (vs_validators v)) (vs_total_weight v +! weight), Ok ()).
Definition remove_validator v a : BridgeValidatorSet * result BridgeError () :=
  match vs_validators v !! a with
  | Some val => (vs_set v (delete a (vs_validators v)) (vs_total_weight v -! bv_weight val), Ok ())
  | None => (v, Ok ())
  end.
Definition is_validator v a : bool :=
  match vs_validators v !! a with Some val => bv_is_active val | None => false end.
Definition validators_active_count v : nat :=
  length (filter (λ val, bv_is_active val = true) (map_to_list (vs_validators v)).*2).
Definition list_validators v : list BridgeValidator := (map_to_list (vs_validators v)).*2.
Definition get_validator v a : option BridgeValidator := vs_validators v !! a.
Definition verify_threshold v (signers : list Address) : result BridgeError () :=
  let valid_count := Z.of_nat (length (filter (λ a, is_validator v a = true) signers)) in
  if valid_count <? vs_min_signatures v then
    Err (InsufficientSignatures (vs_min_signatures v) valid_count)
  else Ok ().
Definition record_confirmation v a : BridgeValidatorSet :=
  match vs_validators v !! a with
  | Some val =>
      vs_set v (<[a := {| bv_address := bv_address val; bv_public_key := bv_public_key val;
                          bv_weight := bv_weight val; bv_is_active := bv_is_active val;
                          bv_confirmations_count := bv_confirmations_count val +! 1;
                          bv_added_at := bv_added_at val |}]> (vs_validators v)) (vs_total_weight v)
  | None => v
  end.
End ValidatorSet.

(** ** Transfer ids are unique
    A decimal numeral has no dash, so an id determines its counter. *)
Fixpoint dash_free (s : string) : bool :=
  match s with
  | EmptyString => true
  | String c s' => negb (Ascii.eqb c "-") && dash_free s'
  end.

Lemma dash_split s1 s2 t1 t2 :
  dash_free s1 = true → dash_free s2 = true →
  s1 +:+ "-" +:+ t1 = s2 +:+ "-" +:+ t2 → s1 = s2 ∧ t1 = t2.
Proof.
  revert s2. induction s1 as [|c s1 IH]; intros [|c2 s2] H1 H2 Heq; simpl in *.
  - by injection Heq.
  - injection Heq as <- _. done.
  - injection Heq as -> _. done.
  - injection Heq as -> Heq. apply andb_true_iff in H1 as [_ H1], H2 as [_ H2].
    destruct (IH s2 H1 H2 Heq) as [-> ->]. done.
Qed.
Lemma pretty_go_dash_free x s : dash_free s = true → dash_free (pretty_N_go x s) = true.
Proof.
  revert s. induction (N.lt_wf_0 x) as [x _ IH]. intros s Hs.
  destruct (decide (0 < x)%N) as [Hx|Hx].
  - rewrite pretty_N_go_step by done. apply IH; [by apply N.div_lt|]. simpl. rewrite Hs.
    unfold pretty_N_char. by repeat case_match.
  - assert (x = 0)%N as -> by lia. by rewrite pretty_N_go_0.
Qed.
Lemma z_str_dash_free z : 0 ≤ z → dash_free (z_str z) = true.
Proof.
  intros Hz. destruct z as [|p|p]; [done| |lia].
  change (dash_free (pretty (N.pos p)) = true).
  assert (pretty (N.pos p) = pretty_N_go (N.pos p) "") as -> by (unfold pretty, pretty_N; by case_decide).
  by apply pretty_go_dash_free.
Qed.
Lemma bridge_id_inj n1 c1 n2 c2 :
  0 ≤ n1 → 0 ≤ n2 → bridge_id n1 c1 = bridge_id n2 c2 → n1 = n2 ∧ c1 = c2.
Proof.
  intros H1 H2 Heq. apply (inj (String.app "bridge-")) in Heq.
  apply (dash_split _ _ (z_str c1) (z_str c2)) in Heq as [Ha Hb]; [|by apply z_str_dash_free..].
  unfold z_str in *. by apply (inj pretty) in Ha, Hb.
Qed.

(** ** The state's invariant *)
Section StateInvariant.
Context `{CryptoPrims}.
Implicit Types (b : BridgeState) (t : BridgeTransfer) (k : string).

(** What a transfer holds locked, or minted, under a key. *)
Definition outbound_on k t : Z :=
  if decide (br_direction t = Outbound ∧ br_dest_chain t +:+ ":" +:+ br_token_symbol t = k)
  then br_amount t else 0.
Definition inbound_on k t : Z :=
  if decide (br_direction t = Inbound ∧ br_source_chain t +:+ ":" +:+ br_token_symbol t = k)
  then sat_sub (br_amount t) (br_fee t) else 0.
Definition locked_on b k : Z := default 0 (bs_locked b !! k).
Definition wrapped_on b k : WrappedTokenState := default WrappedTokenState_default (bs_wrapped b !! k).
Definition index_key t : option string :=
  match br_direction t with Outbound => Some (br_sender t) | Inbound => None end.

(** After at most [n] operations from a new state with configuration [cfg]. *)
Record bridge_inv (n : Z) (cfg : BridgeConfig) b : Prop := {
  bi_config : bs_config b = cfg;
  bi_counter : 0 ≤ bs_counter b ≤ n;
  bi_id id t : bs_transfers b !! id = Some t →
    br_id t = id ∧ ∃ now c, 0 ≤ now ∧ 1 ≤ c ≤ bs_counter b ∧ id = bridge_id now c;
  bi_confs id t : bs_transfers b !! id = Some t →
    br_required_confirmations t = bc_min_signatures cfg ∧ 0 ≤ br_confirmations t ≤ n ∧
    (br_status t = Validated ∨ br_status t = Completed → bc_min_signatures cfg ≤ br_confirmations t);
  bi_sender : index_of (bs_by_sender b) index_key (bs_transfers b);
  bi_locked k : locked_on b k = wrap 128 (map_sum (outbound_on k) (bs_transfers b));
  bi_minted k : wt_total_minted (wrapped_on b k) = wrap 128 (map_sum (inbound_on k) (bs_transfers b)) ∧
                wt_total_burned (wrapped_on b k) = 0
}.

Lemma bridge_inv_new cfg : bridge_inv 0 cfg (BridgeState_new cfg).
Proof.
  split; try done. apply index_of_empty.
Qed.
Lemma bridge_inv_mono n n' cfg b : n ≤ n' → bridge_inv n cfg b → bridge_inv n' cfg b.
Proof.
  intros Hn [? ? ? Hc ? ? ?]. split; try done; [lia|].
  intros id t Ht. destruct (Hc id t Ht) as (? & ? & ?). split_and!; try done; lia.
Qed.
Lemma bridge_inv_paused n cfg b p : bridge_inv n cfg b → bridge_inv n cfg (bs_set_paused b p).
Proof. intros [? ? ? ? ? ? ?]. by split. Qed.

(** A fresh id is new. *)
Lemma next_id_fresh n cfg b now :
  bridge_inv n cfg b → n < 2 ^ 64 - 1 → 0 ≤ now →
  bs_counter b +! 1 = bs_counter b + 1 ∧ bs_transfers b !! bridge_id now (bs_counter b + 1) = None.
Proof.
  intros Hi Hn Hnow. pose proof (bi_counter _ _ _ Hi).
  split; [apply wadd_small; unfold in_u; lia|].
  destruct (bs_transfers b !! _) as [t|] eqn:E; [|done]. exfalso.
  apply (bi_id _ _ _ Hi) in E as (_ & now' & c & Hnow' & Hc & Heq).
  apply bridge_id_inj in Heq as [_ Heq]; lia.
Qed.

(** The updates of one transfer keep what it is. *)
Definition same_transfer t t' : Prop :=
  br_id t' = br_id t ∧ br_direction t' = br_direction t ∧ br_source_chain t' = br_source_chain t ∧
  br_dest_chain t' = br_dest_chain t ∧ br_sender t' = br_sender t ∧ br_recipient t' = br_recipient t ∧
  br_token_symbol t' = br_token_symbol t ∧ br_amount t' = br_amount t ∧ br_fee t' = br_fee t ∧
  br_required_confirmations t' = br_required_confirmations t ∧ br_source_tx_hash t' = br_source_tx_hash t.
Lemma br_set_same t st d c now : same_transfer t (br_set t st d c now).
Proof. done. Qed.

Lemma bridge_inv_update n n' cfg b id t t' :
  bridge_inv n cfg b → n ≤ n' → bs_transfers b !! id = Some t → same_transfer t t' →
  0 ≤ br_confirmations t' ≤ n' →
  (br_status t' = Validated ∨ br_status t' = Completed → bc_min_signatures cfg ≤ br_confirmations t') →
  bridge_inv n' cfg (bs_set_transfers b (<[id := t']> (bs_transfers b))).
Proof.
  intros Hi Hn Ht Hsame Hc Hst. pose proof (bridge_inv_mono _ _ _ _ Hn Hi) as [Hcfg Hctr Hid Hcf Hse Hlo Hmi].
  destruct Hsame as (S1 & S2 & S3 & S4 & S5 & S6 & S7 & S8 & S9 & S10 & _).
  split; try done; simpl.
  - intros i u [[<- <-]|[_ Hu]]%lookup_insert_cases; [rewrite S1|]; by apply Hid.
  - intros i u [[<- <-]|[_ Hu]]%lookup_insert_cases; [|by apply (Hcf i)].
    rewrite S10. destruct (Hcf _ _ Ht) as (-> & _). done.
  - eapply index_of_update; [exact Hse|]. intros i. rewrite lookup_insert.
    case_decide as Hii; [subst i|done]. rewrite Ht. simpl. f_equal. unfold index_key. by rewrite S2, S5.
  - intros k. rewrite map_sum_insert, Ht. simpl.
    assert (outbound_on k t' = outbound_on k t) as -> by (unfold outbound_on; by rewrite S2, S4, S7, S8).
    etrans; [exact (Hlo k)|]. f_equal. lia.
  - intros k. rewrite map_sum_insert, Ht. simpl.
    assert (inbound_on k t' = inbound_on k t) as -> by (unfold inbound_on; by rewrite S2, S3, S7, S8, S9).
    destruct (Hmi k) as [Hm Hb]. split; [|exact Hb]. etrans; [exact Hm|]. f_equal. lia.
Qed.

(** *** Every operation keeps the invariant *)
(** Recording a transfer under a fresh id, with its lock or its mint. *)
Lemma bridge_inv_record n cfg b b' t id_now :
  bridge_inv n cfg b → n < 2 ^ 64 - 1 → 0 ≤ id_now →
  br_id t = bridge_id id_now (bs_counter b + 1) →
  br_required_confirmations t = bc_min_signatures cfg → br_confirmations t = 0 →
  br_status t ≠ Validated → br_status t ≠ Completed →
  bs_config b' = bs_config b → bs_counter b' = bs_counter b + 1 →
  bs_transfers b' = <[br_id t := t]> (bs_transfers b) →
  bs_by_sender b' = match index_key t with
                    | Some a => push_index a (br_id t) (bs_by_sender b) | None => bs_by_sender b end →
  (∀ k, locked_on b' k = wrap 128 (locked_on b k + outbound_on k t)) →
  (∀ k, wt_total_minted (wrapped_on b' k) = wrap 128 (wt_total_minted (wrapped_on b k) + inbound_on k t) ∧
        wt_total_burned (wrapped_on b' k) = wt_total_burned (wrapped_on b k)) →
  bs_transfers b !! br_id t = None ∧ bridge_inv (n + 1) cfg b'.
Proof.
  intros Hi Hn Hnow Hid Hreq Hc0 Hs1 Hs2 Hcfg' Hctr' Hts Hidx Hlk Hmt.
  destruct (next_id_fresh _ _ _ _ Hi Hn Hnow) as [_ Hnew]. rewrite <- Hid in Hnew. split; [done|].
  pose proof (bi_counter _ _ _ Hi) as Hctr0.
  destruct (bridge_inv_mono n (n + 1) _ _ ltac:(lia) Hi) as [Hcfg Hctr Hids Hcf Hse Hlo Hmi].
  split.
  - congruence.
  - lia.
  - rewrite Hts, Hctr'. intros i u [[<- <-]|[_ Hu]]%lookup_insert_cases.
    + split; [done|]. exists id_now, (bs_counter b + 1). split_and!; [done|lia|lia|done].
    + destruct (Hids _ _ Hu) as (? & x & c & ? & ? & ?). split; [done|].
      exists x, c. split_and!; [done|lia|lia|done].
  - rewrite Hts. intros i u [[<- <-]|[_ Hu]]%lookup_insert_cases; [|by apply (Hcf i)].
    rewrite Hc0. split_and!; [done|lia|lia|by intros [?|?]].
  - rewrite Hts, Hidx. destruct (index_key t) eqn:Ek; [by apply index_of_insert|].
    by apply index_of_insert_skip.
  - intros k. rewrite Hlk, Hlo, Hts, map_sum_insert_new by done.
    change (wadd 128 (wrap 128 (map_sum (outbound_on k) (bs_transfers b))) (outbound_on k t) =
            wrap 128 (outbound_on k t + map_sum (outbound_on k) (bs_transfers b))).
    rewrite wadd_wrap_l. unfold wadd. f_equal. lia.
  - intros k. destruct (Hmt k) as [-> ->], (Hmi k) as [-> ->]. split; [|done].
    rewrite Hts, map_sum_insert_new by done.
    change (wadd 128 (wrap 128 (map_sum (inbound_on k) (bs_transfers b))) (inbound_on k t) =
            wrap 128 (inbound_on k t + map_sum (inbound_on k) (bs_transfers b))).
    rewrite wadd_wrap_l. unfold wadd. f_equal. lia.
Qed.
Lemma locked_on_wrap n cfg b k : bridge_inv n cfg b → wrap 128 (locked_on b k) = locked_on b k.
Proof. intros Hi. rewrite (bi_locked _ _ _ Hi). by apply wrap_wrap. Qed.
Lemma minted_wrap n cfg b k : bridge_inv n cfg b →
  wrap 128 (wt_total_minted (wrapped_on b k)) = wt_total_minted (wrapped_on b k).
Proof. intros Hi. rewrite (proj1 (bi_minted _ _ _ Hi k)). by apply wrap_wrap. Qed.

Lemma initiate_outbound_ok n cfg b a dest rcpt tok amt fee now id_now b' t :
  bridge_inv n cfg b → n < 2 ^ 64 - 1 → 0 ≤ id_now →
  initiate_outbound b a dest rcpt tok amt fee now id_now = (b', Ok t) →
  bs_transfers b !! br_id t = None ∧ bridge_inv (n + 1) cfg b' ∧
  bs_transfers b' = <[br_id t := t]> (bs_transfers b) ∧
  br_direction t = Outbound ∧ br_status t = Pending ∧ br_amount t = amt ∧ br_fee t = fee.
Proof.
  intros Hi Hn Hnow. unfold initiate_outbound, next_id, is_paused.
  rewrite (proj1 (next_id_fresh _ _ _ _ Hi Hn Hnow)).
  destruct (bs_paused b); [done|]. destruct (negb _); [done|]. intros [= <- <-].
  apply and_assoc. split; [|done]. eapply bridge_inv_record; try done.
  - simpl. by rewrite (bi_config _ _ _ Hi).
  - intros k. unfold locked_on at 1. simpl. rewrite lookup_insert. unfold outbound_on. simpl.
    destruct (decide (lock_key dest tok = k)) as [<-|Hk].
    + by rewrite decide_True by done.
    + rewrite decide_False, Z.add_0_r by (intros [_ ?]; done). exact (eq_sym (locked_on_wrap _ _ b k Hi)).
  - intros k. unfold inbound_on. simpl. rewrite Z.add_0_r.
    split; [|done]. exact (eq_sym (minted_wrap _ _ b k Hi)).
Qed.
Lemma record_inbound_ok n cfg b src snd a tok amt fee h now id_now b' t :
  bridge_inv n cfg b → n < 2 ^ 64 - 1 → 0 ≤ id_now →
  record_inbound b src snd a tok amt fee h now id_now = (b', Ok t) →
  bs_transfers b !! br_id t = None ∧ bridge_inv (n + 1) cfg b' ∧
  bs_transfers b' = <[br_id t := t]> (bs_transfers b) ∧
  br_direction t = Inbound ∧ br_status t = SourceConfirmed ∧ br_amount t = amt ∧ br_fee t = fee.
Proof.
  intros Hi Hn Hnow. unfold record_inbound, next_id, is_paused.
  rewrite (proj1 (next_id_fresh _ _ _ _ Hi Hn Hnow)).
  destruct (bs_paused b); [done|]. destruct (negb _); [done|]. intros [= <- <-].
  apply and_assoc. split; [|done]. eapply bridge_inv_record; try done.
  - simpl. by rewrite (bi_config _ _ _ Hi).
  - intros k. unfold outbound_on. simpl. rewrite Z.add_0_r.
    exact (eq_sym (locked_on_wrap _ _ b k Hi)).
  - intros k. unfold wrapped_on at 1 3. simpl. rewrite lookup_insert. unfold inbound_on. simpl.
    destruct (decide (lock_key src tok = k)) as [<-|Hk].
    + by rewrite decide_True by done.
    + rewrite decide_False, Z.add_0_r by (intros [_ ?]; done). split; [|done].
      exact (eq_sym (minted_wrap _ _ b k Hi)).
Qed.
(** A refusal changes nothing. *)
Lemma initiate_outbound_err b a dest rcpt tok amt fee now id_now b' e :
  initiate_outbound b a dest rcpt tok amt fee now id_now = (b', Err e) → b' = b.
Proof. unfold initiate_outbound. destruct (is_paused b), (bc_allow_outbound (bs_config b)); naive_solver. Qed.
Lemma record_inbound_err b src snd a tok amt fee h now id_now b' e :
  record_inbound b src snd a tok amt fee h now id_now = (b', Err e) → b' = b.
Proof. unfold record_inbound. destruct (is_paused b), (bc_accept_inbound (bs_config b)); naive_solver. Qed.

Lemma add_confirmation_inv n cfg b id v now :
  bridge_inv n cfg b → n < 2 ^ 64 - 1 → bridge_inv (n + 1) cfg (add_confirmation b id v now).1.
Proof.
  intros Hi Hn. pose proof (bridge_inv_mono n (n + 1) _ _ ltac:(lia) Hi).
  unfold add_confirmation, update_transfer. destruct (bs_transfers b !! id) as [t|] eqn:E; [|done].
  case_bool_decide; [done|]. simpl. destruct (bi_confs _ _ _ Hi _ _ E) as (Hreq & Hc & Hst).
  assert (br_confirmations t +! 1 = br_confirmations t + 1) as -> by (apply wadd_small; unfold in_u; lia).
  eapply (bridge_inv_update n); [done|lia|exact E|apply br_set_same|simpl; lia|simpl].
  rewrite Hreq. destruct (Z.leb_spec (bc_min_signatures cfg) (br_confirmations t + 1)); [lia|].
  intros Hs%Hst. lia.
Qed.
Lemma complete_transfer_inv n cfg b id h now t :
  bridge_inv n cfg b → bs_transfers b !! id = Some t → br_status t = Validated →
  bridge_inv n cfg (complete_transfer b id h now).1.
Proof.
  intros Hi E Hv. unfold complete_transfer, update_transfer. rewrite E. simpl.
  destruct (bi_confs _ _ _ Hi _ _ E) as (Hreq & Hc & Hst).
  eapply (bridge_inv_update n); [done|lia|exact E|apply br_set_same|simpl; lia|simpl]. tauto.
Qed.
Lemma fail_transfer_inv n cfg b id now :
  bridge_inv n cfg b → bridge_inv n cfg (fail_transfer b id now).1.
Proof.
  intros Hi. unfold fail_transfer, update_transfer. destruct (bs_transfers b !! id) as [t|] eqn:E; [|done].
  simpl. destruct (bi_confs _ _ _ Hi _ _ E) as (Hreq & Hc & Hst).
  eapply (bridge_inv_update n); [done|lia|exact E|apply br_set_same|simpl; lia|]. by intros [?|?].
Qed.
End StateInvariant.

(** ** The validator set *)
Section ValidatorProperties.
Implicit Types (v : BridgeValidatorSet) (a : Address).

(** The running total is the sum of the weights (as a [u64]). *)
Definition weight_ok v : Prop := vs_total_weight v = wrap 64 (map_sum bv_weight (vs_validators v)).

Lemma weight_ok_new k : weight_ok (BridgeValidatorSet_new k).
Proof. unfold weight_ok. simpl. by rewrite map_sum_empty. Qed.
Lemma weight_ok_add v a pk w now :
  weight_ok v → vs_validators v !! a = None → weight_ok (add_validator v a pk w now).1.
Proof.
  unfold weight_ok. intros Hw Ha. simpl. rewrite map_sum_insert_new, Hw, wadd_wrap_l by done.
  unfold wadd. f_equal. simpl. lia.
Qed.
Lemma weight_ok_remove v a : weight_ok v → weight_ok (remove_validator v a).1.
Proof.
  unfold weight_ok, remove_validator. intros Hw. destruct (vs_validators v !! a) as [x|] eqn:E; [|done].
  simpl. rewrite map_sum_delete_eq, E, Hw. simpl. unfold wsub, wrap. by rewrite Zminus_mod_idemp_l.
Qed.
Lemma weight_ok_record v a : weight_ok v → weight_ok (record_confirmation v a).
Proof.
  unfold weight_ok, record_confirmation. intros Hw. destruct (vs_validators v !! a) as [x|] eqn:E; [|done].
  simpl. rewrite map_sum_insert, E, Hw. simpl. f_equal. lia.
Qed.
(** Adding an address again replaces the entry but counts its weight twice. *)
Example weight_counted_twice :
  let v := (add_validator (BridgeValidatorSet_new 2) Address_ZERO (ba_repeat 32 Byte.x01) 100 0).1 in
  let v2 := (add_validator v Address_ZERO (ba_repeat 32 Byte.x01) 100 1).1 in
  vs_total_weight v2 = 200 ∧ validators_active_count v2 = 1%nat.
Proof. by vm_compute. Qed.

Lemma record_confirmation_validator v a x : is_validator (record_confirmation v a) x = is_validator v x.
Proof.
  unfold is_validator, record_confirmation. destruct (vs_validators v !! a) as [y|] eqn:E; [|done].
  simpl. rewrite lookup_insert. case_decide as Hax; [|done]. subst x. by rewrite E.
Qed.

(** With distinct signers, passing the threshold means that many validators
    signed; repeated signers are counted each time. *)
Lemma verify_threshold_sound v signers :
  NoDup signers → verify_threshold v signers = Ok () →
  ∃ s : gset Address, vs_min_signatures v ≤ Z.of_nat (size s) ∧
    ∀ a, a ∈ s → a ∈ signers ∧ is_validator v a = true.
Proof.
  intros Hnd. unfold verify_threshold. destruct (Z.ltb_spec (Z.of_nat (length (filter (λ a, is_validator v a = true) signers))) (vs_min_signatures v)); [done|]. intros _.
  exists (list_to_set (filter (λ a, is_validator v a = true) signers)). split.
  - rewrite size_list_to_set by (by apply NoDup_filter). done.
  - intros a Ha%elem_of_list_to_set. apply list_elem_of_filter in Ha. tauto.
Qed.
Example threshold_by_one_signer :
  let v := (add_validator (BridgeValidatorSet_new 2) Address_ZERO (ba_repeat 32 Byte.x01) 100 0).1 in
  verify_threshold v [Address_ZERO; Address_ZERO] = Ok ().
Proof. by vm_compute. Qed.
End ValidatorProperties.
