(* ===== verification/Relayer.v ===== *)
(** * Relayer: chain adapters (crates/bridge/src/chains) and the bridge relayer
      (crates/bridge/src/relay.rs)

    The trait [ChainAdapter] is a class over the adapter's state; an adapter
    counts its submissions in an atomic, so [submit_unlock] returns the adapter
    too.  The relayer is stated against the class and closed by the sum of the
    three implementations.  [None] is a panic. *)

From S2P Require Import Prelude Crypto BridgeTypes BridgeState.

(** ** Adapters (chains/mod.rs) *)
Record ExternalLockEvent : Type := {
  le_tx_hash : string;
  le_sender : string;
  le_recipient : string;
  le_token_symbol : string;
  le_amount : Z;
  le_block_number : Z;
  le_confirmations : Z
}.
Class ChainAdapter (A : Type) := {
  ca_chain_name : A → string;
  ca_rpc_url : A → string;
  ca_is_connected : A → bool;
  ca_current_block_number : A → result BridgeError Z;
  ca_required_confirmations : A → Z;
  ca_poll_lock_events : A → Z → Z → result BridgeError (list ExternalLockEvent);
  ca_submit_unlock : A → string → string → Z → option (A * result BridgeError string);
  ca_verify_tx_proof : A → string → Z → result BridgeError bool;
  ca_bridge_contract_address : A → string;
  ca_estimate_unlock_gas : A → result BridgeError Z
}.

(** ["{:064x}"] of a [u128]: 32 big-endian bytes in lower-case hex. *)
Definition hex64 (z : Z) : string := hex_encode (to_be_bytes 32 z).
(** The number the simulated transaction hashes are made of. *)
Definition unlock_number (block amount : Z) : Z := (block *!! 1000) +!! (amount mod 1000).

(** *** chains/ethereum.rs *)
Record EvmAdapter : Type := {
  ev_chain : ExternalChain;
  ev_rpc_url : string;
  ev_bridge_contract : string;
  ev_confirmations : Z;
  ev_simulated_block : Z
}.
Definition EvmAdapter_new (chain : ExternalChain) (rpc_url bridge_contract : string) : option EvmAdapter :=
  if negb (is_evm chain) then None
  else
    let confirmations :=
      match chain with Ethereum => 12 | BnbChain => 15 | Polygon => 128 | _ => 12 end in
    Some {| ev_chain := chain; ev_rpc_url := rpc_url; ev_bridge_contract := bridge_contract;
            ev_confirmations := confirmations; ev_simulated_block := 1000000 |}.
Definition evm_zero : string := "0x0000000000000000000000000000000000000000".
Definition EvmAdapter_defaults : option (list (ExternalChain * EvmAdapter)) :=
  e ← EvmAdapter_new Ethereum "https://eth.llamarpc.com" evm_zero;
  b ← EvmAdapter_new BnbChain "https://bsc-dataseed1.binance.org" evm_zero;
  p ← EvmAdapter_new Polygon "https://polygon-rpc.com" evm_zero;
  Some [(Ethereum, e); (BnbChain, b); (Polygon, p)].
Definition evm_submit_unlock (e : EvmAdapter) (recipient token : string) (amount : Z)
    : option (EvmAdapter * result BridgeError string) :=
  let block := ev_simulated_block e in
  Some ({| ev_chain := ev_chain e; ev_rpc_url := ev_rpc_url e; ev_bridge_contract := ev_bridge_contract e;
           ev_confirmations := ev_confirmations e; ev_simulated_block := block +! 1 |},
        Ok ("0x" +:+ hex64 (unlock_number block amount))).
#[export] Instance evm_adapter : ChainAdapter EvmAdapter := {
  ca_chain_name e := chain_name (ev_chain e);
  ca_rpc_url := ev_rpc_url;
  ca_is_connected _ := true;
  ca_current_block_number e := Ok (ev_simulated_block e);
  ca_required_confirmations := ev_confirmations;
  ca_poll_lock_events _ _ _ := Ok [];
  ca_submit_unlock := evm_submit_unlock;
  ca_verify_tx_proof _ _ _ := Ok true;
  ca_bridge_contract_address := ev_bridge_contract;
  ca_estimate_unlock_gas _ := Ok 65000
}.

(** *** chains/bitcoin.rs *)
Record BitcoinAdapter : Type := {
  ba_rpc_url : string;
  ba_network : string;
  ba_simulated_block : Z
}.
Definition BitcoinAdapter_new (rpc_url network : string) : BitcoinAdapter := {|
  ba_rpc_url := rpc_url; ba_network := network; ba_simulated_block := 800000 |}.
Definition BitcoinAdapter_default_testnet : BitcoinAdapter :=
  BitcoinAdapter_new "http://localhost:18332" "testnet".
Definition bitcoin_submit_unlock (a : BitcoinAdapter) (recipient token : string) (amount : Z)
    : option (BitcoinAdapter * result BridgeError string) :=
  let block := ba_simulated_block a in
  Some ({| ba_rpc_url := ba_rpc_url a; ba_network := ba_network a; ba_simulated_block := block +! 1 |},
        Ok (hex64 (unlock_number block amount))).
#[export] Instance bitcoin_adapter : ChainAdapter BitcoinAdapter := {
  ca_chain_name _ := "Bitcoin";
  ca_rpc_url := ba_rpc_url;
  ca_is_connected _ := true;
  ca_current_block_number a := Ok (ba_simulated_block a);
  ca_required_confirmations _ := 6;
  ca_poll_lock_events _ _ _ := Ok [];
  ca_submit_unlock := bitcoin_submit_unlock;
  ca_verify_tx_proof _ _ _ := Ok true;
  ca_bridge_contract_address _ := "htlc-script";
  ca_estimate_unlock_gas _ := Ok 5000
}.

(** The Bitcoin script of an HTLC; lengths are pushed as one byte. *)
Definition push_data (d : bytes) : bytes := byte_of_Z (Z.of_nat (length d)) :: d.
Definition build_htlc_script (hash_lock : barray 32) (recipient_pubkey sender_pubkey : bytes)
    (timelock : Z) : bytes :=
  [Byte.x63; Byte.xa8; Byte.x20] ++ ba_bytes hash_lock ++ [Byte.x88] ++
  push_data recipient_pubkey ++ [Byte.xac; Byte.x67; Byte.x04] ++ to_le_bytes 4 timelock ++
  [Byte.xb1; Byte.x75] ++ push_data sender_pubkey ++ [Byte.xac; Byte.x68].

(** *** chains/solana.rs *)
Record SolanaAdapter : Type := {
  so_rpc_url : string;
  so_bridge_program_id : string;
  so_simulated_slot : Z
}.
Definition SolanaAdapter_new (rpc_url program : string) : SolanaAdapter := {|
  so_rpc_url := rpc_url; so_bridge_program_id := program; so_simulated_slot := 200000000 |}.
Definition SolanaAdapter_default_devnet : SolanaAdapter :=
  SolanaAdapter_new "https://api.devnet.solana.com" "Bridge1111111111111111111111111111111111111".
(** [&s[..n]] on ASCII text. *)
Definition str_prefix (n : nat) (s : string) : option string :=
  if (n <=? String.length s)%nat then Some (String.substring 0 n s) else None.
Definition solana_tail : string :=
  "simulated00000000000000000000000000000000000000000000000000000000000000000000".
Definition solana_submit_unlock `{CryptoPrims} (a : SolanaAdapter) (recipient token : string) (amount : Z)
    : option (SolanaAdapter * result BridgeError string) :=
  let slot := so_simulated_slot a in
  amt ← str_prefix 16 (hex_enc (to_le_bytes 16 amount));
  sig ← str_prefix 88 (hex_enc (to_le_bytes 8 slot) +:+ amt +:+ solana_tail);
  Some ({| so_rpc_url := so_rpc_url a; so_bridge_program_id := so_bridge_program_id a;
           so_simulated_slot := slot +! 1 |}, Ok sig).
#[export] Instance solana_adapter `{CryptoPrims} : ChainAdapter SolanaAdapter := {
  ca_chain_name _ := "Solana";
  ca_rpc_url := so_rpc_url;
  ca_is_connected _ := true;
  ca_current_block_number a := Ok (so_simulated_slot a);
  ca_required_confirmations _ := 32;
  ca_poll_lock_events _ _ _ := Ok [];
  ca_submit_unlock := solana_submit_unlock;
  ca_verify_tx_proof _ _ _ := Ok true;
  ca_bridge_contract_address := so_bridge_program_id;
  ca_estimate_unlock_gas _ := Ok 5000
}.

(** *** [Arc<dyn ChainAdapter>] over the implementations of the crate *)
Inductive DynAdapter : Type :=
| DynEvm (a : EvmAdapter)
| DynBitcoin (a : BitcoinAdapter)
| DynSolana (a : SolanaAdapter).
Definition dyn_map `{CryptoPrims} {B} (f : ∀ A, ChainAdapter A → A → B) (d : DynAdapter) : B :=
  match d with
  | DynEvm a => f _ _ a
  | DynBitcoin a => f _ _ a
  | DynSolana a => f _ _ a
  end.
Definition dyn_submit_unlock `{CryptoPrims} (d : DynAdapter) (r t : string) (v : Z)
    : option (DynAdapter * result BridgeError string) :=
  match d with
  | DynEvm a => p ← ca_submit_unlock a r t v; Some (DynEvm p.1, p.2)
  | DynBitcoin a => p ← ca_submit_unlock a r t v; Some (DynBitcoin p.1, p.2)
  | DynSolana a => p ← ca_submit_unlock a r t v; Some (DynSolana p.1, p.2)
  end.
#[export] Instance dyn_adapter `{CryptoPrims} : ChainAdapter DynAdapter := {
  ca_chain_name := dyn_map (λ _ _, ca_chain_name);
  ca_rpc_url := dyn_map (λ _ _, ca_rpc_url);
  ca_is_connected := dyn_map (λ _ _, ca_is_connected);
  ca_current_block_number := dyn_map (λ _ _, ca_current_block_number);
  ca_required_confirmations := dyn_map (λ _ _, ca_required_confirmations);
  ca_poll_lock_events := dyn_map (λ _ _, ca_poll_lock_events);
  ca_submit_unlock := dyn_submit_unlock;
  ca_verify_tx_proof := dyn_map (λ _ _, ca_verify_tx_proof);
  ca_bridge_contract_address := dyn_map (λ _ _, ca_bridge_contract_address);
  ca_estimate_unlock_gas := dyn_map (λ _ _, ca_estimate_unlock_gas)
}.

(** ** The relayer (relay.rs) *)
Record BridgeRelayer (A : Type) : Type := {
  rl_state : BridgeState;
  rl_validators : BridgeValidatorSet;
  rl_adapters : gmap ExternalChain A
}.
Arguments rl_state {A} _.
Arguments rl_validators {A} _.
Arguments rl_adapters {A} _.

Section RelayerOps.
Context `{CryptoPrims} {A : Type} `{!ChainAdapter A}.
Implicit Types r : BridgeRelayer A.

Definition BridgeRelayer_new (state : BridgeState) (validators : BridgeValidatorSet) : BridgeRelayer A := {|
  rl_state := state; rl_validators := validators; rl_adapters := ∅ |}.
Definition rl_set_state r (s : BridgeState) : BridgeRelayer A := {|
  rl_state := s; rl_validators := rl_validators r; rl_adapters := rl_adapters r |}.
Definition rl_set_validators r (v : BridgeValidatorSet) : BridgeRelayer A := {|
  rl_state := rl_state r; rl_validators := v; rl_adapters := rl_adapters r |}.
Definition rl_set_adapters r (m : gmap ExternalChain A) : BridgeRelayer A := {|
  rl_state := rl_state r; rl_validators := rl_validators r; rl_adapters := m |}.

Definition register_adapter r (chain : ExternalChain) (a : A) : BridgeRelayer A :=
  rl_set_adapters r (<[chain := a]> (rl_adapters r)).
Definition registered_chains r : list ExternalChain := (map_to_list (rl_adapters r)).*1.

(** 0.1%, at least 1. *)
Definition calculate_fee (amount : Z) (_chain : ExternalChain) (_token : string) : Z :=
  Z.max (amount / 1000) 1.

Definition process_inbound_event r (source : ExternalChain) (sender : string) (recipient : Address)
    (token : string) (amount : Z) (source_tx_hash : string) (now id_now : Z)
    : BridgeRelayer A * result BridgeError BridgeTransfer :=
  let fee := calculate_fee amount source token in
  let '(s, res) := record_inbound (rl_state r) source sender recipient token amount fee
                     source_tx_hash now id_now in
  (rl_set_state r s, res).

Definition process_outbound_request r (sender : Address) (dest : ExternalChain)
    (recipient token : string) (amount : Z) (now id_now : Z)
    : BridgeRelayer A * result BridgeError BridgeTransfer :=
  let fee := calculate_fee amount dest token in
  if amount <=? fee then (r, Err (InvalidAmount "Amount must be greater than fee"))
  else
    let '(s, res) := initiate_outbound (rl_state r) sender dest recipient token amount fee now id_now in
    (rl_set_state r s, res).

Definition submit_confirmation r (transfer_id : string) (validator : Address) (now : Z)
    : BridgeRelayer A * result BridgeError BridgeTransfer :=
  if negb (is_validator (rl_validators r) validator) then
    (r, Err (Unauthorized "Not a bridge validator"))
  else
    let r1 := rl_set_validators r (record_confirmation (rl_validators r) validator) in
    let '(s, res) := add_confirmation (rl_state r1) transfer_id validator now in
    (rl_set_state r1 s, res).

Definition complete r (transfer_id dest_tx : string) (now : Z)
    : BridgeRelayer A * result BridgeError BridgeTransfer :=
  let '(s, res) := complete_transfer (rl_state r) transfer_id dest_tx now in (rl_set_state r s, res).
Definition finalize_transfer r (transfer_id : string) (now : Z)
    : option (BridgeRelayer A * result BridgeError BridgeTransfer) :=
  match get_transfer (rl_state r) transfer_id with
  | None => Some (r, Err (TransferNotFound transfer_id))
  | Some t =>
      if negb (bool_decide (br_status t = Validated)) then Some (r, Err TransferAlreadyProcessed)
      else
        match br_direction t with
        | Inbound => Some (complete r transfer_id ("rustchain-mint-" +:+ transfer_id) now)
        | Outbound =>
            match from_name (br_dest_chain t) with
            | None => Some (r, Err (UnsupportedChain (br_dest_chain t)))
            | Some chain =>
                match rl_adapters r !! chain with
                | Some adapter =>
                    '(adapter', res) ← ca_submit_unlock adapter (br_recipient t) (br_token_symbol t)
                                         (sat_sub (br_amount t) (br_fee t));
                    let r1 := rl_set_adapters r (<[chain := adapter']> (rl_adapters r)) in
                    match res with
                    | Err e => Some (r1, Err e)
                    | Ok dest_tx => Some (complete r1 transfer_id dest_tx now)
                    end
                | None =>
                    Some (complete r transfer_id
                            ("pending-" +:+ to_lowercase (chain_name chain) +:+ "-unlock-" +:+ transfer_id) now)
                end
            end
        end
  end.

Definition gas_cost_text (c : ExternalChain) : string :=
  match c with
  | Bitcoin => "~0.0001 BTC"
  | Ethereum => "~0.005 ETH"
  | BnbChain => "~0.001 BNB"
  | Polygon => "~0.01 MATIC"
  | Solana => "~0.000005 SOL"
  end.
Definition get_fee_schedule : list BridgeFeeSchedule :=
  (λ c, {| fs_chain := c; fs_token_symbol := chain_symbol c; fs_fee_bps := 10; fs_min_fee := 1;
           fs_estimated_gas_cost := gas_cost_text c |}) <$> all_chains.
End RelayerOps.

(** ** Runs of the relayer
    Everything a node can call: the relayer's methods, and the pause switch,
    the failure mark and the validator set behind it. *)
Inductive BridgeOp : Type :=
| BInbound (source : ExternalChain) (sender : string) (recipient : Address) (token : string)
    (amount : Z) (source_tx : string) (now id_now : Z)
| BOutbound (sender : Address) (dest : ExternalChain) (recipient token : string) (amount now id_now : Z)
| BConfirm (id : string) (validator : Address) (now : Z)
| BFinalize (id : string) (now : Z)
| BFail (id : string) (now : Z)
| BPause (p : bool)
| BAddValidator (a : Address) (pk : PublicKey) (weight now : Z)
| BRemoveValidator (a : Address).

Section RelayerRuns.
Context `{CryptoPrims} {A : Type} `{!ChainAdapter A}.
Implicit Types r : BridgeRelayer A.

Definition bridge_apply r (o : BridgeOp) : option (BridgeRelayer A) :=
  match o with
  | BInbound c s a t v h now idn => Some (process_inbound_event r c s a t v h now idn).1
  | BOutbound a c s t v now idn => Some (process_outbound_request r a c s t v now idn).1
  | BConfirm i a now => Some (submit_confirmation r i a now).1
  | BFinalize i now => fst <$> finalize_transfer r i now
  | BFail i now => Some (rl_set_state r (fail_transfer (rl_state r) i now).1)
  | BPause p => Some (rl_set_state r ((if p then pause else unpause) (rl_state r)))
  | BAddValidator a pk w now => Some (rl_set_validators r (add_validator (rl_validators r) a pk w now).1)
  | BRemoveValidator a => Some (rl_set_validators r (remove_validator (rl_validators r) a).1)
  end.
(** The clock is a [u64]. *)
Definition op_times (o : BridgeOp) : Prop :=
  match o with
  | BInbound _ _ _ _ _ _ _ idn | BOutbound _ _ _ _ _ _ idn => 0 ≤ idn
  | _ => True
  end.
Inductive bridge_reachable (cfg : BridgeConfig) (vs : BridgeValidatorSet) (ads : gmap ExternalChain A)
    : nat → BridgeRelayer A → Prop :=
| br_new : bridge_reachable cfg vs ads 0 {| rl_state := BridgeState_new cfg; rl_validators := vs; rl_adapters := ads |}
| br_step n r o r' : bridge_reachable cfg vs ads n r → op_times o → bridge_apply r o = Some r' →
    bridge_reachable cfg vs ads (S n) r'.

(** *** What finalizing does *)
Lemma complete_state r id h now :
  rl_state (complete r id h now).1 = (complete_transfer (rl_state r) id h now).1.
Proof. unfold complete. by destruct (complete_transfer (rl_state r) id h now). Qed.
Lemma finalize_transfer_cases r id now r' res :
  finalize_transfer r id now = Some (r', res) →
  rl_validators r' = rl_validators r ∧
  (rl_state r' = rl_state r ∨
   ∃ t h, bs_transfers (rl_state r) !! id = Some t ∧ br_status t = Validated ∧
          rl_state r' = (complete_transfer (rl_state r) id h now).1).
Proof.
  unfold finalize_transfer, get_transfer. destruct (bs_transfers (rl_state r) !! id) as [t|] eqn:E; [|naive_solver].
  case_bool_decide as Hst; simpl; [|naive_solver].
  assert (∀ (r1 : BridgeRelayer A) h, rl_state r1 = rl_state r → rl_validators r1 = rl_validators r →
    rl_validators (complete r1 id h now).1 = rl_validators r ∧
    rl_state (complete r1 id h now).1 = (complete_transfer (rl_state r) id h now).1) as Hc.
  { intros r1 h Hr1 Hv1. rewrite complete_state, Hr1. split; [|done].
    unfold complete. by destruct (complete_transfer (rl_state r1) id h now). }
  destruct (br_direction t).
  - intros [= He]. destruct (Hc r ("rustchain-mint-" +:+ id) eq_refl eq_refl) as [H1 H2].
    rewrite He in H1, H2. split; [done|]. right. eauto.
  - destruct (from_name (br_dest_chain t)) as [c|]; [|naive_solver].
    destruct (rl_adapters r !! c) as [ad|].
    + destruct (ca_submit_unlock ad _ _ _) as [[ad' [h|e]]|]; simpl; [|naive_solver|done]. intros [= He].
      destruct (Hc (rl_set_adapters r (<[c:=ad']> (rl_adapters r))) h eq_refl eq_refl) as [H1 H2].
      rewrite He in H1, H2. split; [done|]. right. eauto.
    + intros [= He].
      destruct (Hc r ("pending-" +:+ to_lowercase (chain_name c) +:+ "-unlock-" +:+ id) eq_refl eq_refl) as [H1 H2].
      rewrite He in H1, H2. split; [done|]. right. eauto.
Qed.

(** *** The invariant along runs *)
Lemma bridge_apply_inv n cfg r o r' :
  bridge_inv n cfg (rl_state r) → n < 2 ^ 64 - 1 → op_times o → bridge_apply r o = Some r' →
  bridge_inv (n + 1) cfg (rl_state r').
Proof.
  intros Hi Hn Ho. pose proof (bridge_inv_mono n (n + 1) _ _ ltac:(lia) Hi) as Hi'.
  destruct o as [c s a t v h now idn|a c s t v now idn|i a now|i now|i now|p|a pk w now|a]; simpl in *.
  - intros [= <-]. unfold process_inbound_event.
    destruct (record_inbound _ _ _ _ _ _ _ _ _ _) as [b' [t'|e]] eqn:E; simpl.
    + by apply (record_inbound_ok n cfg) in E as (_ & ? & _).
    + by apply record_inbound_err in E as ->.
  - intros [= <-]. unfold process_outbound_request. destruct (v <=? _); [done|].
    destruct (initiate_outbound _ _ _ _ _ _ _ _ _) as [b' [t'|e]] eqn:E; simpl.
    + by apply (initiate_outbound_ok n cfg) in E as (_ & ? & _).
    + by apply initiate_outbound_err in E as ->.
  - intros [= <-]. unfold submit_confirmation. destruct (negb _); [done|].
    pose proof (add_confirmation_inv n cfg (rl_state r) i a now Hi Hn) as Hc. simpl.
    destruct (add_confirmation (rl_state r) i a now). done.
  - destruct (finalize_transfer r i now) as [[r1 res]|] eqn:E; [|done]. intros [= <-].
    apply finalize_transfer_cases in E as [_ [->|(t & h & Ht & Hst & ->)]]; [done|].
    by eapply complete_transfer_inv.
  - intros [= <-]. by apply fail_transfer_inv.
  - intros [= <-]. destruct p; by apply bridge_inv_paused.
  - by intros [= <-].
  - by intros [= <-].
Qed.
Lemma bridge_inv_reachable cfg vs ads n r :
  bridge_reachable cfg vs ads n r → Z.of_nat n < 2 ^ 64 → bridge_inv (Z.of_nat n) cfg (rl_state r).
Proof.
  induction 1 as [|n r o r' Hr IH Ho Ha]; intros Hn; [apply bridge_inv_new|].
  replace (Z.of_nat (S n)) with (Z.of_nat n + 1) by lia.
  eapply bridge_apply_inv; [apply IH; lia|lia|done|done].
Qed.

(** C12: In every bridge state reachable through the relayer, a validated or completed
    transfer has at least the configured number of confirmations, the list by sender is
    exactly the outbound transfers of that sender, the locked amount of each chain and token
    is the sum of the outbound amounts and the circulating wrapped supply the sum of the
    inbound net amounts (as u128). *)
Theorem bridge_reachable_spec cfg vs ads n r :
  bridge_reachable cfg vs ads n r → Z.of_nat n < 2 ^ 64 →
  (∀ id t, get_transfer (rl_state r) id = Some t →
     br_id t = id ∧
     (br_status t = Validated ∨ br_status t = Completed → bc_min_signatures cfg ≤ br_confirmations t)) ∧
  (∀ s t, t ∈ get_transfers_by_sender (rl_state r) s ↔
     br_direction t = Outbound ∧ br_sender t = s ∧ ∃ id, get_transfer (rl_state r) id = Some t) ∧
  (∀ k, locked_on (rl_state r) k = wrap 128 (map_sum (outbound_on k) (bs_transfers (rl_state r))) ∧
        circulating_supply (wrapped_on (rl_state r) k) =
        wrap 128 (map_sum (inbound_on k) (bs_transfers (rl_state r)))).
Proof.
  intros Hr Hn. pose proof (bridge_inv_reachable _ _ _ _ _ Hr Hn) as Hi. split_and!.
  - intros id t Ht. split; [by apply (bi_id _ _ _ Hi) in Ht as [? _]|]. by apply (bi_confs _ _ _ Hi) in Ht as (_ & _ & ?).
  - intros s t. pose proof (index_of_omap _ _ _ s t (bi_sender _ _ _ Hi)) as Hx.
    unfold get_transfers_by_sender, get_transfer. unfold index_key in Hx.
    destruct (bs_by_sender (rl_state r) !! s), (br_direction t); rewrite Hx; naive_solver.
  - intros k. split; [apply (bi_locked _ _ _ Hi)|]. unfold circulating_supply, sat_sub.
    destruct (bi_minted _ _ _ Hi k) as [-> ->].
    pose proof (wrap_in_u 128 (map_sum (inbound_on k) (bs_transfers (rl_state r))) ltac:(lia)) as [? _]. lia.
Qed.

(** *** A completed transfer stays completed *)
Definition is_fail (o : BridgeOp) : bool := match o with BFail _ _ => true | _ => false end.
Fixpoint bridge_run r (ops : list BridgeOp) : option (BridgeRelayer A) :=
  match ops with [] => Some r | o :: ops' => r1 ← bridge_apply r o; bridge_run r1 ops' end.

Lemma update_transfer_lookup b i f id t :
  bs_transfers b !! id = Some t → (i = id → ∀ t', f t = Ok t' → t' = t) →
  bs_transfers (update_transfer b i f).1 !! id = Some t.
Proof.
  intros Ht Hf. unfold update_transfer. destruct (bs_transfers b !! i) as [u|] eqn:E; [|done].
  destruct (f u) as [u'|] eqn:Ef; [|done]. simpl. rewrite lookup_insert.
  case_decide as Hi; [|done]. subst i. rewrite Ht in E. injection E as <-. f_equal. by apply Hf.
Qed.
Lemma bridge_apply_completed n cfg r o r' id t :
  bridge_inv n cfg (rl_state r) → n < 2 ^ 64 - 1 → op_times o → is_fail o = false →
  bridge_apply r o = Some r' →
  bs_transfers (rl_state r) !! id = Some t → br_status t = Completed →
  bs_transfers (rl_state r') !! id = Some t.
Proof.
  intros Hi Hn Ho Hf Ha Ht Hst.
  destruct o as [c s a tk v h now idn|a c s tk v now idn|i a now|i now|i now|p|a pk w now|a]; simpl in *; try done.
  - injection Ha as <-. unfold process_inbound_event.
    destruct (record_inbound _ _ _ _ _ _ _ _ _ _) as [b' [u|e]] eqn:E; simpl.
    + apply (record_inbound_ok n cfg) in E as (Hnew & _ & -> & _); [|done..].
      rewrite lookup_insert_ne; [done|congruence].
    + by apply record_inbound_err in E as ->.
  - injection Ha as <-. unfold process_outbound_request. destruct (v <=? _); [done|].
    destruct (initiate_outbound _ _ _ _ _ _ _ _ _) as [b' [u|e]] eqn:E; simpl.
    + apply (initiate_outbound_ok n cfg) in E as (Hnew & _ & -> & _); [|done..].
      rewrite lookup_insert_ne; [done|congruence].
    + by apply initiate_outbound_err in E as ->.
  - injection Ha as <-. unfold submit_confirmation. destruct (negb _); [done|]. simpl.
    assert (bs_transfers (add_confirmation (rl_state r) i a now).1 !! id = Some t) as Hc.
    { apply update_transfer_lookup; [done|]. intros _ t'. rewrite bool_decide_eq_true_2 by done. done. }
    destruct (add_confirmation (rl_state r) i a now). done.
  - destruct (finalize_transfer r i now) as [[r1 res]|] eqn:E; [|done]. injection Ha as <-. simpl.
    apply finalize_transfer_cases in E as [_ [->|(u & h & Hu & Hv & ->)]]; [done|].
    apply update_transfer_lookup; [done|]. intros -> t'. congruence.
  - injection Ha as <-. by destruct p.
  - by injection Ha as <-.
  - by injection Ha as <-.
Qed.

(** A completed transfer is paid out once: whatever relayer calls follow (short of
    marking it failed), its record stays the same, and finalizing or confirming it again is
    refused without touching an adapter. *)
Theorem completed_transfer_final cfg vs ads n r ops r' id t :
  bridge_reachable cfg vs ads n r → Z.of_nat (n + length ops) < 2 ^ 64 →
  Forall op_times ops → existsb is_fail ops = false → bridge_run r ops = Some r' →
  get_transfer (rl_state r) id = Some t → br_status t = Completed →
  get_transfer (rl_state r') id = Some t ∧
  (∀ now, finalize_transfer r' id now = Some (r', Err TransferAlreadyProcessed)) ∧
  (∀ v now, is_ok (submit_confirmation r' id v now).2 = false).
Proof.
  intros Hr Hn Ho Hf Hrun Ht Hst.
  assert (get_transfer (rl_state r') id = Some t) as Ht'.
  { revert n r Hr Hn Ht Hrun. induction Ho as [|o ops Ho Hos IH]; intros n r Hr Hn Ht Hrun; simpl in *.
    { by injection Hrun as <-. }
    apply orb_false_iff in Hf as [Hf1 Hf2]. destruct (bridge_apply r o) as [r1|] eqn:Ea; [|done].
    apply (IH Hf2 (S n) r1); [by eapply br_step|lia| |done].
    eapply (bridge_apply_completed (Z.of_nat n) cfg); [|lia|done..].
    eapply bridge_inv_reachable; [done|lia]. }
  split; [done|]. split.
  - intros now. unfold finalize_transfer. rewrite Ht', bool_decide_eq_false_2 by congruence. done.
  - intros v now. unfold submit_confirmation. destruct (negb _); [done|].
    cbn [rl_state rl_set_validators].
    unfold add_confirmation, update_transfer. unfold get_transfer in Ht'. rewrite Ht'.
    by rewrite bool_decide_eq_true_2.
Qed.

(** *** One validator is enough *)
(** [k] confirmations of one transfer by one validator. *)
Definition confirm_n r (id : string) (v : Address) (now : Z) (k : nat) : BridgeRelayer A :=
  Nat.iter k (λ r, (submit_confirmation r id v now).1) r.

Lemma confirm_n_lookup r id v now t k :
  is_validator (rl_validators r) v = true → get_transfer (rl_state r) id = Some t →
  br_status t = Pending → br_confirmations t = 0 → br_required_confirmations t < 2 ^ 64 →
  Z.of_nat k ≤ br_required_confirmations t →
  is_validator (rl_validators (confirm_n r id v now k)) v = true ∧
  ∃ t', get_transfer (rl_state (confirm_n r id v now k)) id = Some t' ∧ same_transfer t t' ∧
        br_confirmations t' = Z.of_nat k ∧
        br_status t' = if decide (k = 0%nat) then Pending
                       else if br_required_confirmations t <=? Z.of_nat k then Validated else Pending.
Proof.
  intros Hv Ht Hs Hc Hreq. induction k as [|k IH]; intros Hk; [split; [done|]; by exists t|].
  destruct IH as (Hv' & t' & Ht' & Hsame & Hc' & Hs'); [lia|].
  unfold confirm_n in *. rewrite Nat.iter_succ. set (r1 := Nat.iter k _ r) in *.
  unfold submit_confirmation. rewrite Hv'. simpl.
  unfold add_confirmation, update_transfer. unfold get_transfer in Ht'. rewrite Ht'.
  assert (br_status t' ≠ Completed) by (rewrite Hs'; by repeat case_match).
  rewrite bool_decide_eq_false_2 by done. simpl. split; [by rewrite record_confirmation_validator|].
  eexists. split; [apply lookup_insert_eq|]. split; [exact Hsame|]. simpl.
  assert (br_confirmations t' +! 1 = Z.of_nat (S k)) as ->
    by (rewrite Hc'; unfold wadd; rewrite wrap_small; [|unfold in_u]; lia).
  split; [done|]. destruct Hsame as (_ & _ & _ & _ & _ & _ & _ & _ & _ & -> & _).
  destruct (Z.leb_spec (br_required_confirmations t) (Z.of_nat (S k))); [done|].
  rewrite Hs'. case_decide; [done|]. destruct (Z.leb_spec (br_required_confirmations t) (Z.of_nat k)); [lia|done].
Qed.

(** One bridge validator alone validates a pending transfer by confirming it as
    often as the required number of signatures: confirmations are counted, not collected per
    validator. *)
Theorem single_validator_validates r id v now t :
  is_validator (rl_validators r) v = true → get_transfer (rl_state r) id = Some t →
  br_status t = Pending → br_confirmations t = 0 → 0 < br_required_confirmations t < 2 ^ 64 →
  ∃ t', get_transfer (rl_state (confirm_n r id v now (Z.to_nat (br_required_confirmations t)))) id = Some t' ∧
        same_transfer t t' ∧ br_status t' = Validated.
Proof.
  intros Hv Ht Hs Hc Hreq.
  destruct (confirm_n_lookup r id v now t (Z.to_nat (br_required_confirmations t)))
    as (_ & t' & Ht' & Hsame & _ & Hst); [done..|lia|lia|].
  exists t'. split_and!; [done|done|]. rewrite Hst, decide_False by lia.
  by destruct (Z.leb_spec (br_required_confirmations t) (Z.of_nat (Z.to_nat (br_required_confirmations t)))); [|lia].
Qed.

(** *** Transfers to BNB Chain cannot be finalized *)
Lemma bnb_transfer_text b a rcpt tok amt fee now idn b' t :
  initiate_outbound b a BnbChain rcpt tok amt fee now idn = (b', Ok t) →
  br_dest_chain t = "BNB Chain" ∧ br_direction t = Outbound.
Proof. unfold initiate_outbound. destruct (is_paused b), (bc_allow_outbound (bs_config b)), (next_id b idn); naive_solver. Qed.

(** A validated outbound transfer to BNB Chain can never be finalized: the
    destination is stored by its display name, which the lookup by name does not know, so
    finalizing always fails and changes nothing. *)
Theorem bnb_outbound_never_finalizes r a rcpt tok amt now idn r1 t :
  process_outbound_request r a BnbChain rcpt tok amt now idn = (r1, Ok t) →
  ∀ r2 t2 now2, get_transfer (rl_state r2) (br_id t) = Some t2 → same_transfer t t2 →
    br_status t2 = Validated →
    finalize_transfer r2 (br_id t) now2 = Some (r2, Err (UnsupportedChain "BNB Chain")).
Proof.
  unfold process_outbound_request. destruct (amt <=? _); [done|].
  destruct (initiate_outbound _ _ _ _ _ _ _ _ _) as [b' res] eqn:E. intros [= <- ->].
  apply bnb_transfer_text in E as [Hd Hdir]. intros r2 t2 now2 Ht2 Hsame Hst.
  destruct Hsame as (_ & S2 & _ & S4 & _). unfold finalize_transfer. rewrite Ht2.
  rewrite bool_decide_eq_true_2 by done. simpl. rewrite S2, S4, Hd, Hdir. done.
Qed.

(** *** Deposits are not matched with their source transaction *)
Lemma record_inbound_source b c snd a tok amt fee h now idn b' t :
  record_inbound b c snd a tok amt fee h now idn = (b', Ok t) → br_source_tx_hash t = Some h.
Proof. unfold record_inbound. destruct (is_paused b), (bc_accept_inbound (bs_config b)), (next_id b idn); naive_solver. Qed.
Lemma deposit_recorded_twice n cfg r c snd a tok amt h now idn r1 t1 r2 t2 :
  bridge_inv n cfg (rl_state r) → n < 2 ^ 64 - 2 → 0 ≤ idn →
  process_inbound_event r c snd a tok amt h now idn = (r1, Ok t1) →
  process_inbound_event r1 c snd a tok amt h now idn = (r2, Ok t2) →
  br_id t1 ≠ br_id t2 ∧ br_source_tx_hash t1 = br_source_tx_hash t2 ∧
  get_transfer (rl_state r2) (br_id t1) = Some t1 ∧ get_transfer (rl_state r2) (br_id t2) = Some t2.
Proof.
  intros Hi Hn Hidn. unfold process_inbound_event.
  destruct (record_inbound (rl_state r) _ _ _ _ _ _ _ _ _) as [b1 res1] eqn:E1. intros [= <- ->].
  cbn [rl_state rl_set_state].
  destruct (record_inbound b1 _ _ _ _ _ _ _ _ _) as [b2 res2] eqn:E2. intros [= <- ->].
  pose proof (record_inbound_ok _ _ _ _ _ _ _ _ _ _ _ _ _ _ Hi ltac:(lia) Hidn E1) as (N1 & Hi1 & T1 & _).
  pose proof (record_inbound_ok _ _ _ _ _ _ _ _ _ _ _ _ _ _ Hi1 ltac:(lia) Hidn E2) as (N2 & Hi2 & T2 & _).
  assert (br_id t1 ≠ br_id t2) as Hne by (intros Heq; rewrite <- Heq, T1, lookup_insert_eq in N2; done).
  unfold get_transfer. cbn [rl_state rl_set_state].
  rewrite T2, lookup_insert_eq, (lookup_insert_ne _ _ _ _ (not_eq_sym Hne)), T1, lookup_insert_eq.
  split_and!; try done. by rewrite (record_inbound_source _ _ _ _ _ _ _ _ _ _ _ _ E1), (record_inbound_source _ _ _ _ _ _ _ _ _ _ _ _ E2).
Qed.
End RelayerRuns.


(** ** Adapters: distinct submissions have distinct hashes *)
Lemma hex64_inj a b : in_u 128 a → in_u 128 b → hex64 a = hex64 b → a = b.
Proof.
  unfold in_u. intros Ha Hb Heq. apply hex_encode_inj in Heq.
  apply (to_be_bytes_inj 32) in Heq; [done|..]; unfold in_u; change (Z.of_nat 32 * 8) with 256; lia.
Qed.
Lemma unlock_number_exact block amount :
  in_u 64 block → 0 ≤ amount → unlock_number block amount = block * 1000 + amount mod 1000 ∧
  in_u 128 (unlock_number block amount).
Proof.
  unfold in_u. intros Hb Ha. pose proof (Z.mod_pos_bound amount 1000 ltac:(lia)).
  unfold unlock_number. rewrite (wmul_small 128), wadd_small by (unfold in_u; lia). lia.
Qed.
Lemma evm_unlock_hash_unique e r1 t1 v1 e1 h1 f r2 t2 v2 f2 h2 :
  in_u 64 (ev_simulated_block e) → in_u 64 (ev_simulated_block f) → 0 ≤ v1 → 0 ≤ v2 →
  evm_submit_unlock e r1 t1 v1 = Some (e1, Ok h1) →
  evm_submit_unlock f r2 t2 v2 = Some (f2, Ok h2) →
  ev_simulated_block e ≠ ev_simulated_block f → h1 ≠ h2.
Proof.
  intros Hb1 Hb2 Hv1 Hv2 [= _ <-] [= _ <-] Hne Heq.
  apply (inj (String.app "0x")) in Heq.
  destruct (unlock_number_exact _ v1 Hb1 Hv1) as [E1 U1], (unlock_number_exact _ v2 Hb2 Hv2) as [E2 U2].
  apply hex64_inj in Heq; [|done..]. rewrite E1, E2 in Heq.
  pose proof (Z.mod_pos_bound v1 1000 ltac:(lia)). pose proof (Z.mod_pos_bound v2 1000 ltac:(lia)). lia.
Qed.

(** The script determines the terms of the swap. *)
Lemma push_data_inj d1 d2 (r1 r2 : bytes) :
  Z.of_nat (length d1) < 256 → Z.of_nat (length d2) < 256 →
  push_data d1 ++ r1 = push_data d2 ++ r2 → d1 = d2 ∧ r1 = r2.
Proof.
  intros H1 H2 Heq. unfold push_data in Heq. simpl in Heq. injection Heq as Hl Heq.
  apply (f_equal byte_to_Z) in Hl. rewrite !byte_to_of_Z, !Z.mod_small in Hl by lia.
  by apply app_inj_1 in Heq; [|lia].
Qed.
Lemma htlc_script_inj h1 h2 r1 r2 s1 s2 t1 t2 :
  Forall (λ d, Z.of_nat (length d) < 256) [r1; r2; s1; s2] → in_u 32 t1 → in_u 32 t2 →
  build_htlc_script h1 r1 s1 t1 = build_htlc_script h2 r2 s2 t2 →
  h1 = h2 ∧ r1 = r2 ∧ s1 = s2 ∧ t1 = t2.
Proof.
  rewrite !Forall_cons. intros (Hr1 & Hr2 & Hs1 & Hs2 & _) Ht1 Ht2 Heq. unfold build_htlc_script in Heq.
  apply app_inv_head in Heq. apply app_inj_1 in Heq as [Hh Heq]; [|by rewrite !ba_length].
  apply app_inv_head, push_data_inj in Heq as [-> Heq]; [|done..].
  apply app_inv_head in Heq. apply app_inj_1 in Heq as [Ht Heq]; [|by rewrite !length_to_le_bytes].
  apply app_inv_head, push_data_inj in Heq as [-> _]; [|done..].
  split_and!; [by apply barray_eq|done|done|]. by apply (to_le_bytes_inj 4).
Qed.

(** ** A concrete bridge *)
Module RelayerWitness.
Import ToyCrypto.
Definition alice : Address := ba_repeat 20 Byte.x01.
Definition val1 : Address := ba_repeat 20 Byte.x11.
Definition val2 : Address := ba_repeat 20 Byte.x12.
Definition pk0 : PublicKey := ba_repeat 32 Byte.x33.
Definition vals : BridgeValidatorSet :=
  (add_validator (add_validator (BridgeValidatorSet_new 2) val1 pk0 100 0).1 val2 pk0 100 0).1.
Definition adapters : gmap ExternalChain DynAdapter :=
  match EvmAdapter_defaults with
  | Some l => list_to_map ((λ p, (p.1, DynEvm p.2)) <$> l)
  | None => ∅
  end.
Definition r0 : BridgeRelayer DynAdapter := {|
  rl_state := BridgeState_new BridgeConfig_default; rl_validators := vals; rl_adapters := adapters |}.
Definition id1 : string := "bridge-7-1".
Definition start : list BridgeOp := [BOutbound alice Ethereum "0xdead" "ETH" 5000 7 7].
Definition confirms : list BridgeOp := [BConfirm id1 val1 8; BConfirm id1 val2 9; BFinalize id1 10].
Definition run_or (r : BridgeRelayer DynAdapter) (ops : list BridgeOp) : BridgeRelayer DynAdapter :=
  default r0 (bridge_run r ops).
Definition r1 : BridgeRelayer DynAdapter := run_or r0 start.
Definition r2 : BridgeRelayer DynAdapter := run_or r0 (start ++ confirms).

Lemma run_reachable ops n r r' :
  bridge_reachable BridgeConfig_default vals adapters n r → Forall op_times ops →
  bridge_run r ops = Some r' → bridge_reachable BridgeConfig_default vals adapters (n + length ops) r'.
Proof.
  intros Hr Ho. revert n r Hr. induction Ho as [|o ops Ho Hos IH]; intros n r Hr Hrun; simpl in *.
  - injection Hrun as <-. by rewrite Nat.add_0_r.
  - destruct (bridge_apply r o) as [r1'|] eqn:E; [|done]. replace (n + S (length ops))%nat with (S n + length ops)%nat by lia.
    apply (IH (S n) r1'); [by eapply br_step|done].
Qed.
Lemma r2_run : bridge_run r0 (start ++ confirms) = Some r2.
Proof.
  assert (bool_decide (is_Some (bridge_run r0 (start ++ confirms))) = true) as Hx by (by vm_compute).
  apply bool_decide_eq_true_1 in Hx. unfold r2, run_or.
  destruct (bridge_run r0 (start ++ confirms)); [done|]. by destruct Hx.
Qed.
Lemma r2_reachable : bridge_reachable BridgeConfig_default vals adapters 4 r2.
Proof.
  apply (run_reachable (start ++ confirms) 0 r0); [constructor| |exact r2_run].
  repeat constructor; simpl; lia.
Qed.
Lemma r2_completed : ∃ t, get_transfer (rl_state r2) id1 = Some t ∧ br_status t = Completed.
Proof.
  destruct (get_transfer (rl_state r2) id1) as [t|] eqn:E.
  - exists t. split; [done|]. enough (br_status <$> get_transfer (rl_state r2) id1 = Some Completed) as Hs
      by (rewrite E in Hs; by injection Hs). by vm_compute.
  - exfalso. enough (is_Some (get_transfer (rl_state r2) id1)) as Hs by (rewrite E in Hs; by destruct Hs).
    apply (bool_decide_eq_true_1 _). by vm_compute.
Qed.

Lemma bridge_reachable_spec_witness :
  bridge_reachable BridgeConfig_default vals adapters 4 r2 ∧ locked_on (rl_state r2) "Ethereum:ETH" = 5000 ∧
  locked_on (rl_state r2) "Ethereum:ETH" =
    wrap 128 (map_sum (outbound_on "Ethereum:ETH") (bs_transfers (rl_state r2))).
Proof.
  destruct (bridge_reachable_spec BridgeConfig_default vals adapters 4 r2 r2_reachable ltac:(lia))
    as (_ & _ & Hl).
  split; [exact r2_reachable|]. split; [by vm_compute|]. exact (proj1 (Hl "Ethereum:ETH")).
Defined.
Lemma completed_transfer_final_witness :
  ∃ t, get_transfer (rl_state r2) id1 = Some t ∧
       get_transfer (rl_state (run_or r2 [BConfirm id1 val1 20; BFinalize id1 21])) id1 = Some t.
Proof.
  destruct r2_completed as (t & Ht & Hs). exists t. split; [exact Ht|].
  assert (bridge_run r2 [BConfirm id1 val1 20; BFinalize id1 21] =
          Some (run_or r2 [BConfirm id1 val1 20; BFinalize id1 21])) as Hrun.
  { unfold run_or. destruct (bridge_run r2 [BConfirm id1 val1 20; BFinalize id1 21]) eqn:E; [done|].
    exfalso. enough (is_Some (bridge_run r2 [BConfirm id1 val1 20; BFinalize id1 21])) as Hx
      by (rewrite E in Hx; by destruct Hx).
    apply (bool_decide_eq_true_1 _). by vm_compute. }
  destruct (completed_transfer_final BridgeConfig_default vals adapters 4 r2
              [BConfirm id1 val1 20; BFinalize id1 21] _ id1 t r2_reachable ltac:(simpl; lia)
              ltac:(repeat constructor) eq_refl Hrun Ht Hs) as (H1 & _). exact H1.
Defined.
Lemma single_validator_validates_witness :
  is_validator (rl_validators r1) val2 = true ∧
  ∃ t, get_transfer (rl_state (confirm_n r1 id1 val1 8 2)) id1 = Some t ∧ br_status t = Validated.
Proof.
  split; [by vm_compute|].
  destruct (get_transfer (rl_state r1) id1) as [t|] eqn:E.
  - assert (br_status <$> get_transfer (rl_state r1) id1 = Some Pending) as H1 by (by vm_compute).
    assert (br_confirmations <$> get_transfer (rl_state r1) id1 = Some 0) as H2 by (by vm_compute).
    assert (br_required_confirmations <$> get_transfer (rl_state r1) id1 = Some 2) as H3 by (by vm_compute).
    rewrite E in H1, H2, H3. injection H1 as H1. injection H2 as H2. injection H3 as H3.
    destruct (single_validator_validates r1 id1 val1 8 t ltac:(by vm_compute) E H1 H2 ltac:(rewrite H3; lia))
      as (t' & Ht' & _ & Hs). rewrite H3 in Ht'. exists t'. split; [exact Ht'|exact Hs].
  - exfalso. enough (is_Some (get_transfer (rl_state r1) id1)) as Hs by (rewrite E in Hs; by destruct Hs).
    apply (bool_decide_eq_true_1 _). by vm_compute.
Defined.
Lemma bnb_outbound_never_finalizes_witness :
  ∃ r t, process_outbound_request r0 alice BnbChain "0xdead" "BNB" 5000 7 7 = (r, Ok t) ∧
    finalize_transfer (confirm_n r (br_id t) val1 8 2) (br_id t) 9 =
      Some (confirm_n r (br_id t) val1 8 2, Err (UnsupportedChain "BNB Chain")).
Proof.
  assert ((λ p, match p.2 with
     | Ok t => is_validator (rl_validators p.1) val1 &&
               bool_decide (get_transfer (rl_state p.1) (br_id t) = Some t ∧ br_status t = Pending ∧
                            br_confirmations t = 0 ∧ br_required_confirmations t = 2)
     | Err _ => false end) (process_outbound_request r0 alice BnbChain "0xdead" "BNB" 5000 7 7) = true) as Hok
    by (by vm_compute).
  destruct (process_outbound_request r0 alice BnbChain "0xdead" "BNB" 5000 7 7) as [r [t|e]] eqn:E;
    [|discriminate Hok]. exists r, t. split; [reflexivity|].
  apply andb_true_iff in Hok as [Hv Hok]. apply bool_decide_eq_true_1 in Hok as (Ht & Hp & Hc & Hreq).
  destruct (confirm_n_lookup r (br_id t) val1 8 t 2 Hv Ht Hp Hc ltac:(rewrite Hreq; lia) ltac:(rewrite Hreq; lia))
    as (_ & t2 & Ht2 & Hsame & _ & Hst). rewrite Hreq in Hst.
  exact (bnb_outbound_never_finalizes r0 alice "0xdead" "BNB" 5000 7 7 r t E _ t2 9 Ht2 Hsame Hst).
Defined.
Example bnb_stuck :
  (λ p, p.2) <$> finalize_transfer
     (run_or r0 [BOutbound alice BnbChain "0xdead" "BNB" 5000 7 7; BConfirm id1 val1 8; BConfirm id1 val2 9]) id1 10 =
  Some (Err (UnsupportedChain "BNB Chain")).
Proof. by vm_compute. Qed.
(** A failed transfer is brought back by confirmations, and paid out. *)
Example failed_transfer_revived :
  (λ t, (br_status t, br_dest_tx_hash t)) <$>
    get_transfer (rl_state (run_or r2 [BFail id1 20; BConfirm id1 val1 21; BFinalize id1 22])) id1 =
  Some (Completed, Some ("0x" +:+ hex64 (unlock_number 1000001 4995))).
Proof. by vm_compute. Qed.
End RelayerWitness.
