(* ===== verification/ContractSdk.v ===== *)
(** * ContractSdk: the contract SDK on its native target (contracts/sdk/src/lib.rs)

    Contracts are modelled as the SDK runs them natively: over the thread-local
    [MockEnv], here an explicit state.  An entry point is a computation that
    reads and changes the environment, or panics ([sdk::abort], a slice index
    out of range); the arguments of an entry point are the bytes at
    [args_ptr], their number is [args_len].  A call that panics leaves the
    environment as it was, which is what the VM does with a trapped call. *)

From S2P Require Import Prelude Crypto.

Record MockEnv : Type := {
  me_storage : gmap bytes bytes;
  me_caller : Address;
  me_self_addr : Address;
  me_block_number : Z;
  me_block_timestamp : Z;
  me_chain_id : Z;
  me_self_balance : Z;
  me_events : list bytes;
  me_transfers : list (Address * Z)
}.
Definition MockEnv_default : MockEnv := {|
  me_storage := ∅; me_caller := ba_repeat 20 Byte.x00; me_self_addr := ba_repeat 20 Byte.x00;
  me_block_number := 1; me_block_timestamp := 1700000000; me_chain_id := 9999;
  me_self_balance := 0; me_events := []; me_transfers := [] |}.

(** Updates of the fields the functions assign. *)
Definition me_set (e : MockEnv) (st : gmap bytes bytes) (c : Address) (bal : Z)
    (evs : list bytes) (trs : list (Address * Z)) : MockEnv := {|
  me_storage := st; me_caller := c; me_self_addr := me_self_addr e;
  me_block_number := me_block_number e; me_block_timestamp := me_block_timestamp e;
  me_chain_id := me_chain_id e; me_self_balance := bal; me_events := evs; me_transfers := trs |}.
Definition me_set_storage (e : MockEnv) (st : gmap bytes bytes) : MockEnv :=
  me_set e st (me_caller e) (me_self_balance e) (me_events e) (me_transfers e).

(** ** Computations *)
Inductive Panic : Type :=
| Abort (msg : string)
| SliceOutOfRange.
Definition contract (A : Type) : Type := MockEnv → result Panic (MockEnv * A).
#[export] Instance contract_ret : MRet contract := λ A a e, Ok (e, a).
#[export] Instance contract_bind : MBind contract := λ A B f m e,
  match m e with Ok (e', a) => f a e' | Err p => Err p end.

(** ** The SDK's functions *)
Definition mock_set_caller (addr : Address) (e : MockEnv) : MockEnv :=
  me_set e (me_storage e) addr (me_self_balance e) (me_events e) (me_transfers e).
Definition mock_set_balance (bal : Z) (e : MockEnv) : MockEnv :=
  me_set e (me_storage e) (me_caller e) bal (me_events e) (me_transfers e).
Definition mock_set_block_timestamp (ts : Z) (e : MockEnv) : MockEnv := {|
  me_storage := me_storage e; me_caller := me_caller e; me_self_addr := me_self_addr e;
  me_block_number := me_block_number e; me_block_timestamp := ts;
  me_chain_id := me_chain_id e; me_self_balance := me_self_balance e;
  me_events := me_events e; me_transfers := me_transfers e |}.

Definition mock_reset (_ : MockEnv) : MockEnv := MockEnv_default.
(** The setters of the fields that no function of the SDK changes. *)
Definition me_set_block (e : MockEnv) (self : Address) (number ts chain : Z) : MockEnv := {|
  me_storage := me_storage e; me_caller := me_caller e; me_self_addr := self;
  me_block_number := number; me_block_timestamp := ts; me_chain_id := chain;
  me_self_balance := me_self_balance e; me_events := me_events e; me_transfers := me_transfers e |}.
Definition mock_set_self_address (addr : Address) (e : MockEnv) : MockEnv :=
  me_set_block e addr (me_block_number e) (me_block_timestamp e) (me_chain_id e).
Definition mock_set_block_number (n : Z) (e : MockEnv) : MockEnv :=
  me_set_block e (me_self_addr e) n (me_block_timestamp e) (me_chain_id e).
Definition mock_set_chain_id (id : Z) (e : MockEnv) : MockEnv :=
  me_set_block e (me_self_addr e) (me_block_number e) (me_block_timestamp e) id.
Definition mock_get_events (e : MockEnv) : list bytes := me_events e.
Definition mock_get_transfers (e : MockEnv) : list (Address * Z) := me_transfers e.

Definition storage_read (key : bytes) : contract (option bytes) := λ e, Ok (e, me_storage e !! key).
Definition storage_write (key value : bytes) : contract () := λ e,
  Ok (me_set_storage e (<[key := value]> (me_storage e)), ()).
Definition caller : contract Address := λ e, Ok (e, me_caller e).
Definition self_address : contract Address := λ e, Ok (e, me_self_addr e).
Definition block_number : contract Z := λ e, Ok (e, me_block_number e).
Definition block_timestamp : contract Z := λ e, Ok (e, me_block_timestamp e).
Definition sdk_chain_id : contract Z := λ e, Ok (e, me_chain_id e).
Definition self_balance : contract Z := λ e, Ok (e, me_self_balance e).
Definition sdk_transfer (to : Address) (amount : Z) : contract bool := λ e,
  if amount <=? me_self_balance e then
    Ok (me_set e (me_storage e) (me_caller e) (me_self_balance e -! amount) (me_events e)
          (me_transfers e ++ [(to, amount)]), true)
  else Ok (e, false).
Definition emit_event (data : string) : contract () := λ e,
  Ok (me_set e (me_storage e) (me_caller e) (me_self_balance e)
        (me_events e ++ [b_ data]) (me_transfers e), ()).
Definition abort {A} (msg : string) : contract A := λ _, Err (Abort ("contract abort: " +:+ msg)).

(** [&args[a..b]] *)
Definition slice (args : bytes) (a b : nat) : contract bytes := λ e,
  if (a <=? b)%nat && (b <=? length args)%nat then Ok (e, take (b - a) (drop a args))
  else Err SliceOutOfRange.

(** One call of an entry point by [who]: a panic rolls everything back. *)
Definition run_call (e : MockEnv) (who : Address) (c : contract Z) : MockEnv * option Z :=
  match c (mock_set_caller who e) with
  | Ok (e', r) => (e', Some r)
  | Err _ => (e, None)
  end.

(** ** Storage helpers the contracts share (each contract declares its own copy) *)
(** [read_u64]/[read_u128]: the value, or 0 when it is missing or has another
    size; [n] is the number of bytes. *)
Definition read_le (n : nat) (st : gmap bytes bytes) (key : bytes) : Z :=
  match st !! key with
  | Some v => if (length v =? n)%nat then from_le_bytes v else 0
  | None => 0
  end.
Definition read_uint (n : nat) (key : bytes) : contract Z := λ e, Ok (e, read_le n (me_storage e) key).
Definition write_uint (n : nat) (key : bytes) (value : Z) : contract () :=
  storage_write key (to_le_bytes n value).

Lemma read_le_insert n st k v k' :
  in_u (Z.of_nat n * 8) v →
  read_le n (<[k := to_le_bytes n v]> st) k' = if decide (k = k') then v else read_le n st k'.
Proof.
  intros Hv. unfold read_le. rewrite lookup_insert. case_decide; [|done].
  rewrite length_to_le_bytes, Nat.eqb_refl. by apply from_to_le_bytes.
Qed.
Lemma read_le_insert_ne n st k bs k' : k ≠ k' → read_le n (<[k := bs]> st) k' = read_le n st k'.
Proof. intros Hk. unfold read_le. by rewrite lookup_insert_ne. Qed.

(** ** Sums over the entries of a map, by key and value *)
Section KeyedSums.
Context `{Countable K} {V : Type}.
Implicit Types (f : K → V → Z) (m : gmap K V).

Definition map_sumk f m : Z := sumZ (λ kv, f kv.1 kv.2) (map_to_list m).
Lemma map_sumk_empty f : map_sumk f ∅ = 0.
Proof. unfold map_sumk. by rewrite map_to_list_empty. Qed.
Lemma map_sumk_insert f m k v :
  map_sumk f (<[k := v]> m) = map_sumk f m - default 0 (f k <$> m !! k) + f k v.
Proof.
  unfold map_sumk. rewrite <- insert_delete_eq.
  rewrite (sumZ_perm _ _ _ (map_to_list_insert (delete k m) k v (lookup_delete_eq m k))). simpl.
  destruct (m !! k) as [w|] eqn:E; simpl.
  - rewrite <- (sumZ_perm _ _ _ (map_to_list_delete m k w E)). simpl. lia.
  - rewrite delete_id by done. lia.
Qed.
Lemma map_sumk_lookup_le f m k v :
  (∀ k v, 0 ≤ f k v) → m !! k = Some v → f k v ≤ map_sumk f m.
Proof.
  intros Hf Hk. unfold map_sumk.
  apply (sumZ_elem_le (λ kv, f kv.1 kv.2) _ (k, v)); [intros [] _; apply Hf|by apply elem_of_map_to_list].
Qed.
End KeyedSums.

Lemma from_le_bytes_nonneg bs : 0 ≤ from_le_bytes bs.
Proof.
  unfold from_le_bytes. induction bs as [|b bs IH]; simpl; [lia|]. pose proof (byte_to_Z_bound b). lia.
Qed.
Lemma from_le_bytes_lt n bs : (length bs ≤ n)%nat → in_u (Z.of_nat n * 8) (from_le_bytes bs).
Proof.
  intros Hn. split; [apply from_le_bytes_nonneg|].
  apply Z.lt_le_trans with (2 ^ (Z.of_nat (length bs) * 8)); [|apply Z.pow_le_mono_r; lia]. clear Hn.
  unfold from_le_bytes. induction bs as [|b bs IH]; [done|]. cbn [le_combine length].
  replace (Z.of_nat (S (length bs)) * 8) with (8 + Z.of_nat (length bs) * 8) by lia.
  rewrite Z.pow_add_r by lia. pose proof (byte_to_Z_bound b). change (2 ^ 8) with 256. lia.
Qed.
Lemma read_le_nonneg n st k : 0 ≤ read_le n st k.
Proof. unfold read_le. repeat case_match; try lia. apply from_le_bytes_nonneg. Qed.

(** ** Frames: computations that leave the cells of a set of keys alone *)
Definition keeps (P : bytes → Prop) {A} (c : contract A) : Prop :=
  ∀ e e' a, c e = Ok (e', a) → ∀ k, P k → me_storage e' !! k = me_storage e !! k.

Section Frames.
Context (P : bytes → Prop).

Lemma keeps_ret {A} (a : A) : keeps P (mret a).
Proof. by intros e e' x [= <- _]. Qed.
Lemma keeps_bind {A B} (m : contract A) (f : A → contract B) :
  keeps P m → (∀ a, keeps P (f a)) → keeps P (m ≫= f).
Proof.
  intros Hm Hf e e' b Hrun k Hk. unfold mbind, contract_bind in Hrun.
  destruct (m e) as [[e1 a]|] eqn:E; [|done]. by rewrite (Hf a _ _ _ Hrun k Hk), (Hm _ _ _ E k Hk).
Qed.
Lemma keeps_write key v : ¬ P key → keeps P (storage_write key v).
Proof. intros Hn e e' x [= <- _] k Hk. simpl. apply lookup_insert_ne. by intros ->. Qed.
Lemma keeps_write_uint n key v : ¬ P key → keeps P (write_uint n key v).
Proof. apply keeps_write. Qed.
Lemma keeps_read key : keeps P (storage_read key).
Proof. by intros e e' x [= <- _]. Qed.
Lemma keeps_read_uint n key : keeps P (read_uint n key).
Proof. by intros e e' x [= <- _]. Qed.
Lemma keeps_caller : keeps P caller.
Proof. by intros e e' x [= <- _]. Qed.
Lemma keeps_timestamp : keeps P block_timestamp.
Proof. by intros e e' x [= <- _]. Qed.
Lemma keeps_self_balance : keeps P self_balance.
Proof. by intros e e' x [= <- _]. Qed.
Lemma keeps_emit d : keeps P (emit_event d).
Proof. by intros e e' x [= <- _]. Qed.
Lemma keeps_abort {A} msg : keeps P (@abort A msg).
Proof. done. Qed.
Lemma keeps_slice args a b : keeps P (slice args a b).
Proof. intros e e' x. unfold slice. destruct (_ && _); [|done]. by intros [= <- _]. Qed.
Lemma keeps_transfer to v : keeps P (sdk_transfer to v).
Proof. intros e e' x. unfold sdk_transfer. by destruct (v <=? _); intros [= <- _]. Qed.
End Frames.

Create HintDb frame.
#[export] Hint Resolve keeps_ret keeps_read keeps_read_uint keeps_caller keeps_timestamp
  keeps_self_balance keeps_emit keeps_abort keeps_slice keeps_transfer : frame.
(** Walk through a computation; what is left are the writes. *)
Ltac frame_walk :=
  repeat first
    [ solve [eauto with frame]
    | apply keeps_bind; [|intros ?]
    | case_match ].

(** A call by anyone keeps what the entry point keeps. *)
Lemma run_call_keeps P (c : contract Z) e who k :
  keeps P c → P k → me_storage (run_call e who c).1 !! k = me_storage e !! k.
Proof.
  intros Hc Hk. unfold run_call. destruct (c (mock_set_caller who e)) as [[e' r]|] eqn:E; [|done].
  exact (Hc _ _ _ E k Hk).
Qed.

(** A sum that only looks at the cells of some keys. *)
Lemma map_sumk_agree (P : bytes → Prop) `{∀ k, Decision (P k)} (f : bytes → bytes → Z) st st' :
  (∀ k v, ¬ P k → f k v = 0) → (∀ k, P k → st' !! k = st !! k) → map_sumk f st' = map_sumk f st.
Proof.
  intros Hf Heq.
  assert (∀ m : gmap bytes bytes, map_sumk f m = map_sumk f (filter (λ kv, P kv.1) m)) as Hfil.
  { intros m. induction m as [|k v m Hk IH] using map_ind; [by rewrite map_filter_empty|].
    rewrite map_sumk_insert, Hk. simpl. destruct (decide (P k)) as [HP|HP].
    - rewrite map_filter_insert_True by done. rewrite map_sumk_insert.
      rewrite map_lookup_filter_None_2 by (by left). simpl. lia.
    - rewrite map_filter_insert_not' by (done || (intros ? ?; congruence)). rewrite Hf by done. lia. }
  rewrite (Hfil st), (Hfil st'). f_equal. apply map_filter_strong_ext. intros k v. simpl.
  split; intros [HP Hl]; (split; [done|]); [rewrite <- Heq|rewrite Heq]; done.
Qed.

(** Inversion of a computation that returned. *)
Lemma bind_ok {A B} (m : contract A) (f : A → contract B) e e' b :
  (m ≫= f) e = Ok (e', b) → ∃ e1 a, m e = Ok (e1, a) ∧ f a e1 = Ok (e', b).
Proof. unfold mbind, contract_bind. destruct (m e) as [[e1 a]|]; [|done]. eauto. Qed.
Lemma slice_inv args a b e e' x :
  slice args a b e = Ok (e', x) → e' = e ∧ x = take (b - a) (drop a args) ∧ length x = (b - a)%nat.
Proof.
  unfold slice. destruct (Nat.leb_spec a b), (Nat.leb_spec b (length args)); simpl; try done.
  intros [= <- <-]. split_and!; [done|done|]. rewrite length_take, length_drop. lia.
Qed.
