(* ===== verification/TokenContract.v ===== *)
(** * TokenContract: the ERC20-like token (contracts/token/src/lib.rs)

    Entry points over the SDK of ContractSdk.v; integers are [u64] in
    little-endian storage cells. *)

From S2P Require Import Prelude Crypto ContractSdk.

Definition balance_key (addr : Address) : bytes := b_ "balance:" ++ ba_bytes addr.
Definition allowance_key (owner spender : Address) : bytes :=
  b_ "allowance:" ++ ba_bytes owner ++ b_ ":" ++ ba_bytes spender.
Definition read_u64 (key : bytes) : contract Z := read_uint 8 key.
Definition write_u64 (key : bytes) (value : Z) : contract () := write_uint 8 key value.

Definition initial_supply : Z := 1000000000.
Definition init : contract Z :=
  c ← caller;
  storage_write (b_ "name") (b_ "RustChain Token");;
  storage_write (b_ "symbol") (b_ "RCT");;
  storage_write (b_ "decimals") [byte_of_Z 18];;
  storage_write (b_ "owner") (ba_bytes c);;
  write_u64 (b_ "total_supply") initial_supply;;
  write_u64 (balance_key c) initial_supply;;
  emit_event "TokenInitialized";;
  mret 0.

(** The address argument is not read: both branches answer for the caller. *)
Definition balance_of (addr : bytes) : contract Z :=
  if negb (length addr =? 20)%nat then
    c ← caller; v ← read_u64 (balance_key c); mret (as_i 32 v)
  else
    c ← caller; v ← read_u64 (balance_key c); mret (as_i 32 v).

Definition transfer_tokens (args : bytes) : contract Z :=
  if (length args <? 28)%nat then emit_event "TransferFailed:InvalidArgs";; mret (-1)
  else
    c ← caller;
    caller_balance ← read_u64 (balance_key c);
    to_bytes ← slice args 0 20;
    let to_addr : Address := ba_of 20 to_bytes in
    amount_bytes ← slice args 20 28;
    let amount := from_le_bytes amount_bytes in
    if caller_balance <? amount then emit_event "TransferFailed:InsufficientBalance";; mret (-1)
    else
      write_u64 (balance_key c) (caller_balance -! amount);;
      to_balance ← read_u64 (balance_key to_addr);
      write_u64 (balance_key to_addr) (to_balance +! amount);;
      emit_event "Transfer";;
      mret 0.

Definition approve (args : bytes) : contract Z :=
  if (length args <? 28)%nat then mret (-1)
  else
    c ← caller;
    spender_bytes ← slice args 0 20;
    let spender_addr : Address := ba_of 20 spender_bytes in
    amount_bytes ← slice args 20 28;
    let amount := from_le_bytes amount_bytes in
    write_u64 (allowance_key c spender_addr) amount;;
    emit_event "Approval";;
    mret 0.

Definition total_supply : contract Z := v ← read_u64 (b_ "total_supply"); mret (as_i 32 v).

(** ** Reading the ledger *)
Definition balance (e : MockEnv) (a : Address) : Z := read_le 8 (me_storage e) (balance_key a).
Definition supply (e : MockEnv) : Z := read_le 8 (me_storage e) (b_ "total_supply").
(** The entry of a balance: eight bytes under a key ["balance:"] plus an address. *)
Definition is_balance_key (k : bytes) : Prop := take 8 k = b_ "balance:" ∧ length k = 28%nat.
#[export] Instance is_balance_key_dec k : Decision (is_balance_key k).
Proof. unfold is_balance_key. apply _. Defined.
Definition cell (k v : bytes) : Z :=
  if decide (is_balance_key k) then (if (length v =? 8)%nat then from_le_bytes v else 0) else 0.
(** The sum of all balances. *)
Definition total_balances (e : MockEnv) : Z := map_sumk cell (me_storage e).

Section Keys.
Lemma balance_key_is a : is_balance_key (balance_key a).
Proof. split; [done|]. unfold balance_key. rewrite length_app, ba_length. done. Qed.
Lemma balance_key_inj : Inj (=) (=) balance_key.
Proof. intros a b Heq. apply app_inv_head in Heq. by apply barray_eq. Qed.
Lemma not_balance_key k : take 8 k ≠ b_ "balance:" → ¬ is_balance_key k.
Proof. by intros Hk [? _]. Qed.

Lemma cell_nonneg k v : 0 ≤ cell k v.
Proof. unfold cell. repeat case_match; try lia. apply from_le_bytes_nonneg. Qed.
Lemma cell_balance st a : default 0 (cell (balance_key a) <$> st !! balance_key a) = read_le 8 st (balance_key a).
Proof.
  unfold read_le. destruct (st !! balance_key a) as [v|]; [|done]. simpl. unfold cell.
  by rewrite decide_True by apply balance_key_is.
Qed.
(** Writing a balance changes the total by the difference; writing another
    cell does not change it. *)
Lemma total_write_balance st a v :
  in_u 64 v →
  map_sumk cell (<[balance_key a := to_le_bytes 8 v]> st) =
  map_sumk cell st - read_le 8 st (balance_key a) + v.
Proof.
  intros Hv. rewrite map_sumk_insert, cell_balance. f_equal. unfold cell.
  rewrite decide_True by apply balance_key_is. rewrite length_to_le_bytes, Nat.eqb_refl.
  by apply from_to_le_bytes.
Qed.
Lemma total_write_other st k bs : ¬ is_balance_key k → map_sumk cell (<[k := bs]> st) = map_sumk cell st.
Proof.
  intros Hk. rewrite map_sumk_insert. destruct (st !! k); simpl; unfold cell; rewrite !decide_False by done; lia.
Qed.
Lemma balance_le_total st a : read_le 8 st (balance_key a) ≤ map_sumk cell st.
Proof.
  rewrite <- cell_balance. destruct (st !! balance_key a) as [v|] eqn:E; simpl.
  - apply map_sumk_lookup_le; [apply cell_nonneg|done].
  - apply sumZ_nonneg. intros [] _. apply cell_nonneg.
Qed.
End Keys.
#[export] Existing Instance balance_key_inj.

(** ** The entry points on the ledger *)
Section Ledger.
Implicit Types e : MockEnv.

(** What [transfer_tokens] does to storage, as a function. *)
Definition move (st : gmap bytes bytes) (c to : Address) (v : Z) : gmap bytes bytes :=
  let st1 := <[balance_key c := to_le_bytes 8 (read_le 8 st (balance_key c) -! v)]> st in
  <[balance_key to := to_le_bytes 8 (read_le 8 st1 (balance_key to) +! v)]> st1.

Lemma slice_ok (args : bytes) a b e :
  (a ≤ b)%nat → (b ≤ length args)%nat → slice args a b e = Ok (e, take (b - a) (drop a args)).
Proof.
  intros Ha Hb. unfold slice. apply Nat.leb_le in Ha as ->, Hb as ->. done.
Qed.
(** The two arguments of the calls. *)
Definition arg_addr (args : bytes) : Address := ba_of 20 (take 20 args).
Definition arg_amount (args : bytes) : Z := from_le_bytes (take 8 (drop 20 args)).

Lemma transfer_tokens_run e args :
  ∃ e' r, transfer_tokens args e = Ok (e', r) ∧ me_caller e' = me_caller e ∧
    if (length args <? 28)%nat || (balance e (me_caller e) <? arg_amount args)
    then r = -1 ∧ me_storage e' = me_storage e
    else r = 0 ∧ me_storage e' = move (me_storage e) (me_caller e) (arg_addr args) (arg_amount args).
Proof.
  unfold transfer_tokens. destruct (Nat.ltb_spec (length args) 28) as [Hl|Hl]; [by eexists _, _|].
  unfold caller, read_u64, read_uint, mbind, contract_bind.
  rewrite !slice_ok by lia. fold (balance e (me_caller e)).
  change (take (28 - 20) (drop 20 args)) with (take 8 (drop 20 args)). fold (arg_amount args).
  change (ba_of 20 (take (20 - 0) (drop 0 args))) with (arg_addr args). simpl orb.
  destruct (Z.ltb_spec (balance e (me_caller e)) (arg_amount args)) as [Hb|Hb]; by eexists _, _.
Qed.
Lemma approve_run e args :
  ∃ e' r, approve args e = Ok (e', r) ∧ me_caller e' = me_caller e ∧
    (me_storage e' = me_storage e ∨
     ∃ s v, me_storage e' = <[allowance_key (me_caller e) s := to_le_bytes 8 v]> (me_storage e)).
Proof.
  unfold approve. destruct (Nat.ltb_spec (length args) 28) as [Hl|Hl]; [eexists _, _; naive_solver|].
  unfold caller, mbind, contract_bind. rewrite !slice_ok by lia. eexists _, _.
  split; [reflexivity|]. split; [done|]. right. by eexists _, _.
Qed.

(** The ledger is sound: the balances add up to the recorded supply, and to no
    more than a [u64]. *)
Definition ledger_ok e : Prop := total_balances e = supply e ∧ in_u 64 (supply e).

Lemma supply_key_other : ¬ is_balance_key (b_ "total_supply").
Proof. by apply not_balance_key. Qed.
Lemma balance_not_supply a : balance_key a ≠ b_ "total_supply".
Proof. intros Heq. apply supply_key_other. rewrite <- Heq. apply balance_key_is. Qed.
Lemma allowance_key_other a b : ¬ is_balance_key (allowance_key a b).
Proof. by apply not_balance_key. Qed.
Lemma allowance_not_supply a b : allowance_key a b ≠ b_ "total_supply".
Proof. done. Qed.

(** Moving [v] out of a sufficient balance keeps the total and changes
    exactly the two balances. *)
Lemma move_spec st c to v :
  in_u 64 (map_sumk cell st) → 0 ≤ v ≤ read_le 8 st (balance_key c) →
  map_sumk cell (move st c to v) = map_sumk cell st ∧
  (∀ a, read_le 8 (move st c to v) (balance_key a) =
        read_le 8 st (balance_key a) - (if decide (a = c) then v else 0) + (if decide (a = to) then v else 0)).
Proof.
  intros Ht Hv. pose proof (balance_le_total st c) as Hc. unfold in_u in Ht.
  assert (read_le 8 st (balance_key c) -! v = read_le 8 st (balance_key c) - v) as Hsub
    by (apply wsub_small; unfold in_u; lia).
  assert (in_u 64 (read_le 8 st (balance_key c) - v)) as Hsub64 by (unfold in_u; lia).
  unfold move. rewrite Hsub. set (st1 := <[balance_key c := _]> st).
  assert (map_sumk cell st1 = map_sumk cell st - v) as Ht1
    by (unfold st1; rewrite total_write_balance by done; lia).
  pose proof (balance_le_total st1 to) as Hto. pose proof (read_le_nonneg 8 st1 (balance_key to)) as Hto0.
  assert (read_le 8 st1 (balance_key to) +! v = read_le 8 st1 (balance_key to) + v) as ->
    by (apply wadd_small; unfold in_u; lia).
  assert (in_u 64 (read_le 8 st1 (balance_key to) + v)) as Hadd64 by (unfold in_u; lia).
  split; [rewrite total_write_balance by done; lia|]. intros a.
  rewrite read_le_insert by done. unfold st1. rewrite !read_le_insert by done.
  repeat case_decide; simplify_eq; try congruence; lia.
Qed.

Lemma transfer_ledger e args :
  ledger_ok e → (28 ≤ length args)%nat →
  ∃ e' r, transfer_tokens args e = Ok (e', r) ∧ ledger_ok e' ∧ supply e' = supply e ∧
    (if balance e (me_caller e) <? arg_amount args then r = -1 ∧ ∀ a, balance e' a = balance e a
     else r = 0 ∧ ∀ a, balance e' a = balance e a - (if decide (a = me_caller e) then arg_amount args else 0)
                                     + (if decide (a = arg_addr args) then arg_amount args else 0)).
Proof.
  intros [Htot Hsup] Hlen. destruct (transfer_tokens_run e args) as (e' & r & Hrun & _ & Hres).
  exists e', r. split; [done|]. rewrite (proj2 (Nat.ltb_ge (length args) 28)) in Hres by lia. simpl in Hres.
  unfold ledger_ok, total_balances, supply, balance in *.
  destruct (Z.ltb_spec (read_le 8 (me_storage e) (balance_key (me_caller e))) (arg_amount args)) as [Hb|Hb];
    destruct Hres as [-> ->]; [done|].
  destruct (move_spec (me_storage e) (me_caller e) (arg_addr args) (arg_amount args)) as [H1 H2];
    [by rewrite Htot|split; [apply from_le_bytes_nonneg|done]|].
  rewrite H1. unfold move. rewrite !(read_le_insert_ne _ _ (balance_key _) _ (b_ "total_supply")) by apply balance_not_supply.
  split; [done|]. split; [done|]. split; [done|]. exact H2.
Qed.

(** ** Runs of the contract
    The calls after [init], the fifth exported entry point: it is not guarded and belongs to
    the deployment. *)
Inductive TokenOp : Type :=
| TTransfer (args : bytes)
| TApprove (args : bytes)
| TBalanceOf (addr : bytes)
| TTotalSupply.
Definition token_entry (o : TokenOp) : contract Z :=
  match o with
  | TTransfer args => transfer_tokens args
  | TApprove args => approve args
  | TBalanceOf addr => balance_of addr
  | TTotalSupply => total_supply
  end.
Definition token_run e (ops : list (Address * TokenOp)) : MockEnv :=
  foldl (λ e o, (run_call e o.1 (token_entry o.2)).1) e ops.

(** What initialising writes: the total becomes the old one with the caller's
    balance replaced. *)
Lemma init_run e who :
  let e' := (run_call e who init).1 in
  supply e' = initial_supply ∧ balance e' who = initial_supply ∧
  total_balances e' = total_balances e - balance e who + initial_supply.
Proof.
  intros e'. unfold supply, balance, total_balances.
  assert (me_storage e' =
    <[balance_key who := to_le_bytes 8 initial_supply]>
    (<[b_ "total_supply" := to_le_bytes 8 initial_supply]>
    (<[b_ "owner" := ba_bytes who]> (<[b_ "decimals" := [byte_of_Z 18]]>
    (<[b_ "symbol" := b_ "RCT"]> (<[b_ "name" := b_ "RustChain Token"]> (me_storage e))))))) as -> by reflexivity.
  assert (in_u 64 initial_supply) as H64 by (by vm_compute).
  rewrite (read_le_insert_ne 8 _ (balance_key who) _ (b_ "total_supply")) by apply balance_not_supply.
  rewrite !read_le_insert, !decide_True by done. split; [done|]. split; [done|].
  rewrite total_write_balance by done. rewrite !total_write_other by (by apply not_balance_key).
  assert (∀ st k bs, ¬ is_balance_key k → read_le 8 (<[k := bs]> st) (balance_key who) = read_le 8 st (balance_key who)) as Hne.
  { intros st k bs Hk. apply read_le_insert_ne. intros ->. apply Hk, balance_key_is. }
  rewrite !Hne by (by apply not_balance_key). done.
Qed.
(** On empty storage that starts the ledger. *)
Lemma init_ledger e who :
  me_storage e = ∅ → let e' := (run_call e who init).1 in ledger_ok e' ∧ supply e' = initial_supply.
Proof.
  intros Hst e'. destruct (init_run e who) as (Hs & _ & Ht). fold e' in Hs, Ht. split; [|done].
  assert (total_balances e = 0 ∧ balance e who = 0) as [H0 Hb0]
    by (unfold total_balances, balance, read_le; by rewrite Hst, map_sumk_empty, lookup_empty).
  split; [lia|]. rewrite Hs. by vm_compute.
Qed.

Lemma token_step_ok e who o :
  ledger_ok e → ledger_ok (run_call e who (token_entry o)).1 ∧
  supply (run_call e who (token_entry o)).1 = supply e.
Proof.
  intros Hok. assert (ledger_ok (mock_set_caller who e)) as Hok' by exact Hok.
  unfold run_call. destruct o as [args|args|addr|]; simpl.
  - destruct (Nat.le_gt_cases 28 (length args)) as [Hl|Hl].
    + destruct (transfer_ledger (mock_set_caller who e) args Hok' Hl) as (e' & r & -> & H1 & H2 & _). done.
    + destruct (transfer_tokens_run (mock_set_caller who e) args) as (e' & r & -> & _ & Hr).
      rewrite (proj2 (Nat.ltb_lt (length args) 28)) in Hr by lia. destruct Hr as [_ Hst].
      unfold ledger_ok, total_balances, supply in *. simpl. by rewrite Hst.
  - destruct (approve_run (mock_set_caller who e) args) as (e' & r & -> & _ & [Hst|(s & v & Hst)]);
      unfold ledger_ok, total_balances, supply in *; simpl; rewrite Hst; [done|].
    rewrite total_write_other, read_le_insert_ne by (apply allowance_key_other || done). done.
  - unfold balance_of. by destruct (negb _).
  - done.
Qed.

(** C11: After initialisation on empty storage, whatever calls of transfer, approve and
    the queries follow, by whoever and with whatever arguments, the balances sum to the
    total supply and no balance exceeds it. *)
Theorem token_supply_conserved e0 deployer ops :
  me_storage e0 = ∅ →
  let e := token_run (run_call e0 deployer init).1 ops in
  total_balances e = initial_supply ∧ supply e = initial_supply ∧
  ∀ a, 0 ≤ balance e a ≤ initial_supply.
Proof.
  intros Hst e. pose proof (init_ledger e0 deployer Hst) as Hi.
  assert (ledger_ok e ∧ supply e = initial_supply) as [[Hok _] Hs'].
  { subst e. generalize ops. apply rev_ind; [exact Hi|]. intros [who o] os [IH IHs].
    unfold token_run. rewrite foldl_app. destruct (token_step_ok _ who o IH) as [H1 H2].
    split; [exact H1|]. etrans; [exact H2|exact IHs]. }
  rewrite Hok, Hs'. split_and!; [done|done|]. intros a. split; [apply read_le_nonneg|].
  rewrite <- Hs', <- Hok. apply balance_le_total.
Qed.

(** Nothing stops a second initialisation: whoever calls it is credited the
    whole supply again. *)
Lemma init_again_inflates e who :
  ledger_ok e → supply e = initial_supply → balance e who < initial_supply →
  let e' := (run_call e who init).1 in
  balance e' who = initial_supply ∧ supply e' < total_balances e'.
Proof.
  intros [Ht _] Hs Hb e'. destruct (init_run e who) as (H1 & H2 & H3). unfold e'.
  split; [done|]. rewrite H1, H3. lia.
Qed.
End Ledger.

Module TokenWitness.
Definition alice : Address := ba_repeat 20 Byte.x01.
Definition bob : Address := ba_repeat 20 Byte.x02.
Definition pay (to : Address) (v : Z) : bytes := ba_bytes to ++ to_le_bytes 8 v.
Definition ops : list (Address * TokenOp) :=
  [(alice, TTransfer (pay bob 400)); (bob, TTransfer (pay bob 100)); (bob, TTransfer (pay alice 500));
   (bob, TApprove (pay alice 7)); (alice, TTransfer [Byte.x00])].
Definition e_end : MockEnv := token_run (run_call MockEnv_default alice init).1 ops.

Lemma token_supply_conserved_witness :
  total_balances e_end = initial_supply ∧ balance e_end bob = 400 ∧ balance e_end alice = 999999600.
Proof.
  destruct (token_supply_conserved MockEnv_default alice ops eq_refl) as (Ht & _ & _).
  split; [exact Ht|]. split; by vm_compute.
Defined.
(** A stranger initialises again and owns as much as was ever issued. *)
Example reinit :
  let e := (run_call e_end bob init).1 in
  balance e bob = 1000000000 ∧ supply e = 1000000000 ∧ total_balances e = 1999999600.
Proof. by vm_compute. Qed.
(** The balance of an address is answered with the caller's. *)
Example balance_of_ignores_address :
  (run_call e_end alice (balance_of (ba_bytes bob))).2 = Some 999999600.
Proof. by vm_compute. Qed.
End TokenWitness.
