(* ===== verification/SdkWasm.v ===== *)
(** * SdkWasm: contracts on the virtual machine (contracts/sdk/src/lib.rs, wasm32 target)

    A contract is compiled twice from one source: natively, where the SDK is the
    mock environment of ContractSdk.v, and for wasm32, where every SDK function is a
    wrapper around a host import of the VM (Vm.v).  [Prog] is a program over the
    SDK's functions; [native] runs it on the mock environment and [wasm] is the guest
    it compiles to.  Where rustc places the arguments and buffers of a call in linear
    memory is the parameter [WasmLayout].  The theorems relate the two targets, so
    that what TokenContract.v proves on the mock holds on the chain, and say where
    they differ. *)

From S2P Require Import Prelude Crypto Merkle CoreTypes Validators Vm ContractSdk TokenContract.

(** ** Linear memory *)
(** The memory at a host call that passes the given buffers, and their addresses. *)
Class WasmLayout := place : list bytes → bytes * list Z.
Definition region (mem : bytes) (p : Z) (n : nat) : bytes := take n (drop (Z.to_nat p) mem).
(** Every buffer lies inside the memory, which is below 2^31 bytes, at its address. *)
Class WasmLayoutLaws `{WasmLayout} : Prop :=
  place_spec l i b :
    sumZ lenZ l < 2 ^ 24 → l !! i = Some b →
    let p := (place l).2 !!! i in
    0 ≤ p ∧ p + lenZ b ≤ lenZ (place l).1 ∧ lenZ (place l).1 < 2 ^ 31 ∧
    region (place l).1 p (length b) = b.

(** ** The SDK's wrappers, in continuation style *)
Section Wrappers.
Context `{WasmLayout} {A : Type}.

Definition buffer_after (m : memory) (p : Z) (n : nat) : bytes := default [] ((λ mem, region mem p n) <$> m).

Definition wasm_storage_read (key : bytes) (k : option bytes → Guest A) : Guest A :=
  let '(mem, ps) := place [key; replicate 4096 Byte.x00] in
  GHost (HcStorageRead (ps !!! 0%nat) (as_i 32 (lenZ key)) (ps !!! 1%nat)) (Some mem) (λ m len,
    if 0 <? len then k (Some (take (Z.to_nat len) (buffer_after m (ps !!! 1%nat) 4096))) else k None).
Definition wasm_storage_write (key value : bytes) (k : Guest A) : Guest A :=
  let '(mem, ps) := place [key; value] in
  GHost (HcStorageWrite (ps !!! 0%nat) (as_i 32 (lenZ key)) (ps !!! 1%nat) (as_i 32 (lenZ value))) (Some mem)
    (λ _ _, k).
(** The body [caller] and [self_address] share. *)
Definition wasm_address (call : Z → HostCall) (k : Address → Guest A) : Guest A :=
  let '(mem, ps) := place [replicate 20 Byte.x00] in
  GHost (call (ps !!! 0%nat)) (Some mem) (λ m _, k (ba_of 20 (buffer_after m (ps !!! 0%nat) 20))).
Definition wasm_caller (k : Address → Guest A) : Guest A := wasm_address HcCaller k.
Definition wasm_self_address (k : Address → Guest A) : Guest A := wasm_address HcSelfAddress k.
(** The body of the functions without arguments: [as u64] of the import's result. *)
Definition wasm_number (call : HostCall) (k : Z → Guest A) : Guest A :=
  GHost call (Some (place []).1) (λ _ v, k (as_u 64 v)).
Definition wasm_block_number (k : Z → Guest A) : Guest A := wasm_number HcBlockNumber k.
Definition wasm_block_timestamp (k : Z → Guest A) : Guest A := wasm_number HcBlockTimestamp k.
Definition wasm_chain_id (k : Z → Guest A) : Guest A := wasm_number HcChainId k.
Definition wasm_self_balance (k : Z → Guest A) : Guest A := wasm_number HcSelfBalance k.
Definition wasm_transfer (to : Address) (amount : Z) (k : bool → Guest A) : Guest A :=
  let '(mem, ps) := place [ba_bytes to] in
  GHost (HcTransfer (ps !!! 0%nat) (as_i 64 amount)) (Some mem) (λ _ v, k (v =? 0)).
Definition wasm_emit_event (data : bytes) (k : Guest A) : Guest A :=
  let '(mem, ps) := place [data] in
  GHost (HcEmitEvent 0 0 (ps !!! 0%nat) (as_i 32 (lenZ data))) (Some mem) (λ _ _, k).
(** After the host call the function is [unreachable!()]. *)
Definition wasm_abort (msg : string) : Guest A :=
  let '(mem, ps) := place [b_ msg] in
  GHost (HcAbort (ps !!! 0%nat) (as_i 32 (lenZ (b_ msg)))) (Some mem) (λ _ _, GTrap "unreachable").
End Wrappers.

(** ** Programs over the SDK *)
Inductive Prog (A : Type) : Type :=
| PRet (a : A)
| PPanic
| PRead (key : bytes) (k : option bytes → Prog A)
| PWrite (key value : bytes) (k : Prog A)
| PCaller (k : Address → Prog A)
| PSelf (k : Address → Prog A)
| PBlockNumber (k : Z → Prog A)
| PTimestamp (k : Z → Prog A)
| PChainId (k : Z → Prog A)
| PBalance (k : Z → Prog A)
| PTransfer (to : Address) (amount : Z) (k : bool → Prog A)
| PEmit (data : string) (k : Prog A)
| PAbort (msg : string).
Arguments PRet {A} a.
Arguments PPanic {A}.
Arguments PRead {A} key k.
Arguments PWrite {A} key value k.
Arguments PCaller {A} k.
Arguments PSelf {A} k.
Arguments PBlockNumber {A} k.
Arguments PTimestamp {A} k.
Arguments PChainId {A} k.
Arguments PBalance {A} k.
Arguments PTransfer {A} to amount k.
Arguments PEmit {A} data k.
Arguments PAbort {A} msg.

#[export] Instance prog_ret : MRet Prog := @PRet.
#[export] Instance prog_bind : MBind Prog := fix bind A B f p {struct p} :=
  match p with
  | PRet a => f a
  | PPanic => PPanic
  | PRead key k => PRead key (λ v, bind _ _ f (k v))
  | PWrite key value k => PWrite key value (bind _ _ f k)
  | PCaller k => PCaller (λ v, bind _ _ f (k v))
  | PSelf k => PSelf (λ v, bind _ _ f (k v))
  | PBlockNumber k => PBlockNumber (λ v, bind _ _ f (k v))
  | PTimestamp k => PTimestamp (λ v, bind _ _ f (k v))
  | PChainId k => PChainId (λ v, bind _ _ f (k v))
  | PBalance k => PBalance (λ v, bind _ _ f (k v))
  | PTransfer to amount k => PTransfer to amount (λ v, bind _ _ f (k v))
  | PEmit data k => PEmit data (bind _ _ f k)
  | PAbort msg => PAbort msg
  end.

(** The native target. *)
Fixpoint native {A} (p : Prog A) : contract A :=
  match p with
  | PRet a => mret a
  | PPanic => λ _, Err SliceOutOfRange
  | PRead key k => v ← ContractSdk.storage_read key; native (k v)
  | PWrite key value k => _ ← ContractSdk.storage_write key value; native k
  | PCaller k => v ← caller; native (k v)
  | PSelf k => v ← self_address; native (k v)
  | PBlockNumber k => v ← block_number; native (k v)
  | PTimestamp k => v ← block_timestamp; native (k v)
  | PChainId k => v ← sdk_chain_id; native (k v)
  | PBalance k => v ← self_balance; native (k v)
  | PTransfer to amount k => v ← sdk_transfer to amount; native (k v)
  | PEmit data k => _ ← ContractSdk.emit_event data; native k
  | PAbort msg => abort msg
  end.
(** The wasm32 target.  A panic is a trap. *)
Fixpoint wasm `{WasmLayout} {A} (p : Prog A) : Guest A :=
  match p with
  | PRet a => GDone a
  | PPanic => GTrap "unreachable"
  | PRead key k => wasm_storage_read key (λ v, wasm (k v))
  | PWrite key value k => wasm_storage_write key value (wasm k)
  | PCaller k => wasm_caller (λ v, wasm (k v))
  | PSelf k => wasm_self_address (λ v, wasm (k v))
  | PBlockNumber k => wasm_block_number (λ v, wasm (k v))
  | PTimestamp k => wasm_block_timestamp (λ v, wasm (k v))
  | PChainId k => wasm_chain_id (λ v, wasm (k v))
  | PBalance k => wasm_self_balance (λ v, wasm (k v))
  | PTransfer to amount k => wasm_transfer to amount (λ v, wasm (k v))
  | PEmit data k => wasm_emit_event (b_ data) (wasm k)
  | PAbort msg => wasm_abort msg
  end.

(** ** What a call finds in memory *)
Section Memory.
Context `{WasmLayoutLaws}.
Implicit Types (l : list bytes) (b v : bytes).

Lemma lenZ_arg l i b : sumZ lenZ l < 2 ^ 24 → l !! i = Some b → 0 ≤ lenZ b < 2 ^ 24.
Proof.
  intros Hl Hi. split; [unfold lenZ; lia|]. eapply Z.le_lt_trans; [|exact Hl].
  apply sumZ_elem_le; [intros; unfold lenZ; lia|by eapply list_elem_of_lookup_2].
Qed.
Lemma as_i32_len b : 0 ≤ lenZ b < 2 ^ 24 → as_i 32 (lenZ b) = lenZ b.
Proof. intros. apply as_i_small; lia. Qed.
Lemma as_usize_small z : 0 ≤ z < 2 ^ 31 → as_usize z = z.
Proof. intros. apply as_u_small. unfold in_u. lia. Qed.
Lemma alloc_small z : 0 ≤ z < 2 ^ 31 → alloc_ok (as_usize z) = true.
Proof. intros. rewrite as_usize_small by done. apply Z.ltb_lt. lia. Qed.

Lemma placed_read l i b :
  sumZ lenZ l < 2 ^ 24 → l !! i = Some b →
  mem_read (place l).1 (as_usize ((place l).2 !!! i)) (as_usize (as_i 32 (lenZ b))) = Some b ∧
  alloc_ok (as_usize (as_i 32 (lenZ b))) = true.
Proof.
  intros Hl Hi. pose proof (lenZ_arg _ _ _ Hl Hi). destruct (place_spec _ _ _ Hl Hi) as (Hp & Hin & Hm & Hr).
  rewrite as_i32_len by done. split; [|apply alloc_small; lia].
  rewrite !as_usize_small by lia. unfold mem_read. rewrite (proj2 (Z.leb_le _ _)) by done.
  unfold lenZ in *. rewrite Nat2Z.id. by f_equal.
Qed.
Lemma placed_write l i b v :
  sumZ lenZ l < 2 ^ 24 → l !! i = Some b → lenZ v ≤ lenZ b →
  ∃ mem, mem_write (place l).1 (as_usize ((place l).2 !!! i)) v = Some mem ∧
         ∀ n, (length v ≤ n)%nat → take (length v) (region mem ((place l).2 !!! i) n) = v.
Proof.
  intros Hl Hi Hv. pose proof (lenZ_arg _ _ _ Hl Hi). destruct (place_spec _ _ _ Hl Hi) as (Hp & Hin & Hm & _).
  rewrite as_usize_small by lia. set (p := (place l).2 !!! i) in *. unfold mem_write.
  rewrite (proj2 (Z.leb_le _ _)) by lia. eexists. split; [done|]. intros n Hn. unfold region.
  rewrite take_take, Nat.min_l by done.
  assert (length (take (Z.to_nat p) (place l).1) = Z.to_nat p) as Htl by (rewrite length_take; unfold lenZ in *; lia).
  rewrite drop_app_length' by done. by rewrite take_app_length.
Qed.
End Memory.

(** ** The cost of a run, and the runs that mean the same on both targets *)
Section Runs.
Context (costs : GasCosts) {A : Type}.
Implicit Types (p : Prog A) (e : MockEnv).

(** The gas the host calls of a native run would cost. *)
Fixpoint vm_cost p e : Z :=
  match p with
  | PRet _ | PPanic | PAbort _ => 0
  | PRead key k => cost_storage_read costs + vm_cost (k (me_storage e !! key)) e
  | PWrite key value k => cost_storage_write costs + vm_cost k (me_set_storage e (<[key := value]> (me_storage e)))
  | PCaller k => vm_cost (k (me_caller e)) e
  | PSelf k => vm_cost (k (me_self_addr e)) e
  | PBlockNumber k => vm_cost (k (me_block_number e)) e
  | PTimestamp k => vm_cost (k (me_block_timestamp e)) e
  | PChainId k => vm_cost (k (me_chain_id e)) e
  | PBalance k => vm_cost (k (me_self_balance e)) e
  | PTransfer to amount k =>
      cost_transfer costs +
      (if amount <=? me_self_balance e then
         vm_cost (k true) (me_set e (me_storage e) (me_caller e) (me_self_balance e -! amount) (me_events e)
                             (me_transfers e ++ [(to, amount)]))
       else vm_cost (k false) e)
  | PEmit data k =>
      event_cost costs 0 (lenZ (b_ data)) +
      vm_cost k (me_set e (me_storage e) (me_caller e) (me_self_balance e) (me_events e ++ [b_ data]) (me_transfers e))
  end.

Definition short (b : bytes) : bool := lenZ b <? 2 ^ 16.
(** Values between 1 and 4096 bytes, short keys, events and messages, no payment
    of the contract to itself. *)
Fixpoint vm_fits p e : bool :=
  match p with
  | PRet _ | PPanic => true
  | PAbort msg => short (b_ msg)
  | PRead key k => short key && vm_fits (k (me_storage e !! key)) e
  | PWrite key value k =>
      short key && (0 <? lenZ value) && (lenZ value <=? 4096) &&
      vm_fits k (me_set_storage e (<[key := value]> (me_storage e)))
  | PCaller k => vm_fits (k (me_caller e)) e
  | PSelf k => vm_fits (k (me_self_addr e)) e
  | PBlockNumber k => vm_fits (k (me_block_number e)) e
  | PTimestamp k => vm_fits (k (me_block_timestamp e)) e
  | PChainId k => vm_fits (k (me_chain_id e)) e
  | PBalance k => vm_fits (k (me_self_balance e)) e
  | PTransfer to amount k =>
      bool_decide (to ≠ me_self_addr e) && bool_decide (in_u 64 amount) &&
      (if amount <=? me_self_balance e then
         vm_fits (k true) (me_set e (me_storage e) (me_caller e) (me_self_balance e -! amount) (me_events e)
                             (me_transfers e ++ [(to, amount)]))
       else vm_fits (k false) e)
  | PEmit data k =>
      short (b_ data) &&
      vm_fits k (me_set e (me_storage e) (me_caller e) (me_self_balance e) (me_events e ++ [b_ data]) (me_transfers e))
  end.
End Runs.

(** ** The mock environment a context stands for *)
(** The balance deltas of a list of payments. *)
Definition paid (self : Address) (ts : list (Address * Z)) : gmap Address Z :=
  foldl (λ bc '(to, amount), add_delta (sub_delta bc self amount) to amount) ∅ ts.

Record sees (base : Z) (c : ExecutionContext) (e : MockEnv) : Prop := {
  see_storage k : Vm.storage_read c (ctx_contract_address c) k = Ok (me_storage e !! k);
  see_cells : map_Forall (λ _ v, 0 < lenZ v ≤ 4096) (me_storage e);
  see_caller : ctx_caller c = me_caller e;
  see_self : ctx_contract_address c = me_self_addr e;
  see_number : ctx_block_number c = me_block_number e ∧ in_u 64 (me_block_number e);
  see_timestamp : ctx_block_timestamp c = me_block_timestamp e ∧ in_u 64 (me_block_timestamp e);
  see_chain_id : ctx_chain_id c = me_chain_id e ∧ in_u 64 (me_chain_id e);
  see_account : ∃ a, sr_get_account (ctx_state_reader c) (ctx_contract_address c) = Ok a ∧
                     default 0 (acc_balance <$> a) = base;
  see_balance : 0 ≤ me_self_balance e ≤ base ∧ base < 2 ^ 63 ∧
                default 0 (ctx_balance_changes c !! ctx_contract_address c) = me_self_balance e - base;
  see_paid : ctx_balance_changes c = paid (ctx_contract_address c) (me_transfers e);
  see_logs : ctx_logs c =
    (λ d, {| log_address := ctx_contract_address c; log_topics := []; log_data := d |}) <$> me_events e
}.

Section HostSteps.
Context `{WasmLayoutLaws} (costs : GasCosts).
Implicit Types (c : ExecutionContext) (e : MockEnv).

(** Enough gas for [n] more. *)
Definition affords c (n : Z) : Prop :=
  0 ≤ n ∧ gm_consumed (ctx_gas_meter c) + n ≤ gm_limit (ctx_gas_meter c) < 2 ^ 64.
Definition spend c (n : Z) : ExecutionContext :=
  ctx_set_gas c {| gm_limit := gm_limit (ctx_gas_meter c); gm_consumed := gm_consumed (ctx_gas_meter c) + n |}.

Lemma consume_affords c n :
  affords c n → consume (ctx_gas_meter c) n =
    ({| gm_limit := gm_limit (ctx_gas_meter c); gm_consumed := gm_consumed (ctx_gas_meter c) + n |}, Ok ()).
Proof.
  intros [Hn Hl]. unfold consume, sat_add. rewrite Z.min_r by lia.
  by rewrite (proj2 (Z.ltb_ge _ _)) by lia.
Qed.
Lemma affords_spend c n m : 0 ≤ n → affords c (n + m) → 0 ≤ m → affords c n ∧ affords (spend c n) m.
Proof. unfold affords. cbn. lia. Qed.
Lemma sees_spend base c e n : sees base c e → sees base (spend c n) e.
Proof. by intros []. Qed.

Lemma balance_seen base c e :
  sees base c e → Vm.get_balance c (ctx_contract_address c) = Ok (me_self_balance e).
Proof.
  intros Hs. destruct (see_account _ _ _ Hs) as (a & Ha & Hb). destruct (see_balance _ _ _ Hs) as (Hr & Hlt & Hd).
  unfold Vm.get_balance. rewrite Ha. cbn -[Z.pow]. rewrite Hb, Hd.
  rewrite as_i_small by lia. unfold iadd. rewrite as_i_small by lia.
  replace (base + (me_self_balance e - base)) with (me_self_balance e) by lia.
  rewrite Z.max_l by lia. rewrite as_u_small; [done|]. unfold in_u. lia.
Qed.
Lemma number_roundtrip n : in_u 64 n → as_u 64 (as_i 64 n) = n.
Proof.
  intros Hn. unfold as_u, as_i. rewrite (Z.mod_small n) by done. unfold in_u in Hn.
  case_match; [by apply Z.mod_small|].
  rewrite <- (Z.mod_unique_pos (n - 2 ^ 64) (2 ^ 64) (-1) n) by lia. done.
Qed.
End HostSteps.

(** ** Each wrapper does on the VM what the native function does *)
Section Steps.
Context `{WasmLayoutLaws} `{Wasmtime} (costs : GasCosts) {A : Type}.
Implicit Types (c : ExecutionContext) (e : MockEnv) (b key value : bytes).

Lemma short_lt b : short b = true → 0 ≤ lenZ b < 2 ^ 16.
Proof. unfold short, lenZ. intros Hb%Z.ltb_lt. lia. Qed.

Lemma wasm_read_step base c e key (k : option bytes → Guest A) :
  sees base c e → affords c (cost_storage_read costs) → short key = true →
  run_guest costs c (wasm_storage_read key k) =
  run_guest costs (spend c (cost_storage_read costs)) (k (me_storage e !! key)).
Proof.
  intros Hs Hg Hk%short_lt. unfold wasm_storage_read.
  assert (sumZ lenZ [key; replicate 4096 Byte.x00] < 2 ^ 24) as Hl.
  { cbn [sumZ foldr]. unfold lenZ in *. rewrite length_replicate. simpl. lia. }
  destruct (placed_read _ 0%nat key Hl eq_refl) as [Hr Ha].
  pose proof (λ v, placed_write [key; replicate 4096 Byte.x00] 1%nat (replicate 4096 Byte.x00) v Hl eq_refl) as Hw.
  destruct (place [key; replicate 4096 Byte.x00]) as [mem ps]. cbn [fst snd] in *.
  cbn [run_guest host_call]. unfold host_storage_read. rewrite consume_affords by done. cbn [is_err is_ok negb].
  rewrite Ha. cbn [negb]. rewrite Hr.
  change (Vm.storage_read (ctx_set_gas c _) _ key) with (Vm.storage_read c (ctx_contract_address c) key).
  rewrite (see_storage _ _ _ Hs). destruct (me_storage e !! key) as [v|] eqn:Hv; [|done].
  assert (0 < lenZ v ≤ 4096) as Hv4 by exact (see_cells _ _ _ Hs key v Hv).
  destruct (Hw v) as (mem' & Hmw & Hreg); [unfold lenZ; rewrite length_replicate; unfold lenZ in Hv4; lia|].
  rewrite Hmw. rewrite as_i_small by lia.
  rewrite (proj2 (Z.ltb_lt _ _)) by lia. unfold buffer_after. cbn [fmap option_fmap option_map default].
  unfold lenZ in Hv4 |- *. rewrite Nat2Z.id. cbn. rewrite Hreg by lia. done.
Qed.
Lemma wasm_write_step c key value (k : Guest A) :
  affords c (cost_storage_write costs) → short key = true → lenZ value ≤ 4096 →
  run_guest costs c (wasm_storage_write key value k) =
  run_guest costs (Vm.storage_write (spend c (cost_storage_write costs)) (ctx_contract_address c) key value) k.
Proof.
  intros Hg Hk%short_lt Hv. unfold wasm_storage_write.
  assert (sumZ lenZ [key; value] < 2 ^ 24) as Hl by (cbn; unfold lenZ in *; lia).
  destruct (placed_read _ 0%nat key Hl eq_refl) as [Hr Ha]. destruct (placed_read _ 1%nat value Hl eq_refl) as [Hr' Ha'].
  destruct (place [key; value]) as [mem ps]. cbn [fst snd] in *.
  cbn [run_guest host_call]. unfold host_storage_write. rewrite consume_affords by done.
  rewrite Ha, Ha'. cbn [negb andb]. by rewrite Hr, Hr'.
Qed.
Lemma wasm_address_step (call : Z → HostCall) c a (k : Address → Guest A) :
  (∀ m p, host_call costs c m (call p) = write_address c m p a) →
  run_guest costs c (wasm_address call k) = run_guest costs c (k a).
Proof.
  intros Hc. unfold wasm_address.
  pose proof (placed_write [replicate 20 Byte.x00] 0%nat _ (ba_bytes a) ltac:(done) eq_refl) as Hw.
  destruct Hw as (mem' & Hmw & Hreg); [unfold lenZ; by rewrite length_replicate, ba_length|].
  destruct (place [replicate 20 Byte.x00]) as [mem ps]. cbn [fst snd] in *. cbn [run_guest]. rewrite Hc.
  unfold write_address. rewrite Hmw. unfold buffer_after. cbn [fmap option_fmap option_map default].
  specialize (Hreg 20%nat). rewrite ba_length in Hreg. specialize (Hreg ltac:(lia)).
  rewrite take_ge in Hreg by (unfold region; rewrite length_take; lia). cbn. rewrite Hreg.
  do 2 f_equal. apply barray_eq. apply ba_of_bytes. apply ba_length.
Qed.
Lemma wasm_number_step (call : HostCall) c v (k : Z → Guest A) :
  in_u 64 v → (∀ m, host_call costs c m call = HReturn c m (as_i 64 v)) →
  run_guest costs c (wasm_number call k) = run_guest costs c (k v).
Proof. intros Hv Hc. unfold wasm_number. cbn [run_guest]. by rewrite Hc, number_roundtrip. Qed.
Lemma wasm_emit_step c (data : bytes) (k : Guest A) :
  affords c (event_cost costs 0 (lenZ data)) → short data = true →
  run_guest costs c (wasm_emit_event data k) =
  run_guest costs (Vm.emit_event (spend c (event_cost costs 0 (lenZ data)))
    {| log_address := ctx_contract_address c; log_topics := []; log_data := data |}) k.
Proof.
  intros Hg Hk%short_lt. unfold wasm_emit_event.
  assert (sumZ lenZ [data] < 2 ^ 24) as Hl by (cbn; unfold lenZ in *; lia).
  destruct (placed_read _ 0%nat data Hl eq_refl) as [Hr Ha].
  destruct (place [data]) as [mem ps]. cbn [fst snd] in *.
  cbn [run_guest host_call]. unfold host_emit_event. rewrite as_i32_len in * by lia.
  rewrite consume_affords by done. cbn [is_err is_ok negb]. rewrite Ha. cbn [negb]. by rewrite Hr.
Qed.
Lemma wasm_transfer_step base c e to amount (k : bool → Guest A) :
  sees base c e → affords c (cost_transfer costs) → in_u 64 amount →
  run_guest costs c (wasm_transfer to amount k) =
  if amount <=? me_self_balance e then
    run_guest costs (ctx_set_balances (spend c (cost_transfer costs))
      (add_delta (sub_delta (ctx_balance_changes c) (ctx_contract_address c) amount) to amount)) (k true)
  else run_guest costs (spend c (cost_transfer costs)) (k false).
Proof.
  intros Hs Hg Hamt. unfold wasm_transfer.
  assert (sumZ lenZ [ba_bytes to] < 2 ^ 24) as Hl by (cbn; unfold lenZ; rewrite ba_length; lia).
  destruct (placed_read _ 0%nat _ Hl eq_refl) as [Hr _].
  destruct (place [ba_bytes to]) as [mem ps]. cbn [fst snd] in *.
  cbn [run_guest host_call]. unfold host_transfer. rewrite consume_affords by done. cbn [is_err is_ok negb].
  rewrite as_i32_len in Hr by (unfold lenZ; rewrite ba_length; lia).
  unfold lenZ in Hr. rewrite ba_length in Hr. change (as_usize (Z.of_nat 20)) with 20 in Hr. rewrite Hr.
  fold (spend c (cost_transfer costs)).
  assert (ba_of 20 (ba_bytes to) = to) as -> by (apply barray_eq, ba_of_bytes, ba_length).
  unfold Vm.transfer.
  rewrite (balance_seen base (spend c (cost_transfer costs)) e) by (by apply sees_spend).
  cbn [mbind result_bind]. destruct (see_balance _ _ _ Hs) as (Hb & Hlt & _). unfold in_u in Hamt.
  destruct (Z.leb_spec amount (me_self_balance e)) as [Hle|Hgt].
  - rewrite as_i_small by lia. rewrite as_u_small by (unfold in_u; lia).
    rewrite (proj2 (Z.ltb_ge _ _)) by lia. rewrite as_i_small by lia. done.
  - assert (me_self_balance e < as_u 128 (as_i 64 amount)) as Hbig.
    { destruct (decide (amount < 2 ^ 63)).
      - rewrite as_i_small by lia. rewrite as_u_small by (unfold in_u; lia). lia.
      - unfold as_i. rewrite Z.mod_small by lia. rewrite (proj2 (Z.ltb_ge _ _)) by lia.
        unfold as_u. rewrite <- (Z.mod_unique_pos (amount - 2 ^ 64) (2 ^ 128) (-1) (amount - 2 ^ 64 + 2 ^ 128)) by lia. lia. }
    rewrite (proj2 (Z.ltb_lt _ _)) by done. done.
Qed.
End Steps.

(** ** The environment follows the context *)
Section Follow.
Implicit Types (c : ExecutionContext) (e : MockEnv).

Lemma sees_write base c e key value :
  sees base c e → 0 < lenZ value ≤ 4096 →
  sees base (Vm.storage_write c (ctx_contract_address c) key value)
            (me_set_storage e (<[key := value]> (me_storage e))).
Proof.
  intros [] Hv. constructor; try done.
  - intros k. cbn. unfold Vm.storage_read. cbn. rewrite !lookup_insert.
    destruct (decide (key = k)) as [->|Hne]; [by rewrite decide_True by done|].
    rewrite decide_False by congruence. apply see_storage0.
  - cbn. by apply map_Forall_insert_2.
Qed.
Lemma sees_emit base c e data :
  sees base c e →
  sees base (Vm.emit_event c {| log_address := ctx_contract_address c; log_topics := []; log_data := data |})
    (me_set e (me_storage e) (me_caller e) (me_self_balance e) (me_events e ++ [data]) (me_transfers e)).
Proof. intros []. constructor; try done. cbn. by rewrite fmap_app, see_logs0. Qed.
Lemma sees_transfer base c e to amount :
  sees base c e → to ≠ me_self_addr e → 0 ≤ amount ≤ me_self_balance e →
  sees base (ctx_set_balances c (add_delta (sub_delta (ctx_balance_changes c) (ctx_contract_address c) amount) to amount))
    (me_set e (me_storage e) (me_caller e) (me_self_balance e -! amount) (me_events e)
       (me_transfers e ++ [(to, amount)])).
Proof.
  intros [] Hto Ha. destruct see_balance0 as (Hb & Hlt & Hd). constructor; try done.
  - cbn. rewrite wsub_small by (unfold in_u; lia). split_and!; [lia|lia|lia|].
    unfold add_delta, sub_delta. rewrite lookup_insert_ne by congruence. rewrite lookup_insert_eq. cbn.
    rewrite Hd. unfold isub. rewrite as_i_small by lia. lia.
  - cbn. unfold paid. rewrite foldl_app. cbn. by rewrite see_paid0.
Qed.
End Follow.

(** ** The two targets agree *)
Section Agreement.
Context `{WasmLayoutLaws} `{Wasmtime} (costs : GasCosts) {A : Type}.
Context (Hcosts : 0 ≤ cost_storage_read costs ∧ 0 ≤ cost_storage_write costs ∧ 0 ≤ cost_transfer costs).
Implicit Types (c : ExecutionContext) (e : MockEnv) (p : Prog A).

Lemma event_cost_nonneg n m : 0 ≤ event_cost costs n m.
Proof. unfold event_cost. apply (wadd_in_u 64). lia. Qed.
Lemma vm_cost_nonneg p e : 0 ≤ vm_cost costs p e.
Proof.
  revert e. induction p; intros e; cbn [vm_cost]; try done; auto.
  - pose proof (H2 (me_storage e !! key) e). lia.
  - pose proof (IHp (me_set_storage e (<[key:=value]> (me_storage e)))). lia.
  - case_match; match goal with |- context [vm_cost costs (k ?b) ?e] => pose proof (H2 b e) end; lia.
  - pose proof (event_cost_nonneg 0 (lenZ (b_ data))).
    match goal with |- context [vm_cost costs p ?e] => pose proof (IHp e) end. lia.
Qed.

(** The run of a guest, told by the native run it stands for. *)
Definition same_outcome (base : Z) c (g : Guest A) (n : Z) (r : result Panic (MockEnv * A)) : Prop :=
  match r with
  | Ok (e', a) => ∃ c', run_guest costs c g = Some (c', Ok a) ∧ sees base c' e' ∧
                        ctx_gas_meter c' = ctx_gas_meter (spend c n)
  | Err _ => ∃ c' m, run_guest costs c g = Some (c', Err m)
  end.

Lemma outcome_step base c g c1 g1 n1 n2 r :
  run_guest costs c g = run_guest costs c1 g1 → ctx_gas_meter c1 = ctx_gas_meter (spend c n1) →
  same_outcome base c1 g1 n2 r → same_outcome base c g (n1 + n2) r.
Proof.
  intros Hrun Hgas. unfold same_outcome. rewrite Hrun. destruct r as [[e a]|]; [|done].
  intros (c' & Hr & Hs & Hg). exists c'. split_and!; [done|done|]. rewrite Hg. cbn. rewrite Hgas. cbn.
  f_equal. lia.
Qed.
Lemma outcome_free base c g c1 g1 n r :
  run_guest costs c g = run_guest costs c1 g1 → ctx_gas_meter c1 = ctx_gas_meter c →
  same_outcome base c1 g1 n r → same_outcome base c g n r.
Proof.
  intros Hrun Hgas Ho. change n with (0 + n). eapply outcome_step; [done| |done].
  rewrite Hgas. cbn. destruct (ctx_gas_meter c). cbn. f_equal. lia.
Qed.
Lemma affords_meter c c1 n : ctx_gas_meter c1 = ctx_gas_meter c → affords c n → affords c1 n.
Proof. unfold affords. by intros ->. Qed.

Lemma wasm_simulates base p : ∀ c e,
  sees base c e → affords c (vm_cost costs p e) → vm_fits p e = true →
  same_outcome base c (wasm p) (vm_cost costs p e) (native p e).
Proof.
  induction p as [a| |key k IH|key value k IH|k IH|k IH|k IH|k IH|k IH|k IH|to amount k IH|data k IH|msg];
    intros c e Hs Hg Hf; cbn [wasm native vm_cost vm_fits] in *.
  - eexists. split; [done|]. split; [done|]. cbn. destruct (ctx_gas_meter c). cbn. f_equal. lia.
  - by eexists _, _.
  - apply andb_true_iff in Hf as [Hk Hf]. apply affords_spend in Hg as [Hg Hg']; [|lia|apply vm_cost_nonneg].
    eapply outcome_step; [by apply (wasm_read_step costs base c e)|done|]. apply IH; [by apply sees_spend|done|done].
  - apply andb_true_iff in Hf as [[[Hk Hv%Z.ltb_lt]%andb_true_iff Hv'%Z.leb_le]%andb_true_iff Hf].
    apply affords_spend in Hg as [Hg Hg']; [|lia|apply vm_cost_nonneg].
    eapply outcome_step; [by apply wasm_write_step|done|]. apply IH; [|done|done].
    apply (sees_write base (spend c _)); [by apply sees_spend|lia].
  - eapply outcome_free; [apply (wasm_address_step _ HcCaller c (me_caller e))|done|by apply IH].
    intros m q. cbn. unfold host_caller. by rewrite (see_caller _ _ _ Hs).
  - eapply outcome_free; [apply (wasm_address_step _ HcSelfAddress c (me_self_addr e))|done|by apply IH].
    intros m q. cbn. unfold host_self_address. by rewrite (see_self _ _ _ Hs).
  - destruct (see_number _ _ _ Hs) as [Hn Hu].
    eapply outcome_free; [apply (wasm_number_step _ HcBlockNumber c (me_block_number e) _ Hu)|done|by apply IH].
    intros m. cbn. unfold host_block_number. by rewrite Hn.
  - destruct (see_timestamp _ _ _ Hs) as [Hn Hu].
    eapply outcome_free; [apply (wasm_number_step _ HcBlockTimestamp c (me_block_timestamp e) _ Hu)|done|by apply IH].
    intros m. cbn. unfold host_block_timestamp. by rewrite Hn.
  - destruct (see_chain_id _ _ _ Hs) as [Hn Hu].
    eapply outcome_free; [apply (wasm_number_step _ HcChainId c (me_chain_id e) _ Hu)|done|by apply IH].
    intros m. cbn. unfold host_chain_id. by rewrite Hn.
  - destruct (see_balance _ _ _ Hs) as (Hb & Hlt & _).
    eapply outcome_free; [apply (wasm_number_step _ HcSelfBalance c (me_self_balance e))|done|by apply IH].
    + unfold in_u. lia.
    + intros m. cbn. unfold host_self_balance. by rewrite (balance_seen _ _ _ Hs).
  - apply andb_true_iff in Hf as [[Hto%bool_decide_eq_true Hu%bool_decide_eq_true]%andb_true_iff Hf].
    apply affords_spend in Hg as [Hg Hg']; [|lia|case_match; apply vm_cost_nonneg].
    pose proof (wasm_transfer_step costs base c e to amount (λ v, wasm (k v)) Hs Hg Hu) as Hrun.
    unfold mbind, contract_bind, sdk_transfer.
    destruct (Z.leb_spec amount (me_self_balance e)) as [Hle|Hgt].
    + eapply outcome_step; [exact Hrun|done|]. apply IH; [|done|done].
      apply (sees_transfer base (spend c _)); [by apply sees_spend|done|unfold in_u in Hu; lia].
    + eapply outcome_step; [exact Hrun|done|]. apply IH; [by apply sees_spend|done|done].
  - apply andb_true_iff in Hf as [Hk Hf].
    apply affords_spend in Hg as [Hg Hg']; [|apply event_cost_nonneg|apply vm_cost_nonneg].
    eapply outcome_step; [by apply wasm_emit_step|done|]. apply IH; [|done|done].
    apply (sees_emit base (spend c _)). by apply sees_spend.
  - unfold same_outcome, abort, wasm_abort. destruct (place [b_ msg]) as [mem ps]. cbn [run_guest host_call].
    unfold host_abort. repeat case_match; simplify_eq; by eexists _, _.
Qed.
End Agreement.

(** ** The token contract over the SDK (contracts/token/src/lib.rs) *)
Definition u64_of (v : option bytes) : Z :=
  match v with Some b => if (length b =? 8)%nat then from_le_bytes b else 0 | None => 0 end.
Definition p_read_u64 (key : bytes) : Prog Z := PRead key (λ v, mret (u64_of v)).
Definition p_write_u64 (key : bytes) (value : Z) : Prog () := PWrite key (to_le_bytes 8 value) (mret ()).
Definition p_caller : Prog Address := PCaller mret.
Definition p_emit (data : string) : Prog () := PEmit data (mret ()).
Definition p_put (key value : bytes) : Prog () := PWrite key value (mret ()).
Definition p_slice (args : bytes) (a b : nat) : Prog bytes :=
  if (a <=? b)%nat && (b <=? length args)%nat then mret (take (b - a) (drop a args)) else PPanic.

Definition p_init : Prog Z :=
  c ← p_caller;
  p_put (b_ "name") (b_ "RustChain Token");;
  p_put (b_ "symbol") (b_ "RCT");;
  p_put (b_ "decimals") [byte_of_Z 18];;
  p_put (b_ "owner") (ba_bytes c);;
  p_write_u64 (b_ "total_supply") initial_supply;;
  p_write_u64 (balance_key c) initial_supply;;
  p_emit "TokenInitialized";;
  mret 0.
Definition p_balance_of (addr : bytes) : Prog Z :=
  if negb (length addr =? 20)%nat then
    c ← p_caller; v ← p_read_u64 (balance_key c); mret (as_i 32 v)
  else
    c ← p_caller; v ← p_read_u64 (balance_key c); mret (as_i 32 v).
Definition p_transfer_tokens (args : bytes) : Prog Z :=
  if (length args <? 28)%nat then p_emit "TransferFailed:InvalidArgs";; mret (-1)
  else
    c ← p_caller;
    caller_balance ← p_read_u64 (balance_key c);
    to_bytes ← p_slice args 0 20;
    let to_addr : Address := ba_of 20 to_bytes in
    amount_bytes ← p_slice args 20 28;
    let amount := from_le_bytes amount_bytes in
    if caller_balance <? amount then p_emit "TransferFailed:InsufficientBalance";; mret (-1)
    else
      p_write_u64 (balance_key c) (caller_balance -! amount);;
      to_balance ← p_read_u64 (balance_key to_addr);
      p_write_u64 (balance_key to_addr) (to_balance +! amount);;
      p_emit "Transfer";;
      mret 0.
Definition p_approve (args : bytes) : Prog Z :=
  if (length args <? 28)%nat then mret (-1)
  else
    c ← p_caller;
    spender_bytes ← p_slice args 0 20;
    let spender_addr : Address := ba_of 20 spender_bytes in
    amount_bytes ← p_slice args 20 28;
    let amount := from_le_bytes amount_bytes in
    p_write_u64 (allowance_key c spender_addr) amount;;
    p_emit "Approval";;
    mret 0.
Definition p_total_supply : Prog Z := v ← p_read_u64 (b_ "total_supply"); mret (as_i 32 v).
Definition token_prog (o : TokenOp) : Prog Z :=
  match o with
  | TTransfer args => p_transfer_tokens args
  | TApprove args => p_approve args
  | TBalanceOf addr => p_balance_of addr
  | TTotalSupply => p_total_supply
  end.

(** ** One source: a program and the native computation it stands for *)
Definition stands_for {A} (p : Prog A) (c : contract A) : Prop := ∀ e, native p e = c e.

Lemma native_bind {A B} (p : Prog A) (f : A → Prog B) e :
  native (p ≫= f) e = match native p e with Ok (e', a) => native (f a) e' | Err x => Err x end.
Proof.
  revert e. induction p; intros e; try done.
  all: cbn [native]; change (mbind f ?q) with (prog_bind _ _ f q); cbn [prog_bind native];
    unfold mbind, contract_bind; cbn; auto.
  unfold sdk_transfer. destruct (amount <=? me_self_balance e); cbn; auto.
Qed.
Lemma stands_ret {A} (a : A) : stands_for (mret a) (mret a).
Proof. done. Qed.
Lemma stands_bind {A B} (p : Prog A) (c : contract A) (f : A → Prog B) (g : A → contract B) :
  stands_for p c → (∀ a, stands_for (f a) (g a)) → stands_for (p ≫= f) (c ≫= g).
Proof.
  intros Hp Hf e. rewrite native_bind, Hp. unfold mbind, contract_bind. destruct (c e) as [[e' a]|]; [apply Hf|done].
Qed.
Lemma stands_read_u64 key : stands_for (p_read_u64 key) (read_u64 key).
Proof. done. Qed.
Lemma stands_write_u64 key v : stands_for (p_write_u64 key v) (write_u64 key v).
Proof. done. Qed.
Lemma stands_caller : stands_for p_caller caller.
Proof. done. Qed.
Lemma stands_emit d : stands_for (p_emit d) (ContractSdk.emit_event d).
Proof. done. Qed.
Lemma stands_put k v : stands_for (p_put k v) (ContractSdk.storage_write k v).
Proof. done. Qed.
Lemma stands_slice args a b : stands_for (p_slice args a b) (slice args a b).
Proof. intros e. unfold p_slice, slice. by destruct (_ && _). Qed.

Create HintDb stands.
#[export] Hint Resolve stands_ret stands_read_u64 stands_write_u64 stands_caller stands_emit stands_put stands_slice : stands.
Ltac stands_walk :=
  repeat first [solve [eauto with stands] | apply stands_bind; [|intros ?] | case_match].

(** On the native target the programs are the entry points of TokenContract.v. *)
Lemma stands_init : stands_for p_init init.
Proof. unfold p_init, init. stands_walk. Qed.
Lemma stands_token o : stands_for (token_prog o) (token_entry o).
Proof.
  destruct o; cbn [token_prog token_entry];
    unfold p_transfer_tokens, p_approve, p_balance_of, p_total_supply, transfer_tokens, approve, balance_of, total_supply;
    stands_walk.
Qed.

(** ** Gas budgets: what a program costs at most, on runs that fit *)
Section Budgets.
Context (costs : GasCosts).

Lemma vm_cost_bind {A B} (p : Prog A) (f : A → Prog B) e :
  vm_cost costs (p ≫= f) e =
  vm_cost costs p e + match native p e with Ok (e', a) => vm_cost costs (f a) e' | Err _ => 0 end.
Proof.
  revert e. induction p as [| | |key value p IH| | | | | | |to amount k IH|data p IH|]; intros e; try done.
  all: change (mbind f ?q) with (prog_bind _ _ f q); cbn [prog_bind native vm_cost];
    unfold mbind, contract_bind; cbn -[event_cost]; try (rewrite <- Z.add_assoc; f_equal).
  all: try match goal with IH : ∀ _ _, vm_cost _ _ _ = _ |- _ => apply IH end; try apply IH.
  unfold sdk_transfer. destruct (amount <=? me_self_balance e); apply IH.
Qed.
Lemma vm_fits_bind {A B} (p : Prog A) (f : A → Prog B) e :
  vm_fits (p ≫= f) e =
  vm_fits p e && match native p e with Ok (e', a) => vm_fits (f a) e' | Err _ => true end.
Proof.
  revert e. induction p as [| | |key value p IH| | | | | | |to amount k IH|data p IH|msg]; intros e; try done.
  all: try (cbn; by rewrite andb_true_r).
  all: change (mbind f ?q) with (prog_bind _ _ f q); cbn [prog_bind native vm_fits];
    unfold mbind, contract_bind; cbn -[short]; rewrite <- ?andb_assoc; repeat (apply (f_equal2 andb); [done|]).
  all: try match goal with IH : ∀ _ _, vm_fits _ _ = _ |- _ => apply IH end; try apply IH.
  unfold sdk_transfer. destruct (amount <=? me_self_balance e); apply IH.
Qed.

Definition within (n : Z) {A} (p : Prog A) : Prop := ∀ e, vm_cost costs p e ≤ n ∧ vm_fits p e = true.
Lemma within_bind n m {A B} (p : Prog A) (f : A → Prog B) :
  within n p → (∀ a, within (m - n) (f a)) → 0 ≤ m - n → within m (p ≫= f).
Proof.
  intros Hp Hf Hm e. rewrite vm_cost_bind, vm_fits_bind. destruct (Hp e) as [Hc ->].
  destruct (native p e) as [[e' a]|]; [destruct (Hf a e') as [Hc' ->]|]; split; done || lia.
Qed.
Lemma within_ret n {A} (a : A) : 0 ≤ n → within n (mret a).
Proof. intros Hn e. by split. Qed.
End Budgets.

(** The token's steps at the default prices. *)
Section TokenBudget.
Abbreviation within_default := (within GasCosts_default).

Lemma within_caller : within_default 0 p_caller.
Proof. done. Qed.
Lemma within_read key : short key = true → within_default 200 (p_read_u64 key).
Proof. intros Hk e. cbn. by rewrite Hk. Qed.
Lemma within_write key v : short key = true → within_default 5000 (p_write_u64 key v).
Proof.
  intros Hk e. cbn [p_write_u64 vm_cost vm_fits mret prog_ret]. rewrite Hk. unfold lenZ.
  by rewrite length_to_le_bytes.
Qed.
Lemma within_put key v : short key = true → 0 < lenZ v ≤ 4096 → within_default 5000 (p_put key v).
Proof.
  intros Hk Hv e. cbn [p_put vm_cost vm_fits mret prog_ret].
  by rewrite Hk, (proj2 (Z.ltb_lt _ _)), (proj2 (Z.leb_le _ _)) by lia.
Qed.
Lemma within_slice args a b : within_default 0 (p_slice args a b).
Proof. intros e. unfold p_slice. by destruct (_ && _). Qed.
Lemma within_emit d : lenZ (b_ d) ≤ 40 → within_default 695 (p_emit d).
Proof.
  intros Hd e. cbn -[event_cost short lenZ]. unfold event_cost, short. cbn [GasCosts_default cost_event_base
    cost_event_per_topic cost_event_per_byte].
  assert (0 ≤ lenZ (b_ d)) by (unfold lenZ; lia). rewrite as_u_small by (by vm_compute).
  rewrite (as_u_small 64 (lenZ (b_ d))) by (unfold in_u; lia). unwrap.
  rewrite (proj2 (Z.ltb_lt _ _)) by lia. split; [lia|done].
Qed.
Lemma short_balance_key a : short (balance_key a) = true.
Proof. unfold short, lenZ, balance_key. by rewrite length_app, ba_length. Qed.
Lemma short_allowance_key a b : short (allowance_key a b) = true.
Proof. unfold short, lenZ, allowance_key. by rewrite !length_app, !ba_length. Qed.

Ltac short_key :=
  lazymatch goal with
  | |- short (balance_key _) = true => apply short_balance_key
  | |- short (allowance_key _ _) = true => apply short_allowance_key
  | |- _ => by vm_compute
  end.
Ltac within_walk :=
  repeat lazymatch goal with
  | |- within _ _ (mret _) => apply within_ret; lia
  | |- within _ _ (mbind _ p_caller) => apply (within_bind _ 0); [apply within_caller|intros ?|lia]
  | |- within _ _ (mbind _ (p_slice _ _ _)) => apply (within_bind _ 0); [apply within_slice|intros ?|lia]
  | |- within _ _ (mbind _ (p_read_u64 _)) =>
      apply (within_bind _ 200); [apply within_read; short_key|intros ?|lia]
  | |- within _ _ (mbind _ (p_write_u64 _ _)) =>
      apply (within_bind _ 5000); [apply within_write; short_key|intros ?|lia]
  | |- within _ _ (mbind _ (p_put _ _)) =>
      apply (within_bind _ 5000); [apply within_put; [short_key|]|intros ?|lia]
  | |- within _ _ (mbind _ (p_emit _)) => apply (within_bind _ 695); [apply within_emit; by vm_compute|intros ?|lia]
  | |- within _ _ (if ?b then _ else _) => destruct b
  end.
Lemma token_within o : within_default 11095 (token_prog o).
Proof.
  destruct o; cbn [token_prog];
    unfold p_transfer_tokens, p_approve, p_balance_of, p_total_supply; within_walk.
Qed.
Lemma init_within : within_default 30695 p_init.
Proof.
  unfold p_init. within_walk.
  all: unfold lenZ; rewrite ?ba_length; by vm_compute.
Qed.
End TokenBudget.

Section TokenOnVm.
Context `{WasmLayoutLaws} `{Wasmtime}.

(** C18: A contract means the same on both targets of the SDK: on a context that matches
    the mock environment and has the gas, the guest a program compiles to runs on the VM's
    host functions to the very result of the native run, ends in a context that matches the
    native environment (storage, caller, block data, balance, payments, events) and consumes
    exactly the price of its host calls; a native panic is a trap. It holds for every
    program over the SDK whose stored values have 1 to 4096 bytes and that does not pay
    itself. *)
Theorem sdk_targets_agree {A} (costs : GasCosts) base (p : Prog A) c e :
  0 ≤ cost_storage_read costs → 0 ≤ cost_storage_write costs → 0 ≤ cost_transfer costs →
  sees base c e → affords c (vm_cost costs p e) → vm_fits p e = true →
  same_outcome costs base c (wasm p) (vm_cost costs p e) (native p e).
Proof. intros. by apply wasm_simulates. Qed.

(** A program within a budget, on the VM. *)
Lemma within_runs {A} base c e n (p : Prog A) (k : contract A) e' r :
  sees base c e → affords c n → within GasCosts_default n p → stands_for p k → k e = Ok (e', r) →
  ∃ c', run_guest GasCosts_default c (wasm p) = Some (c', Ok r) ∧ sees base c' e' ∧
    gm_consumed (ctx_gas_meter c') ≤ gm_consumed (ctx_gas_meter c) + n.
Proof.
  intros Hs [_ Hg] Hw Hst Hrun. destruct (Hw e) as [Hcost Hfits].
  pose proof (vm_cost_nonneg GasCosts_default ltac:(done) p e) as Hpos.
  assert (affords c (vm_cost GasCosts_default p e)) as Haff by (unfold affords; lia).
  pose proof (wasm_simulates GasCosts_default ltac:(done) base _ _ _ Hs Haff Hfits) as Hsame.
  rewrite Hst, Hrun in Hsame. destruct Hsame as (c' & Hvm & Hs' & Hgas). exists c'. split_and!; [done|done|].
  rewrite Hgas. cbn. lia.
Qed.

(** No entry point of the token panics. *)
Lemma token_entry_returns o e : ∃ e' r, token_entry o e = Ok (e', r).
Proof.
  destruct o as [args|args|addr|]; cbn [token_entry].
  - destruct (transfer_tokens_run e args) as (e' & r & Hr & _). by exists e', r.
  - destruct (approve_run e args) as (e' & r & Hr & _). by exists e', r.
  - unfold balance_of. destruct (negb _); by eexists _, _.
  - by eexists _, _.
Qed.

(** C36: With 11095 gas left each call of transfer, approve, balance_of and total_supply
    of the token on the VM returns what the native entry point returns, keeps the stored
    balances summing to the recorded supply, which stays, and uses at most that much gas;
    with 30695 gas left init does on the VM what it does natively, credits the caller with
    the whole supply and uses at most that much, and on empty storage the balances then sum
    to the supply. *)
Theorem token_on_vm base c e :
  sees base c e →
  (∀ o, ledger_ok e → affords c 11095 →
     ∃ c' e' r, token_entry o e = Ok (e', r) ∧
       run_guest GasCosts_default c (wasm (token_prog o)) = Some (c', Ok r) ∧
       sees base c' e' ∧ ledger_ok e' ∧ supply e' = supply e ∧
       gm_consumed (ctx_gas_meter c') ≤ gm_consumed (ctx_gas_meter c) + 11095) ∧
  (affords c 30695 →
     ∃ c' e', init e = Ok (e', 0) ∧ run_guest GasCosts_default c (wasm p_init) = Some (c', Ok 0) ∧
       sees base c' e' ∧ balance e' (me_caller e) = initial_supply ∧ supply e' = initial_supply ∧
       (me_storage e = ∅ → ledger_ok e') ∧
       gm_consumed (ctx_gas_meter c') ≤ gm_consumed (ctx_gas_meter c) + 30695).
Proof.
  intros Hs. assert (mock_set_caller (me_caller e) e = e) as He by (by destruct e). split.
  - intros o Hok Hg. pose proof (token_step_ok e (me_caller e) o Hok) as Hl. unfold run_call in Hl. rewrite He in Hl.
    destruct (token_entry_returns o e) as (e' & r & Hrun). rewrite Hrun in Hl. destruct Hl as [Hl Hsup].
    destruct (within_runs base c e _ _ _ e' r Hs Hg (token_within o) (stands_token o) Hrun) as (c' & Hvm & Hs' & Hgas).
    exists c', e', r. by split_and!.
  - intros Hg. destruct (init_run e (me_caller e)) as (Hsup & Hbal & _).
    pose proof (init_ledger e (me_caller e)) as Hled. unfold run_call in *. rewrite He in *.
    destruct (init e) as [[e' r]|] eqn:Hrun; [|discriminate Hrun].
    assert (r = 0) as -> by (injection Hrun as _ <-; done). cbn [fst] in *.
    destruct (within_runs base c e _ _ _ e' 0 Hs Hg init_within stands_init Hrun) as (c' & Hvm & Hs' & Hgas).
    exists c', e'. split_and!; try done. intros Hst. by apply Hled.
Qed.

(** ** Out of gas, reads answer "missing" and writes go through *)
Implicit Types (c : ExecutionContext) (key value : bytes).
Abbreviation prices := GasCosts_default.
(** The meter after a charge, whether or not it was affordable. *)
Definition charged c (n : Z) : ExecutionContext := ctx_set_gas c (consume (ctx_gas_meter c) n).1.
Definition broke c (n : Z) : Prop :=
  gm_limit (ctx_gas_meter c) < gm_consumed (ctx_gas_meter c) + n ∧ gm_limit (ctx_gas_meter c) < 2 ^ 64 - 1.

Lemma consume_broke c n : broke c n →
  ∃ u, consume (ctx_gas_meter c) n =
    ({| gm_limit := gm_limit (ctx_gas_meter c); gm_consumed := gm_limit (ctx_gas_meter c) |},
     Err (OutOfGas (gm_limit (ctx_gas_meter c)) u)).
Proof. intros [Hb Hl]. eexists. unfold consume, sat_add. by rewrite (proj2 (Z.ltb_lt _ _)) by lia. Qed.
Lemma charged_affords c n : affords c n → charged c n = spend c n.
Proof. intros Hg. unfold charged. by rewrite consume_affords. Qed.
Lemma charged_broke c n : broke c n →
  ctx_gas_meter (charged c n) = {| gm_limit := gm_limit (ctx_gas_meter c); gm_consumed := gm_limit (ctx_gas_meter c) |}.
Proof. intros Hb. unfold charged. by destruct (consume_broke c n Hb) as [u ->]. Qed.
Lemma read_when_broke {A} c key (k : option bytes → Guest A) :
  broke c (cost_storage_read prices) →
  run_guest prices c (wasm_storage_read key k) = run_guest prices (charged c (cost_storage_read prices)) (k None).
Proof.
  intros Hb. unfold wasm_storage_read, charged. destruct (place _) as [mem ps]. cbn [run_guest host_call].
  unfold host_storage_read. by destruct (consume_broke c _ Hb) as [u ->].
Qed.
Lemma write_always {A} c key value (k : Guest A) :
  short key = true → lenZ value ≤ 4096 →
  run_guest prices c (wasm_storage_write key value k) =
  run_guest prices (Vm.storage_write (charged c (cost_storage_write prices)) (ctx_contract_address c) key value) k.
Proof.
  intros Hk%short_lt Hv. unfold wasm_storage_write, charged.
  assert (sumZ lenZ [key; value] < 2 ^ 24) as Hl by (cbn; unfold lenZ in *; lia).
  destruct (placed_read _ 0%nat key Hl eq_refl) as [Hr Ha]. destruct (placed_read _ 1%nat value Hl eq_refl) as [Hr' Ha'].
  destruct (place [key; value]) as [mem ps]. cbn [fst snd] in *.
  cbn [run_guest host_call]. unfold host_storage_write. destruct (consume _ _) as [g r].
  rewrite Ha, Ha'. cbn [negb andb]. by rewrite Hr, Hr'.
Qed.
Lemma emit_when_broke {A} c (data : bytes) (k : Guest A) :
  lenZ data < 2 ^ 24 → broke c (event_cost prices 0 (lenZ data)) →
  run_guest prices c (wasm_emit_event data k) =
  run_guest prices (charged c (event_cost prices 0 (lenZ data))) k.
Proof.
  intros Hd Hb. unfold wasm_emit_event, charged. destruct (place _) as [mem ps]. cbn [run_guest host_call].
  unfold host_emit_event. rewrite as_i32_len by (unfold lenZ in *; lia).
  by destruct (consume_broke c _ Hb) as [u ->].
Qed.

Lemma read_charged c n a key : Vm.storage_read (charged c n) a key = Vm.storage_read c a key.
Proof. done. Qed.
Lemma read_spend c n a key : Vm.storage_read (spend c n) a key = Vm.storage_read c a key.
Proof. done. Qed.
Lemma read_after_write c a k v k' :
  Vm.storage_read (Vm.storage_write c a k v) a k' =
  if decide (k = k') then Ok (Some v) else Vm.storage_read c a k'.
Proof.
  unfold Vm.storage_read. cbn. rewrite lookup_insert. repeat case_decide; simplify_eq; done.
Qed.

Lemma transfer_tree args : (28 ≤ length args)%nat →
  p_transfer_tokens args =
  PCaller (λ who, PRead (balance_key who) (λ v,
    if u64_of v <? arg_amount args
    then PEmit "TransferFailed:InsufficientBalance" (PRet (-1))
    else PWrite (balance_key who) (to_le_bytes 8 (u64_of v -! arg_amount args))
           (PRead (balance_key (arg_addr args)) (λ w,
              PWrite (balance_key (arg_addr args)) (to_le_bytes 8 (u64_of w +! arg_amount args))
                (PEmit "Transfer" (PRet 0)))))).
Proof.
  intros Hl. unfold p_transfer_tokens, p_slice. rewrite (proj2 (Nat.ltb_ge _ _)) by lia.
  by rewrite !(proj2 (Nat.leb_le _ (length args))) by lia.
Qed.

(** A transfer whose gas runs out between the debit and the credit: the second balance
    reads as missing, so the recipient's balance is replaced by the amount, and the call
    still returns 0. *)
Theorem low_gas_transfer_overwrites base c e args :
  sees base c e → (28 ≤ length args)%nat → arg_amount args ≤ balance e (me_caller e) →
  arg_addr args ≠ me_caller e →
  5200 ≤ gm_limit (ctx_gas_meter c) - gm_consumed (ctx_gas_meter c) < 5400 →
  gm_limit (ctx_gas_meter c) < 2 ^ 64 - 1 →
  ∃ c', run_guest prices c (wasm (p_transfer_tokens args)) = Some (c', Ok 0) ∧
    Vm.storage_read c' (ctx_contract_address c) (balance_key (arg_addr args)) =
      Ok (Some (to_le_bytes 8 (arg_amount args))) ∧
    Vm.storage_read c' (ctx_contract_address c) (balance_key (me_caller e)) =
      Ok (Some (to_le_bytes 8 (balance e (me_caller e) - arg_amount args))).
Proof.
  intros Hs Hlen Hbal Hne Hgas Hlim. rewrite transfer_tree by done. cbn [wasm].
  assert (in_u 64 (arg_amount args)) as Hamt by (apply (from_le_bytes_lt 8); rewrite length_take; lia).
  assert (in_u 64 (balance e (me_caller e))) as Hb64.
  { unfold balance, read_le. repeat case_match; [|by vm_compute..]. apply (from_le_bytes_lt 8).
    apply Nat.eqb_eq in H3. lia. }
  unfold wasm_caller. rewrite (wasm_address_step _ HcCaller c (me_caller e))
    by (intros; cbn; unfold host_caller; by rewrite (see_caller _ _ _ Hs)).
  rewrite (wasm_read_step prices base c e) by (done || apply short_balance_key || (unfold affords; cbn; lia)).
  change (u64_of (me_storage e !! balance_key (me_caller e))) with (balance e (me_caller e)).
  rewrite (proj2 (Z.ltb_ge _ _)) by done. cbn [wasm].
  rewrite write_always by (apply short_balance_key || (unfold lenZ; rewrite length_to_le_bytes; lia)).
  rewrite charged_affords by (unfold affords; cbn; lia). set (c1 := Vm.storage_write _ _ _ _).
  rewrite (read_when_broke c1) by (unfold broke; cbn; lia). set (c2 := charged c1 _).
  assert (ctx_gas_meter c2 = {| gm_limit := gm_limit (ctx_gas_meter c); gm_consumed := gm_limit (ctx_gas_meter c) |})
    as Hg2 by (unfold c2; rewrite charged_broke; [done|unfold broke; cbn; lia]).
  rewrite write_always by (apply short_balance_key || (unfold lenZ; rewrite length_to_le_bytes; lia)).
  set (c3 := Vm.storage_write _ _ _ _).
  assert (ctx_gas_meter c3 = {| gm_limit := gm_limit (ctx_gas_meter c); gm_consumed := gm_limit (ctx_gas_meter c) |}) as Hg3.
  { unfold c3. cbn -[charged]. rewrite charged_broke; rewrite ?Hg2; [done|]. unfold broke. rewrite Hg2. cbn. lia. }
  assert (event_cost prices 0 (lenZ (b_ "Transfer")) = 439) as Hev by (by vm_compute).
  rewrite (emit_when_broke c3); [|by vm_compute|rewrite Hev; unfold broke; rewrite Hg3; cbn; lia].
  eexists. split; [reflexivity|]. rewrite !read_charged. unfold c3. change (ctx_contract_address c2) with (ctx_contract_address c).
  rewrite !read_after_write, decide_True, decide_False by (done || (intros Heq; by apply Hne, balance_key_inj)).
  unfold c2, c1. rewrite !read_charged. change (ctx_contract_address (spend c _)) with (ctx_contract_address c).
  rewrite read_after_write, decide_True by done. cbn [u64_of].
  by rewrite wsub_small, wadd_small by (unfold in_u in *; lia).
Qed.
End TokenOnVm.

(** ** Instances and witnesses *)
(** Buffers one after the other from address 0. *)
Fixpoint offsets (at_ : Z) (l : list bytes) : list Z :=
  match l with
  | [] => []
  | b :: rest => at_ :: offsets (at_ + lenZ b) rest
  end.
#[export] Instance packed_layout : WasmLayout := λ l, (mjoin l, offsets 0 l).

Lemma length_mjoin (l : list bytes) : lenZ (mjoin l) = sumZ lenZ l.
Proof.
  induction l as [|b l IH]; [done|]. unfold lenZ in *. change (mjoin (b :: l)) with (b ++ mjoin l).
  rewrite length_app. simpl. lia.
Qed.
Lemma offsets_spec (l : list bytes) i b at_ :
  l !! i = Some b →
  offsets at_ l !!! i = at_ + sumZ lenZ (take i l) ∧ sumZ lenZ (take i l) + lenZ b ≤ sumZ lenZ l ∧
  region (mjoin l) (sumZ lenZ (take i l)) (length b) = b.
Proof.
  revert i at_. induction l as [|x l IH]; intros i at_ Hi; [done|]. destruct i as [|i].
  - injection Hi as ->. pose proof (sumZ_nonneg lenZ l ltac:(intros; unfold lenZ; lia)).
    change (sumZ lenZ (take 0 (b :: l))) with 0. change (sumZ lenZ (b :: l)) with (lenZ b + sumZ lenZ l).
    change (offsets at_ (b :: l) !!! 0%nat) with at_. split_and!; [lia|lia|].
    unfold region. change (mjoin (b :: l)) with (b ++ mjoin l). change (Z.to_nat 0) with 0%nat. by rewrite drop_0, take_app_length.
  - destruct (IH i (at_ + lenZ x) Hi) as (Ho & Hle & Hr).
    change (sumZ lenZ (take (S i) (x :: l))) with (lenZ x + sumZ lenZ (take i l)).
    change (sumZ lenZ (x :: l)) with (lenZ x + sumZ lenZ l).
    change (offsets at_ (x :: l) !!! S i) with (offsets (at_ + lenZ x) l !!! i). split_and!; [lia|lia|].
    rewrite <- Hr at 2. unfold region. change (mjoin (x :: l)) with (x ++ mjoin l).
    pose proof (sumZ_nonneg lenZ (take i l) ltac:(intros; unfold lenZ; lia)) as Hn.
    rewrite drop_app_ge by (unfold lenZ in *; lia). do 2 f_equal. unfold lenZ in *. lia.
Qed.
#[export] Instance packed_layout_laws : WasmLayoutLaws.
Proof.
  intros l i b Hl Hi p. destruct (offsets_spec l i b 0 Hi) as (Ho & Hle & Hr).
  pose proof (sumZ_nonneg lenZ (take i l) ltac:(intros; unfold lenZ; lia)) as Hn.
  unfold p, place, packed_layout. cbn [fst snd]. rewrite Ho, length_mjoin. split_and!; [lia|lia|lia|].
  by rewrite Z.add_0_l.
Qed.

Module SdkWasmWitness.
Import ToyWasm TokenWitness.

(** Alice has initialised the token; the contract's account is unknown to the chain. *)
Definition ledger : gmap bytes bytes := me_storage (run_call MockEnv_default alice init).1.
Definition env : MockEnv := me_set MockEnv_default ledger alice 0 [] [].
Definition reader : StateReader := {|
  sr_get_account _ := Ok None; sr_get_storage _ k := Ok (ledger !! k); sr_get_code _ := Ok None |}.
Definition ctx (gas : Z) : ExecutionContext :=
  ExecutionContext_new alice alice (me_self_addr env) 0 1 1700000000 9999 gas reader.

Lemma env_seen gas : sees 0 (ctx gas) env.
Proof.
  constructor; try done.
  - eapply bool_decide_unpack. by vm_compute.
  - by exists None.
Qed.
Lemma env_ledger : ledger_ok env.
Proof. split; [by vm_compute|]. eapply bool_decide_unpack. by vm_compute. Qed.

Lemma sdk_targets_agree_witness :
  vm_fits p_init env = true ∧
  same_outcome GasCosts_default 0 (ctx 50000) (wasm p_init) (vm_cost GasCosts_default p_init env) (native p_init env).
Proof.
  assert (vm_fits p_init env = true) as Hf by (by vm_compute).
  assert (affords (ctx 50000) (vm_cost GasCosts_default p_init env)) as Hg.
  { assert (vm_cost GasCosts_default p_init env = 30503) as -> by (by vm_compute). unfold affords. cbn. lia. }
  split; [exact Hf|].
  apply (sdk_targets_agree GasCosts_default 0 p_init (ctx 50000) env); [done|done|done|apply env_seen|exact Hg|exact Hf].
Defined.

Lemma token_on_vm_witness :
  ∃ c' e' r, token_entry (TTransfer (pay bob 400)) env = Ok (e', r) ∧
    run_guest GasCosts_default (ctx 20000) (wasm (token_prog (TTransfer (pay bob 400)))) = Some (c', Ok r) ∧
    sees 0 c' e' ∧ ledger_ok e'.
Proof.
  assert (affords (ctx 20000) 11095) as Hg by (unfold affords; cbn; lia).
  destruct (proj1 (token_on_vm 0 (ctx 20000) env (env_seen _)) (TTransfer (pay bob 400)) env_ledger Hg) as
    (c' & e' & r & H1 & H2 & H3 & H4 & _).
  exists c', e', r. split; [exact H1|]. split; [exact H2|]. split; [exact H3|exact H4].
Defined.

(** Bob owns 400; a transfer of nothing with 5300 gas empties his balance. *)
Definition ledger_bob : MockEnv := mock_set_caller alice (run_call env alice (transfer_tokens (pay bob 400))).1.
Definition ctx_bob : ExecutionContext :=
  ExecutionContext_new alice alice (me_self_addr env) 0 1 1700000000 9999 5300
    {| sr_get_account _ := Ok None; sr_get_storage _ k := Ok (me_storage ledger_bob !! k); sr_get_code _ := Ok None |}.
Example empty_transfer_wipes_bob :
  Vm.storage_read ctx_bob (me_self_addr env) (balance_key bob) = Ok (Some (to_le_bytes 8 400)) ∧
  match run_guest GasCosts_default ctx_bob (wasm (p_transfer_tokens (pay bob 0))) with
  | Some (c, r) => r = Ok 0 ∧ Vm.storage_read c (me_self_addr env) (balance_key bob) = Ok (Some (to_le_bytes 8 0))
  | None => False
  end.
Proof. by vm_compute. Qed.
End SdkWasmWitness.

(** ** Entry points with arguments need an allocator
    The engine passes arguments only to modules that export [allocate]; for any other
    module a function of two parameters is not found, whatever the arguments. *)
Lemma entry_needs_allocator `{Wasmtime} costs c inst name args :
  wt_func inst 1 "allocate" = None → wt_func inst 0 name = None →
  call_with_args costs c inst name args = Some (Err (FunctionNotFound name)).
Proof.
  intros Ha Hf. unfold call_with_args, call_export. destruct args; [|rewrite Ha]; simpl; by rewrite Hf.
Qed.
