(* ===== verification/Sha256.v ===== *)
(** * Sha256: the SHA-256 of the bridge contract (contracts/bridge/src/lib.rs, [simple_sha256])

    Words are [u32] values, [wrapping_add] is addition modulo 2^32.  Arrays are
    lists of their length, updated by index; the indices of the loops are in
    range.  The padding loop runs on fuel 64: it adds at most 63 bytes. *)

From S2P Require Import Prelude.

Definition add32 (a b : Z) : Z := wadd 32 a b.
Definition rotate_right (x n : Z) : Z := Z.lor (Z.shiftr x n) (wrap 32 (Z.shiftl x (32 - n))).
Definition not32 (x : Z) : Z := Z.lxor x (2 ^ 32 - 1).

(** The constant tables, written as the hex digits of their words. *)
Fixpoint words_of (fuel : nat) (l : bytes) : list Z :=
  match fuel with
  | O => []
  | S f => from_be_bytes (take 4 l) :: words_of f (drop 4 l)
  end.
Definition table (n : nat) (digits : string) : list Z := words_of n (default [] (hex_decode digits)).
Definition K256 : list Z := Eval vm_compute in table 64
  ("428a2f9871374491b5c0fbcfe9b5dba53956c25b59f111f1923f82a4ab1c5ed5" +:+
   "d807aa9812835b01243185be550c7dc372be5d7480deb1fe9bdc06a7c19bf174" +:+
   "e49b69c1efbe47860fc19dc6240ca1cc2de92c6f4a7484aa5cb0a9dc76f988da" +:+
   "983e5152a831c66db00327c8bf597fc7c6e00bf3d5a7914706ca635114292967" +:+
   "27b70a852e1b21384d2c6dfc53380d13650a7354766a0abb81c2c92e92722c85" +:+
   "a2bfe8a1a81a664bc24b8b70c76c51a3d192e819d6990624f40e3585106aa070" +:+
   "19a4c1161e376c082748774c34b0bcb5391c0cb34ed8aa4a5b9cca4f682e6ff3" +:+
   "748f82ee78a5636f84c878148cc7020890befffaa4506cebbef9a3f7c67178f2").
Definition h_init : list Z := Eval vm_compute in table 8
  "6a09e667bb67ae853c6ef372a54ff53a510e527f9b05688c1f83d9ab5be0cd19".

(** ** Padding *)
Fixpoint pad_zeros (fuel : nat) (l : bytes) : bytes :=
  match fuel with
  | O => l
  | S f => if (length l mod 64 =? 56)%nat then l else pad_zeros f (l ++ [Byte.x00])
  end.
Definition pad (data : bytes) : bytes :=
  let bit_len := wmul 64 (as_u 64 (Z.of_nat (length data))) 8 in
  pad_zeros 64 (data ++ [Byte.x80]) ++ to_be_bytes 8 bit_len.

(** [slice::chunks(64)] *)
Fixpoint chunks_fuel (fuel : nat) (l : bytes) : list bytes :=
  match fuel, l with
  | S f, _ :: _ => take 64 l :: chunks_fuel f (drop 64 l)
  | _, _ => []
  end.
Definition chunks (l : bytes) : list bytes := chunks_fuel (length l) l.

(** ** One block *)
Definition schedule_init (chunk : bytes) : list Z :=
  ((λ i, from_be_bytes (take 4 (drop (i * 4) chunk))) <$> seq 0 16) ++ replicate 48 0.
Definition schedule_step (w : list Z) (i : nat) : list Z :=
  let x15 := w !!! (i - 15)%nat in
  let x2 := w !!! (i - 2)%nat in
  let s0 := Z.lxor (Z.lxor (rotate_right x15 7) (rotate_right x15 18)) (Z.shiftr x15 3) in
  let s1 := Z.lxor (Z.lxor (rotate_right x2 17) (rotate_right x2 19)) (Z.shiftr x2 10) in
  <[i := add32 (add32 (add32 (w !!! (i - 16)%nat) s0) (w !!! (i - 7)%nat)) s1]> w.
Definition schedule (chunk : bytes) : list Z := foldl schedule_step (schedule_init chunk) (seq 16 48).

Record sha_vars : Type := { va : Z; vb : Z; vc : Z; vd : Z; ve : Z; vf : Z; vg : Z; vh : Z }.
Definition choose (e f g : Z) : Z := Z.lxor (Z.land e f) (Z.land (not32 e) g).
Definition majority (a b c : Z) : Z := Z.lxor (Z.lxor (Z.land a b) (Z.land a c)) (Z.land b c).
Definition round (w : list Z) (v : sha_vars) (i : nat) : sha_vars :=
  let e := ve v in
  let s1 := Z.lxor (Z.lxor (rotate_right e 6) (rotate_right e 11)) (rotate_right e 25) in
  let ch := choose e (vf v) (vg v) in
  let temp1 := add32 (add32 (add32 (add32 (vh v) s1) ch) (K256 !!! i)) (w !!! i) in
  let a := va v in
  let s0 := Z.lxor (Z.lxor (rotate_right a 2) (rotate_right a 13)) (rotate_right a 22) in
  let maj := majority a (vb v) (vc v) in
  let temp2 := add32 s0 maj in
  {| va := add32 temp1 temp2; vb := a; vc := vb v; vd := vc v;
     ve := add32 (vd v) temp1; vf := e; vg := vf v; vh := vg v |}.
Definition vars_of (h : list Z) : sha_vars := {|
  va := h !!! 0%nat; vb := h !!! 1%nat; vc := h !!! 2%nat; vd := h !!! 3%nat;
  ve := h !!! 4%nat; vf := h !!! 5%nat; vg := h !!! 6%nat; vh := h !!! 7%nat |}.
Definition compress (h : list Z) (chunk : bytes) : list Z :=
  let v := foldl (round (schedule chunk)) (vars_of h) (seq 0 64) in
  zip_with add32 h [va v; vb v; vc v; vd v; ve v; vf v; vg v; vh v].

Definition simple_sha256 (data : bytes) : barray 32 :=
  ba_of 32 (concat (to_be_bytes 4 <$> foldl compress h_init (chunks (pad data)))).

(** ** Known answers *)
Definition hex_of (data : string) : string := hex_encode (ba_bytes (simple_sha256 (b_ data))).
Example sha256_empty : hex_of "" = "e3b0c44298fc1c149afbf4c8996fb92427ae41e4649b934ca495991b7852b855".
Proof. by vm_compute. Qed.
Example sha256_abc : hex_of "abc" = "ba7816bf8f01cfea414140de5dae2223b00361a396177a9cb410ff61f20015ad".
Proof. by vm_compute. Qed.
Example sha256_two_blocks :
  hex_of "abcdbcdecdefdefgefghfghighijhijkijkljklmklmnlmnomnopnopq" =
  "248d6a61d20638b8e5c026930c3e6039a33ce45964ff2167f6ecedd419db06c1".
Proof. by vm_compute. Qed.

(** ** Padding: enough zeros to end on a block *)
Section Padding.
Implicit Types l data : bytes.

(** How many zeros are missing. *)
Definition missing l : nat :=
  let m := (length l mod 64)%nat in if (m <=? 56)%nat then (56 - m)%nat else (120 - m)%nat.

Lemma missing_snoc l b : (length l mod 64 ≠ 56)%nat → missing l = S (missing (l ++ [b])).
Proof.
  intros Hm. unfold missing. rewrite length_app. cbn [length].
  pose proof (Nat.mod_upper_bound (length l) 64 ltac:(lia)).
  assert ((length l + 1) mod 64 = if (length l mod 64 =? 63)%nat then 0 else length l mod 64 + 1)%nat as ->.
  { rewrite Nat.Div0.add_mod. change (1 mod 64)%nat with 1%nat.
    destruct (Nat.eqb_spec (length l mod 64) 63) as [->|]; [done|]. apply Nat.mod_small. lia. }
  generalize dependent (length l mod 64)%nat. intros m Hm Hlt.
  destruct (Nat.eqb_spec m 63) as [->|]; [done|].
  destruct (Nat.leb_spec m 56), (Nat.leb_spec (m + 1) 56); lia.
Qed.
Lemma missing_full l : (length l mod 64 = 56)%nat → missing l = 0%nat.
Proof. intros Hm. unfold missing. by rewrite Hm. Qed.
Lemma missing_lt l : (missing l < 64)%nat.
Proof.
  unfold missing. pose proof (Nat.mod_upper_bound (length l) 64 ltac:(lia)).
  destruct (Nat.leb_spec (length l mod 64) 56); lia.
Qed.
Lemma missing_zero l : missing l = 0%nat → (length l mod 64 = 56)%nat.
Proof.
  unfold missing. pose proof (Nat.mod_upper_bound (length l) 64 ltac:(lia)).
  destruct (Nat.leb_spec (length l mod 64) 56); lia.
Qed.

Lemma pad_zeros_spec fuel l :
  (missing l ≤ fuel)%nat →
  pad_zeros fuel l = l ++ replicate (missing l) Byte.x00 ∧ (length (pad_zeros fuel l) mod 64 = 56)%nat.
Proof.
  revert l. induction fuel as [|f IH]; intros l Hf; cbn [pad_zeros].
  - assert (missing l = 0)%nat as Hz by lia. rewrite Hz. cbn [replicate]. rewrite app_nil_r.
    split; [done|]. by apply missing_zero.
  - destruct (Nat.eqb_spec (length l mod 64) 56) as [He|He].
    + rewrite missing_full by done. cbn [replicate]. by rewrite app_nil_r.
    + rewrite (missing_snoc l Byte.x00 He) in Hf |- *.
      destruct (IH (l ++ [Byte.x00])) as [Heq Hm]; [lia|]. split; [|done].
      rewrite Heq, <- app_assoc. done.
Qed.
Lemma pad_spec data :
  ∃ k, (k < 64)%nat ∧ (length (pad data) mod 64 = 0)%nat ∧
       pad data = data ++ [Byte.x80] ++ replicate k Byte.x00 ++
                  to_be_bytes 8 (wmul 64 (as_u 64 (Z.of_nat (length data))) 8).
Proof.
  pose proof (missing_lt (data ++ [Byte.x80])) as Hlt.
  destruct (pad_zeros_spec 64 (data ++ [Byte.x80])) as [Heq Hm]; [lia|].
  exists (missing (data ++ [Byte.x80])). unfold pad. split_and!; [done| |].
  - rewrite length_app, length_to_be_bytes, Nat.Div0.add_mod, Hm. done.
  - rewrite Heq, <- !app_assoc. done.
Qed.

(** Blocks: all of 64 bytes, and together the padded message. *)
Lemma chunks_spec l :
  (length l mod 64 = 0)%nat → concat (chunks l) = l ∧ Forall (λ c, length c = 64%nat) (chunks l).
Proof.
  unfold chunks. intros Hm. generalize (le_n (length l)). generalize (length l) at 2 3 4.
  intros fuel. revert l Hm. induction fuel as [|f IH]; intros l Hm Hle.
  - destruct l; [by split|]. simpl in Hle. lia.
  - destruct l as [|x l]; [by split|]. cbn [chunks_fuel]. set (xl := x :: l) in *.
    assert (64 ≤ length xl)%nat.
    { destruct (decide (length xl < 64)%nat); [|lia]. rewrite Nat.mod_small in Hm by done. done. }
    destruct (IH (drop 64 xl)) as [Hc Hf].
    + rewrite length_drop. rewrite <- (Nat.Div0.mod_add _ 1). replace (length xl - 64 + 1 * 64)%nat with (length xl) by lia. done.
    + rewrite length_drop. unfold xl in *. simpl in *. lia.
    + split; [cbn [concat]; rewrite Hc; apply take_drop|]. constructor; [|done]. rewrite length_take. lia.
Qed.
End Padding.

(** ** The message schedule satisfies the recurrence of the standard *)
Section Schedule.
Implicit Types w : list Z.

Definition sigma0 (x : Z) : Z := Z.lxor (Z.lxor (rotate_right x 7) (rotate_right x 18)) (Z.shiftr x 3).
Definition sigma1 (x : Z) : Z := Z.lxor (Z.lxor (rotate_right x 17) (rotate_right x 19)) (Z.shiftr x 10).
(** [W_t] from earlier words. *)
Definition next_word w (t : nat) : Z :=
  add32 (add32 (add32 (w !!! (t - 16)%nat) (sigma0 (w !!! (t - 15)%nat))) (w !!! (t - 7)%nat))
        (sigma1 (w !!! (t - 2)%nat)).
Definition message_word (chunk : bytes) (t : nat) : Z := from_be_bytes (take 4 (drop (t * 4) chunk)).

Lemma next_word_agree w w' t :
  (16 ≤ t)%nat → (∀ u, (u < t)%nat → w' !!! u = w !!! u) → next_word w' t = next_word w t.
Proof. intros Ht Hu. unfold next_word. rewrite !Hu by lia. done. Qed.

Definition schedule_inv (chunk : bytes) (k : nat) w : Prop :=
  length w = 64%nat ∧ (∀ t, (t < 16)%nat → w !!! t = message_word chunk t) ∧
  (∀ t, (16 ≤ t < k)%nat → w !!! t = next_word w t).

Lemma schedule_step_inv chunk k w :
  (16 ≤ k < 64)%nat → schedule_inv chunk k w → schedule_inv chunk (S k) (schedule_step w k).
Proof.
  intros Hk (Hlen & Hm & Hw).
  assert (schedule_step w k = <[k := next_word w k]> w) as -> by done.
  assert (∀ u, (u ≠ k)%nat → <[k := next_word w k]> w !!! u = w !!! u) as Hne
    by (intros u Hu; by apply list_lookup_total_insert_ne).
  split_and!; [by rewrite length_insert| |].
  - intros t Ht. rewrite Hne by lia. by apply Hm.
  - intros t Ht. rewrite (next_word_agree w (<[k := next_word w k]> w) t) by (lia || (intros; apply Hne; lia)).
    destruct (decide (t = k)) as [->|Htk].
    + by rewrite list_lookup_total_insert_eq by lia.
    + rewrite Hne by done. apply Hw. lia.
Qed.
Lemma schedule_fold_inv chunk n k w :
  (16 ≤ k)%nat → (k + n ≤ 64)%nat → schedule_inv chunk k w →
  schedule_inv chunk (k + n) (foldl schedule_step w (seq k n)).
Proof.
  revert k w. induction n as [|n IH]; intros k w Hk Hn Hi; simpl; [by rewrite Nat.add_0_r|].
  replace (k + S n)%nat with (S k + n)%nat by lia. apply IH; [lia|lia|]. apply schedule_step_inv; [lia|done].
Qed.
Lemma schedule_spec chunk : schedule_inv chunk 64 (schedule chunk).
Proof.
  unfold schedule. apply (schedule_fold_inv chunk 48 16); [lia|lia|].
  split_and!; [done| |intros; lia]. intros t Ht.
  do 16 (destruct t as [|t]; [done|]). lia.
Qed.
End Schedule.

(** ** The bit functions *)
Section Bits.
Implicit Types x n i : Z.

Lemma not32_testbit x i : 0 ≤ i < 32 → Z.testbit (not32 x) i = negb (Z.testbit x i).
Proof.
  intros Hi. unfold not32. rewrite Z.lxor_spec. change (2 ^ 32 - 1) with (Z.ones 32).
  rewrite Z.ones_spec_low by lia. by destruct (Z.testbit x i).
Qed.
Lemma choose_testbit e f g i : 0 ≤ i < 32 →
  Z.testbit (choose e f g) i = if Z.testbit e i then Z.testbit f i else Z.testbit g i.
Proof.
  intros Hi. unfold choose. rewrite Z.lxor_spec, !Z.land_spec, not32_testbit by done.
  by destruct (Z.testbit e i), (Z.testbit f i), (Z.testbit g i).
Qed.
Lemma majority_testbit a b c i :
  Z.testbit (majority a b c) i =
  (Z.testbit a i && Z.testbit b i) || (Z.testbit a i && Z.testbit c i) || (Z.testbit b i && Z.testbit c i).
Proof.
  unfold majority. rewrite !Z.lxor_spec, !Z.land_spec.
  by destruct (Z.testbit a i), (Z.testbit b i), (Z.testbit c i).
Qed.
(** A rotation reads the bits cyclically. *)
Lemma rotate_right_testbit x n i :
  in_u 32 x → 0 < n < 32 → 0 ≤ i < 32 → Z.testbit (rotate_right x n) i = Z.testbit x ((i + n) mod 32).
Proof.
  unfold in_u. intros Hx Hn Hi. unfold rotate_right, wrap.
  rewrite Z.lor_spec, Z.shiftr_spec, Z.mod_pow2_bits_low, Z.shiftl_spec by lia.
  destruct (decide (i + n < 32)) as [Hlt|Hge].
  - rewrite (Z.mod_small (i + n)), (Z.testbit_neg_r x (i - (32 - n))) by lia. by rewrite orb_false_r.
  - rewrite <- (Z.mod_unique_pos (i + n) 32 1 (i - (32 - n))) by lia.
    rewrite (Z.bits_above_log2 x (i + n)); [done|lia|].
    destruct (decide (x = 0)) as [->|]; [simpl; lia|]. apply Z.log2_lt_pow2; [lia|].
    apply Z.lt_le_trans with (2 ^ 32); [lia|]. apply Z.pow_le_mono_r; lia.
Qed.
End Bits.

(** The contract's SHA-256 pads a message as the standard says (one bit, fewer than
    64 zero bytes, the bit length) to whole blocks whose concatenation is the padded
    message, and the in-place message schedule of each block is the 16 message words
    continued by the standard's recurrence. *)
Theorem sha256_structure data :
  Z.of_nat (length data) * 8 < 2 ^ 64 →
  (∃ k, (k < 64)%nat ∧
     pad data = data ++ [Byte.x80] ++ replicate k Byte.x00 ++ to_be_bytes 8 (Z.of_nat (length data) * 8)) ∧
  concat (chunks (pad data)) = pad data ∧
  Forall (λ c, length c = 64%nat ∧ length (schedule c) = 64%nat ∧
     (∀ t, (t < 16)%nat → schedule c !!! t = message_word c t) ∧
     (∀ t, (16 ≤ t < 64)%nat → schedule c !!! t = next_word (schedule c) t)) (chunks (pad data)).
Proof.
  intros Hlen. destruct (pad_spec data) as (k & Hk & Hm & Hp).
  rewrite as_u_small, wmul_small in Hp by (unfold in_u; lia).
  destruct (chunks_spec _ Hm) as [Hc Hf]. split; [by exists k|]. split; [done|].
  eapply Forall_impl; [exact Hf|]. intros c Hc64. split; [done|]. apply schedule_spec.
Qed.
Lemma sha256_structure_witness :
  Z.of_nat (length (b_ "abc")) * 8 < 2 ^ 64 ∧ concat (chunks (pad (b_ "abc"))) = pad (b_ "abc").
Proof.
  assert (Z.of_nat (length (b_ "abc")) * 8 < 2 ^ 64) as Hl by (by vm_compute).
  split; [exact Hl|]. exact (proj1 (proj2 (sha256_structure (b_ "abc") Hl))).
Defined.
