(* ===== verification/Sha256Spec.v ===== *)
(** * Sha256Spec: the SHA-256 standard, and that the contract implements it

    [Fips] is the hash function as FIPS 180-4 defines it, with nothing taken from the
    contract: the operations on words bit by bit, the constants as the leading
    fractional bits of roots of primes, the padding by its length equation, the
    schedule through a window of sixteen words and sums modulo 2^32 taken once.
    [simple_sha256_reference] shows that [simple_sha256] of contracts/bridge
    (src/contracts/bridge/src/lib.rs) is that function.  The second part is the
    padding loop as a step relation: it always ends. *)

From S2P Require Import Prelude Sha256.

(** ** The standard *)
Module Fips.
Implicit Types x y z : Z.

(** A number from its bits. *)
Fixpoint of_bits (n : nat) (f : Z → bool) : Z :=
  match n with
  | O => 0
  | S k => if f (Z.of_nat k) then Z.setbit (of_bits k f) (Z.of_nat k) else of_bits k f
  end.
Definition word (f : Z → bool) : Z := of_bits 32 f.

Definition rotr (n : Z) x : Z := word (λ i, Z.testbit x ((i + n) mod 32)).
Definition shr (n : Z) x : Z := x / 2 ^ n.
Definition xor3 x y z : Z := word (λ i, xorb (Z.testbit x i) (xorb (Z.testbit y i) (Z.testbit z i))).
Definition Ch x y z : Z := word (λ i, if Z.testbit x i then Z.testbit y i else Z.testbit z i).
Definition Maj x y z : Z :=
  word (λ i, (2 <=? Z.b2z (Z.testbit x i) + Z.b2z (Z.testbit y i) + Z.b2z (Z.testbit z i))).
Definition Sigma0 x : Z := xor3 (rotr 2 x) (rotr 13 x) (rotr 22 x).
Definition Sigma1 x : Z := xor3 (rotr 6 x) (rotr 11 x) (rotr 25 x).
Definition sigma0 x : Z := xor3 (rotr 7 x) (rotr 18 x) (shr 3 x).
Definition sigma1 x : Z := xor3 (rotr 17 x) (rotr 19 x) (shr 10 x).
Definition sum (l : list Z) : Z := foldr Z.add 0 l mod 2 ^ 32.

(** The constants: the first 32 bits of the fractional parts of the cube roots of the
    first 64 primes, and of the square roots of the first 8. *)
Definition prime (n : nat) : bool := forallb (λ d, negb (n mod d =? 0)%nat) (seq 2 (n - 2)).
Definition primes : list Z := Z.of_nat <$> List.filter prime (seq 2 310).
Fixpoint cbrt_bits (k : nat) (acc n : Z) : Z :=
  match k with
  | O => acc
  | S j => let c := acc + 2 ^ Z.of_nat j in cbrt_bits j (if c ^ 3 <=? n then c else acc) n
  end.
Definition cbrt (n : Z) : Z := cbrt_bits 40 0 n.
Definition K : list Z := (λ p, cbrt (p * 2 ^ 96) mod 2 ^ 32) <$> primes.
Definition H0 : list Z := (λ p, Z.sqrt (p * 2 ^ 64) mod 2 ^ 32) <$> take 8 primes.

(** The message, one bit, [k] zero bytes and the length in bits. *)
Definition padded (data : bytes) : bytes :=
  let len := Z.of_nat (length data) in
  data ++ [Byte.x80] ++ replicate (Z.to_nat ((55 - len) mod 64)) Byte.x00 ++ to_be_bytes 8 (8 * len).
(** The sixteen words of block [i]. *)
Definition block (msg : bytes) (i : nat) : list Z :=
  (λ t, from_be_bytes (take 4 (drop (64 * i + 4 * t) msg))) <$> seq 0 16.

(** The schedule: a window of sixteen words slides over it. *)
Definition next (win : list Z) : Z :=
  sum [sigma1 (win !!! 14%nat); win !!! 9%nat; sigma0 (win !!! 1%nat); win !!! 0%nat].
Fixpoint expand (n : nat) (win : list Z) : list Z :=
  match n, win with
  | S m, w0 :: rest => w0 :: expand m (rest ++ [next win])
  | _, _ => win
  end.

(** The compression function. *)
Definition vars : Type := Z * Z * Z * Z * Z * Z * Z * Z.
Definition fips_round (v : vars) (kw : Z * Z) : vars :=
  let '(a, b, c, d, e, f, g, h) := v in
  let T1 := sum [h; Sigma1 e; Ch e f g; kw.1; kw.2] in
  let T2 := sum [Sigma0 a; Maj a b c] in
  (sum [T1; T2], a, b, c, sum [d; T1], e, f, g).
Definition fips_compress (H : list Z) (words : list Z) : list Z :=
  match H with
  | [h0; h1; h2; h3; h4; h5; h6; h7] =>
      let '(a, b, c, d, e, f, g, h) :=
        foldl fips_round (h0, h1, h2, h3, h4, h5, h6, h7) (zip K (expand 48 words)) in
      [sum [a; h0]; sum [b; h1]; sum [c; h2]; sum [d; h3]; sum [e; h4]; sum [f; h5]; sum [g; h6]; sum [h; h7]]
  | _ => H
  end.
Definition sha256 (data : bytes) : bytes :=
  let msg := padded data in
  concat (to_be_bytes 4 <$> foldl (λ H i, fips_compress H (block msg i)) H0 (seq 0 (length msg / 64))).
End Fips.

(** ** Words *)
Section Words.
Implicit Types x y z : Z.

Lemma of_bits_testbit n f i :
  0 ≤ i → Z.testbit (Fips.of_bits n f) i = bool_decide (i < Z.of_nat n) && f i.
Proof.
  intros Hi. induction n as [|k IH]; cbn [Fips.of_bits]; [by rewrite Z.testbit_0_l, bool_decide_eq_false_2 by lia|].
  destruct (decide (i = Z.of_nat k)) as [->|Hne].
  - rewrite (bool_decide_eq_true_2 (Z.of_nat k < _)) by lia. destruct (f (Z.of_nat k)) eqn:Hf.
    + by rewrite Z.setbit_eq by lia.
    + rewrite IH. by rewrite ?Hf, ?andb_false_r.
  - rewrite (bool_decide_ext (i < Z.of_nat (S k)) (i < Z.of_nat k)) by lia. rewrite <- IH.
    destruct (f (Z.of_nat k)); [by rewrite Z.setbit_neq by lia|done].
Qed.
Lemma word_eq x f :
  (∀ i, 0 ≤ i < 32 → Z.testbit x i = f i) → (∀ i, 32 ≤ i → Z.testbit x i = false) → x = Fips.word f.
Proof.
  intros Hlo Hhi. apply Z.bits_inj'. intros i Hi. unfold Fips.word. rewrite of_bits_testbit by done.
  case_bool_decide; simpl; [apply Hlo|apply Hhi]; lia.
Qed.
Lemma testbit_high x i : in_u 32 x → 32 ≤ i → Z.testbit x i = false.
Proof. intros Hx Hi. rewrite <- (Z.mod_small x (2 ^ 32)) by done. apply Z.mod_pow2_bits_high. lia. Qed.
Lemma rotate_right_high x n i : in_u 32 x → 0 < n < 32 → 32 ≤ i → Z.testbit (rotate_right x n) i = false.
Proof.
  intros Hx Hn Hi. unfold rotate_right, wrap. rewrite Z.lor_spec, Z.shiftr_spec, Z.mod_pow2_bits_high by lia.
  rewrite testbit_high by (done || lia). done.
Qed.
Lemma word_in_u f : in_u 32 (Fips.word f).
Proof.
  assert (Fips.word f = Fips.word f mod 2 ^ 32) as ->; [|apply Z.mod_pos_bound; lia].
  symmetry. apply word_eq.
  - intros i Hi. rewrite Z.mod_pow2_bits_low by lia. unfold Fips.word. rewrite of_bits_testbit by lia.
    by rewrite bool_decide_eq_true_2 by lia.
  - intros i Hi. apply Z.mod_pow2_bits_high. lia.
Qed.
Lemma shiftr_in_u x n : in_u 32 x → 0 ≤ n → in_u 32 (Z.shiftr x n).
Proof.
  unfold in_u. intros Hx Hn. rewrite Z.shiftr_div_pow2 by done.
  pose proof (Z.pow_pos_nonneg 2 n ltac:(lia) Hn). split; [apply Z.div_pos; lia|].
  apply Z.le_lt_trans with x; [|lia]. apply Z.div_le_upper_bound; nia.
Qed.

Lemma rotr_spec x n : in_u 32 x → 0 < n < 32 → rotate_right x n = Fips.rotr n x.
Proof.
  intros. apply word_eq; [intros; by apply rotate_right_testbit|intros; by apply rotate_right_high].
Qed.
Lemma xor3_spec x y z :
  in_u 32 x → in_u 32 y → in_u 32 z → Z.lxor (Z.lxor x y) z = Fips.xor3 x y z.
Proof.
  intros. apply word_eq; intros; rewrite !Z.lxor_spec.
  - by destruct (Z.testbit x i), (Z.testbit y i), (Z.testbit z i).
  - by rewrite !testbit_high.
Qed.
Lemma Ch_spec x y z : in_u 32 x → in_u 32 y → in_u 32 z → choose x y z = Fips.Ch x y z.
Proof.
  intros. apply word_eq; intros; [by apply choose_testbit|].
  unfold choose. rewrite Z.lxor_spec, !Z.land_spec, (testbit_high x), (testbit_high z) by done.
  by rewrite andb_false_r.
Qed.
Lemma Maj_spec x y z : in_u 32 x → in_u 32 y → in_u 32 z → majority x y z = Fips.Maj x y z.
Proof.
  intros. apply word_eq; intros; rewrite majority_testbit.
  - by destruct (Z.testbit x i), (Z.testbit y i), (Z.testbit z i).
  - by rewrite !testbit_high.
Qed.
Lemma rotr_in_u x n : in_u 32 (Fips.rotr n x).
Proof. apply word_in_u. Qed.
Lemma sum_in_u l : in_u 32 (Fips.sum l).
Proof. apply Z.mod_pos_bound. lia. Qed.

Lemma Sigma0_spec x : in_u 32 x →
  Z.lxor (Z.lxor (rotate_right x 2) (rotate_right x 13)) (rotate_right x 22) = Fips.Sigma0 x.
Proof. intros. rewrite !rotr_spec by (done || lia). apply xor3_spec; apply rotr_in_u. Qed.
Lemma Sigma1_spec x : in_u 32 x →
  Z.lxor (Z.lxor (rotate_right x 6) (rotate_right x 11)) (rotate_right x 25) = Fips.Sigma1 x.
Proof. intros. rewrite !rotr_spec by (done || lia). apply xor3_spec; apply rotr_in_u. Qed.
Lemma sigma0_spec x : in_u 32 x → sigma0 x = Fips.sigma0 x.
Proof.
  intros. unfold sigma0, Fips.sigma0, Fips.shr. rewrite !rotr_spec, <- Z.shiftr_div_pow2 by (done || lia).
  apply xor3_spec; [apply rotr_in_u..|by apply shiftr_in_u].
Qed.
Lemma sigma1_spec x : in_u 32 x → sigma1 x = Fips.sigma1 x.
Proof.
  intros. unfold sigma1, Fips.sigma1, Fips.shr. rewrite !rotr_spec, <- Z.shiftr_div_pow2 by (done || lia).
  apply xor3_spec; [apply rotr_in_u..|by apply shiftr_in_u].
Qed.
End Words.

(** Nested wrapping additions are one sum, in any order. *)
Lemma add32_pair a b : add32 a b = Fips.sum [a; b].
Proof. unfold add32, wadd, wrap, Fips.sum. cbn [foldr]. f_equal. lia. Qed.
Lemma foldr_add_app l l' : foldr Z.add 0 (l ++ l') = foldr Z.add 0 l + foldr Z.add 0 l'.
Proof. induction l; cbn [foldr app]; lia. Qed.
Lemma sum_first l l' : Fips.sum (Fips.sum l :: l') = Fips.sum (l ++ l').
Proof. unfold Fips.sum. cbn [foldr]. by rewrite Zplus_mod_idemp_l, foldr_add_app. Qed.
Lemma sum_second a l l' : Fips.sum (a :: Fips.sum l :: l') = Fips.sum (a :: l ++ l').
Proof.
  unfold Fips.sum. cbn [foldr]. rewrite <- Z.add_comm, <- Z.add_assoc, Zplus_mod_idemp_l, foldr_add_app.
  f_equal. lia.
Qed.
Ltac one_sum :=
  rewrite ?add32_pair; repeat ((rewrite sum_first || rewrite sum_second); cbn [app]);
  unfold Fips.sum; cbn [foldr]; f_equal; lia.

(** ** The constants *)
Lemma K256_fips : K256 = Fips.K.
Proof. by vm_compute. Qed.
Lemma h_init_fips : h_init = Fips.H0.
Proof. by vm_compute. Qed.

(** ** Padding and blocks *)
Lemma missing_fips data :
  missing (data ++ [Byte.x80]) = Z.to_nat ((55 - Z.of_nat (length data)) mod 64).
Proof.
  apply Nat2Z.inj. rewrite Z2Nat.id by (apply Z.mod_pos_bound; lia).
  unfold missing. rewrite length_app. cbn [length].
  pose proof (Nat.mod_upper_bound (length data + 1) 64 ltac:(lia)) as Hm.
  pose proof (Nat.div_mod_eq (length data + 1) 64) as Hd.
  revert Hd Hm. generalize ((length data + 1) mod 64)%nat, ((length data + 1) / 64)%nat.
  intros r q Hd Hr.
  destruct (Nat.leb_spec r 56).
  - apply (Z.mod_unique_pos _ 64 (- Z.of_nat q)); lia.
  - apply (Z.mod_unique_pos _ 64 (- Z.of_nat q - 1)); lia.
Qed.
Lemma pad_fips data : Z.of_nat (length data) * 8 < 2 ^ 64 → pad data = Fips.padded data.
Proof.
  intros Hlen. unfold pad, Fips.padded.
  rewrite as_u_small, wmul_small by (unfold in_u; lia). rewrite Z.mul_comm, <- missing_fips.
  destruct (pad_zeros_spec 64 (data ++ [Byte.x80])) as [-> _].
  - pose proof (missing_lt (data ++ [Byte.x80])). lia.
  - by rewrite <- !app_assoc.
Qed.

Lemma chunks_fuel_blocks fuel (l : bytes) n :
  length l = (n * 64)%nat → (n ≤ fuel)%nat →
  chunks_fuel fuel l = (λ i, take 64 (drop (64 * i) l)) <$> seq 0 n.
Proof.
  revert fuel l. induction n as [|n IH]; intros fuel l Hl Hf.
  - destruct l; [by destruct fuel|done].
  - destruct fuel as [|f]; [lia|]. destruct l as [|b l']; [done|]. cbn [chunks_fuel].
    set (l := b :: l') in *. rewrite (IH f (drop 64 l)) by (rewrite ?length_drop; lia).
    cbn [seq fmap list_fmap]. rewrite Nat.mul_0_r, drop_0. f_equal.
    rewrite <- (fmap_S_seq 0 n), <- list_fmap_compose. apply list_fmap_ext. intros _ i _. cbn [compose].
    rewrite drop_drop. do 2 f_equal. lia.
Qed.
Lemma chunks_blocks (l : bytes) :
  (length l mod 64 = 0)%nat → chunks l = (λ i, take 64 (drop (64 * i) l)) <$> seq 0 (length l / 64).
Proof.
  intros Hm. apply chunks_fuel_blocks.
  - pose proof (Nat.div_mod_eq (length l) 64). lia.
  - apply Nat.Div0.div_le_upper_bound. lia.
Qed.
(** The words the code reads from a chunk are the words of the block. *)
Lemma block_words (msg : bytes) i :
  message_word (take 64 (drop (64 * i) msg)) <$> seq 0 16 = Fips.block msg i.
Proof.
  unfold Fips.block. apply list_fmap_ext. intros k t Ht. apply lookup_seq in Ht as [-> Ht].
  unfold message_word. f_equal. rewrite skipn_firstn_comm, take_take, drop_drop.
  f_equal; [lia|]. f_equal. lia.
Qed.

(** ** The schedule: the array filled in place is the slid window *)
Section Expansion.
Context (chunk : bytes) (w : list Z).
Context (Hinv : schedule_inv chunk 64 w) (Hwords : ∀ t, (t < 64)%nat → in_u 32 (w !!! t)).

Lemma next_word_fips t :
  (t < 48)%nat → next_word w (t + 16) = Fips.next (take 16 (drop t w)).
Proof.
  intros Ht. destruct Hinv as (Hlen & _ & _).
  assert (∀ k, (k < 16)%nat → take 16 (drop t w) !!! k = w !!! (t + k)%nat) as Hk.
  { intros k Hk. rewrite !list_lookup_total_alt, lookup_take_lt, lookup_drop by lia. done. }
  unfold next_word, Fips.next. rewrite !Hk by lia.
  replace (t + 16 - 16)%nat with (t + 0)%nat by lia. replace (t + 16 - 15)%nat with (t + 1)%nat by lia.
  replace (t + 16 - 7)%nat with (t + 9)%nat by lia. replace (t + 16 - 2)%nat with (t + 14)%nat by lia.
  rewrite sigma0_spec, sigma1_spec by (apply Hwords; lia).
  generalize (Fips.sigma0 (w !!! (t + 1)%nat)), (Fips.sigma1 (w !!! (t + 14)%nat)). intros. one_sum.
Qed.
Lemma expand_window n t :
  (t + n = 48)%nat → Fips.expand n (take 16 (drop t w)) = drop t w.
Proof.
  destruct Hinv as (Hlen & _ & Hrec). revert t. induction n as [|n IH]; intros t Ht.
  - cbn [Fips.expand]. destruct (take 16 (drop t w)) eqn:He; rewrite <- He; apply take_ge; rewrite length_drop; lia.
  - pose proof (next_word_fips t ltac:(lia)) as Hn. rewrite <- (Hrec (t + 16)%nat) in Hn by lia.
    assert (∀ k, (k < 64)%nat → w !! k = Some (w !!! k)) as Hl
      by (intros k Hk; by apply list_lookup_lookup_total_lt; lia).
    assert (drop t w = w !!! t :: drop (S t) w) as Hd by (apply drop_S, Hl; lia).
    assert (take 16 (drop t w) = w !!! t :: take 15 (drop (S t) w)) as Hw by (by rewrite Hd).
    rewrite Hw in Hn |- *. cbn [Fips.expand]. rewrite <- Hn, Hd. f_equal.
    rewrite <- (IH (S t)) at 2 by lia. f_equal. symmetry. apply take_S_r.
    rewrite lookup_drop. replace (S t + 15)%nat with (t + 16)%nat by lia. apply Hl. lia.
Qed.
Lemma schedule_expand : Fips.expand 48 (message_word chunk <$> seq 0 16) = w.
Proof.
  pose proof (expand_window 48 0 eq_refl) as He. rewrite drop_0 in He. etransitivity; [|exact He]. f_equal.
  destruct Hinv as (Hlen & Hmsg & _). apply list_eq. intros i.
  destruct (decide (i < 16)%nat) as [Hi|Hi].
  - rewrite lookup_take_lt by done. rewrite list_lookup_fmap, lookup_seq_lt by done. cbn [fmap option_fmap option_map].
    rewrite Nat.add_0_l.
    rewrite <- (Hmsg i Hi). symmetry. apply list_lookup_lookup_total_lt. lia.
  - rewrite !lookup_ge_None_2; [done| |]; rewrite ?length_take, ?length_fmap, ?length_seq; lia.
Qed.
End Expansion.

(** The words of the schedule are [u32] values. *)
Lemma message_word_in_u chunk t : in_u 32 (message_word chunk t).
Proof.
  unfold message_word, from_be_bytes. pose proof (from_le_bytes_in_u (rev (take 4 (drop (t * 4) chunk)))) as [Hl Hu].
  split; [done|]. eapply Z.lt_le_trans; [exact Hu|]. apply Z.pow_le_mono_r; [lia|].
  rewrite length_rev, length_take. lia.
Qed.
Lemma schedule_words_in_u chunk t : (t < 64)%nat → in_u 32 (schedule chunk !!! t).
Proof.
  intros Ht. destruct (schedule_spec chunk) as (_ & Hm & Hr). destruct (decide (t < 16)%nat).
  - rewrite Hm by done. apply message_word_in_u.
  - rewrite Hr by lia. unfold next_word, add32. apply wadd_in_u. lia.
Qed.
Lemma schedule_fips chunk : schedule chunk = Fips.expand 48 (message_word chunk <$> seq 0 16).
Proof. symmetry. apply schedule_expand; [apply schedule_spec|apply schedule_words_in_u]. Qed.

(** ** The rounds *)
Definition tuple_of (v : sha_vars) : Fips.vars := (va v, vb v, vc v, vd v, ve v, vf v, vg v, vh v).
Definition vars_ok (v : sha_vars) : Prop :=
  in_u 32 (va v) ∧ in_u 32 (vb v) ∧ in_u 32 (vc v) ∧ in_u 32 (vd v) ∧
  in_u 32 (ve v) ∧ in_u 32 (vf v) ∧ in_u 32 (vg v) ∧ in_u 32 (vh v).

Lemma round_fips w v i :
  vars_ok v →
  tuple_of (round w v i) = Fips.fips_round (tuple_of v) (K256 !!! i, w !!! i) ∧ vars_ok (round w v i).
Proof.
  intros (Ha & Hb & Hc & Hd & He & Hf & Hg & Hh). split.
  - unfold tuple_of, round, Fips.fips_round. cbn [va vb vc vd ve vf vg vh fst snd].
    rewrite Sigma0_spec, Sigma1_spec, Ch_spec, Maj_spec by done.
    generalize (Fips.Sigma0 (va v)), (Fips.Sigma1 (ve v)), (Fips.Ch (ve v) (vf v) (vg v)),
      (Fips.Maj (va v) (vb v) (vc v)), (K256 !!! i), (w !!! i). intros.
    repeat (apply pair_equal_spec; split); try done; one_sum.
  - unfold vars_ok, round, add32. cbn [va vb vc vd ve vf vg vh]. split_and!; try done; by apply wadd_in_u.
Qed.
Lemma rounds_fips w v l :
  vars_ok v →
  tuple_of (foldl (round w) v l) = foldl Fips.fips_round (tuple_of v) ((λ i, (K256 !!! i, w !!! i)) <$> l) ∧
  vars_ok (foldl (round w) v l).
Proof.
  revert v. induction l as [|i l IH]; intros v Hv; [done|]. cbn [foldl fmap list_fmap].
  destruct (round_fips w v i Hv) as [<- Hv']. by apply IH.
Qed.
Lemma zip_by_index (k w : list Z) n :
  length k = n → length w = n → (λ i, (k !!! i, w !!! i)) <$> seq 0 n = zip k w.
Proof.
  intros Hk Hw. apply list_eq. intros i. rewrite list_lookup_fmap, lookup_zip_with.
  destruct (decide (i < n)%nat).
  - rewrite lookup_seq_lt by done. cbn. rewrite !list_lookup_lookup_total_lt by lia. done.
  - rewrite !lookup_ge_None_2; [done|..]; rewrite ?length_seq; lia.
Qed.

(** ** One block *)
Definition hash_ok (h : list Z) : Prop := length h = 8%nat ∧ Forall (in_u 32) h.

Lemma compress_fips h chunk :
  hash_ok h → compress h chunk = Fips.fips_compress h (message_word chunk <$> seq 0 16) ∧ hash_ok (compress h chunk).
Proof.
  intros [Hlen Hok]. do 8 (destruct h as [|? h]; [done|]). destruct h; [|done].
  repeat (apply Forall_cons in Hok as [? Hok]). unfold compress, Fips.fips_compress.
  rewrite <- schedule_fips, <- K256_fips.
  destruct (rounds_fips (schedule chunk) (vars_of [z; z0; z1; z2; z3; z4; z5; z6]) (seq 0 64)) as [Heq _]; [done|].
  rewrite zip_by_index in Heq by (apply schedule_spec || done).
  change (z, z0, z1, z2, z3, z4, z5, z6) with (tuple_of (vars_of [z; z0; z1; z2; z3; z4; z5; z6])).
  rewrite <- Heq. unfold tuple_of. cbn [zip_with]. split.
  - repeat f_equal; one_sum.
  - split; [done|]. repeat constructor; unfold add32; apply wadd_in_u; lia.
Qed.
Lemma compress_all_fips msg l h :
  hash_ok h →
  foldl compress h ((λ i, take 64 (drop (64 * i) msg)) <$> l) = foldl (λ H i, Fips.fips_compress H (Fips.block msg i)) h l ∧
  hash_ok (foldl compress h ((λ i, take 64 (drop (64 * i) msg)) <$> l)).
Proof.
  revert h. induction l as [|i l IH]; intros h Hh; [done|]. cbn [foldl fmap list_fmap].
  destruct (compress_fips h (take 64 (drop (64 * i) msg)) Hh) as [Heq Hok]. rewrite block_words in Heq.
  rewrite <- Heq. by apply IH.
Qed.
Lemma length_digest (h : list Z) : length (concat (to_be_bytes 4 <$> h)) = (4 * length h)%nat.
Proof. induction h as [|x h IH]; [done|]. cbn [fmap list_fmap concat]. rewrite length_app, IH, length_to_be_bytes. simpl. lia. Qed.

(** C17: The bridge contract's simple_sha256 is SHA-256 as FIPS 180-4 defines it, on
    every message whose bit length fits 64 bits: padding by the length equation, constants
    from the roots of the primes, word functions bit by bit, a sliding message schedule and
    sums modulo 2^32. *)
Theorem simple_sha256_reference data :
  8 * Z.of_nat (length data) < 2 ^ 64 → ba_bytes (simple_sha256 data) = Fips.sha256 data.
Proof.
  intros Hlen. destruct (pad_spec data) as (_ & _ & Hm & _).
  unfold simple_sha256, Fips.sha256. rewrite chunks_blocks by done. rewrite pad_fips, h_init_fips by lia.
  destruct (compress_all_fips (Fips.padded data) (seq 0 (length (Fips.padded data) / 64)) Fips.H0)
    as [Heq [Hl _]].
  { rewrite <- h_init_fips. split; [done|]. repeat constructor; done. }
  rewrite Heq in Hl |- *. apply ba_of_bytes. by rewrite length_digest, Hl.
Qed.
Lemma simple_sha256_reference_witness :
  8 * Z.of_nat (length (b_ "abc")) < 2 ^ 64 ∧
  ba_bytes (simple_sha256 (b_ "abc")) = Fips.sha256 (b_ "abc") ∧
  hex_encode (Fips.sha256 (b_ "abc")) = "ba7816bf8f01cfea414140de5dae2223b00361a396177a9cb410ff61f20015ad".
Proof.
  assert (8 * Z.of_nat (length (b_ "abc")) < 2 ^ 64) as Hl by (by vm_compute).
  split; [exact Hl|]. split; [exact (simple_sha256_reference (b_ "abc") Hl)|by vm_compute].
Defined.

(** ** The padding loop as written: [while (padded.len() % 64) != 56 { padded.push(0) }] *)
Section PadLoop.
Implicit Types l out : bytes.

Inductive pad_step : bytes → bytes → Prop :=
  | PadPush l : (length l mod 64 ≠ 56)%nat → pad_step l (l ++ [Byte.x00]).
(** A run of [n] iterations, to the exit. *)
Inductive pad_run : bytes → nat → bytes → Prop :=
  | RunExit l : (length l mod 64 = 56)%nat → pad_run l 0 l
  | RunPush l l' n out : pad_step l l' → pad_run l' n out → pad_run l (S n) out.

Lemma pad_step_missing l l' : pad_step l l' → missing l = S (missing l').
Proof. destruct 1. by apply missing_snoc. Qed.
Lemma pad_step_wf : well_founded (flip pad_step).
Proof.
  apply (wf_projected (λ a b, (a < b)%nat) missing); [|exact lt_wf].
  intros l' l Hs. pose proof (pad_step_missing l l' Hs). lia.
Qed.
Lemma pad_run_exists fuel l : (missing l ≤ fuel)%nat → pad_run l (missing l) (pad_zeros fuel l).
Proof.
  revert l. induction fuel as [|f IH]; intros l Hf; cbn [pad_zeros].
  - assert (missing l = 0)%nat as Hz by lia. rewrite Hz. by apply RunExit, missing_zero.
  - destruct (Nat.eqb_spec (length l mod 64) 56) as [He|He].
    + rewrite missing_full by done. by apply RunExit.
    + rewrite (missing_snoc l Byte.x00 He) in Hf |- *.
      apply RunPush with (l ++ [Byte.x00]); [by constructor|]. apply IH. lia.
Qed.
Lemma pad_run_det l n out : pad_run l n out → ∀ n' out', pad_run l n' out' → n' = n ∧ out' = out.
Proof.
  induction 1 as [l He|l l' n out Hs Hr IH]; intros n' out' Hr'.
  - destruct Hr' as [|? ? ? ? Hs]; [done|]. by destruct Hs.
  - destruct Hr' as [|? ? ? ? Hs' Hr']; [by destruct Hs|]. destruct Hs. inversion Hs'; subst.
    by destruct (IH _ _ Hr') as [-> ->].
Qed.

(** C29: The padding loop of simple_sha256 always ends: its step relation is well
    founded, from every buffer there is exactly one run, of fewer than 64 iterations, and it
    ends in the buffer the fuelled function computes. *)
Theorem pad_loop_terminates l :
  well_founded (flip pad_step) ∧
  ∃ n, (n < 64)%nat ∧ pad_run l n (pad_zeros 64 l) ∧ pad_zeros 64 l = l ++ replicate n Byte.x00 ∧
       ∀ n' out', pad_run l n' out' → n' = n ∧ out' = pad_zeros 64 l.
Proof.
  pose proof (missing_lt l) as Hlt. split; [apply pad_step_wf|]. exists (missing l).
  assert (pad_run l (missing l) (pad_zeros 64 l)) as Hr by (apply pad_run_exists; lia).
  split_and!; [done|done|apply pad_zeros_spec; lia|by apply pad_run_det].
Qed.
End PadLoop.
