(* ===== verification/BridgeContract.v ===== *)
(** * BridgeContract: the on-chain bridge (contracts/bridge/src/lib.rs)

    HTLCs, lock, mint and burn over the SDK of ContractSdk.v, with the
    contract's own SHA-256 of Sha256.v.  The offsets that [bridge_lock], [bridge_mint] and
    [bridge_burn] compute from lengths in their arguments are [usize]: 64 bits wide in a
    native build and 32 bits in the wasm32 build, with sums that wrap in release.  The
    width is the parameter [Target]; the theorems of this file hold for both. *)

From S2P Require Import Prelude Crypto ContractSdk Sha256.

(** ** Helpers *)
Definition read_u64 (key : bytes) : contract Z := read_uint 8 key.
Definition write_u64 (key : bytes) (value : Z) : contract () := write_uint 8 key value.
Definition read_u128 (key : bytes) : contract Z := read_uint 16 key.
Definition write_u128 (key : bytes) (value : Z) : contract () := write_uint 16 key value.
Definition flag (st : gmap bytes bytes) (key : bytes) : bool :=
  match st !! key with Some (b :: _) => negb (bool_decide (b = Byte.x00)) | _ => false end.
Definition read_bool (key : bytes) : contract bool := λ e, Ok (e, flag (me_storage e) key).
Definition write_bool (key : bytes) (value : bool) : contract () :=
  storage_write key [if value then Byte.x01 else Byte.x00].
Definition owner_of (st : gmap bytes bytes) (key : bytes) : Address :=
  match st !! key with
  | Some v => if (length v =? 20)%nat then ba_of 20 v else ba_repeat 20 Byte.x00
  | None => ba_repeat 20 Byte.x00
  end.
Definition read_address (key : bytes) : contract Address := λ e, Ok (e, owner_of (me_storage e) key).
Definition require_owner : contract () :=
  owner ← read_address (b_ "owner");
  c ← caller;
  if negb (bool_decide (c = owner)) then abort "Only owner can call this function" else mret ().
Definition require_not_paused : contract () :=
  p ← read_bool (b_ "paused");
  if (p : bool) then abort "Bridge is paused" else mret ().

Definition htlc_key (hash_lock_hex : bytes) : bytes := b_ "htlc:" ++ hash_lock_hex.
Definition locked_key (chain token : bytes) : bytes := b_ "locked:" ++ chain ++ b_ ":" ++ token.
Definition wrapped_balance_key (chain token : bytes) (addr : Address) : bytes :=
  b_ "wrapped:" ++ chain ++ b_ ":" ++ token ++ b_ ":" ++ ba_bytes addr.
Definition wrapped_supply_key (chain token : bytes) : bytes :=
  b_ "wrapped_supply:" ++ chain ++ b_ ":" ++ token.
Definition validator_key (addr : Address) : bytes := b_ "validator:" ++ ba_bytes addr.

(** ** HTLC records *)
Record HtlcData : Type := {
  hd_sender : Address;
  hd_recipient : Address;
  hd_amount : Z;
  hd_timelock : Z;
  hd_status : byte
}.
Definition encode_htlc (sender recipient : Address) (amount timelock : Z) (status : byte) : bytes :=
  ba_bytes sender ++ ba_bytes recipient ++ to_le_bytes 16 amount ++ to_le_bytes 8 timelock ++ [status].
Definition decode_htlc (data : bytes) : option HtlcData :=
  if (length data <? 65)%nat then None
  else Some {|
    hd_sender := ba_of 20 (take 20 data);
    hd_recipient := ba_of 20 (take 20 (drop 20 data));
    hd_amount := from_le_bytes (take 16 (drop 40 data));
    hd_timelock := from_le_bytes (take 8 (drop 56 data));
    hd_status := default Byte.x00 (data !! 64%nat) |}.

(** [hex_encode_32] *)
Definition HEX_CHARS : bytes := b_ "0123456789abcdef".
Definition hex_char (n : Z) : byte := default Byte.x00 (HEX_CHARS !! Z.to_nat n).
Definition hex_encode_32 (bs : barray 32) : bytes :=
  flat_map (λ b, [hex_char (Z.shiftr (byte_to_Z b) 4); hex_char (Z.land (byte_to_Z b) 15)]) (ba_bytes bs).

(** ** Entry points *)
Definition init : contract Z :=
  c ← caller;
  storage_write (b_ "owner") (ba_bytes c);;
  write_bool (b_ "paused") false;;
  write_u64 (b_ "htlc_count") 0;;
  write_u64 (b_ "validator_count") 0;;
  write_u64 (b_ "min_signatures") 2;;
  write_u64 (b_ "fee_bps") 10;;
  emit_event "BridgeInitialized";;
  mret 0.

Definition fail_with (ev : string) : contract Z := emit_event ev;; mret (-1).

Definition create_htlc (args : bytes) : contract Z :=
  require_not_paused;;
  if (length args <? 60)%nat then fail_with "HTLCFailed:InvalidArgs"
  else
    hl ← slice args 0 32;
    let hash_lock : barray 32 := ba_of 32 hl in
    rc ← slice args 32 52;
    let recipient : Address := ba_of 20 rc in
    tl ← slice args 52 60;
    let timelock := from_le_bytes tl in
    c ← caller;
    amount ← self_balance;
    if amount =? 0 then fail_with "HTLCFailed:ZeroAmount"
    else
      let key := htlc_key (hex_encode_32 hash_lock) in
      old ← storage_read key;
      match old with
      | Some _ => fail_with "HTLCFailed:AlreadyExists"
      | None =>
          storage_write key (encode_htlc c recipient amount timelock Byte.x00);;
          count ← read_u64 (b_ "htlc_count");
          write_u64 (b_ "htlc_count") (count +! 1);;
          emit_event "HTLCCreated";;
          mret 0
      end.

Definition claim_htlc (args : bytes) : contract Z :=
  if (length args <? 1)%nat then mret (-1)
  else
    let key := htlc_key (hex_encode_32 (simple_sha256 args)) in
    data ← storage_read key;
    match data with
    | None => fail_with "HTLCFailed:NotFound"
    | Some d =>
        match decode_htlc d with
        | None => mret (-1)
        | Some htlc =>
            if negb (bool_decide (hd_status htlc = Byte.x00)) then fail_with "HTLCFailed:NotActive"
            else
              c ← caller;
              if negb (bool_decide (c = hd_recipient htlc)) then fail_with "HTLCFailed:NotRecipient"
              else
                now ← block_timestamp;
                if hd_timelock htlc <=? now then fail_with "HTLCFailed:Expired"
                else
                  sdk_transfer (hd_recipient htlc) (as_u 64 (hd_amount htlc));;
                  storage_write key (encode_htlc (hd_sender htlc) (hd_recipient htlc) (hd_amount htlc)
                                       (hd_timelock htlc) Byte.x01);;
                  emit_event "HTLCClaimed";;
                  mret 0
        end
    end.

Definition refund_htlc (args : bytes) : contract Z :=
  if (length args <? 32)%nat then mret (-1)
  else
    hl ← slice args 0 32;
    let key := htlc_key (hex_encode_32 (ba_of 32 hl)) in
    data ← storage_read key;
    match data with
    | None => fail_with "HTLCFailed:NotFound"
    | Some d =>
        match decode_htlc d with
        | None => mret (-1)
        | Some htlc =>
            if negb (bool_decide (hd_status htlc = Byte.x00)) then fail_with "HTLCFailed:NotActive"
            else
              c ← caller;
              if negb (bool_decide (c = hd_sender htlc)) then fail_with "HTLCFailed:NotSender"
              else
                now ← block_timestamp;
                if now <? hd_timelock htlc then fail_with "HTLCFailed:NotExpired"
                else
                  sdk_transfer (hd_sender htlc) (as_u 64 (hd_amount htlc));;
                  storage_write key (encode_htlc (hd_sender htlc) (hd_recipient htlc) (hd_amount htlc)
                                       (hd_timelock htlc) Byte.x02);;
                  emit_event "HTLCRefunded";;
                  mret 0
        end
    end.

(** *** [usize] *)
Inductive Target : Type := Native64 | Wasm32.
Existing Class Target.
Definition usize_bits (t : Target) : Z := match t with Native64 => 64 | Wasm32 => 32 end.
(** [a + b] on [usize]. *)
Definition uadd {t : Target} (a b : Z) : Z := wadd (usize_bits t) a b.
Notation "a +us b" := (uadd a b) (at level 50, left associativity) : rust_scope.
(** [&args[a..b]] *)
Definition slice_at (args : bytes) (a b : Z) : contract bytes := slice args (Z.to_nat a) (Z.to_nat b).

Section Offsets.
Context {t : Target}.

(** A [u32] length read at an offset, [as usize].  A range from [off] to [off + 4] that does
    not panic has four bytes, so that [copy_from_slice] does not panic either. *)
Definition read_len (args : bytes) (off : Z) : contract Z :=
  l ← slice_at args off (off +us 4); mret (from_le_bytes l).

Definition bridge_lock (args : bytes) : contract Z :=
  require_not_paused;;
  if (length args <? 12)%nat then fail_with "BridgeLockFailed:InvalidArgs"
  else
    chain_len ← read_len args 0;
    if Z.of_nat (length args) <? 4 +us chain_len +us 4 then mret (-1)
    else
      chain ← slice_at args 4 (4 +us chain_len);
      let offset := 4 +us chain_len in
      token_len ← read_len args offset;
      if Z.of_nat (length args) <? offset +us 4 +us token_len +us 4 then mret (-1)
      else
        token ← slice_at args (offset +us 4) (offset +us 4 +us token_len);
        let offset2 := offset +us 4 +us token_len in
        recip_len ← read_len args offset2;
        if Z.of_nat (length args) <? offset2 +us 4 +us recip_len then mret (-1)
        else
          amount ← self_balance;
          if amount =? 0 then fail_with "BridgeLockFailed:ZeroAmount"
          else
            fee_bps ← read_u64 (b_ "fee_bps");
            let fee := (amount *!! fee_bps) / 10000 in
            let net_amount := amount -!! fee in
            let lk := locked_key chain token in
            current ← read_u128 lk;
            write_u128 lk (current +!! net_amount);;
            emit_event "BridgeLocked";;
            mret 0.

(** The prefix [chain_len][chain][token_len][token] that minting and burning
    parse in the same way: the chain, the token and the next offset. *)
Definition parse_chain_token (args : bytes) : contract (bytes * bytes * Z) :=
  chain_len ← read_len args 0;
  chain ← slice_at args 4 (4 +us chain_len);
  let offset := 4 +us chain_len in
  token_len ← read_len args offset;
  token ← slice_at args (offset +us 4) (offset +us 4 +us token_len);
  mret (chain, token, offset +us 4 +us token_len).

Definition bridge_mint (args : bytes) : contract Z :=
  require_owner;;
  require_not_paused;;
  if (length args <? 44)%nat then mret (-1)
  else
    p ← parse_chain_token args;
    let '(chain, token, offset2) := p in
    rc ← slice_at args offset2 (offset2 +us 20);
    am ← slice_at args (offset2 +us 20) (offset2 +us 36);
    let amount := from_le_bytes am in
    let bk := wrapped_balance_key chain token (ba_of 20 rc) in
    current ← read_u128 bk;
    write_u128 bk (current +!! amount);;
    let sk := wrapped_supply_key chain token in
    supply ← read_u128 sk;
    write_u128 sk (supply +!! amount);;
    emit_event "WrappedMinted";;
    mret 0.

Definition bridge_burn (args : bytes) : contract Z :=
  require_not_paused;;
  if (length args <? 28)%nat then mret (-1)
  else
    p ← parse_chain_token args;
    let '(chain, token, offset2) := p in
    am ← slice_at args offset2 (offset2 +us 16);
    let amount := from_le_bytes am in
    c ← caller;
    let bk := wrapped_balance_key chain token c in
    balance ← read_u128 bk;
    if balance <? amount then fail_with "BurnFailed:InsufficientBalance"
    else
      write_u128 bk (balance -!! amount);;
      let sk := wrapped_supply_key chain token in
      supply ← read_u128 sk;
      write_u128 sk (sat_sub supply amount);;
      emit_event "WrappedBurned";;
      mret 0.

End Offsets.

Definition add_validator (args : bytes) : contract Z :=
  require_owner;;
  if (length args <? 20)%nat then mret (-1)
  else
    a ← slice args 0 20;
    write_bool (validator_key (ba_of 20 a)) true;;
    count ← read_u64 (b_ "validator_count");
    write_u64 (b_ "validator_count") (count +! 1);;
    emit_event "ValidatorAdded";;
    mret 0.
Definition remove_validator (args : bytes) : contract Z :=
  require_owner;;
  if (length args <? 20)%nat then mret (-1)
  else
    a ← slice args 0 20;
    write_bool (validator_key (ba_of 20 a)) false;;
    count ← read_u64 (b_ "validator_count");
    (if 0 <? count then write_u64 (b_ "validator_count") (count -! 1) else mret ());;
    emit_event "ValidatorRemoved";;
    mret 0.
Definition pause : contract Z :=
  require_owner;; write_bool (b_ "paused") true;; emit_event "BridgePaused";; mret 0.
Definition unpause : contract Z :=
  require_owner;; write_bool (b_ "paused") false;; emit_event "BridgeUnpaused";; mret 0.
Definition htlc_count : contract Z := v ← read_u64 (b_ "htlc_count"); mret (as_i 32 v).
Definition validator_count : contract Z := v ← read_u64 (b_ "validator_count"); mret (as_i 32 v).

Inductive BridgeCall : Type :=
| CInit
| CCreate (args : bytes)
| CClaim (args : bytes)
| CRefund (args : bytes)
| CLock (args : bytes)
| CMint (args : bytes)
| CBurn (args : bytes)
| CAddValidator (args : bytes)
| CRemoveValidator (args : bytes)
| CPause
| CUnpause
| CHtlcCount
| CValidatorCount.
Definition bridge_entry {t : Target} (o : BridgeCall) : contract Z :=
  match o with
  | CInit => init
  | CCreate a => create_htlc a
  | CClaim a => claim_htlc a
  | CRefund a => refund_htlc a
  | CLock a => bridge_lock a
  | CMint a => bridge_mint a
  | CBurn a => bridge_burn a
  | CAddValidator a => add_validator a
  | CRemoveValidator a => remove_validator a
  | CPause => pause
  | CUnpause => unpause
  | CHtlcCount => htlc_count
  | CValidatorCount => validator_count
  end.

(** ** Encodings *)
Section Encodings.
(** An HTLC cell is read back as it was written. *)
Lemma decode_encode_htlc s r v t st :
  in_u 128 v → in_u 64 t →
  decode_htlc (encode_htlc s r v t st) =
  Some {| hd_sender := s; hd_recipient := r; hd_amount := v; hd_timelock := t; hd_status := st |}.
Proof.
  intros Hv Ht. unfold decode_htlc, encode_htlc.
  assert (length (ba_bytes s ++ ba_bytes r ++ to_le_bytes 16 v ++ to_le_bytes 8 t ++ [st]) = 65%nat) as Hlen
    by (by rewrite !length_app, !ba_length, !length_to_le_bytes).
  rewrite Hlen. cbn [Nat.ltb Nat.leb]. rewrite take_app_exact by apply ba_length.
  assert (∀ (l1 l2 : bytes) n m, length l1 = n → drop (n + m) (l1 ++ l2) = drop m l2) as Hdrop.
  { intros l1 l2 n m <-. by rewrite <- drop_drop, drop_app_length. }
  set (l3 := to_le_bytes 8 t ++ [st]). set (l2 := to_le_bytes 16 v ++ l3). set (l1 := ba_bytes r ++ l2).
  assert (drop 20 (ba_bytes s ++ l1) = l1) as -> by (apply (Hdrop _ _ 20%nat 0%nat), ba_length).
  assert (drop 40 (ba_bytes s ++ l1) = l2) as ->.
  { rewrite (Hdrop _ _ 20%nat 20%nat) by apply ba_length. apply (Hdrop _ _ 20%nat 0%nat), ba_length. }
  assert (drop 56 (ba_bytes s ++ l1) = l3) as ->.
  { rewrite (Hdrop _ _ 20%nat 36%nat) by apply ba_length. unfold l1. rewrite (Hdrop _ _ 20%nat 16%nat) by apply ba_length.
    apply (Hdrop _ _ 16%nat 0%nat), length_to_le_bytes. }
  unfold l1, l2, l3.
  rewrite !take_app_exact by (apply ba_length || apply length_to_le_bytes).
  rewrite (from_to_le_bytes 16), (from_to_le_bytes 8) by done. do 2 f_equal.
  - apply barray_eq. apply ba_of_bytes, ba_length.
  - apply barray_eq. apply ba_of_bytes, ba_length.
  - rewrite !app_assoc, lookup_app_r; rewrite !length_app, !ba_length, !length_to_le_bytes; [done|lia].
Qed.

Definition hex_val_byte (c : byte) : Z :=
  let n := byte_to_Z c in if n <=? 57 then n - 48 else n - 87.
Lemma hex_pair b :
  byte_of_Z (16 * hex_val_byte (hex_char (Z.shiftr (byte_to_Z b) 4)) +
             hex_val_byte (hex_char (Z.land (byte_to_Z b) 15))) = b.
Proof. by destruct b. Qed.
Lemma hex_encode_32_inj : Inj (=) (=) hex_encode_32.
Proof.
  intros x y Heq. apply barray_eq. unfold hex_encode_32 in Heq. revert Heq.
  generalize (ba_bytes x), (ba_bytes y). intros l. induction l as [|b l IH]; intros [|c l'] Heq; simpl in Heq; try done.
  injection Heq as H1 H2 H3. rewrite <- (hex_pair b), <- (hex_pair c), H1, H2. f_equal. by apply IH.
Qed.
Definition lock_key (h : barray 32) : bytes := htlc_key (hex_encode_32 h).
Lemma lock_key_inj : Inj (=) (=) lock_key.
Proof. intros x y Heq. apply app_inv_head in Heq. by apply hex_encode_32_inj. Qed.
End Encodings.

(** ** HTLCs *)
Section Htlcs.
Context {t : Target}.
Implicit Types (e : MockEnv) (args : bytes).

Lemma slice_run args a b e :
  (a ≤ b)%nat → (b ≤ length args)%nat → slice args a b e = Ok (e, take (b - a) (drop a args)).
Proof. intros Ha Hb. unfold slice. apply Nat.leb_le in Ha as ->, Hb as ->. done. Qed.
Ltac unbind := unfold mbind, contract_bind.
Lemma uadd_in_u (a b : Z) : in_u (usize_bits t) (a +us b).
Proof. apply wadd_in_u. by destruct t. Qed.
(** A range between two sums from one offset that does not panic has the length of their
    difference, even if the sums wrapped. *)
Lemma slice_at_inv args (off i j : Z) e e' x :
  i ≤ j < 2 ^ 32 + i → slice_at args (off +us i) (off +us j) e = Ok (e', x) → e' = e ∧ Z.of_nat (length x) = j - i.
Proof.
  intros Hij Hs. pose proof (uadd_in_u off i) as Hi. pose proof (uadd_in_u off j) as Hj. unfold in_u in Hi, Hj.
  unfold slice_at, slice in Hs. destruct (Nat.leb_spec (Z.to_nat (off +us i)) (Z.to_nat (off +us j))) as [Hle|]; [|done].
  destruct (Nat.leb_spec (Z.to_nat (off +us j)) (length args)) as [Hle'|]; [|done]. injection Hs as <- <-.
  split; [done|]. rewrite length_take, length_drop. unfold uadd, wadd, wrap in *.
  assert (2 ^ 32 ≤ 2 ^ usize_bits t) as Hw by (by destruct t).
  pose proof (Z_div_mod_eq_full (off + i) (2 ^ usize_bits t)) as Ei.
  pose proof (Z_div_mod_eq_full (off + j) (2 ^ usize_bits t)) as Ej.
  set (W := 2 ^ usize_bits t) in *. set (q := (off + i) / W) in *. set (q' := (off + j) / W) in *.
  assert (q' = q) as Hq by nia. rewrite Hq in Ej. lia.
Qed.

Definition settle (h : HtlcData) (st : byte) : bytes :=
  encode_htlc (hd_sender h) (hd_recipient h) (hd_amount h) (hd_timelock h) st.
(** Paying out of the contract, when it can. *)
Definition pay_out e (to : Address) (v : Z) : MockEnv :=
  match sdk_transfer to v e with Ok (e', _) => e' | Err _ => e end.
Lemma pay_out_storage e to v : me_storage (pay_out e to v) = me_storage e.
Proof. unfold pay_out, sdk_transfer. by destruct (v <=? _). Qed.
Lemma transfer_run e to v : ∃ ok, sdk_transfer to v e = Ok (pay_out e to v, ok).
Proof. unfold pay_out, sdk_transfer. destruct (v <=? _); eauto. Qed.

(** When an HTLC may be claimed, or refunded. *)
Definition claimable e (h : HtlcData) : Prop :=
  hd_status h = Byte.x00 ∧ me_caller e = hd_recipient h ∧ me_block_timestamp e < hd_timelock h.
Definition refundable e (h : HtlcData) : Prop :=
  hd_status h = Byte.x00 ∧ me_caller e = hd_sender h ∧ hd_timelock h ≤ me_block_timestamp e.

Lemma fail_with_run ev e : ∃ e', fail_with ev e = Ok (e', -1) ∧ me_storage e' = me_storage e ∧
  me_self_balance e' = me_self_balance e ∧ me_transfers e' = me_transfers e.
Proof. by eexists. Qed.

(** Claiming either settles the HTLC of the revealed secret, or fails and
    touches neither storage nor money. *)
Lemma claim_run e args :
  (∃ d h e', me_storage e !! lock_key (simple_sha256 args) = Some d ∧ decode_htlc d = Some h ∧
     claimable e h ∧ args ≠ [] ∧ claim_htlc args e = Ok (e', 0) ∧
     me_storage e' = <[lock_key (simple_sha256 args) := settle h Byte.x01]> (me_storage e) ∧
     me_transfers e' = me_transfers (pay_out e (hd_recipient h) (as_u 64 (hd_amount h)))) ∨
  (∃ e', claim_htlc args e = Ok (e', -1) ∧ me_storage e' = me_storage e ∧ me_transfers e' = me_transfers e).
Proof.
  unfold claim_htlc. destruct args as [|x args]; [right; eexists; done|]. set (a := x :: args).
  assert ((length a <? 1)%nat = false) as -> by done.
  unbind. unfold storage_read. fold (lock_key (simple_sha256 a)).
  destruct (me_storage e !! lock_key (simple_sha256 a)) as [d|] eqn:E; [|right; by eexists].
  destruct (decode_htlc d) as [h|] eqn:Ed; [|right; by eexists].
  case_bool_decide as Hst; cbn [negb]; [|right; by eexists].
  unfold caller; cbv beta iota. case_bool_decide as Hc; cbn [negb]; [|right; by eexists].
  unfold block_timestamp; cbv beta iota. destruct (Z.leb_spec (hd_timelock h) (me_block_timestamp e)) as [Ht|Ht]; [right; by eexists|].
  destruct (transfer_run e (hd_recipient h) (as_u 64 (hd_amount h))) as [ok ->].
  left. exists d, h. eexists. split; [done|]. split; [done|]. split; [done|]. split; [done|].
  split; [reflexivity|]. simpl. by rewrite pay_out_storage.
Qed.
Lemma refund_run e args :
  let hl : barray 32 := ba_of 32 (take 32 args) in
  (∃ d h e', me_storage e !! lock_key hl = Some d ∧ decode_htlc d = Some h ∧
     refundable e h ∧ (32 ≤ length args)%nat ∧ refund_htlc args e = Ok (e', 0) ∧
     me_storage e' = <[lock_key hl := settle h Byte.x02]> (me_storage e) ∧
     me_transfers e' = me_transfers (pay_out e (hd_sender h) (as_u 64 (hd_amount h)))) ∨
  (∃ e', refund_htlc args e = Ok (e', -1) ∧ me_storage e' = me_storage e ∧ me_transfers e' = me_transfers e).
Proof.
  intros hl. unfold refund_htlc. destruct (Nat.ltb_spec (length args) 32) as [Hl|Hl]; [right; by eexists|].
  unbind. rewrite slice_run by lia. change (ba_of 32 (take (32 - 0) (drop 0 args))) with hl.
  unfold storage_read. fold (lock_key hl).
  destruct (me_storage e !! lock_key hl) as [d|] eqn:E; [|right; by eexists].
  destruct (decode_htlc d) as [h|] eqn:Ed; [|right; by eexists].
  case_bool_decide as Hst; cbn [negb]; [|right; by eexists].
  unfold caller; cbv beta iota. case_bool_decide as Hc; cbn [negb]; [|right; by eexists].
  unfold block_timestamp; cbv beta iota. destruct (Z.ltb_spec (me_block_timestamp e) (hd_timelock h)) as [Ht|Ht]; [right; by eexists|].
  destruct (transfer_run e (hd_sender h) (as_u 64 (hd_amount h))) as [ok ->].
  left. exists d, h. eexists. split; [done|]. split; [done|]. split; [done|]. split; [done|].
  split; [reflexivity|]. simpl. by rewrite pay_out_storage.
Qed.

(** *** Frames *)
Lemma keeps_read_bool P key : keeps P (read_bool key).
Proof. by intros e e' x [= <- _]. Qed.
Lemma keeps_read_address P key : keeps P (read_address key).
Proof. by intros e e' x [= <- _]. Qed.
Hint Resolve keeps_read_bool keeps_read_address : frame.
Lemma keeps_require_owner P : keeps P require_owner.
Proof. unfold require_owner. frame_walk. Qed.
Lemma keeps_require_not_paused P : keeps P require_not_paused.
Proof. unfold require_not_paused. frame_walk. Qed.
Lemma keeps_fail_with P ev : keeps P (fail_with ev).
Proof. unfold fail_with. frame_walk. Qed.
Lemma keeps_read_len P args off : keeps P (read_len args off).
Proof. unfold read_len, slice_at. frame_walk. Qed.
Lemma keeps_parse P args : keeps P (parse_chain_token args).
Proof. unfold parse_chain_token, slice_at. frame_walk; apply keeps_read_len. Qed.
Hint Resolve keeps_require_owner keeps_require_not_paused keeps_fail_with keeps_read_len keeps_parse : frame.

(** The cells of the three kinds of keys that matter below, told apart by
    their first bytes. *)
Definition is_htlc_key (k : bytes) : Prop := take 5 k = b_ "htlc:".
Definition is_wrapped_key (k : bytes) : Prop := take 7 k = b_ "wrapped".
#[local] Instance is_wrapped_key_dec k : Decision (is_wrapped_key k).
Proof. unfold is_wrapped_key. apply _. Defined.
Ltac write_frame := first [apply keeps_write_uint | apply keeps_write]; done.

(** Only the three HTLC entry points touch HTLC cells, and only minting and
    burning touch wrapped tokens. *)
Lemma other_calls_keep_htlcs o :
  match o with CCreate _ | CClaim _ | CRefund _ => True | _ => keeps is_htlc_key (bridge_entry o) end.
Proof.
  destruct o; try done; cbn [bridge_entry];
    unfold init, bridge_lock, bridge_mint, bridge_burn, add_validator, remove_validator, pause, unpause,
      htlc_count, validator_count, write_bool, write_u64, write_u128, read_u64, read_u128;
    frame_walk; write_frame.
Qed.
Lemma other_calls_keep_wrapped o :
  match o with CMint _ | CBurn _ => True | _ => keeps is_wrapped_key (bridge_entry o) end.
Proof.
  destruct o; try done; cbn [bridge_entry];
    unfold init, create_htlc, claim_htlc, refund_htlc, bridge_lock, add_validator, remove_validator, pause,
      unpause, htlc_count, validator_count, write_bool, write_u64, write_u128, read_u64, read_u128;
    frame_walk; write_frame.
Qed.

(** *** Creating *)
Definition create_lock args : barray 32 := ba_of 32 (take 32 args).
Definition create_data e args : bytes :=
  encode_htlc (me_caller e) (ba_of 20 (take 20 (drop 32 args))) (me_self_balance e)
    (from_le_bytes (take 8 (drop 52 args))) Byte.x00.
Definition can_create e args : Prop :=
  flag (me_storage e) (b_ "paused") = false ∧ (60 ≤ length args)%nat ∧ me_self_balance e ≠ 0 ∧
  me_storage e !! lock_key (create_lock args) = None.

Lemma not_paused_run e : flag (me_storage e) (b_ "paused") = false → require_not_paused e = Ok (e, ()).
Proof. intros Hp. unfold require_not_paused, read_bool. unbind. by rewrite Hp. Qed.

Lemma create_ok e args :
  can_create e args →
  ∃ e', create_htlc args e = Ok (e', 0) ∧
     me_storage e' !! lock_key (create_lock args) = Some (create_data e args) ∧
     (∀ k, is_htlc_key k → k ≠ lock_key (create_lock args) → me_storage e' !! k = me_storage e !! k) ∧
     flag (me_storage e') (b_ "paused") = flag (me_storage e) (b_ "paused") ∧
     me_self_balance e' = me_self_balance e.
Proof.
  intros (Hp & Hl & Hb & Hn). unfold create_htlc. unbind. rewrite not_paused_run by done.
  rewrite (proj2 (Nat.ltb_ge (length args) 60) Hl). rewrite !slice_run by lia.
  unfold caller, self_balance; cbv beta iota. rewrite (proj2 (Z.eqb_neq (me_self_balance e) 0) Hb).
  unfold storage_read. change (htlc_key (hex_encode_32 (ba_of 32 (take (32 - 0) (drop 0 args)))))
    with (lock_key (create_lock args)).
  rewrite Hn. eexists. split; [reflexivity|].
  cbn [me_storage me_set me_set_storage me_self_balance].
  assert (∀ k, is_htlc_key k → b_ "htlc_count" ≠ k) as Hne by (intros k Hk <-; done).
  split_and!; try done.
  - rewrite lookup_insert_ne by (by apply Hne). apply lookup_insert_eq.
  - intros k Hk Hkk. rewrite lookup_insert_ne by (by apply Hne). by rewrite lookup_insert_ne.
  - unfold flag. by rewrite !lookup_insert_ne by (intros Heq; discriminate Heq).
Qed.
Lemma create_run e args :
  can_create e args ∨ (∃ e', create_htlc args e = Ok (e', -1) ∧ me_storage e' = me_storage e) ∨
  (∃ p, create_htlc args e = Err p).
Proof.
  unfold create_htlc. unbind. destruct (flag (me_storage e) (b_ "paused")) eqn:Hp.
  { right; right. unfold require_not_paused, read_bool, abort. unbind. rewrite Hp. by eexists. }
  rewrite not_paused_run by done.
  destruct (Nat.ltb_spec (length args) 60) as [Hl|Hl]; [right; left; by eexists|].
  rewrite !slice_run by lia. unfold caller, self_balance; cbv beta iota.
  destruct (Z.eqb_spec (me_self_balance e) 0) as [Hb|Hb]; [right; left; by eexists|].
  unfold storage_read. change (htlc_key (hex_encode_32 (ba_of 32 (take (32 - 0) (drop 0 args)))))
    with (lock_key (create_lock args)).
  destruct (me_storage e !! lock_key (create_lock args)) as [d|] eqn:E; [right; left; by eexists|by left].
Qed.

(** *** A settled HTLC stays settled *)
Definition htlc_settled (st : gmap bytes bytes) (h : barray 32) : Prop :=
  ∃ d, st !! lock_key h = Some d ∧ ∀ x, decode_htlc d = Some x → hd_status x ≠ Byte.x00.

Lemma bridge_call_settled e who o h :
  htlc_settled (me_storage e) h →
  me_storage (run_call e who (bridge_entry o)).1 !! lock_key h = me_storage e !! lock_key h.
Proof.
  intros (d & Hd & Hset). set (e1 := mock_set_caller who e).
  assert (is_htlc_key (lock_key h)) as Hk by done.
  assert (∀ h' d' x (b : byte), me_storage e1 !! lock_key h' = Some d' → decode_htlc d' = Some x →
    hd_status x = Byte.x00 → <[lock_key h' := settle x b]> (me_storage e1) !! lock_key h = me_storage e !! lock_key h) as Hset1.
  { intros h' d' x b Hd' Hx Hs. apply lookup_insert_ne. intros Heq. rewrite Heq in Hd'.
    change (me_storage e !! lock_key h = Some d') in Hd'. rewrite Hd in Hd'. injection Hd' as <-. by apply (Hset x). }
  pose proof (other_calls_keep_htlcs o) as Ho.
  destruct o as [|args|args|args|args|args|args|args|args| | | |]; try exact (run_call_keeps _ _ _ _ _ Ho Hk).
  - unfold run_call. fold e1. cbn [bridge_entry].
    destruct (create_run e1 args) as [Hcan|[(e' & -> & Hst)|(p & ->)]]; cbn [fst]; [|by rewrite Hst|done].
    destruct (create_ok e1 args Hcan) as (e' & -> & Hkey & Hoth & _). cbn [fst].
    etrans; [apply Hoth; [done|]|reflexivity]. intros Heq. destruct Hcan as (_ & _ & _ & Hnew).
    rewrite <- Heq in Hnew. change (me_storage e !! lock_key h = None) in Hnew. congruence.
  - unfold run_call. fold e1. cbn [bridge_entry].
    destruct (claim_run e1 args) as [(d' & x & e' & Hd' & Hx & (Hs & _) & _ & -> & Hst & _)|(e' & -> & Hst & _)]; simpl; rewrite Hst; [by eapply Hset1|done].
  - unfold run_call. fold e1. cbn [bridge_entry].
    destruct (refund_run e1 args) as [(d' & x & e' & Hd' & Hx & (Hs & _) & _ & -> & Hst & _)|(e' & -> & Hst & _)]; simpl; rewrite Hst; [by eapply Hset1|done].
Qed.

(** ** Runs: each call at its time and with the money the contract then has *)
Record Invocation : Type := { iv_who : Address; iv_time : Z; iv_balance : Z; iv_call : BridgeCall }.
Definition invoke e (i : Invocation) : MockEnv :=
  (run_call (mock_set_balance (iv_balance i) (mock_set_block_timestamp (iv_time i) e)) (iv_who i)
     (bridge_entry (iv_call i))).1.
Definition bridge_calls e (ivs : list Invocation) : MockEnv := foldl invoke e ivs.

(** C37: An HTLC cell of the contract whose status is no longer active is never changed
    by any later call, at any time and with any balance, and claiming or refunding it
    returns -1 and moves no money. *)
Theorem contract_htlc_settles_once e ivs h :
  htlc_settled (me_storage e) h →
  me_storage (bridge_calls e ivs) !! lock_key h = me_storage e !! lock_key h ∧
  (∀ who p, simple_sha256 p = h →
     let '(e', r) := run_call (bridge_calls e ivs) who (claim_htlc p) in
     r = Some (-1) ∧ me_transfers e' = me_transfers (bridge_calls e ivs)) ∧
  (∀ who rest, let '(e', r) := run_call (bridge_calls e ivs) who (refund_htlc (ba_bytes h ++ rest)) in
     r = Some (-1) ∧ me_transfers e' = me_transfers (bridge_calls e ivs)).
Proof.
  intros Hset.
  assert (me_storage (bridge_calls e ivs) !! lock_key h = me_storage e !! lock_key h) as Heq.
  { revert e Hset. induction ivs as [|i ivs IH]; intros e Hset; [done|]. simpl.
    assert (me_storage (invoke e i) !! lock_key h = me_storage e !! lock_key h) as Hi
      by (by apply (bridge_call_settled (mock_set_balance (iv_balance i) (mock_set_block_timestamp (iv_time i) e)))).
    rewrite IH; [done|]. destruct Hset as (d & Hd & Hx). exists d. by rewrite Hi. }
  split; [done|]. destruct Hset as (d & Hd & Hx). rewrite <- Heq in Hd. split.
  - intros who p <-. unfold run_call.
    destruct (claim_run (mock_set_caller who (bridge_calls e ivs)) p)
      as [(d' & x & e' & Hd' & Hdec & (Hs & _) & _)|(e' & -> & _ & Htr)]; [|done].
    change (me_storage (bridge_calls e ivs) !! lock_key (simple_sha256 p) = Some d') in Hd'.
    rewrite Hd in Hd'. injection Hd' as <-. by destruct (Hx x Hdec).
  - intros who rest. unfold run_call.
    destruct (refund_run (mock_set_caller who (bridge_calls e ivs)) (ba_bytes h ++ rest))
      as [(d' & x & e' & Hd' & Hdec & (Hs & _) & _)|(e' & -> & _ & Htr)]; [|done].
    rewrite take_app_exact in Hd' by apply ba_length.
    assert (ba_of 32 (ba_bytes h) = h) as Hh by (apply barray_eq, ba_of_bytes, ba_length). rewrite Hh in Hd'.
    change (me_storage (bridge_calls e ivs) !! lock_key h = Some d') in Hd'.
    rewrite Hd in Hd'. injection Hd' as <-. by destruct (Hx x Hdec).
Qed.

(** *** The same money backs every HTLC
    Both records hold the whole balance of the contract. *)
(** Two HTLCs created one after the other without a deposit in between both record
    the whole balance of the contract as their amount: the amount is read from the
    contract's balance, not from the call's value. *)
Theorem htlcs_share_one_balance e who1 args1 who2 args2 :
  can_create e args1 → can_create e args2 → create_lock args1 ≠ create_lock args2 →
  in_u 64 (me_self_balance e) →
  let e1 := (run_call e who1 (create_htlc args1)).1 in
  let e2 := (run_call e1 who2 (create_htlc args2)).1 in
  me_self_balance e2 = me_self_balance e ∧
  ∀ args, args = args1 ∨ args = args2 →
    ∃ d h, me_storage e2 !! lock_key (create_lock args) = Some d ∧ decode_htlc d = Some h ∧
           hd_status h = Byte.x00 ∧ hd_amount h = me_self_balance e.
Proof.
  intros Hc1 Hc2 Hne Hb. unfold run_call.
  destruct (create_ok (mock_set_caller who1 e) args1 Hc1) as (e1 & -> & K1 & O1 & P1 & B1). cbn [fst].
  assert (can_create (mock_set_caller who2 e1) args2) as Hc2'.
  { destruct Hc2 as (Hp & Hl & Hz & Hn). split_and!; [by etrans; [exact P1|]|done|by simpl; rewrite B1|].
    simpl. rewrite O1; [done|done|]. intros Heq. by apply Hne, lock_key_inj. }
  destruct (create_ok _ _ Hc2') as (e2 & -> & K2 & O2 & P2 & B2). cbn [fst].
  simpl in B1, B2. split; [by rewrite B2, B1|].
  assert (∀ (x : MockEnv) args, me_self_balance x = me_self_balance e →
    ∃ h, decode_htlc (create_data x args) = Some h ∧ hd_status h = Byte.x00 ∧ hd_amount h = me_self_balance e) as Hdec.
  { intros x args Hx. eexists. split; [apply decode_encode_htlc|split; [done|exact Hx]].
    - rewrite Hx. unfold in_u in *. lia.
    - apply (from_le_bytes_lt 8). rewrite length_take. lia. }
  intros args [->| ->].
  - destruct (Hdec (mock_set_caller who1 e) args1 eq_refl) as (h & Hh). eexists _, h. split; [|exact Hh].
    rewrite O2; [exact K1|done|]. intros Heq. by apply Hne, lock_key_inj.
  - destruct (Hdec (mock_set_caller who2 e1) args2 B1) as (h & Hh). eexists _, h. split; [exact K2|exact Hh].
Qed.
End Htlcs.

(** ** Wrapped tokens
    A token is named by its chain and symbol joined by a colon; all keys depend
    on that name only. *)
Section Wrapped.
Context {t : Target}.
Implicit Types (e : MockEnv) (st : gmap bytes bytes) (p : bytes) (a : Address).

Definition token_name (chain token : bytes) : bytes := chain ++ b_ ":" ++ token.
Definition balance_prefix p : bytes := b_ "wrapped:" ++ p ++ b_ ":".
Definition wkey p a : bytes := balance_prefix p ++ ba_bytes a.
Definition skey p : bytes := b_ "wrapped_supply:" ++ p.
Lemma wrapped_balance_key_eq c s a : wrapped_balance_key c s a = wkey (token_name c s) a.
Proof. unfold wrapped_balance_key, wkey, balance_prefix, token_name. by rewrite <- !app_assoc. Qed.
Lemma wrapped_supply_key_eq c s : wrapped_supply_key c s = skey (token_name c s).
Proof. done. Qed.

Definition is_balance_of p (k : bytes) : Prop :=
  take (length (balance_prefix p)) k = balance_prefix p ∧ length k = (length (balance_prefix p) + 20)%nat.
#[local] Instance is_balance_of_dec p k : Decision (is_balance_of p k).
Proof. unfold is_balance_of. apply _. Defined.
Definition wcell p (k v : bytes) : Z :=
  if decide (is_balance_of p k) then (if (length v =? 16)%nat then from_le_bytes v else 0) else 0.
Definition total_wrapped e p : Z := map_sumk (wcell p) (me_storage e).
Definition wrapped_balance e p a : Z := read_le 16 (me_storage e) (wkey p a).
Definition wrapped_supply e p : Z := read_le 16 (me_storage e) (skey p).

Lemma wkey_is p a : is_balance_of p (wkey p a).
Proof. unfold is_balance_of, wkey. by rewrite take_app_length, length_app, ba_length. Qed.
Lemma wkey_is_only p q a : is_balance_of q (wkey p a) → p = q.
Proof.
  unfold is_balance_of, wkey. intros [Ht Hl]. rewrite length_app, ba_length in Hl.
  assert (length (balance_prefix q) = length (balance_prefix p)) as Hpq by lia.
  rewrite Hpq, take_app_length in Ht. unfold balance_prefix in Ht.
  apply app_inv_head in Ht. by apply app_inv_tail in Ht.
Qed.
Lemma balance_of_wrapped p k : is_balance_of p k → take 8 k = b_ "wrapped:".
Proof.
  intros [Ht _]. apply (f_equal (take 8)) in Ht. rewrite take_take in Ht.
  assert (8 `min` length (balance_prefix p) = 8)%nat as Hm
    by (unfold balance_prefix; rewrite length_app; simpl; lia).
  rewrite Hm in Ht. by rewrite Ht.
Qed.
Lemma skey_not_balance p q : ¬ is_balance_of q (skey p).
Proof. intros Hb%balance_of_wrapped. discriminate Hb. Qed.
Lemma skey_inj p q : skey p = skey q → p = q.
Proof. apply app_inv_head. Qed.
Lemma wkey_not_skey p q a : wkey p a ≠ skey q.
Proof. intros Heq. apply (skey_not_balance q p). rewrite <- Heq. apply wkey_is. Qed.

Lemma wcell_nonneg p k v : 0 ≤ wcell p k v.
Proof. unfold wcell. repeat case_match; try lia. apply from_le_bytes_nonneg. Qed.
Lemma wcell_lookup st p a :
  default 0 (wcell p (wkey p a) <$> st !! wkey p a) = read_le 16 st (wkey p a).
Proof.
  unfold read_le. destruct (st !! wkey p a) as [v|]; [|done]. simpl. unfold wcell.
  by rewrite decide_True by apply wkey_is.
Qed.
Lemma wrapped_sum_other st p k v : ¬ is_balance_of p k → map_sumk (wcell p) (<[k := v]> st) = map_sumk (wcell p) st.
Proof.
  intros Hk. rewrite map_sumk_insert. destruct (st !! k); simpl; unfold wcell; rewrite !decide_False by done; lia.
Qed.
Lemma wrapped_sum_write st p a v :
  in_u 128 v →
  map_sumk (wcell p) (<[wkey p a := to_le_bytes 16 v]> st) = map_sumk (wcell p) st - read_le 16 st (wkey p a) + v.
Proof.
  intros Hv. rewrite map_sumk_insert, wcell_lookup. f_equal. unfold wcell.
  rewrite decide_True by apply wkey_is. rewrite length_to_le_bytes, Nat.eqb_refl. by apply from_to_le_bytes.
Qed.

(** The balances of every token add up to its recorded supply. *)
Definition wrapped_ok st : Prop := ∀ p, map_sumk (wcell p) st = read_le 16 st (skey p).

Lemma wrapped_balance_le st p a : wrapped_ok st → read_le 16 st (wkey p a) ≤ read_le 16 st (skey p).
Proof.
  intros Hok. rewrite <- Hok, <- wcell_lookup. destruct (st !! wkey p a) as [v|] eqn:E; simpl.
  - apply map_sumk_lookup_le; [apply wcell_nonneg|done].
  - apply sumZ_nonneg. intros [] _. apply wcell_nonneg.
Qed.
(** Changing one balance and the supply by the same amount. *)
Definition set_wrapped st p a (bal sup : Z) : gmap bytes bytes :=
  <[skey p := to_le_bytes 16 sup]> (<[wkey p a := to_le_bytes 16 bal]> st).
Lemma set_wrapped_ok st p a bal sup :
  wrapped_ok st → in_u 128 bal → in_u 128 sup →
  sup - read_le 16 st (skey p) = bal - read_le 16 st (wkey p a) → wrapped_ok (set_wrapped st p a bal sup).
Proof.
  intros Hok Hb Hs Heq q. unfold set_wrapped. rewrite wrapped_sum_other by apply skey_not_balance.
  rewrite read_le_insert by done. destruct (decide (p = q)) as [<-|Hpq].
  - rewrite decide_True, wrapped_sum_write, Hok by done. lia.
  - rewrite decide_False by (by intros ?%skey_inj). rewrite wrapped_sum_other by (by intros ?%wkey_is_only).
    rewrite read_le_insert_ne by apply wkey_not_skey. apply Hok.
Qed.
(** What does not touch wrapped cells keeps it. *)
Lemma wrapped_ok_agree st st' : (∀ k, is_wrapped_key k → st' !! k = st !! k) → wrapped_ok st → wrapped_ok st'.
Proof.
  intros Heq Hok p. rewrite (map_sumk_agree (is_balance_of p) (wcell p) st st').
  - rewrite Hok. unfold read_le. by rewrite Heq.
  - intros k v Hk. unfold wcell. by rewrite decide_False.
  - intros k Hk%balance_of_wrapped. apply Heq. unfold is_wrapped_key.
    apply (f_equal (take 7)) in Hk. rewrite take_take in Hk. exact Hk.
Qed.

(** *** Minting and burning *)
Lemma parse_inv args e e' x : parse_chain_token args e = Ok (e', x) → e' = e.
Proof.
  unfold parse_chain_token, read_len, slice_at. intros Hp.
  repeat match goal with
  | H : (_ ≫= _) _ = Ok _ |- _ => apply bind_ok in H as (? & ? & ? & ?)
  | H : slice _ _ _ _ = Ok _ |- _ => apply slice_inv in H as (-> & _)
  | H : mret _ _ = Ok _ |- _ => injection H as -> _
  end. done.
Qed.
Lemma guards_inv e e' x : require_not_paused e = Ok (e', x) ∨ require_owner e = Ok (e', x) → e' = e.
Proof.
  unfold require_not_paused, require_owner, read_bool, read_address, caller, abort, mbind, contract_bind.
  intros [Hr|Hr]; revert Hr; cbv beta iota.
  - destruct (flag _ _); [done|]. by intros [= -> _].
  - destruct (negb _); [done|]. by intros [= -> _].
Qed.

Lemma mint_run e args e' r :
  bridge_mint args e = Ok (e', r) →
  me_storage e' = me_storage e ∨
  ∃ p a v, in_u 128 v ∧
    me_storage e' = set_wrapped (me_storage e) p a (wrapped_balance e p a +!! v) (wrapped_supply e p +!! v).
Proof.
  unfold bridge_mint. intros (e1 & [] & H1 & Hr)%bind_ok. apply (or_intror (A := require_not_paused e = Ok (e1, ()))), guards_inv in H1 as ->.
  apply bind_ok in Hr as (e1 & [] & H1 & Hr). apply (or_introl (B := require_owner e = Ok (e1, ()))), guards_inv in H1 as ->.
  destruct (length args <? 44)%nat; [injection Hr as <- _; by left|].
  apply bind_ok in Hr as (e1 & [[chain token] off] & H1 & Hr). apply parse_inv in H1 as ->.
  apply bind_ok in Hr as (e1 & rc & H1 & Hr). apply slice_inv in H1 as (-> & _ & _).
  apply bind_ok in Hr as (e1 & am & H1 & Hr). apply slice_at_inv in H1 as (-> & Ham); [|lia].
  right. exists (token_name chain token), (ba_of 20 rc), (from_le_bytes am).
  split; [apply (from_le_bytes_lt 16); lia|].
  rewrite wrapped_balance_key_eq, wrapped_supply_key_eq in Hr. injection Hr as <- _.
  unfold set_wrapped, wrapped_balance, wrapped_supply. cbn [me_storage me_set me_set_storage].
  by rewrite (read_le_insert_ne 16 _ (wkey _ _)) by apply wkey_not_skey.
Qed.
Lemma burn_run e args e' r :
  bridge_burn args e = Ok (e', r) →
  me_storage e' = me_storage e ∨
  ∃ p v, 0 ≤ v ≤ wrapped_balance e p (me_caller e) ∧
    me_storage e' = set_wrapped (me_storage e) p (me_caller e)
                      (wrapped_balance e p (me_caller e) -!! v) (sat_sub (wrapped_supply e p) v).
Proof.
  unfold bridge_burn. intros (e1 & [] & H1 & Hr)%bind_ok.
  apply (or_introl (B := require_owner e = Ok (e1, ()))), guards_inv in H1 as ->.
  destruct (length args <? 28)%nat; [injection Hr as <- _; by left|].
  apply bind_ok in Hr as (e1 & [[chain token] off] & H1 & Hr). apply parse_inv in H1 as ->.
  apply bind_ok in Hr as (e1 & am & H1 & Hr). apply slice_inv in H1 as (-> & _ & Ham).
  rewrite wrapped_supply_key_eq in Hr. unfold mbind, contract_bind, caller in Hr.
  rewrite wrapped_balance_key_eq in Hr. unfold read_u128, read_uint in Hr.
  fold (wrapped_balance e (token_name chain token) (me_caller e)) in Hr.
  destruct (Z.ltb_spec (wrapped_balance e (token_name chain token) (me_caller e)) (from_le_bytes am)) as [Hb|Hb].
  { injection Hr as <- _. by left. }
  right. exists (token_name chain token), (from_le_bytes am).
  split; [split; [apply from_le_bytes_nonneg|done]|]. injection Hr as <- _.
  unfold set_wrapped, wrapped_supply. cbn [me_storage me_set me_set_storage].
  by rewrite (read_le_insert_ne 16 _ (wkey _ _)) by apply wkey_not_skey.
Qed.

(** *** Every run that mints less than 2^128 of a token keeps the books *)
Definition is_mint (o : BridgeCall) : bool := match o with CMint _ => true | _ => false end.
Inductive wrapped_reachable : MockEnv → Prop :=
| wr_new e : me_storage e = ∅ → wrapped_reachable e
| wr_call e i : wrapped_reachable e →
    (is_mint (iv_call i) = true → ∀ p, wrapped_supply e p ≤ wrapped_supply (invoke e i) p) →
    wrapped_reachable (invoke e i).

Lemma wadd_no_wrap (x y : Z) : in_u 128 x → in_u 128 y → x ≤ x +!! y → x +!! y = x + y ∧ in_u 128 (x + y).
Proof.
  unfold in_u. intros Ha Hb Hle. destruct (decide (x + y < 2 ^ 128)) as [Hlt|Hge].
  - split; [apply wadd_small; unfold in_u; lia|lia].
  - exfalso. unfold wadd, wrap in Hle.
    rewrite <- (Z.mod_unique_pos (x + y) (2 ^ 128) 1 (x + y - 2 ^ 128)) in Hle by lia. lia.
Qed.
Lemma read_le_bound n st k : in_u (Z.of_nat n * 8) (read_le n st k).
Proof.
  unfold read_le. destruct (st !! k) as [v|]; [|split; [lia|apply Z.pow_pos_nonneg; lia]].
  destruct (Nat.eqb_spec (length v) n) as [Hl|]; [|split; [lia|apply Z.pow_pos_nonneg; lia]].
  apply from_le_bytes_lt. lia.
Qed.
Lemma wrapped_ok_call e who o :
  wrapped_ok (me_storage e) →
  (is_mint o = true → ∀ p, wrapped_supply e p ≤ wrapped_supply (run_call e who (bridge_entry o)).1 p) →
  wrapped_ok (me_storage (run_call e who (bridge_entry o)).1).
Proof.
  intros Hok Hm. pose proof (other_calls_keep_wrapped o) as Ho.
  destruct o as [|args|args|args|args|args|args|args|args| | | |];
    try (apply (wrapped_ok_agree (me_storage e)); [|done]; intros k Hk;
         exact (run_call_keeps _ _ _ _ _ Ho Hk)).
  - specialize (Hm eq_refl). revert Hm. unfold run_call. cbn [bridge_entry].
    destruct (bridge_mint args _) as [[e' r]|] eqn:E; [|done]. cbn [fst]. intros Hm.
    destruct (mint_run _ _ _ _ E) as [->|(p & a & v & Hv & Hst)]; [done|].
    specialize (Hm p). unfold wrapped_supply in Hm. rewrite Hst in Hm |- *.
    unfold set_wrapped in Hm. rewrite read_le_insert, decide_True in Hm by (done || apply wadd_in_u; lia).
    pose proof (wrapped_balance_le _ p a Hok) as Hle.
    change (me_storage (mock_set_caller who e)) with (me_storage e) in *.
    unfold wrapped_supply, wrapped_balance in *. change (me_storage (mock_set_caller who e)) with (me_storage e) in *.
    destruct (wadd_no_wrap _ _ (read_le_bound 16 (me_storage e) (skey p)) Hv Hm) as [Hs Hs128].
    pose proof (read_le_nonneg 16 (me_storage e) (wkey p a)) as Hnn. unfold in_u in Hs128, Hv.
    apply set_wrapped_ok; [done|apply wadd_in_u; lia|apply wadd_in_u; lia|]. rewrite Hs.
    rewrite (wadd_small 128 (read_le 16 (me_storage e) (wkey p a))) by (unfold in_u; lia). lia.
  - unfold run_call. cbn [bridge_entry].
    destruct (bridge_burn args _) as [[e' r]|] eqn:E; [|done]. cbn [fst].
    destruct (burn_run _ _ _ _ E) as [->|(p & v & Hv & Hst)]; [done|]. rewrite Hst. clear Hm Ho.
    unfold wrapped_supply, wrapped_balance in *. cbn [me_caller mock_set_caller me_set] in *.
    change (me_storage (mock_set_caller who e)) with (me_storage e) in *.
    pose proof (wrapped_balance_le _ p who Hok) as Hle.
    pose proof (read_le_bound 16 (me_storage e) (skey p)) as Hb. change (Z.of_nat 16 * 8) with 128 in Hb. unfold in_u in Hb.
    assert (read_le 16 (me_storage e) (wkey p who) -!! v = read_le 16 (me_storage e) (wkey p who) - v) as ->
      by (apply wsub_small; unfold in_u; lia).
    assert (sat_sub (read_le 16 (me_storage e) (skey p)) v = read_le 16 (me_storage e) (skey p) - v) as ->
      by (unfold sat_sub; lia).
    apply set_wrapped_ok; [done|unfold in_u; lia|unfold in_u; lia|lia].
Qed.

(** C38: For every wrapped token, as long as no mint overflows its supply, the balances
    of all holders sum to the recorded supply and no balance exceeds it, whatever entry
    points are called by whoever. *)
Theorem wrapped_supply_conserved e p :
  wrapped_reachable e →
  total_wrapped e p = wrapped_supply e p ∧ ∀ a, 0 ≤ wrapped_balance e p a ≤ wrapped_supply e p.
Proof.
  intros Hr. assert (wrapped_ok (me_storage e)) as Hok.
  { induction Hr as [e He|e i Hr IH Hm].
    - intros q. rewrite He, map_sumk_empty. done.
    - by apply (wrapped_ok_call (mock_set_balance (iv_balance i) (mock_set_block_timestamp (iv_time i) e))). }
  split; [apply Hok|]. intros a. split; [apply read_le_nonneg|by apply wrapped_balance_le].
Qed.
End Wrapped.

(** ** Concrete calls *)
Module BridgeContractWitness.
#[local] Instance native_build : Target := Native64.
Definition owner : Address := ba_repeat 20 Byte.x0a.
Definition alice : Address := ba_repeat 20 Byte.x01.
Definition bob : Address := ba_repeat 20 Byte.x02.
Definition secret1 : bytes := b_ "first secret".
Definition secret2 : bytes := b_ "second secret".
Definition htlc_args (s : bytes) (to : Address) (tl : Z) : bytes :=
  ba_bytes (simple_sha256 s) ++ ba_bytes to ++ to_le_bytes 8 tl.
Definition args1 : bytes := htlc_args secret1 bob 1700001000.
Definition args2 : bytes := htlc_args secret2 bob 1700001000.
(** A contract that was sent 500. *)
Definition e0 : MockEnv := mock_set_balance 500 (run_call MockEnv_default owner init).1.
Definition e1 : MockEnv := (run_call e0 alice (create_htlc args1)).1.
Definition e2 : MockEnv := (run_call e1 owner (create_htlc args2)).1.
Definition e3 : MockEnv := (run_call e2 bob (claim_htlc secret1)).1.
Definition e4 : MockEnv := (run_call e3 bob (claim_htlc secret2)).1.

Lemma e0_can : can_create e0 args1 ∧ can_create e0 args2.
Proof. split; (split_and!; [by vm_compute|apply Nat.leb_le; by vm_compute|by vm_compute|by vm_compute]). Qed.
Lemma htlcs_share_one_balance_witness :
  can_create e0 args1 ∧ can_create e0 args2 ∧ me_self_balance e2 = 500 ∧
  ∃ d h, me_storage e2 !! lock_key (create_lock args2) = Some d ∧ decode_htlc d = Some h ∧ hd_amount h = 500.
Proof.
  destruct e0_can as [H1 H2]. split; [exact H1|]. split; [exact H2|].
  assert (create_lock args1 ≠ create_lock args2) as Hne by (apply (bool_decide_eq_true_1 _); by vm_compute).
  assert (in_u 64 (me_self_balance e0)) as Hb by (apply (bool_decide_eq_true_1 _); by vm_compute).
  destruct (htlcs_share_one_balance e0 alice args1 owner args2 H1 H2 Hne Hb) as [Hbal Hd].
  split; [exact Hbal|]. destruct (Hd args2 (or_intror eq_refl)) as (d & h & Ha & Hx & _ & Hc).
  exists d, h. split; [exact Ha|]. split; [exact Hx|]. exact Hc.
Defined.
(** The second claim reports success and pays nothing. *)
Example second_claim_unpaid :
  (run_call e3 bob (claim_htlc secret2)).2 = Some 0 ∧ me_transfers e3 = [(bob, 500)] ∧
  me_transfers e4 = [(bob, 500)] ∧ me_self_balance e4 = 0.
Proof. apply (bool_decide_eq_true_1 _). by vm_compute. Qed.

Lemma e3_settled : htlc_settled (me_storage e3) (simple_sha256 secret1).
Proof.
  assert ((λ d, (hd_status <$> decode_htlc d)) <$> me_storage e3 !! lock_key (simple_sha256 secret1) =
          Some (Some Byte.x01)) as Hd by (by vm_compute).
  destruct (me_storage e3 !! lock_key (simple_sha256 secret1)) as [d|] eqn:E; [|discriminate Hd].
  injection Hd as Hd. exists d. split; [exact E|]. intros x Hx. rewrite Hx in Hd. injection Hd as ->. done.
Qed.
Definition later : list Invocation :=
  [{| iv_who := alice; iv_time := 1800000000; iv_balance := 500;
      iv_call := CRefund (ba_bytes (simple_sha256 secret1)) |};
   {| iv_who := alice; iv_time := 1800000001; iv_balance := 500; iv_call := CCreate args1 |}].
Lemma contract_htlc_settles_once_witness :
  htlc_settled (me_storage e3) (simple_sha256 secret1) ∧
  (run_call (bridge_calls e3 later) bob (claim_htlc secret1)).2 = Some (-1).
Proof.
  split; [exact e3_settled|].
  destruct (contract_htlc_settles_once e3 later (simple_sha256 secret1) e3_settled) as (_ & Hc & _).
  specialize (Hc bob secret1 eq_refl). revert Hc.
  destruct (run_call (bridge_calls e3 later) bob (claim_htlc secret1)) as [e' r]. intros [Hr _]. exact Hr.
Defined.

(** Anyone may initialise again, and owns the bridge from then on. *)
Example takeover :
  owner_of (me_storage (run_call e3 alice init).1) (b_ "owner") = alice.
Proof. apply (bool_decide_eq_true_1 _). by vm_compute. Qed.

Definition le4 (n : Z) : bytes := to_le_bytes 4 n.
Definition mint_args (to : Address) (v : Z) : bytes :=
  le4 3 ++ b_ "eth" ++ le4 4 ++ b_ "USDT" ++ ba_bytes to ++ to_le_bytes 16 v.
Definition usdt : bytes := token_name (b_ "eth") (b_ "USDT").
Definition at_ (w : Address) (c : BridgeCall) : Invocation := {| iv_who := w; iv_time := 1; iv_balance := 0; iv_call := c |}.
Definition w1 : MockEnv := invoke MockEnv_default (at_ owner CInit).
Definition w2 : MockEnv := invoke w1 (at_ owner (CMint (mint_args bob 700))).
Definition burn_args (v : Z) : bytes :=
  le4 3 ++ b_ "eth" ++ le4 4 ++ b_ "USDT" ++ to_le_bytes 16 v ++ le4 2 ++ b_ "0x".
Definition w3 : MockEnv := invoke w2 (at_ bob (CBurn (burn_args 200))).

Lemma w2_supply : ∀ p, wrapped_supply w1 p ≤ wrapped_supply w2 p.
Proof.
  intros p. unfold wrapped_supply.
  destruct (decide (skey p = skey usdt)) as [->|Hne]; [apply Z.leb_le; by vm_compute|].
  assert (me_storage w2 = set_wrapped (me_storage w1) usdt bob 700 700) as ->.
  { apply (bool_decide_eq_true_1 _). by vm_compute. }
  unfold set_wrapped. rewrite !read_le_insert_ne; [lia|apply wkey_not_skey|]. by intros Heq.
Qed.
Lemma wrapped_supply_conserved_witness :
  wrapped_reachable w3 ∧ total_wrapped w3 usdt = wrapped_supply w3 usdt ∧ wrapped_balance w3 usdt bob = 500.
Proof.
  assert (wrapped_reachable w3) as Hr.
  { unfold w3. apply wr_call; [|done]. unfold w2. apply wr_call; [|intros _; exact w2_supply].
    unfold w1. apply wr_call; [|done]. by apply wr_new. }
  split; [exact Hr|]. split; [exact (proj1 (wrapped_supply_conserved w3 usdt Hr))|]. by vm_compute.
Defined.
End BridgeContractWitness.
