(* ===== verification/BridgeWasm.v ===== *)
(** * BridgeWasm: the bridge contract on the virtual machine

    The programs of SdkWasm.v for the entry points of BridgeContract.v are not written
    a second time: [Reify] finds, by instance search along the structure of a native
    computation, the program over the SDK that it stands for.  What is
    compiled to wasm32 is the reading of BridgeContract.v with a 32-bit [usize].  The
    bridge's entry points then do on the VM what that reading does, with a bound on their
    gas, and their theorems carry over; it is the native reading as well, except where a
    sum of offsets wraps at 32 bits only. *)

From S2P Require Import Prelude Crypto Merkle CoreTypes Validators Vm ContractSdk TokenContract SdkWasm Sha256 BridgeContract.

(** ** Programs of native computations *)
Class Reify {A} (c : contract A) : Type := reify : { p : Prog A | stands_for p c }.
#[global] Hint Mode Reify ! ! : typeclass_instances.
Definition stands {A} {c : contract A} (p : Prog A) (H : stands_for p c) : Reify c := exist _ p H.
Definition prog {A} (c : contract A) `{!Reify c} : Prog A := proj1_sig (reify (c := c)).
Lemma prog_stands {A} (c : contract A) `{!Reify c} : stands_for (prog c) c.
Proof. exact (proj2_sig reify). Qed.

Section Instances.
Context {A B : Type}.

#[global] Instance reify_ret (a : A) : Reify (mret a : contract A) := stands (PRet a) (stands_ret a).
#[global] Instance reify_bind (m : contract A) (f : A → contract B) `{!Reify m} `{!∀ a, Reify (f a)} :
  Reify (m ≫= f) :=
  stands (prog m ≫= λ a, prog (f a)) (stands_bind _ _ _ _ (prog_stands m) (λ a, prog_stands (f a))).

Lemma stands_if (b : bool) (p1 p2 : Prog A) c1 c2 :
  stands_for p1 c1 → stands_for p2 c2 → stands_for (if b then p1 else p2) (if b then c1 else c2).
Proof. by destruct b. Qed.
#[global] Instance reify_if (b : bool) (c1 c2 : contract A) `{!Reify c1} `{!Reify c2} :
  Reify (if b then c1 else c2) :=
  stands (if b then prog c1 else prog c2) (stands_if b _ _ _ _ (prog_stands c1) (prog_stands c2)).

Lemma stands_option (o : option B) (p1 : B → Prog A) p2 c1 c2 :
  (∀ b, stands_for (p1 b) (c1 b)) → stands_for p2 c2 →
  stands_for match o with Some b => p1 b | None => p2 end match o with Some b => c1 b | None => c2 end.
Proof. by destruct o. Qed.
#[global] Instance reify_option (o : option B) (c1 : B → contract A) (c2 : contract A)
    `{!∀ b, Reify (c1 b)} `{!Reify c2} : Reify match o with Some b => c1 b | None => c2 end :=
  stands match o with Some b => prog (c1 b) | None => prog c2 end
    (stands_option o _ _ _ _ (λ b, prog_stands (c1 b)) (prog_stands c2)).
End Instances.
Lemma stands_pair {A B C} (p : B * C) (q : B → C → Prog A) c :
  (∀ x y, stands_for (q x y) (c x y)) → stands_for (let '(x, y) := p in q x y) (let '(x, y) := p in c x y).
Proof. by destruct p. Qed.
#[global] Instance reify_pair {A B C} (p : B * C) (c : B → C → contract A) `{!∀ x y, Reify (c x y)} :
  Reify (let '(x, y) := p in c x y) :=
  stands (let '(x, y) := p in prog (c x y)) (stands_pair p _ _ (λ x y, prog_stands (c x y))).

(** ** The SDK's functions and the contract's helpers *)
Definition p_read (key : bytes) : Prog (option bytes) := PRead key mret.
Definition p_transfer (to : Address) (amount : Z) : Prog bool := PTransfer to amount mret.
Definition p_timestamp : Prog Z := PTimestamp mret.
Definition p_balance : Prog Z := PBalance mret.
Definition p_abort {A} (msg : string) : Prog A := PAbort msg.
(** A helper that decodes one cell. *)
Definition p_decode {A} (decode : option bytes → A) (key : bytes) : Prog A := PRead key (λ v, mret (decode v)).
Definition uint_of (n : nat) (v : option bytes) : Z :=
  match v with Some b => if (length b =? n)%nat then from_le_bytes b else 0 | None => 0 end.
Definition bool_of (v : option bytes) : bool :=
  match v with Some (b :: _) => negb (bool_decide (b = Byte.x00)) | _ => false end.
Definition address_of (v : option bytes) : Address :=
  match v with
  | Some b => if (length b =? 20)%nat then ba_of 20 b else ba_repeat 20 Byte.x00
  | None => ba_repeat 20 Byte.x00
  end.

#[global] Instance reify_read key : Reify (ContractSdk.storage_read key).
Proof. by exists (p_read key). Defined.
#[global] Instance reify_write key v : Reify (ContractSdk.storage_write key v).
Proof. by exists (p_put key v). Defined.
#[global] Instance reify_caller : Reify caller.
Proof. by exists p_caller. Defined.
#[global] Instance reify_timestamp : Reify block_timestamp.
Proof. by exists p_timestamp. Defined.
#[global] Instance reify_balance : Reify self_balance.
Proof. by exists p_balance. Defined.
#[global] Instance reify_emit d : Reify (ContractSdk.emit_event d).
Proof. by exists (p_emit d). Defined.
#[global] Instance reify_abort {A} msg : Reify (@abort A msg).
Proof. by exists (p_abort msg). Defined.
#[global] Instance reify_slice args a b : Reify (slice args a b) := stands (p_slice args a b) (stands_slice args a b).
#[global] Instance reify_read_uint n key : Reify (read_uint n key).
Proof. by exists (p_decode (uint_of n) key). Defined.
#[global] Instance reify_write_uint n key v : Reify (write_uint n key v).
Proof. by exists (p_put key (to_le_bytes n v)). Defined.
#[global] Instance reify_read_bool key : Reify (read_bool key).
Proof. by exists (p_decode bool_of key). Defined.
#[global] Instance reify_read_address key : Reify (read_address key).
Proof. by exists (p_decode address_of key). Defined.
Lemma stands_transfer to amount : stands_for (p_transfer to amount) (sdk_transfer to amount).
Proof. intros e. cbn. unfold mbind, contract_bind, sdk_transfer. by destruct (amount <=? me_self_balance e). Qed.
#[global] Instance reify_transfer to amount : Reify (sdk_transfer to amount) :=
  stands (p_transfer to amount) (stands_transfer to amount).

(** ** The entry points *)
Ltac find_prog := cbv zeta; apply _.
#[global] Instance reify_require_owner : Reify require_owner.
Proof. unfold require_owner. find_prog. Defined.
#[global] Instance reify_require_not_paused : Reify require_not_paused.
Proof. unfold require_not_paused. find_prog. Defined.
#[global] Instance reify_read_u64 key : Reify (read_u64 key).
Proof. apply reify_read_uint. Defined.
#[global] Instance reify_write_u64 key v : Reify (write_u64 key v).
Proof. apply reify_write_uint. Defined.
#[global] Instance reify_read_u128 key : Reify (read_u128 key).
Proof. apply reify_read_uint. Defined.
#[global] Instance reify_write_u128 key v : Reify (write_u128 key v).
Proof. apply reify_write_uint. Defined.
#[global] Instance reify_write_bool key b : Reify (write_bool key b).
Proof. apply reify_write. Defined.
#[global] Instance reify_fail_with ev : Reify (fail_with ev).
Proof. unfold fail_with. find_prog. Defined.
#[global] Instance reify_slice_at args a b : Reify (slice_at args a b).
Proof. apply reify_slice. Defined.
#[global] Instance reify_read_len {t : Target} args off : Reify (read_len args off).
Proof. unfold read_len. find_prog. Defined.
#[global] Instance reify_parse {t : Target} args : Reify (parse_chain_token args).
Proof. unfold parse_chain_token. find_prog. Defined.
#[global] Instance reify_bridge_entry {t : Target} o : Reify (bridge_entry o).
Proof.
  destruct o; cbn [bridge_entry];
    unfold init, create_htlc, claim_htlc, refund_htlc, bridge_lock, bridge_mint, bridge_burn, add_validator,
      remove_validator, pause, unpause, htlc_count, validator_count; find_prog.
Defined.
(** What the bridge contract is compiled to: its [usize] has 32 bits. *)
Definition bridge_prog (o : BridgeCall) : Prog Z := prog (bridge_entry (t := Wasm32) o).

(** ** Gas and admissibility, compositionally
    [budget n c φ]: a call of [c] by [who] on the contract [self] costs at most [n] on
    the VM, fits (SdkWasm.v), and its result satisfies [φ]. *)
Section Budget.
Context (who self : Address).
Definition at_ (e : MockEnv) : Prop := me_caller e = who ∧ me_self_addr e = self.
Definition budget (n : Z) {A} (c : contract A) `{!Reify c} (φ : A → Prop) : Prop :=
  ∀ e, at_ e → vm_cost GasCosts_default (prog c) e ≤ n ∧ vm_fits (prog c) e = true ∧
       ∀ e' a, c e = Ok (e', a) → at_ e' ∧ φ a.

Lemma budget_ret n {A} (a : A) (φ : A → Prop) : 0 ≤ n → φ a → budget n (mret a) φ.
Proof. intros Hn Ha e He. split_and!; [done|done|]. by intros e' a' [= <- <-]. Qed.
Lemma budget_bind n m {A B} (c : contract A) (f : A → contract B) `{!Reify c} `{!∀ a, Reify (f a)} φ ψ :
  budget n c φ → (∀ a, φ a → budget (m - n) (f a) ψ) → 0 ≤ m - n → budget m (c ≫= f) ψ.
Proof.
  intros Hc Hf Hm e He. destruct (Hc e He) as (Hn & Hfit & Hpost).
  change (prog (c ≫= f)) with (prog c ≫= λ a, prog (f a)). rewrite vm_cost_bind, vm_fits_bind, Hfit, prog_stands.
  unfold mbind, contract_bind. destruct (c e) as [[e1 a]|] eqn:Hrun; [|split_and!; done || lia].
  destruct (Hpost e1 a eq_refl) as [He1 Ha]. destruct (Hf a Ha e1 He1) as (Hn' & Hfit' & Hpost').
  split_and!; [lia|done|done].
Qed.
Lemma budget_if n (b : bool) {A} (c1 c2 : contract A) `{!Reify c1} `{!Reify c2} φ :
  (b = true → budget n c1 φ) → (b = false → budget n c2 φ) → budget n (if b then c1 else c2) φ.
Proof. intros H1 H2. destruct b; [exact (H1 eq_refl)|exact (H2 eq_refl)]. Qed.
Lemma budget_option n {A B} (o : option B) (c1 : B → contract A) c2 `{!∀ b, Reify (c1 b)} `{!Reify c2} φ :
  (∀ b, o = Some b → budget n (c1 b) φ) → (o = None → budget n c2 φ) →
  budget n match o with Some b => c1 b | None => c2 end φ.
Proof. intros H1 H2. destruct o; [exact (H1 b eq_refl)|exact (H2 eq_refl)]. Qed.
Lemma budget_pair n {A B C} (p : B * C) (c : B → C → contract A) `{!∀ x y, Reify (c x y)} φ :
  (∀ x y, p = (x, y) → budget n (c x y) φ) → budget n (let '(x, y) := p in c x y) φ.
Proof. intros H1. destruct p. exact (H1 b c0 eq_refl). Qed.

(** The SDK's functions. *)
Definition anything {A} (a : A) : Prop := True.
Lemma budget_caller : budget 0 caller (λ a, a = who).
Proof. intros e He. split_and!; [done|done|]. intros e' a [= <- <-]. split; [done|apply He]. Qed.
Lemma budget_timestamp : budget 0 block_timestamp anything.
Proof. intros e He. split_and!; [done|done|]. by intros e' a [= <- <-]. Qed.
Lemma budget_balance : budget 0 self_balance anything.
Proof. intros e He. split_and!; [done|done|]. by intros e' a [= <- <-]. Qed.
Lemma budget_abort {A} msg : short (b_ msg) = true → budget 0 (@abort A msg) anything.
Proof. intros Hm e He. by split_and!. Qed.
Lemma budget_slice args a b : budget 0 (slice args a b) (λ x, lenZ x ≤ lenZ args).
Proof.
  intros e He. change (prog (slice args a b)) with (p_slice args a b).
  destruct (within_slice args a b e) as [Hc Hf]. split_and!; [done|done|].
  intros e' x Hx. apply slice_inv in Hx as (-> & -> & _). split; [done|].
  unfold lenZ. rewrite length_take, length_drop. lia.
Qed.
Lemma budget_read key : short key = true → budget 200 (ContractSdk.storage_read key) anything.
Proof. intros Hk e He. cbn. rewrite Hk. split_and!; [done|done|]. by intros e' a [= <- <-]. Qed.
Lemma budget_decode n key : short key = true → budget 200 (read_uint n key) anything.
Proof. intros Hk e He. cbn. rewrite Hk. split_and!; [done|done|]. by intros e' a [= <- <-]. Qed.
Lemma budget_read_bool key : short key = true → budget 200 (read_bool key) anything.
Proof. intros Hk e He. cbn. rewrite Hk. split_and!; [done|done|]. by intros e' a [= <- <-]. Qed.
Lemma budget_read_address key : short key = true → budget 200 (read_address key) anything.
Proof. intros Hk e He. cbn. rewrite Hk. split_and!; [done|done|]. by intros e' a [= <- <-]. Qed.
Lemma budget_write key v :
  short key = true → 0 < lenZ v ≤ 4096 → budget 5000 (ContractSdk.storage_write key v) anything.
Proof.
  intros Hk Hv e He. change (prog (ContractSdk.storage_write key v)) with (p_put key v).
  cbn [p_put vm_cost vm_fits mret prog_ret].
  rewrite Hk, (proj2 (Z.ltb_lt _ _)), (proj2 (Z.leb_le _ _)) by lia.
  split_and!; [done|done|]. by intros e' a [= <- <-].
Qed.
Lemma budget_emit d : lenZ (b_ d) ≤ 40 → budget 695 (ContractSdk.emit_event d) anything.
Proof.
  intros Hd e He. destruct (within_emit d Hd e) as [Hc Hf]. split_and!; [done|done|]. by intros e' a [= <- <-].
Qed.
Lemma budget_transfer to amount : to ≠ self → in_u 64 amount → budget 2300 (sdk_transfer to amount) anything.
Proof.
  intros Hto Ha e [Hw Hs]. change (prog (sdk_transfer to amount)) with (p_transfer to amount).
  cbn [p_transfer vm_cost vm_fits mret prog_ret]. rewrite !bool_decide_eq_true_2 by (done || congruence).
  unfold sdk_transfer. destruct (amount <=? me_self_balance e);
    (split_and!; [done|done|]; by intros e' a [= <- <-]).
Qed.
Lemma budget_write_uint n key v :
  short key = true → (0 < n ≤ 16)%nat → budget 5000 (write_uint n key v) anything.
Proof. intros Hk Hn. apply budget_write; [done|]. unfold lenZ. rewrite length_to_le_bytes. lia. Qed.
Lemma budget_weaken n m {A} (c : contract A) `{!Reify c} φ : budget n c φ → n ≤ m → budget m c φ.
Proof. intros Hb Hn e He. destruct (Hb e He) as (H1 & H2 & H3). split_and!; [lia|done|done]. Qed.
End Budget.

(** ** Keys *)
Lemma short_app k n : lenZ k ≤ n → n < 2 ^ 16 → short k = true.
Proof. intros. apply Z.ltb_lt. lia. Qed.
Lemma lenZ_app (a b : bytes) : lenZ (a ++ b) = lenZ a + lenZ b.
Proof. unfold lenZ. rewrite length_app. lia. Qed.
Lemma short_htlc_key h : short (htlc_key (hex_encode_32 h)) = true.
Proof.
  apply (short_app _ 69); [|lia]. unfold htlc_key, hex_encode_32. rewrite lenZ_app. unfold lenZ.
  rewrite flat_map_constant_length with (c := 2%nat) by done. by rewrite ba_length.
Qed.
Lemma short_validator_key a : short (validator_key a) = true.
Proof. apply (short_app _ 30); [|lia]. unfold validator_key. rewrite lenZ_app. unfold lenZ. by rewrite ba_length. Qed.
Section LongKeys.
Context (n : Z) (Hn : n < 2 ^ 14) (chain token : bytes) (Hc : lenZ chain ≤ n) (Ht : lenZ token ≤ n).
Lemma short_locked_key : short (locked_key chain token) = true.
Proof.
  apply (short_app _ (8 + 2 * n)); [|lia]. unfold locked_key. rewrite !lenZ_app.
  change (lenZ (b_ "locked:")) with 7. change (lenZ (b_ ":")) with 1. lia.
Qed.
Lemma short_wrapped_supply_key : short (wrapped_supply_key chain token) = true.
Proof.
  apply (short_app _ (16 + 2 * n)); [|lia]. unfold wrapped_supply_key. rewrite !lenZ_app.
  change (lenZ (b_ "wrapped_supply:")) with 15. change (lenZ (b_ ":")) with 1. lia.
Qed.
Lemma short_wrapped_balance_key a : short (wrapped_balance_key chain token a) = true.
Proof.
  apply (short_app _ (30 + 2 * n)); [|lia]. unfold wrapped_balance_key. rewrite !lenZ_app.
  change (lenZ (b_ "wrapped:")) with 8. change (lenZ (b_ ":")) with 1.
  unfold lenZ at 3. rewrite ba_length. lia.
Qed.
End LongKeys.
Lemma encode_htlc_len s r v t st : lenZ (encode_htlc s r v t st) = 65.
Proof. unfold encode_htlc, lenZ. by rewrite !length_app, !ba_length, !length_to_le_bytes. Qed.

(** ** The entry points within their budgets *)
Section Entries.
Context {t : Target} (who self : Address) (Hself : who ≠ self).

Ltac cheap :=
  lazymatch goal with
  | |- short (htlc_key _) = true => apply short_htlc_key
  | |- short (validator_key _) = true => apply short_validator_key
  | |- short (locked_key _ _) = true => eapply short_locked_key; eassumption
  | |- short (wrapped_supply_key _ _) = true => eapply short_wrapped_supply_key; eassumption
  | |- short (wrapped_balance_key _ _ _) = true => eapply short_wrapped_balance_key; eassumption
  | |- short _ = true => by vm_compute
  | |- 0 < lenZ (encode_htlc _ _ _ _ _) ≤ _ => rewrite encode_htlc_len; lia
  | |- 0 < lenZ (ba_bytes _) ≤ _ => unfold lenZ; rewrite ba_length; lia
  | |- 0 < lenZ _ ≤ _ => split; [by vm_compute|by vm_compute]
  | |- lenZ (b_ _) ≤ 40 => by vm_compute
  | |- (0 < _ ≤ 16)%nat => lia
  | |- _ => idtac
  end.
(** One atomic step of a computation. *)
Ltac atom :=
  lazymatch goal with
  | |- budget _ _ _ caller _ => apply budget_caller
  | |- budget _ _ _ block_timestamp _ => apply budget_timestamp
  | |- budget _ _ _ self_balance _ => apply budget_balance
  | |- budget _ _ _ (slice _ _ _) _ => apply budget_slice
  | |- budget _ _ _ (slice_at _ _ _) _ => apply budget_slice
  | |- budget _ _ _ (ContractSdk.storage_read _) _ => apply budget_read; cheap
  | |- budget _ _ _ (read_u64 _) _ => apply (budget_decode _ _ 8); cheap
  | |- budget _ _ _ (read_u128 _) _ => apply (budget_decode _ _ 16); cheap
  | |- budget _ _ _ (read_bool _) _ => apply budget_read_bool; cheap
  | |- budget _ _ _ (read_address _) _ => apply budget_read_address; cheap
  | |- budget _ _ _ (ContractSdk.storage_write _ _) _ => apply budget_write; cheap
  | |- budget _ _ _ (write_bool _ _) _ => apply budget_write; cheap
  | |- budget _ _ _ (write_u64 _ _) _ => apply (budget_write_uint _ _ 8); cheap
  | |- budget _ _ _ (write_u128 _ _) _ => apply (budget_write_uint _ _ 16); cheap
  | |- budget _ _ _ (ContractSdk.emit_event _) _ => apply budget_emit; cheap
  end.
Ltac walk :=
  cbv zeta;
  repeat lazymatch goal with
  | |- budget _ _ _ (mret _) _ => apply budget_ret; [lia|done]
  | |- budget _ _ _ (mbind _ _) _ => eapply budget_bind; [atom|intros ? ?|lia]
  | |- budget _ _ _ (if _ then _ else _) _ => apply budget_if; intros ?
  end.

Lemma budget_require_owner : budget who self 200 require_owner anything.
Proof. unfold require_owner. walk. eapply budget_weaken; [apply budget_abort; cheap|lia]. Qed.
Lemma budget_require_not_paused : budget who self 200 require_not_paused anything.
Proof. unfold require_not_paused. walk. eapply budget_weaken; [apply budget_abort; cheap|lia]. Qed.
Lemma budget_fail_with n ev : lenZ (b_ ev) ≤ 40 → 695 ≤ n → budget who self n (fail_with ev) anything.
Proof. intros Hev Hn. unfold fail_with. eapply budget_bind; [by apply budget_emit|intros ? ?|lia]. walk. Qed.
Lemma budget_read_len args off : budget who self 0 (read_len args off) anything.
Proof. unfold read_len. walk. Qed.
Lemma budget_parse args :
  budget who self 0 (parse_chain_token args) (λ p, lenZ p.1.1 ≤ lenZ args ∧ lenZ p.1.2 ≤ lenZ args).
Proof.
  unfold parse_chain_token.
  eapply budget_bind; [apply budget_read_len|intros chain_len _|lia].
  eapply budget_bind; [apply budget_slice|intros chain Hchain|lia]. cbv zeta.
  eapply budget_bind; [apply budget_read_len|intros token_len _|lia].
  eapply budget_bind; [apply budget_slice|intros token Htoken|lia]. by apply budget_ret.
Qed.
(** The helpers of the contract, then the SDK's functions. *)
Ltac helper :=
  lazymatch goal with
  | |- budget _ _ _ require_owner _ => apply budget_require_owner
  | |- budget _ _ _ require_not_paused _ => apply budget_require_not_paused
  | |- budget _ _ _ (read_len _ _) _ => apply budget_read_len
  | |- budget _ _ _ (parse_chain_token _) _ => apply budget_parse
  | |- _ => atom
  end.
Ltac walk_entry :=
  cbv zeta;
  repeat lazymatch goal with
  | |- budget _ _ _ (mret _) _ => apply budget_ret; [lia|done]
  | |- budget _ _ _ (fail_with _) _ => apply budget_fail_with; [by vm_compute|lia]
  | |- budget _ _ _ (mbind _ (sdk_transfer _ _)) _ =>
      eapply budget_bind; [apply budget_transfer; [|apply wrap_in_u; lia]|intros ? ?|lia]
  | |- budget _ _ _ (mbind _ (if _ then _ else _)) _ =>
      apply (budget_bind _ _ 5000 _ _ _ anything); [apply budget_if; intros ?; [atom|apply budget_ret; [lia|done]]|intros ? ?|lia]
  | |- budget _ _ _ (mbind _ _) _ => eapply budget_bind; [helper|intros ? ?|lia]
  | |- budget _ _ _ (if _ then _ else _) _ => first [apply budget_if; intros ? | apply budget_option; intros]
  | |- budget _ _ _ _ _ => apply budget_option; intros
  end.

(** The longest argument the bound is stated for. *)
Definition call_args (o : BridgeCall) : bytes :=
  match o with
  | CCreate a | CClaim a | CRefund a | CLock a | CMint a | CBurn a | CAddValidator a | CRemoveValidator a => a
  | _ => []
  end.
Lemma budget_init : budget who self 30695 (bridge_entry CInit) anything.
Proof. cbn [bridge_entry]. unfold init. walk_entry. Qed.
Lemma budget_create args : budget who self 30695 (bridge_entry (CCreate args)) anything.
Proof. cbn [bridge_entry]. unfold create_htlc. walk_entry. Qed.
Ltac not_self :=
  intros Heq;
  repeat match goal with
  | H : negb (bool_decide (_ = _)) = false |- _ => apply negb_false_iff, bool_decide_eq_true in H
  end; cbv beta in *; congruence.
Lemma budget_claim args : budget who self 30695 (bridge_entry (CClaim args)) anything.
Proof. cbn [bridge_entry]. unfold claim_htlc. walk_entry. not_self. Qed.
Lemma budget_refund args : budget who self 30695 (bridge_entry (CRefund args)) anything.
Proof. cbn [bridge_entry]. unfold refund_htlc. walk_entry. not_self. Qed.
Lemma budget_lock args : lenZ args < 2 ^ 14 → budget who self 30695 (bridge_entry (CLock args)) anything.
Proof. intros Hl. cbn [bridge_entry]. unfold bridge_lock. walk_entry. Qed.
(** What was parsed is no longer than the arguments. *)
Ltac open_parsed :=
  match goal with
  | H : _ |- budget _ _ _ (match ?p with _ => _ end) _ =>
      match type of H with
      | context [p] => destruct p as [[chain token] off]; cbn in H; destruct H as [Hchain Htoken]
      end
  end.
Lemma budget_mint args : lenZ args < 2 ^ 14 → budget who self 30695 (bridge_entry (CMint args)) anything.
Proof. intros Hl. cbn [bridge_entry]. unfold bridge_mint. walk_entry. open_parsed. walk_entry. Qed.
Lemma budget_burn args : lenZ args < 2 ^ 14 → budget who self 30695 (bridge_entry (CBurn args)) anything.
Proof. intros Hl. cbn [bridge_entry]. unfold bridge_burn. walk_entry. open_parsed. walk_entry. Qed.
Lemma bridge_budget o : lenZ (call_args o) < 2 ^ 14 → budget who self 30695 (bridge_entry o) anything.
Proof.
  destruct o as [|args|args|args|args|args|args|args|args| | | |]; cbn [call_args]; intros Hl.
  - apply budget_init.
  - apply budget_create.
  - apply budget_claim.
  - apply budget_refund.
  - by apply budget_lock.
  - by apply budget_mint.
  - by apply budget_burn.
  - cbn [bridge_entry]. unfold add_validator. walk_entry.
  - cbn [bridge_entry]. unfold remove_validator. walk_entry.
  - cbn [bridge_entry]. unfold pause. walk_entry.
  - cbn [bridge_entry]. unfold unpause. walk_entry.
  - cbn [bridge_entry]. unfold htlc_count. walk_entry.
  - cbn [bridge_entry]. unfold validator_count. walk_entry.
Qed.
End Entries.

(** ** The two widths of [usize]
    The wasm32 build parses its arguments as the native one does, unless a length in the
    arguments of [bridge_lock] is so large that a sum of offsets wraps at 32 bits only. *)
Section Widths.
Context (args : bytes) (Hargs : lenZ args < 2 ^ 14).
Implicit Types (t : Target) (e : MockEnv).

Lemma bind_ext {A B} (m m' : contract A) (f g : A → contract B) e :
  m e = m' e → (∀ e' a, m' e = Ok (e', a) → f a e' = g a e') → (m ≫= f) e = (m' ≫= g) e.
Proof. unfold mbind, contract_bind. intros ->. destruct (m' e) as [[e' a]|]; [|done]. intros Hf. by apply Hf. Qed.
Lemma uadd_small t a b : 0 ≤ a + b < 2 ^ 32 → uadd (t := t) a b = a + b.
Proof. intros Hab. apply wadd_small. unfold in_u. by destruct t; cbn; lia. Qed.
Lemma uadd_native a b : 0 ≤ a + b < 2 ^ 64 → uadd (t := Native64) a b = a + b.
Proof. intros Hab. by apply wadd_small. Qed.
(** A range that ends beyond the arguments panics, whether or not its end wrapped. *)
Lemma slice_at_far t (a n : Z) e :
  0 ≤ a < 2 ^ 31 → 0 ≤ n < 2 ^ 32 → lenZ args < a + n →
  slice_at args a (uadd (t := t) a n) e = Err SliceOutOfRange.
Proof.
  intros Ha Hn Hfar. unfold slice_at, slice, lenZ in *.
  destruct (decide (a + n < 2 ^ 32)) as [Hs|Hs].
  { rewrite uadd_small by lia. by rewrite (proj2 (Nat.leb_gt (Z.to_nat (a + n)) _)), andb_false_r by lia. }
  destruct t; unfold uadd, wadd, wrap; cbn [usize_bits].
  - rewrite Z.mod_small by lia. by rewrite (proj2 (Nat.leb_gt (Z.to_nat (a + n)) _)), andb_false_r by lia.
  - rewrite <- (Z.mod_unique_pos (a + n) (2 ^ 32) 1 (a + n - 2 ^ 32)) by lia.
    by rewrite (proj2 (Nat.leb_gt (Z.to_nat a) _)) by lia.
Qed.
Lemma read_len_same t off e : 0 ≤ off < 2 ^ 31 → read_len (t := t) args off e = read_len (t := Native64) args off e.
Proof. intros Ho. unfold read_len. by rewrite !uadd_small by lia. Qed.
Lemma read_len_inv t off e e' n :
  0 ≤ off < 2 ^ 31 → read_len (t := t) args off e = Ok (e', n) → e' = e ∧ 0 ≤ n < 2 ^ 32.
Proof.
  intros Ho. unfold read_len. intros (e1 & l & Hl & Hr)%bind_ok. injection Hr as <- <-.
  replace off with (uadd (t := t) off 0) in Hl at 1 by (rewrite uadd_small; lia).
  apply slice_at_inv in Hl as [-> Hlen]; [|lia]. split; [done|]. apply (from_le_bytes_lt 4). lia.
Qed.
Lemma parse_same e : parse_chain_token (t := Wasm32) args e = parse_chain_token (t := Native64) args e.
Proof.
  unfold parse_chain_token. cbv zeta.
  apply bind_ext; [apply read_len_same; lia|]. intros e' cl Hcl. apply read_len_inv in Hcl as [-> Hcl]; [|lia].
  destruct (decide (lenZ args < 4 + cl)) as [Hfar|Hnear].
  { unfold mbind, contract_bind. by rewrite !slice_at_far by lia. }
  rewrite !(uadd_small Wasm32 4 cl), !(uadd_small Native64 4 cl) by lia.
  apply bind_ext; [done|]. intros e' chain Hs. apply slice_inv in Hs as [-> _].
  apply bind_ext; [apply read_len_same; lia|]. intros e' tl Htl. apply read_len_inv in Htl as [-> Htl]; [|lia].
  rewrite !(uadd_small Wasm32 (4 + cl) 4), !(uadd_small Native64 (4 + cl) 4) by lia.
  destruct (decide (lenZ args < 4 + cl + 4 + tl)) as [Hfar|Hnear'].
  { unfold mbind, contract_bind. by rewrite !slice_at_far by lia. }
  by rewrite (uadd_small Wasm32), (uadd_small Native64) by lia.
Qed.
Lemma parse_small t e e' x : parse_chain_token (t := t) args e = Ok (e', x) → e' = e ∧ 0 ≤ x.2 < 2 ^ 31.
Proof.
  intros Hp. assert (parse_chain_token (t := Native64) args e = Ok (e', x)) as Hn.
  { destruct t; [done|]. by rewrite <- parse_same. }
  clear Hp. unfold parse_chain_token in Hn. cbv zeta in Hn.
  apply bind_ok in Hn as (e1 & cl & Hcl & Hn). apply read_len_inv in Hcl as [-> Hcl]; [|lia].
  apply bind_ok in Hn as (e1 & chain & Hc & Hn).
  destruct (decide (lenZ args < 4 + cl)) as [Hfar|Hnear]; [by rewrite slice_at_far in Hc by lia|].
  apply slice_inv in Hc as [-> _]. rewrite !(uadd_small Native64 4 cl) in Hn by lia.
  apply bind_ok in Hn as (e1 & tl & Htl & Hn). apply read_len_inv in Htl as [-> Htl]; [|lia].
  rewrite !(uadd_small Native64 (4 + cl) 4) in Hn by lia.
  apply bind_ok in Hn as (e1 & token & Ht & Hn).
  destruct (decide (lenZ args < 4 + cl + 4 + tl)) as [Hfar|Hnear']; [by rewrite slice_at_far in Ht by lia|].
  apply slice_inv in Ht as [-> _]. rewrite (uadd_small Native64) in Hn by lia. injection Hn as <- <-. cbn [snd]. split; [done|lia].
Qed.
Lemma mint_same e : bridge_mint (t := Wasm32) args e = bridge_mint (t := Native64) args e.
Proof.
  unfold bridge_mint. do 2 (apply bind_ext; [done|intros ? [] _]). destruct (length args <? 44)%nat; [done|].
  apply bind_ext; [apply parse_same|]. intros e2 [[chain token] off] Hp. apply parse_small in Hp as [-> Hoff].
  cbn [snd] in Hoff. by rewrite !(uadd_small Wasm32), !(uadd_small Native64) by lia.
Qed.
Lemma burn_same e : bridge_burn (t := Wasm32) args e = bridge_burn (t := Native64) args e.
Proof.
  unfold bridge_burn. apply bind_ext; [done|intros ? [] _]. destruct (length args <? 28)%nat; [done|].
  apply bind_ext; [apply parse_same|]. intros e2 [[chain token] off] Hp. apply parse_small in Hp as [-> Hoff].
  cbn [snd] in Hoff. by rewrite (uadd_small Wasm32), (uadd_small Native64) by lia.
Qed.

(** The arguments declare a length within 32 KiB of 2^32. *)
Definition oversized e : Prop := ∃ off n, read_len (t := Native64) args off e = Ok (e, n) ∧ 2 ^ 32 - 2 ^ 15 ≤ n.
(** [c] does what the native [c'] does, or that one refused an oversized length. *)
Definition same_or_refused e (c c' : contract Z) : Prop :=
  c e = c' e ∨ oversized e ∧ c' e = Ok (e, -1).
Lemma refused_bind {A} (m m' : contract A) (f g : A → contract Z) e :
  m e = m' e → (∀ e' a, m' e = Ok (e', a) → e' = e ∧ same_or_refused e (f a) (g a)) →
  same_or_refused e (m ≫= f) (m' ≫= g).
Proof.
  unfold same_or_refused, mbind, contract_bind. intros ->. destruct (m' e) as [[e' a]|]; [|by left].
  intros Hf. by destruct (Hf e' a eq_refl) as [-> ?].
Qed.
(** A length check, on the wrapped sum [s] and on the native sum [s']. *)
Lemma refused_check (s s' : Z) (c c' : contract Z) e :
  s = s' ∨ Z.of_nat (length args) < s' ∧ oversized e → (s' ≤ Z.of_nat (length args) → same_or_refused e c c') →
  same_or_refused e (if Z.of_nat (length args) <? s then mret (-1) else c)
                    (if Z.of_nat (length args) <? s' then mret (-1) else c').
Proof.
  intros Hs Hc. destruct (Z.ltb_spec (Z.of_nat (length args)) s') as [Hlt|Hge].
  - destruct Hs as [->|[_ Ho]]; [left; by rewrite (proj2 (Z.ltb_lt _ _) Hlt)|by right].
  - destruct Hs as [->|[Hlt _]]; [|lia]. rewrite (proj2 (Z.ltb_ge _ _) Hge). by apply Hc.
Qed.
(** The sums of a length check: equal, or past the arguments natively. *)
Lemma sum_same (a n off : Z) e :
  read_len (t := Native64) args off e = Ok (e, n) → 0 ≤ a < 2 ^ 15 → 0 ≤ n < 2 ^ 32 →
  uadd (t := Wasm32) a n = uadd (t := Native64) a n ∨
  Z.of_nat (length args) < uadd (t := Native64) a n ∧ oversized e.
Proof.
  intros Hr Ha Hn. unfold lenZ in Hargs. rewrite (uadd_native a n) by lia.
  destruct (decide (a + n < 2 ^ 32)) as [Hs|Hs]; [left; apply uadd_small; lia|].
  right. split; [lia|]. exists off, n. split; [done|lia].
Qed.
Lemma sum_same_4 (a n off : Z) e :
  read_len (t := Native64) args off e = Ok (e, n) → 0 ≤ a < 2 ^ 14 + 4 → 0 ≤ n < 2 ^ 32 →
  uadd (t := Wasm32) (uadd (t := Wasm32) a n) 4 = uadd (t := Native64) (uadd (t := Native64) a n) 4 ∨
  Z.of_nat (length args) < uadd (t := Native64) (uadd (t := Native64) a n) 4 ∧ oversized e.
Proof.
  intros Hr Ha Hn. unfold lenZ in Hargs. rewrite !(uadd_native a n), !uadd_native by lia.
  destruct (decide (a + n + 4 < 2 ^ 32)) as [Hs|Hs]; [left; by rewrite (uadd_small _ a n), uadd_small by lia|].
  right. split; [lia|]. exists off, n. split; [done|lia].
Qed.
Lemma lock_same e : same_or_refused e (bridge_lock (t := Wasm32) args) (bridge_lock (t := Native64) args).
Proof.
  unfold bridge_lock. apply refused_bind; [done|]. intros e' [] Hg.
  split; [exact (guards_inv _ _ _ (or_introl Hg))|]. clear Hg.
  destruct (length args <? 12)%nat; [by left|]. unfold lenZ in Hargs.
  apply refused_bind; [apply read_len_same; lia|]. intros e1 cl Hcl. pose proof Hcl as Hread.
  apply read_len_inv in Hcl as [-> Hcl]; [|lia]. split; [done|]. cbv zeta.
  apply refused_check; [eapply sum_same_4; [exact Hread|lia..]|]. rewrite !(uadd_native 4 cl), !(uadd_native (4 + cl) 4) by lia. intros Hok.
  rewrite !(uadd_small Wasm32 4 cl) by lia.
  apply refused_bind; [done|]. intros e1 chain Hs. apply slice_inv in Hs as [-> _]. split; [done|].
  apply refused_bind; [apply read_len_same; lia|]. intros e1 tl Htl. pose proof Htl as Hread'.
  apply read_len_inv in Htl as [-> Htl]; [|lia]. split; [done|].
  rewrite !(uadd_small Wasm32 (4 + cl) 4) by lia.
  apply refused_check; [eapply sum_same_4; [exact Hread'|lia..]|].
  rewrite !(uadd_native (4 + cl + 4) tl), !(uadd_native (4 + cl + 4 + tl) 4) by lia. intros Hok'.
  rewrite !(uadd_small Wasm32 (4 + cl + 4) tl) by lia.
  apply refused_bind; [done|]. intros e1 token Hs. apply slice_inv in Hs as [-> _]. split; [done|].
  apply refused_bind; [apply read_len_same; lia|]. intros e1 rl Hrl. pose proof Hrl as Hread2.
  apply read_len_inv in Hrl as [-> Hrl]; [|lia]. split; [done|].
  rewrite (uadd_small Wasm32 (4 + cl + 4 + tl) 4) by lia.
  apply refused_check; [|by left]. eapply sum_same; [exact Hread2|lia..].
Qed.
End Widths.
Lemma bridge_widths o e :
  lenZ (call_args o) < 2 ^ 14 →
  bridge_entry (t := Wasm32) o e = bridge_entry (t := Native64) o e ∨
  ∃ args, o = CLock args ∧ oversized args e ∧ bridge_entry (t := Native64) o e = Ok (e, -1).
Proof.
  intros Hl. destruct o as [|args|args|args|args|args|args|args|args| | | |]; try (by left).
  - destruct (lock_same args Hl e) as [Heq|[Ho Hr]]; [by left|right; by exists args].
  - left. by apply mint_same.
  - left. by apply burn_same.
Qed.

(** ** The bridge on the virtual machine *)
Section OnVm.
Context `{WasmLayoutLaws} `{Wasmtime}.

Lemma bridge_runs base c e o :
  sees base c e → me_caller e ≠ me_self_addr e → lenZ (call_args o) < 2 ^ 14 → affords c 30695 →
  match bridge_entry (t := Wasm32) o e with
  | Ok (e', r) => ∃ c', run_guest GasCosts_default c (wasm (bridge_prog o)) = Some (c', Ok r) ∧ sees base c' e' ∧
      gm_consumed (ctx_gas_meter c') ≤ gm_consumed (ctx_gas_meter c) + 30695 ∧
      ∀ h, htlc_settled (me_storage e) h →
        Vm.storage_read c' (ctx_contract_address c') (lock_key h) =
        Vm.storage_read c (ctx_contract_address c) (lock_key h)
  | Err _ => ∃ c' m, run_guest GasCosts_default c (wasm (bridge_prog o)) = Some (c', Err m)
  end.
Proof.
  intros Hs Hne Hl [_ Hg].
  destruct (bridge_budget (t := Wasm32) (me_caller e) (me_self_addr e) Hne o Hl e) as (Hcost & Hfit & _); [done|].
  pose proof (vm_cost_nonneg GasCosts_default ltac:(done) (bridge_prog o) e) as Hpos.
  assert (affords c (vm_cost GasCosts_default (bridge_prog o) e)) as Haff by (unfold affords, bridge_prog in *; lia).
  pose proof (wasm_simulates GasCosts_default ltac:(done) base _ _ _ Hs Haff Hfit) as Hsame.
  unfold bridge_prog in Hsame at 3. rewrite prog_stands in Hsame. revert Hsame.
  pose proof (λ h, bridge_call_settled (t := Wasm32) e (me_caller e) o h) as Hset. unfold run_call in Hset.
  assert (mock_set_caller (me_caller e) e = e) as He by (by destruct e). rewrite He in Hset.
  destruct (bridge_entry (t := Wasm32) o e) as [[e' r]|]; [|done]. intros (c' & Hvm & Hs' & Hgas).
  exists c'. split_and!; [done|done|rewrite Hgas; unfold bridge_prog in *; cbn; lia|].
  intros h Hh. rewrite (see_storage _ _ _ Hs'), (see_storage _ _ _ Hs). f_equal. by apply Hset.
Qed.

(** C40: Every entry point of the bridge contract, compiled to wasm32 (where usize has
    32 bits) and called on the VM with 30695 gas by an account other than the contract and
    with less than 16 KiB of arguments, does what its source means at that width: it returns
    the same value and leaves the environment described, or traps where it panics; it uses
    at most that much gas and never changes the cell of a settled HTLC. It also does what
    the native 64-bit build does, except for a bridge_lock whose arguments declare a length
    within 32 KiB of 2^32, which the native build refuses with -1. *)
Theorem bridge_on_vm base c e o :
  sees base c e → me_caller e ≠ me_self_addr e → lenZ (call_args o) < 2 ^ 14 → affords c 30695 →
  (bridge_entry (t := Wasm32) o e = bridge_entry (t := Native64) o e ∨
   ∃ args, o = CLock args ∧ oversized args e ∧ bridge_entry (t := Native64) o e = Ok (e, -1)) ∧
  match bridge_entry (t := Wasm32) o e with
  | Ok (e', r) => ∃ c', run_guest GasCosts_default c (wasm (bridge_prog o)) = Some (c', Ok r) ∧ sees base c' e' ∧
      gm_consumed (ctx_gas_meter c') ≤ gm_consumed (ctx_gas_meter c) + 30695 ∧
      ∀ h, htlc_settled (me_storage e) h →
        Vm.storage_read c' (ctx_contract_address c') (lock_key h) =
        Vm.storage_read c (ctx_contract_address c) (lock_key h)
  | Err _ => ∃ c' m, run_guest GasCosts_default c (wasm (bridge_prog o)) = Some (c', Err m)
  end.
Proof. intros. split; [by apply bridge_widths|by apply bridge_runs]. Qed.
End OnVm.

(** ** The bridge called through the engine
    What the exported functions of an instance of the compiled contract are: one for each
    [extern "C"] function, with its number of parameters.  The contract exports no
    [allocate]. *)
Definition entry_name (o : BridgeCall) : string :=
  match o with
  | CInit => "init" | CCreate _ => "create_htlc" | CClaim _ => "claim_htlc" | CRefund _ => "refund_htlc"
  | CLock _ => "bridge_lock" | CMint _ => "bridge_mint" | CBurn _ => "bridge_burn"
  | CAddValidator _ => "add_validator" | CRemoveValidator _ => "remove_validator"
  | CPause => "pause" | CUnpause => "unpause" | CHtlcCount => "htlc_count" | CValidatorCount => "validator_count"
  end.
(** Whether the function takes [args_ptr] and [args_len]. *)
Definition takes_args (o : BridgeCall) : bool :=
  match o with CInit | CPause | CUnpause | CHtlcCount | CValidatorCount => false | _ => true end.
Fixpoint guest_map {A B} (f : A → B) (g : Guest A) : Guest B :=
  match g with
  | GDone a => GDone (f a)
  | GTrap m => GTrap m
  | GHost h m k => GHost h m (λ m v, guest_map f (k m v))
  end.

Section OnChain.
Context `{CryptoPrims} `{WasmLayoutLaws} `{Wasmtime}.

Record exports_bridge (inst : Inst) : Prop := {
  ex_allocate : wt_func inst 1 "allocate" = None;
  ex_plain o : takes_args o = false →
    wt_func inst 0 (entry_name o) = Some (λ _, guest_map (λ r, (r, inst)) (wasm (bridge_prog o)));
  ex_args o : takes_args o = true → wt_func inst 0 (entry_name o) = None
}.
(** The module is cached, its instantiation runs no code, and it exports the bridge. *)
Record deployed (e : WasmEngine) (code_hash : Blake3Hash) : Prop := {
  de_costs : we_gas_costs e = GasCosts_default;
  de_module : ∃ md inst, we_module_cache e !! code_hash = Some md ∧
    (∀ fuel, wt_instantiate md fuel = GDone inst) ∧ exports_bridge inst;
  de_fuel f : wt_set_fuel f = Ok ()
}.

Lemma run_guest_map {A B} (f : A → B) costs g : ∀ c,
  run_guest costs c (guest_map f g) =
    (λ '(c', r), (c', match r with Ok a => Ok (f a) | Err m => Err m end)) <$> run_guest costs c g.
Proof.
  induction g as [a|m|h m k IH]; intros c; [done|done|]. cbn. destruct (host_call costs c m h); [apply IH|done|done].
Qed.
(** Without [allocate] every call is one without parameters. *)
Lemma call_without_allocator costs c inst name args :
  wt_func inst 1 "allocate" = None → call_with_args costs c inst name args = call_export costs c inst name [].
Proof. intros Ha. unfold call_with_args. destruct args; [done|]. by rewrite Ha. Qed.
Lemma deployed_execute e code_hash c name args :
  deployed e code_hash → ∃ md inst, we_module_cache e !! code_hash = Some md ∧ exports_bridge inst ∧
  execute_function e md name args c =
    (r ← call_export GasCosts_default c inst name [];
     Some (match r with Ok (c, data) => (c, Ok data) | Err err => (blank_context c, Err err) end)).
Proof.
  intros [Hc (md & inst & Hm & Hi & Hx) Hf]. exists md, inst. split_and!; [done|done|].
  unfold execute_function. rewrite Hc. destruct (vc_fuel_metering (we_config e)); [rewrite Hf|]; cbn;
    rewrite Hi; cbn; by rewrite call_without_allocator by apply Hx.
Qed.

(** C31: A deployed bridge called through the VM engine, with enough gas and by another
    account: every entry point that takes parameters fails with FunctionNotFound whatever
    the call data, and leaves nothing behind; the five without parameters ignore the call
    data, return the native result as one byte with the native effect, or trap where the
    native run panics and leave nothing behind. *)
Theorem bridge_calls_on_chain e code_hash base c env o args :
  deployed e code_hash → sees base c env → me_caller env ≠ me_self_addr env → affords c 30695 →
  ∃ c' res, call_contract e code_hash (entry_name o) args c = Some (e, c', Ok res) ∧
    if takes_args o then
      c' = blank_context c ∧ cr_status res = TxFailure (vm_error_display (FunctionNotFound (entry_name o)))
    else match bridge_entry (t := Native64) o env with
    | Ok (env', r) => ∃ c1, c' = ctx_set_logs c1 [] ∧ sees base c1 env' ∧ cr_status res = TxSuccess ∧
        cr_return_data res = [byte_of_Z r] ∧ cr_logs res = ctx_logs c1
    | Err _ => c' = blank_context c ∧ ∃ m, cr_status res = TxFailure (vm_error_display (Trap m))
    end.
Proof.
  intros Hd Hs Hne Hg. destruct (deployed_execute e code_hash c (entry_name o) args Hd) as (md & inst & Hm & Hx & Hex).
  unfold call_contract, load_module. rewrite Hm, Hex. unfold call_export. cbn [length].
  destruct (takes_args o) eqn:Ht.
  - rewrite (ex_args _ Hx o Ht). by eexists _, _.
  - rewrite (ex_plain _ Hx o Ht). unfold run_or. rewrite run_guest_map.
    assert (lenZ (call_args o) < 2 ^ 14) as Hl by (by destruct o).
    pose proof (bridge_runs base c env o Hs Hne Hl Hg) as Hon.
    assert (bridge_entry (t := Wasm32) o env = bridge_entry (t := Native64) o env) as Hw by (by destruct o).
    rewrite Hw in Hon. destruct (bridge_entry (t := Native64) o env) as [[env' r]|].
    + destruct Hon as (c1 & Hrun & Hs1 & _). rewrite Hrun. cbn. eexists _, _. split; [done|]. by exists c1.
    + destruct Hon as (c1 & m & Hrun). rewrite Hrun. cbn. eexists _, _. split; [done|]. split; [done|by exists m].
Qed.
End OnChain.

Module BridgeWasmWitness.
Import BridgeContractWitness.

(** A runtime whose only module is the compiled bridge. *)
Definition plain_entries : list BridgeCall := [CInit; CPause; CUnpause; CHtlcCount; CValidatorCount].
Definition bridge_exports (n : nat) (name : string) : option (list Z → Guest (Z * ())) :=
  if (n =? 0)%nat then
    (λ o _, guest_map (λ r, (r, ())) (wasm (bridge_prog o))) <$>
      List.find (λ o, bool_decide (entry_name o = name)) plain_entries
  else None.
#[local] Instance bridge_runtime : Wasmtime := {|
  Module_ := (); Inst := (); wt_validate _ := Ok (); wt_module _ := Ok (); wt_set_fuel _ := Ok ();
  wt_instantiate _ _ := GDone (); wt_func _ n name := bridge_exports n name;
  wt_memory _ := None; wt_set_memory i _ := i; wt_memory_size _ := 1; wt_abort_display m := String.string_of_list_byte m |}.

(** The bridge after Bob claimed the first of two HTLCs, stored on the chain. *)
Definition with_cells (cells : gmap bytes bytes) : MockEnv := me_set MockEnv_default cells alice 0 [] [].
Definition with_reader (cells : gmap bytes bytes) : ExecutionContext :=
  ExecutionContext_new alice alice (me_self_addr MockEnv_default) 0 1 1700000000 9999 40000
    {| sr_get_account _ := Ok None; sr_get_storage _ k := Ok (cells !! k); sr_get_code _ := Ok None |}.
Lemma cells_seen cells :
  map_Forall (λ _ v : bytes, 0 < lenZ v ≤ 4096) cells → sees 0 (with_reader cells) (with_cells cells).
Proof. intros Hcells. constructor; try done. by exists None. Qed.
Definition chain_env : MockEnv := with_cells (me_storage e3).
Definition bridge_ctx : ExecutionContext := with_reader (me_storage e3).
Lemma bridge_seen : sees 0 bridge_ctx chain_env.
Proof. apply cells_seen. eapply bool_decide_unpack. by vm_compute. Qed.

Lemma bridge_on_vm_witness :
  (∃ c', run_guest GasCosts_default bridge_ctx (wasm (bridge_prog (CClaim secret1))) = Some (c', Ok (-1)) ∧
    Vm.storage_read c' (ctx_contract_address c') (lock_key (simple_sha256 secret1)) =
    Vm.storage_read bridge_ctx (ctx_contract_address bridge_ctx) (lock_key (simple_sha256 secret1))) ∧
  bridge_entry (t := Wasm32) (CClaim secret1) chain_env = bridge_entry (t := Native64) (CClaim secret1) chain_env.
Proof.
  assert (me_caller chain_env ≠ me_self_addr chain_env) as Hne by (apply (bool_decide_eq_true_1 _); by vm_compute).
  assert (lenZ (call_args (CClaim secret1)) < 2 ^ 14) as Hl by (apply Z.ltb_lt; by vm_compute).
  assert (affords bridge_ctx 30695) as Hg by (unfold affords; cbn; lia).
  destruct (bridge_on_vm 0 bridge_ctx chain_env (CClaim secret1) bridge_seen Hne Hl Hg) as [Hw Hon].
  split; [|destruct Hw as [Hw|(args & Ho & _)]; [exact Hw|discriminate Ho]].
  assert (match bridge_entry (t := Wasm32) (CClaim secret1) chain_env with
          | Ok (_, r) => bool_decide (r = -1) | Err _ => false end = true) as Hr by (by vm_compute).
  destruct (bridge_entry (t := Wasm32) (CClaim secret1) chain_env) as [[e' r]|]; [|discriminate Hr].
  apply bool_decide_eq_true_1 in Hr as ->. destruct Hon as (c' & Hvm & _ & _ & Hset).
  exists c'. split; [exact Hvm|]. exact (Hset _ e3_settled).
Defined.
(** A lock whose recipient length is 2^32 - 8.  Natively it is refused; compiled to wasm32
    the end of the recipient wraps to 4, the check passes and the locked amount is written. *)
Definition overlong : bytes := le4 0 ++ le4 0 ++ le4 4294967288.
Definition rich_env : MockEnv := mock_set_balance 500 MockEnv_default.
Example wasm_lock_wraps :
  match bridge_entry (t := Native64) (CLock overlong) rich_env with
  | Ok (e, r) => (r =? -1) && (read_le 16 (me_storage e) (locked_key [] []) =? 0) | Err _ => false
  end &&
  match bridge_entry (t := Wasm32) (CLock overlong) rich_env with
  | Ok (e, r) => (r =? 0) && (read_le 16 (me_storage e) (locked_key [] []) =? 500) | Err _ => false
  end = true.
Proof. by vm_compute. Qed.

Import ToyCrypto.
Definition code : Blake3Hash := ba_repeat 32 Byte.x77.
Definition engine : WasmEngine := {|
  we_module_cache := {[ code := () ]}; we_config := VmConfig_default; we_gas_costs := GasCosts_default |}.
Lemma bridge_deployed : deployed engine code.
Proof.
  constructor; [done| |done]. exists (), (). split; [by vm_compute|]. split; [done|].
  constructor; [done|by destruct o|by destruct o].
Qed.
Lemma bridge_calls_on_chain_witness :
  (∃ c' res, call_contract engine code "htlc_count" [] bridge_ctx = Some (engine, c', Ok res) ∧
     cr_status res = TxSuccess ∧ cr_return_data res = [Byte.x02]) ∧
  (∃ c' res, call_contract engine code "claim_htlc" secret2 bridge_ctx = Some (engine, c', Ok res) ∧
     cr_status res = TxFailure "function not found: claim_htlc").
Proof.
  assert (me_caller chain_env ≠ me_self_addr chain_env) as Hne by (apply (bool_decide_eq_true_1 _); by vm_compute).
  assert (affords bridge_ctx 30695) as Hg by (unfold affords; cbn; lia). split.
  - destruct (bridge_calls_on_chain engine code 0 bridge_ctx chain_env CHtlcCount [] bridge_deployed bridge_seen Hne Hg)
      as (c' & res & Hcall & Hres). cbn [takes_args] in Hres.
    assert (match bridge_entry (t := Native64) CHtlcCount chain_env with Ok (_, r) => bool_decide (r = 2) | Err _ => false end = true)
      as Hr by (by vm_compute).
    destruct (bridge_entry (t := Native64) CHtlcCount chain_env) as [[e' r]|]; [|discriminate Hr].
    apply bool_decide_eq_true_1 in Hr as ->. destruct Hres as (c1 & _ & _ & Hst & Hdata & _).
    exists c', res. split; [exact Hcall|]. split; [exact Hst|exact Hdata].
  - destruct (bridge_calls_on_chain engine code 0 bridge_ctx chain_env (CClaim secret2) secret2 bridge_deployed bridge_seen Hne Hg)
      as (c' & res & Hcall & Hres). cbn [takes_args] in Hres. destruct Hres as [_ Hst].
    exists c', res. split; [exact Hcall|exact Hst].
Defined.
End BridgeWasmWitness.
