(* ===== verification/ApiTypes.v ===== *)
(** * ApiTypes: errors, configuration and transfer objects of the API
    (crates/api: error.rs, config.rs, dto.rs, and the DTOs of the routes)

    A handler returns [result ApiError (ApiResponse T)]; [into_response] is the
    mapping of an error to its status and JSON body.  [Json] is the shape of
    [serde_json::Value], an object being its fields in order. *)

From S2P Require Import Prelude Crypto Merkle CoreTypes Validators Storage Vm Consensus Finality TxPool ChainState Engine BridgeTypes Text.

Inductive Json : Type :=
| JNull
| JBool (b : bool)
| JNum (n : Z)
| JStr (s : string)
| JArr (l : list Json)
| JObj (fields : list (string * Json)).

(** [value.get(key)]: the field of an object. *)
Definition json_get (v : Json) (key : string) : option Json :=
  match v with
  | JObj fields => snd <$> List.find (λ f, bool_decide (f.1 = key)) fields
  | _ => None
  end.
(** [value.as_u64()] *)
Definition as_u64 (v : Json) : option Z :=
  match v with JNum n => if decide (in_u 64 n) then Some n else None | _ => None end.

(** ** error.rs *)
Inductive ApiError : Type :=
| BadRequest (msg : string)
| ApiNotFound (msg : string)
| Unauthorized (msg : string)
| Forbidden (msg : string)
| Internal (msg : string)
| RateLimit
| ApiSerialization (msg : string).

Definition api_error_display (e : ApiError) : string :=
  match e with
  | BadRequest m => "Bad request: " +:+ m
  | ApiNotFound m => "Not found: " +:+ m
  | Unauthorized m => "Unauthorized: " +:+ m
  | Forbidden m => "Forbidden: " +:+ m
  | Internal m => "Internal server error: " +:+ m
  | RateLimit => "Rate limit exceeded"
  | ApiSerialization m => "Serialization error: " +:+ m
  end.

Definition into_response (e : ApiError) : Z * Json :=
  let '(status, message) :=
    match e with
    | BadRequest m => (400, m)
    | ApiNotFound m => (404, m)
    | Unauthorized m => (401, m)
    | Forbidden m => (403, m)
    | Internal m => (500, m)
    | RateLimit => (429, "Rate limit exceeded"%string)
    | ApiSerialization m => (500, m)
    end in
  (status, JObj [("success"%string, JBool false);
                 ("error"%string, JObj [("code"%string, JNum status); ("message"%string, JStr message)])]).

Definition from_storage_error (e : StorageError) : ApiError :=
  Internal ("Storage error: " +:+ storage_error_display e).
Definition from_consensus_error (e : ConsensusError) : ApiError :=
  Internal ("Consensus error: " +:+ consensus_error_display e).

(** ** config.rs *)
Record TlsConfig : Type := { tls_cert_path : string; tls_key_path : string }.
Record RateLimitConfig : Type := { rl_requests_per_second : Z; rl_burst_size : Z }.
Definition RateLimitConfig_default : RateLimitConfig :=
  {| rl_requests_per_second := 100; rl_burst_size := 200 |}.
Record AuthConfig : Type := {
  jwt_secret : string;
  jwt_expiration_secs : Z;
  enable_rbac : bool;
  admin_addresses : list Address
}.
Definition AuthConfig_default : AuthConfig := {|
  jwt_secret := "change-me-in-production"; jwt_expiration_secs := 3600;
  enable_rbac := false; admin_addresses := [] |}.
(** An IPv4 socket address: the four octets and the port. *)
Record SocketAddr : Type := { sa_ip : list Z; sa_port : Z }.
Record ApiConfig : Type := {
  ac_bind_address : SocketAddr;
  ac_tls : option TlsConfig;
  ac_cors_origins : list string;
  ac_max_request_body_size : Z;
  ac_rate_limit : RateLimitConfig;
  ac_auth : AuthConfig;
  ac_ws_max_connections : Z;
  ac_metrics_enabled : bool
}.
Definition ApiConfig_default : ApiConfig := {|
  ac_bind_address := {| sa_ip := [127; 0; 0; 1]; sa_port := 8080 |};
  ac_tls := None; ac_cors_origins := ["*"%string];
  ac_max_request_body_size := 2 * 1024 * 1024;
  ac_rate_limit := RateLimitConfig_default; ac_auth := AuthConfig_default;
  ac_ws_max_connections := 1024; ac_metrics_enabled := true |}.

(** ** dto.rs *)
Record ApiResponse (T : Type) : Type := {
  ar_success : bool;
  ar_data : option T;
  ar_error : option string
}.
Arguments ar_success {T}.
Arguments ar_data {T}.
Arguments ar_error {T}.
Definition ApiResponse_ok {T} (data : T) : ApiResponse T :=
  {| ar_success := true; ar_data := Some data; ar_error := None |}.
Definition ApiResponse_err {T} (message : string) : ApiResponse T :=
  {| ar_success := false; ar_data := None; ar_error := Some message |}.

Record TransactionDto : Type := {
  td_hash : string;
  td_from : string;
  td_to : option string;
  td_value : string;
  td_nonce : Z;
  td_tx_type : string;
  td_gas_limit : Z;
  td_gas_price : Z;
  td_data_size : nat;
  td_timestamp : Z;
  td_chain_id : Z
}.
Record BlockDto : Type := {
  bd_number : Z;
  bd_hash : string;
  bd_parent_hash : string;
  bd_timestamp : Z;
  bd_validator : string;
  bd_epoch : Z;
  bd_gas_used : Z;
  bd_gas_limit : Z;
  bd_tx_count : nat;
  bd_state_root : string;
  bd_transactions_root : string;
  bd_transactions : list TransactionDto
}.
Record AccountDto : Type := {
  ad_address : string;
  ad_balance : string;
  ad_nonce : Z;
  ad_is_contract : bool;
  ad_code_hash : option string;
  ad_storage_root : string
}.
Record ValidatorDto : Type := {
  vd_address : string;
  vd_public_key : string;
  vd_stake : string;
  vd_is_active : bool;
  vd_commission_rate : Z;
  vd_jailed_until : option Z;
  vd_slash_count : Z;
  vd_uptime_blocks : Z;
  vd_total_blocks : Z
}.
Record SubmitTransactionRequest : Type := {
  sr_chain_id : Z;
  sr_nonce : Z;
  sr_from : string;
  sr_to : option string;
  sr_value : string;
  sr_tx_type : string;
  sr_gas_limit : Z;
  sr_gas_price : Z;
  sr_data : string;
  sr_timestamp : Z;
  sr_public_key : string;
  sr_signature : string
}.
Record SubmitTransactionResponse : Type := { str_tx_hash : string }.
Record ChainInfoDto : Type := {
  cd_chain_id : Z;
  cd_height : Z;
  cd_best_block_hash : string;
  cd_epoch : Z;
  cd_finalized_height : Z;
  cd_pending_transactions : nat;
  cd_active_validators : nat
}.

(** [{:?}] of the two enums the DTOs print. *)
Definition tx_type_debug (t : TxType) : string :=
  match t with
  | Transfer => "Transfer" | ContractDeploy => "ContractDeploy" | ContractCall => "ContractCall"
  | Stake => "Stake" | Unstake => "Unstake"
  end.
(** [str]'s [Debug] escapes, on ASCII text. *)
Definition escape_char (c : Ascii.ascii) : string :=
  let n := Z.of_N (Ascii.N_of_ascii c) in
  if n =? 0 then "\0"
  else if n =? 9 then "\t"
  else if n =? 10 then "\n"
  else if n =? 13 then "\r"
  else if n =? 34 then String "\" (String (Ascii.ascii_of_nat 34) "")
  else if n =? 92 then "\\"
  else if n <? 16 then "\u{" +:+ String (hex_digit n) "}"
  else if (n <? 32) || (n =? 127) then
    "\u{" +:+ String (hex_digit (n / 16)) (String (hex_digit (n mod 16)) "}")
  else String c "".
Fixpoint escape_debug (s : string) : string :=
  match s with EmptyString => EmptyString | String c s' => escape_char c +:+ escape_debug s' end.
Definition quote : string := String (Ascii.ascii_of_nat 34) "".
Definition tx_status_debug (s : TxStatus) : string :=
  match s with
  | TxSuccess => "Success"
  | TxFailure m => "Failure(" +:+ quote +:+ escape_debug m +:+ quote +:+ ")"
  | TxOutOfGas => "OutOfGas"
  end.

Section Dto.
Context `{CryptoPrims} `{Bincode BlockHeader}.

Definition TransactionDto_from (t : SignedTransaction) : TransactionDto :=
  let tx := stx_transaction t in {|
  td_hash := Blake3Hash_display (stx_tx_hash t); td_from := Address_to_hex (tx_from tx);
  td_to := Address_to_hex <$> tx_to tx; td_value := z_str (tx_value tx); td_nonce := tx_nonce tx;
  td_tx_type := tx_type_debug (tx_tx_type tx); td_gas_limit := tx_gas_limit tx;
  td_gas_price := tx_gas_price tx; td_data_size := length (tx_data tx);
  td_timestamp := tx_timestamp tx; td_chain_id := tx_chain_id tx |}.
Definition BlockDto_from (b : Block) : BlockDto :=
  let h := blk_header b in {|
  bd_number := hdr_number h; bd_hash := Blake3Hash_display (block_hash b);
  bd_parent_hash := Blake3Hash_display (hdr_parent_hash h); bd_timestamp := hdr_timestamp h;
  bd_validator := Address_to_hex (hdr_validator h); bd_epoch := hdr_epoch h;
  bd_gas_used := hdr_gas_used h; bd_gas_limit := hdr_gas_limit h;
  bd_tx_count := length (blk_transactions b);
  bd_state_root := Blake3Hash_display (hdr_state_root h);
  bd_transactions_root := Blake3Hash_display (hdr_transactions_root h);
  bd_transactions := TransactionDto_from <$> blk_transactions b |}.
Definition AccountDto_from (a : Account) : AccountDto := {|
  ad_address := Address_to_hex (acc_address a); ad_balance := z_str (acc_balance a);
  ad_nonce := acc_nonce a; ad_is_contract := is_contract a;
  ad_code_hash := Blake3Hash_display <$> acc_code_hash a;
  ad_storage_root := Blake3Hash_display (acc_storage_root a) |}.
Definition ValidatorDto_from (v : ValidatorInfo) : ValidatorDto := {|
  vd_address := Address_to_hex (vi_address v); vd_public_key := PublicKey_to_hex (vi_public_key v);
  vd_stake := z_str (vi_stake v); vd_is_active := vi_is_active v;
  vd_commission_rate := vi_commission_rate v; vd_jailed_until := vi_jailed_until v;
  vd_slash_count := vi_slash_count v; vd_uptime_blocks := vi_uptime_blocks v;
  vd_total_blocks := vi_total_blocks v |}.
Definition ChainInfoDto_from (i : ChainInfo) : ChainInfoDto := {|
  cd_chain_id := ci_chain_id i; cd_height := ci_height i;
  cd_best_block_hash := Blake3Hash_display (ci_best_block_hash i); cd_epoch := ci_epoch i;
  cd_finalized_height := ci_finalized_height i;
  cd_pending_transactions := ci_pending_transactions i;
  cd_active_validators := ci_active_validators i |}.
End Dto.
