(* ===== verification/Middleware.v ===== *)
(** * Middleware: authentication and rate limiting
    (crates/api/src/middleware: auth.rs, rate_limit.rs)

    Tokens are made and checked by the jsonwebtoken crate, the class [Jwt] with
    its documented behaviour [JwtLaws].  A middleware takes the request and the
    rest of the stack, [next].  The clock is a parameter: seconds for tokens,
    nanoseconds for the limiter's [Instant]s.  Client addresses are parsed the
    way the standard library parses them. *)

From S2P Require Import Prelude Crypto CoreTypes BridgeTypes Text ApiTypes.

(** ** Addresses: [str::parse::<IpAddr>] *)
Inductive IpAddr := V4 (octets : list Z) | V6 (groups : list Z).
#[export] Instance IpAddr_eq_dec : EqDecision IpAddr.
Proof. solve_decision. Defined.
#[export] Instance IpAddr_countable : Countable IpAddr.
Proof.
  refine (inj_countable (λ i, match i with V4 l => (true, l) | V6 l => (false, l) end)
            (λ p : bool * list Z, Some (if p.1 then V4 p.2 else V6 p.2)) _).
  by intros [].
Defined.

Module IpParser.
(** A parser step consumes a prefix of the text, or fails. *)
Definition parser (A : Type) : Type := string → option (A * string).
Definition given_char (c : Ascii.ascii) : parser () :=
  λ s, match s with String c' s' => if bool_decide (c = c') then Some ((), s') else None | _ => None end.
Definition digit_in (radix : Z) (c : Ascii.ascii) : option Z :=
  d ← hex_val c; if d <? radix then Some d else None.
Fixpoint digits (radix : Z) (s : string) : list Z * string :=
  match s with
  | EmptyString => ([], EmptyString)
  | String c s' =>
      match digit_in radix c with
      | Some d => let '(ds, rest) := digits radix s' in (d :: ds, rest)
      | None => ([], s)
      end
  end.
(** [read_number(radix, Some(max_digits), allow_zero_prefix)] into [w] bits. *)
Definition read_number (radix : Z) (max_digits : nat) (allow_zero_prefix : bool) (w : Z) : parser Z :=
  λ s, let '(ds, rest) := digits radix s in
       let v := foldl (λ a d, a * radix + d) 0 ds in
       if (length ds =? 0)%nat then None
       else if (max_digits <? length ds)%nat then None
       else if negb allow_zero_prefix && (1 <? length ds)%nat && bool_decide (head ds = Some 0) then None
       else if 2 ^ w <=? v then None
       else Some (v, rest).
(** [read_separator(sep, index, inner)]: the separator before every item but the first. *)
Definition read_separator {A} (sep : Ascii.ascii) (index : nat) (inner : parser A) : parser A :=
  λ s, match index with
       | O => inner s
       | S _ => '(_, s) ← given_char sep s; inner s
       end.
Fixpoint read_octets (n index : nat) : parser (list Z) :=
  λ s, match n with
       | O => Some ([], s)
       | S n =>
           '(o, s) ← read_separator "." index (read_number 10 3 false 8) s;
           '(os, s) ← read_octets n (S index) s;
           Some (o :: os, s)
       end.
Definition read_ipv4_addr : parser (list Z) := read_octets 4 0.
(** [read_groups]: the groups read, whether they end in an embedded IPv4 address. *)
Fixpoint read_groups (left index : nat) (s : string) : list Z * bool * string :=
  match left with
  | O => ([], false, s)
  | S left' =>
      let one :=
        match read_separator ":" index (read_number 16 4 true 16) s with
        | Some (g, s') => let '(gs, b, s') := read_groups left' (S index) s' in (g :: gs, b, s')
        | None => ([], false, s)
        end in
      match left' with
      | O => one
      | S _ =>
          match read_separator ":" index read_ipv4_addr s with
          | Some ([a; b; c; d], s') => ([a * 256 + b; c * 256 + d], true, s')
          | _ => one
          end
      end
  end.
Definition read_ipv6_addr : parser (list Z) :=
  λ s, let '(head, v4, s) := read_groups 8 0 s in
       if (length head =? 8)%nat then Some (head, s)
       else if v4 then None
       else '(_, s) ← given_char ":" s; '(_, s) ← given_char ":" s;
            let '(tail, _, s) := read_groups (8 - (length head + 1)) 0 s in
            Some (head ++ replicate (8 - length head - length tail) 0 ++ tail, s).
Definition all_read {A} (p : parser A) (s : string) : option A :=
  match p s with Some (a, EmptyString) => Some a | _ => None end.
End IpParser.

(** The first reader that reads the address consumes the input for good: an
    IPv4 prefix followed by more text is not tried again as IPv6. *)
Definition parse_ip (s : string) : option IpAddr :=
  match IpParser.read_ipv4_addr s with
  | Some (o, EmptyString) => Some (V4 o)
  | Some _ => None
  | None => V6 <$> IpParser.all_read IpParser.read_ipv6_addr s
  end.
Definition localhost : IpAddr := V4 [127; 0; 0; 1].

Example parse_ip_examples :
  parse_ip "10.0.0.255" = Some (V4 [10; 0; 0; 255]) ∧ parse_ip "10.0.0.256" = None ∧
  parse_ip "1.2.3" = None ∧ parse_ip "01.2.3.4" = None ∧
  parse_ip "::1" = Some (V6 [0; 0; 0; 0; 0; 0; 0; 1]) ∧
  parse_ip "2001:db8::ff" = Some (V6 [8193; 3512; 0; 0; 0; 0; 0; 255]) ∧
  parse_ip "::ffff:1.2.3.4" = Some (V6 [0; 0; 0; 0; 0; 65535; 258; 772]) ∧
  parse_ip "1:2:3:4:5:6:7:8" = Some (V6 [1; 2; 3; 4; 5; 6; 7; 8]) ∧ parse_ip "1:2" = None.
Proof. by vm_compute. Qed.

(** ** auth.rs *)
Inductive Role := Admin | Validator | User | ReadOnly.
#[export] Instance Role_eq_dec : EqDecision Role.
Proof. solve_decision. Defined.
Definition role_display (r : Role) : string :=
  match r with Admin => "admin" | Validator => "validator" | User => "user" | ReadOnly => "readonly" end.

Record Claims : Type := { cl_sub : string; cl_role : Role; cl_exp : Z; cl_iat : Z }.

(** jsonwebtoken: [encode] with a secret; [decode] with the secret at a time
    (in seconds), with [Validation::default()]. *)
Class Jwt := {
  jwt_encode : string → Claims → result string string;
  jwt_decode : string → Z → string → result string Claims
}.
(** Documented behaviour: a token decodes to the claims it was made from until
    60 seconds (the default leeway) after its [exp], and no token is accepted
    later than that. *)
Class JwtLaws `{Jwt} : Prop := {
  jwt_decode_encode s c t now : jwt_encode s c = Ok t → now - 60 ≤ cl_exp c → jwt_decode s now t = Ok c;
  jwt_decode_live s now t c : jwt_decode s now t = Ok c → now - 60 ≤ cl_exp c;
  (** the signature covers the claims *)
  jwt_decode_claims s c t now c' : jwt_encode s c = Ok t → jwt_decode s now t = Ok c' → c' = c
}.

(** What the middlewares read of a request: its headers (names in lower case,
    as [HeaderMap] keeps them), the peer's address where the server was set up
    to record it, and the claims put there by an earlier middleware. *)
Record Request : Type := {
  rq_headers : list (string * bytes);
  rq_connect_info : option IpAddr;
  rq_claims : option Claims
}.
Definition header (rq : Request) (name : string) : option bytes :=
  snd <$> List.find (λ h, bool_decide (h.1 = name)) (rq_headers rq).
(** [HeaderValue::to_str]: visible ASCII and tabs only. *)
Definition header_to_str (v : bytes) : option string :=
  if forallb (λ b, let n := byte_to_Z b in ((32 <=? n) && (n <? 127)) || (n =? 9)) v
  then Some (String.string_of_list_byte v) else None.
Definition header_str (rq : Request) (name : string) : option string :=
  v ← header rq name; header_to_str v.
Definition with_claims (rq : Request) (c : Claims) : Request := {|
  rq_headers := rq_headers rq; rq_connect_info := rq_connect_info rq; rq_claims := Some c |}.

Section Auth.
Context `{Jwt}.

Definition generate_token (config : AuthConfig) (subject : string) (role : Role) (now : Z)
    : result ApiError string :=
  let claims := {| cl_sub := subject; cl_role := role;
                   cl_exp := wadd 64 now (jwt_expiration_secs config); cl_iat := now |} in
  map_err (λ e, Internal ("Token generation failed: " +:+ e)) (jwt_encode (jwt_secret config) claims).

Definition validate_token (config : AuthConfig) (token : string) (now : Z) : result ApiError Claims :=
  map_err (λ e, Unauthorized ("Invalid token: " +:+ e)) (jwt_decode (jwt_secret config) now token).

Definition auth_middleware {R} (config : AuthConfig) (now : Z) (request : Request)
    (next : Request → result ApiError R) : result ApiError R :=
  auth_header ← ok_or (header_str request "authorization") (Unauthorized "Missing Authorization header");
  token ← ok_or (strip_prefix "Bearer " auth_header) (Unauthorized "Invalid Authorization header format");
  claims ← validate_token config token now;
  next (with_claims request claims).

Definition require_role {R} (required : Role) (request : Request)
    (next : Request → result ApiError R) : result ApiError R :=
  claims ← ok_or (rq_claims request) (Unauthorized "No authentication claims found");
  let authorized :=
    match required with
    | ReadOnly => true
    | User => bool_decide (cl_role claims ∈ [User; Validator; Admin])
    | Validator => bool_decide (cl_role claims ∈ [Validator; Admin])
    | Admin => bool_decide (cl_role claims = Admin)
    end in
  if negb authorized then
    Err (Forbidden ("Role '" +:+ role_display required +:+ "' required, but user has role '" +:+
                    role_display (cl_role claims) +:+ "'"))
  else next request.
End Auth.

(** The order of the roles that [require_role] implements. *)
Definition rank (r : Role) : Z := match r with ReadOnly => 0 | User => 1 | Validator => 2 | Admin => 3 end.

Section AuthProperties.
Context `{Jwt} `{!JwtLaws}.

Lemma require_role_rank {R} required rq c (next : Request → result ApiError R) :
  rq_claims rq = Some c →
  require_role required rq next =
    if rank required <=? rank (cl_role c) then next rq
    else Err (Forbidden ("Role '" +:+ role_display required +:+ "' required, but user has role '" +:+
                         role_display (cl_role c) +:+ "'")).
Proof. intros Hc. unfold require_role. rewrite Hc. destruct c as [sub role exp iat], required, role; by vm_compute. Qed.

Lemma auth_middleware_token {R} config now rq t (next : Request → result ApiError R) :
  header_str rq "authorization" = Some ("Bearer " +:+ t) →
  auth_middleware config now rq next =
    (c ← validate_token config t now; next (with_claims rq c)).
Proof. intros Hh. unfold auth_middleware. rewrite Hh. cbn [ok_or mbind result_bind]. by rewrite strip_prefix_app. Qed.

(** A token issued for a role lets its bearer through the authentication and role
    layers exactly to handlers that require at most that role, up to the expiry plus the
    validator's leeway; a higher role is refused as forbidden and an expired token as
    unauthorized. *)
Theorem token_grants_exactly_its_role {R} config subject role t0 now t required rq
    (next : Request → result ApiError R) :
  generate_token config subject role t0 = Ok t →
  in_u 64 (t0 + jwt_expiration_secs config) →
  header_str rq "authorization" = Some ("Bearer " +:+ t) →
  let stack := auth_middleware config now rq (λ rq', require_role required rq' next) in
  let c := {| cl_sub := subject; cl_role := role;
              cl_exp := t0 + jwt_expiration_secs config; cl_iat := t0 |} in
  (now ≤ t0 + jwt_expiration_secs config + 60 →
     stack = if rank required <=? rank role then next (with_claims rq c)
             else Err (Forbidden ("Role '" +:+ role_display required +:+ "' required, but user has role '" +:+
                                  role_display role +:+ "'"))) ∧
  (t0 + jwt_expiration_secs config + 60 < now → ∃ m, stack = Err (Unauthorized m)).
Proof.
  intros Hgen Hfit Hh stack c. subst stack. rewrite (auth_middleware_token _ _ _ _ _ Hh).
  unfold generate_token in Hgen. rewrite wadd_small in Hgen by done. fold c in Hgen.
  destruct (jwt_encode (jwt_secret config) c) as [t'|e] eqn:Henc; [|done]. simplify_eq/=.
  unfold validate_token. split; intros Hnow.
  - rewrite (jwt_decode_encode _ _ _ now Henc) by (simpl; lia). cbn [map_err mbind result_bind].
    by rewrite (require_role_rank _ _ c).
  - destruct (jwt_decode (jwt_secret config) now t) as [c'|e] eqn:Hdec; [|by eexists].
    rewrite (jwt_decode_claims _ _ _ _ _ Henc Hdec) in Hdec. apply jwt_decode_live in Hdec. simpl in Hdec. lia.
Qed.

(** Without a readable [Bearer] header the rest of the stack is not reached. *)
Lemma auth_middleware_no_token {R} config now rq (next : Request → result ApiError R) :
  (∀ t, header_str rq "authorization" ≠ Some ("Bearer " +:+ t)) →
  ∃ m, auth_middleware config now rq next = Err (Unauthorized m).
Proof.
  intros Hno. unfold auth_middleware. destruct (header_str rq "authorization") as [h|]; [|by eexists].
  cbn [ok_or mbind result_bind].
  destruct (strip_prefix "Bearer " h) as [t|] eqn:Hs; [|by eexists].
  apply strip_prefix_Some in Hs. subst. by destruct (Hno t).
Qed.
End AuthProperties.

(** ** rate_limit.rs *)
Record RateEntry : Type := { re_count : Z; re_last_reset : Z }.
Record RateLimiter : Type := { rl_config : RateLimitConfig; rl_buckets : gmap IpAddr RateEntry }.
Definition RateLimiter_new (config : RateLimitConfig) : RateLimiter :=
  {| rl_config := config; rl_buckets := ∅ |}.
Definition SECOND : Z := 1000000000.

Definition check (l : RateLimiter) (ip : IpAddr) (now : Z) : RateLimiter * bool :=
  let entry := default {| re_count := 0; re_last_reset := now |} (rl_buckets l !! ip) in
  (* [duration_since] saturates at zero *)
  let elapsed := Z.max 0 (now - re_last_reset entry) in
  let '(entry', allowed) :=
    if 1 <=? elapsed / SECOND then ({| re_count := 1; re_last_reset := now |}, true)
    else
      let count := wadd 32 (re_count entry) 1 in
      ({| re_count := count; re_last_reset := re_last_reset entry |},
       count <=? rl_burst_size (rl_config l)) in
  ({| rl_config := rl_config l; rl_buckets := <[ip := entry']> (rl_buckets l) |}, allowed).

Definition client_ip (rq : Request) : IpAddr :=
  match rq_connect_info rq with
  | Some ip => ip
  | None =>
      default localhost
        (s ← header_str rq "x-forwarded-for"; parse_ip (trim (before "," s)))
  end.

Definition rate_limit_middleware {S R} (l : RateLimiter) (rq : Request) (now : Z) (st : S)
    (next : S → Request → S * result ApiError R) : RateLimiter * S * result ApiError R :=
  let '(l, allowed) := check l (client_ip rq) now in
  if negb allowed then (l, st, Err RateLimit)
  else let '(st, r) := next st rq in (l, st, r).

(** A run of the limiter over requests, each an address and a time. *)
Fixpoint run_checks (l : RateLimiter) (reqs : list (IpAddr * Z)) : RateLimiter * list bool :=
  match reqs with
  | [] => (l, [])
  | (ip, now) :: reqs' =>
      let '(l, b) := check l ip now in
      let '(l, bs) := run_checks l reqs' in (l, b :: bs)
  end.
(** The accepted requests of [ip]. *)
Fixpoint accepted (ip : IpAddr) (reqs : list (IpAddr * Z)) (bs : list bool) : Z :=
  match reqs, bs with
  | (ip', _) :: reqs', b :: bs' =>
      (if b && bool_decide (ip' = ip) then 1 else 0) + accepted ip reqs' bs'
  | _, _ => 0
  end.

Section RateLimit.
Implicit Types (l : RateLimiter) (ip : IpAddr).

Lemma check_config l ip now : rl_config (check l ip now).1 = rl_config l.
Proof. unfold check. by repeat case_match. Qed.
Lemma check_other l ip ip' now :
  ip ≠ ip' → rl_buckets (check l ip now).1 !! ip' = rl_buckets l !! ip'.
Proof. intros Hn. unfold check. repeat case_match; simplify_eq/=; by rewrite lookup_insert_ne. Qed.

Lemma run_checks_app l r1 r2 :
  run_checks l (r1 ++ r2) =
    let '(l1, b1) := run_checks l r1 in let '(l2, b2) := run_checks l1 r2 in (l2, b1 ++ b2).
Proof.
  revert l. induction r1 as [|[ip now] r1 IH]; intros l; simpl; [by destruct (run_checks l r2)|].
  destruct (check l ip now) as [l1 b]. rewrite IH. destruct (run_checks l1 r1) as [l2 b1].
  by destruct (run_checks l2 r2).
Qed.
Lemma run_checks_config l reqs : rl_config (run_checks l reqs).1 = rl_config l.
Proof.
  revert l. induction reqs as [|[ip now] reqs IH]; intros l; simpl; [done|].
  destruct (check l ip now) as [l1 b] eqn:E. destruct (run_checks l1 reqs) eqn:E2. simpl.
  change (rl_config (r, l0).1 = rl_config l). rewrite <- E2, IH. by rewrite <- (check_config l ip now), E.
Qed.

(** The limiter admits [n] more requests of an address within the second. *)
Definition spare l ip (n : Z) : Prop :=
  let count := default 0 (re_count <$> rl_buckets l !! ip) in
  0 ≤ count ∧ count + n ≤ rl_burst_size (rl_config l) < 2 ^ 32.
Lemma spare_check l ip now n :
  0 ≤ n → spare l ip (n + 1) → (check l ip now).2 = true ∧ spare (check l ip now).1 ip n.
Proof.
  unfold spare, check. intros Hn. set (entry := default _ (rl_buckets l !! ip)).
  assert (default 0 (re_count <$> rl_buckets l !! ip) = re_count entry) as -> by (subst entry; by destruct (rl_buckets l !! ip)).
  intros [Hc Hb]. destruct (1 <=? _); cbn; rewrite lookup_insert_eq; cbn.
  - split; [done|lia].
  - rewrite wadd_small by (unfold in_u; lia). split; [apply Z.leb_le; lia|lia].
Qed.

(** The counter of a bucket is at most the requests seen so far. *)
Definition counts_le l (n : Z) : Prop :=
  map_Forall (λ _ e, 0 ≤ re_count e ≤ n) (rl_buckets l).
Lemma check_counts l ip now n :
  0 ≤ n < 2 ^ 32 - 1 → counts_le l n → counts_le (check l ip now).1 (n + 1).
Proof.
  intros Hn Hl ip' e. destruct (decide (ip = ip')) as [<-|Hne].
  - unfold check.
    assert (0 ≤ re_count (default {| re_count := 0; re_last_reset := now |} (rl_buckets l !! ip)) ≤ n) as Hc.
    { destruct (rl_buckets l !! ip) as [e0|] eqn:E; simpl; [by apply (Hl ip)|lia]. }
    repeat case_match; simplify_eq/=; rewrite lookup_insert_eq; intros [= <-]; simpl; [lia|].
    rewrite wadd_small by (unfold in_u; lia). lia.
  - rewrite check_other by done. intros He. specialize (Hl _ _ He). simpl in Hl. lia.
Qed.
Lemma run_checks_counts l reqs n :
  0 ≤ n → n + lenZ reqs < 2 ^ 32 → counts_le l n → counts_le (run_checks l reqs).1 (n + lenZ reqs).
Proof.
  revert l n. induction reqs as [|[ip now] reqs IH]; intros l n Hn Hlen Hl; simpl.
  - change (lenZ []) with 0. by rewrite Z.add_0_r.
  - assert (lenZ ((ip, now) :: reqs) = 1 + lenZ reqs) as Hc by (unfold lenZ; simpl; lia).
    rewrite Hc in Hlen |- *. assert (0 ≤ lenZ reqs) by (unfold lenZ; lia).
    apply (check_counts l ip now) in Hl; [|lia].
    destruct (check l ip now) as [l1 b]. specialize (IH l1 (n + 1)).
    destruct (run_checks l1 reqs) as [l2 bs]. simpl in *.
    replace (n + (1 + lenZ reqs)) with (n + 1 + lenZ reqs) by lia. apply IH; [lia|lia|done].
Qed.

Section Window.
Context (t : Z).
Implicit Types reqs : list (IpAddr * Z).
(** All requests fall into the second that starts at [t]. *)
Definition in_second reqs : Prop := Forall (λ r, t ≤ r.2 < t + SECOND) reqs.

Lemma elapsed_lt now r : t ≤ r → now < t + SECOND → (1 <=? Z.max 0 (now - r) / SECOND) = false.
Proof.
  unfold SECOND. intros Hr Hnow. apply Z.leb_gt. apply Z.div_lt_upper_bound; lia.
Qed.

Lemma check_in_window l ip now e :
  default {| re_count := 0; re_last_reset := now |} (rl_buckets l !! ip) = e →
  t ≤ re_last_reset e → now < t + SECOND → 0 ≤ re_count e < 2 ^ 32 - 1 →
  check l ip now =
    ({| rl_config := rl_config l;
        rl_buckets := <[ip := {| re_count := re_count e + 1; re_last_reset := re_last_reset e |}]> (rl_buckets l) |},
     re_count e + 1 <=? rl_burst_size (rl_config l)).
Proof.
  intros He Ht Hnow Hc. unfold check. rewrite He. cbv zeta. rewrite elapsed_lt by done.
  by rewrite wadd_small by (unfold in_u; lia).
Qed.

(** Once the bucket was reset within the second, what is left of the burst
    bounds the rest. *)
Lemma accepted_after_reset ip reqs l e :
  in_second reqs → rl_buckets l !! ip = Some e → t ≤ re_last_reset e →
  0 ≤ re_count e → re_count e + lenZ reqs < 2 ^ 32 →
  accepted ip reqs (run_checks l reqs).2 ≤ Z.max 0 (rl_burst_size (rl_config l) - re_count e).
Proof.
  revert l e. induction reqs as [|[ip' now] reqs IH]; intros l e Hin He Ht Hc Hlen; [simpl; lia|].
  assert (lenZ ((ip', now) :: reqs) = 1 + lenZ reqs) as Hl by (unfold lenZ; simpl; lia).
  assert (0 ≤ lenZ reqs) by (unfold lenZ; lia).
  apply Forall_cons in Hin as [Hnow Hin]. simpl in Hnow.
  cbn [run_checks]. pose proof (check_config l ip' now) as Hcfg.
  destruct (decide (ip' = ip)) as [->|Hne].
  - rewrite (check_in_window l ip now e) by (rewrite ?He; first [done|lia]).
    set (l1 := {| rl_config := _ |}) in *.
    specialize (IH l1 {| re_count := re_count e + 1; re_last_reset := re_last_reset e |} Hin).
    destruct (run_checks l1 reqs) as [l2 bs] eqn:E. cbn [accepted fst snd] in *.
    rewrite bool_decide_eq_true_2 by done. rewrite andb_true_r.
    specialize (IH ltac:(apply lookup_insert_eq) Ht ltac:(simpl; lia) ltac:(simpl; lia)). simpl in IH.
    destruct (Z.leb_spec (re_count e + 1) (rl_burst_size (rl_config l))); lia.
  - pose proof (check_other l ip' ip now Hne) as Hother.
    destruct (check l ip' now) as [l1 b]. simpl in Hcfg, Hother.
    specialize (IH l1 e Hin). destruct (run_checks l1 reqs) as [l2 bs]. cbn [accepted fst snd] in *.
    rewrite bool_decide_eq_false_2 by done. rewrite andb_false_r. rewrite Hcfg in IH.
    apply IH; [by rewrite Hother|lia..].
Qed.

Definition count_of l ip : Z := default 0 (re_count <$> rl_buckets l !! ip).
(** From any state: at most one reset can happen within the second. *)
Lemma accepted_in_second ip reqs l :
  in_second reqs → 0 ≤ count_of l ip → count_of l ip + lenZ reqs < 2 ^ 32 →
  accepted ip reqs (run_checks l reqs).2 ≤
    Z.max 0 (rl_burst_size (rl_config l) - count_of l ip) + Z.max 1 (rl_burst_size (rl_config l)).
Proof.
  revert l. induction reqs as [|[ip' now] reqs IH]; intros l Hin Hc Hlen; [simpl; lia|].
  assert (lenZ ((ip', now) :: reqs) = 1 + lenZ reqs) as Hl by (unfold lenZ; simpl; lia).
  assert (0 ≤ lenZ reqs) by (unfold lenZ; lia).
  apply Forall_cons in Hin as [Hnow Hin]. simpl in Hnow. cbn [run_checks].
  destruct (decide (ip' = ip)) as [->|Hne].
  2: { pose proof (check_other l ip' ip now Hne) as Hother. pose proof (check_config l ip' now) as Hcfg.
    destruct (check l ip' now) as [l1 b]. simpl in Hcfg, Hother. specialize (IH l1 Hin).
    destruct (run_checks l1 reqs) as [l2 bs]. cbn [accepted fst snd] in *.
    rewrite bool_decide_eq_false_2 by done. rewrite andb_false_r.
    unfold count_of in *. rewrite Hother, Hcfg in IH. lia. }
  destruct (check l ip now) as [l1 b] eqn:Hchk. unfold check in Hchk. cbv zeta in Hchk.
  set (e := default _ _) in Hchk.
  assert (re_count e = count_of l ip) as He.
  { subst e. unfold count_of. by destruct (rl_buckets l !! ip). }
  destruct (1 <=? _) eqn:Hreset in Hchk.
  - (* the bucket is reset now *)
    simplify_eq. pose proof (accepted_after_reset ip reqs
      {| rl_config := rl_config l; rl_buckets := <[ip := {| re_count := 1; re_last_reset := now |}]> (rl_buckets l) |}
      _ Hin (lookup_insert_eq _ _ _) ltac:(simpl; lia) ltac:(simpl; lia) ltac:(simpl; lia)) as Hrest.
    destruct (run_checks _ reqs) as [l2 bs]. cbn [accepted fst snd rl_config re_count] in *.
    rewrite bool_decide_eq_true_2 by done. cbv beta iota delta [andb]. lia.
  - rewrite He, wadd_small in Hchk by (unfold in_u; lia). simplify_eq.
    match goal with |- context [run_checks ?l1 reqs] =>
      assert (count_of l1 ip = count_of l ip + 1) as Hc1; [|specialize (IH l1 Hin ltac:(lia) ltac:(lia))] end.
    { unfold count_of at 1. cbn [rl_buckets]. by rewrite lookup_insert_eq. }
    rewrite Hc1 in IH. destruct (run_checks _ reqs) as [l2 bs]. cbn [accepted fst snd rl_config] in *.
    rewrite bool_decide_eq_true_2 by done. rewrite andb_true_r.
    destruct (Z.leb_spec (count_of l ip + 1) (rl_burst_size (rl_config l))); lia.
Qed.
End Window.

(** C30: Whatever requests came before, within any second the requests that are counted
    under one address (the key the limiter derives from a request) get past the rate limiter
    at most twice the larger of one and the configured burst size of times (twice, since the
    window restarts), as long as the counter sees fewer than 2^32 requests. It is a bound
    per key and not per client: a client chooses its key by X-Forwarded-For
    (forwarded_header_evades_limit). *)
Theorem rate_limit_bound config before during ip t :
  lenZ before + lenZ during < 2 ^ 32 → in_second t during →
  let '(l, _) := run_checks (RateLimiter_new config) before in
  accepted ip during (run_checks l during).2 ≤ 2 * Z.max 1 (rl_burst_size config).
Proof.
  intros Hlen Hin. assert (0 ≤ lenZ during ∧ 0 ≤ lenZ before) as [Hd Hb] by (unfold lenZ; lia).
  pose proof (run_checks_counts (RateLimiter_new config) before 0 ltac:(done) ltac:(lia)
                (map_Forall_empty _)) as Hcnt.
  pose proof (run_checks_config (RateLimiter_new config) before) as Hcfg.
  destruct (run_checks (RateLimiter_new config) before) as [l bs]. simpl in Hcnt, Hcfg.
  assert (0 ≤ count_of l ip ≤ lenZ before) as Hc.
  { unfold count_of. destruct (rl_buckets l !! ip) as [e|] eqn:E; simpl; [|lia]. by apply (Hcnt ip). }
  pose proof (accepted_in_second t ip during l Hin ltac:(lia) ltac:(lia)) as Hacc.
  rewrite Hcfg in Hacc. lia.
Qed.

(** An address seen for the first time is let through, whatever the others did. *)
Lemma check_fresh l ip now :
  rl_buckets l !! ip = None → 1 ≤ rl_burst_size (rl_config l) → (check l ip now).2 = true.
Proof.
  intros Hf Hb. unfold check. rewrite Hf. cbn [default]. rewrite Z.sub_diag. simpl. by apply Z.leb_le.
Qed.
Lemma run_checks_distinct l reqs :
  1 ≤ rl_burst_size (rl_config l) → NoDup reqs.*1 → (∀ ip, ip ∈ reqs.*1 → rl_buckets l !! ip = None) →
  Forall (λ b, b = true) (run_checks l reqs).2.
Proof.
  revert l. induction reqs as [|[ip now] reqs IH]; intros l Hb Hnd Hf; simpl; [done|].
  apply NoDup_cons in Hnd as [Hni Hnd].
  pose proof (check_fresh l ip now (Hf ip ltac:(left)) Hb) as Hc.
  pose proof (check_config l ip now) as Hcfg.
  pose proof (λ ip' Hne, check_other l ip ip' now Hne) as Ho.
  destruct (check l ip now) as [l1 b]. simpl in Hc, Hcfg, Ho. subst b.
  specialize (IH l1). destruct (run_checks l1 reqs) as [l2 bs]. simpl in *.
  constructor; [done|]. apply IH; [by rewrite Hcfg|done|]. intros ip' Hin.
  rewrite Ho by (intros ->; done). apply Hf. by right.
Qed.
End RateLimit.

(** The address in the header of a request is the client's own choice: the
    server keeps no peer address ([rq_connect_info] is [None]). *)
Definition forwarded (text : string) : Request := {|
  rq_headers := [("x-forwarded-for"%string, b_ text)]; rq_connect_info := None; rq_claims := None |}.
(** A client that names a new address in the forwarding header of each request is never
    limited. *)
Theorem forwarded_header_evades_limit config (texts : list string) now :
  1 ≤ rl_burst_size config → NoDup (client_ip ∘ forwarded <$> texts) →
  Forall (λ b, b = true)
    (run_checks (RateLimiter_new config) ((λ s, (client_ip (forwarded s), now)) <$> texts)).2.
Proof.
  intros Hb Hnd. apply run_checks_distinct; [done| |done].
  rewrite <- list_fmap_compose. done.
Qed.

(** ** A concrete token scheme, for the witnesses: the secret, then the claims
    as a number *)
Module ToyJwt.
Definition role_of (n : Z) : Role := if n =? 0 then ReadOnly else if n =? 1 then User else if n =? 2 then Validator else Admin.
Definition claims_tuple (c : Claims) : string * Z * Z * Z := (cl_sub c, rank (cl_role c), cl_exp c, cl_iat c).
Definition claims_of (t : string * Z * Z * Z) : Claims :=
  let '(sub, r, e, i) := t in {| cl_sub := sub; cl_role := role_of r; cl_exp := e; cl_iat := i |}.
Lemma claims_of_tuple c : claims_of (claims_tuple c) = c.
Proof. by destruct c as [sub [] e i]. Qed.
Definition toy_decode (s : string) (now : Z) (t : string) : result string Claims :=
  match (rest ← strip_prefix (s +:+ ".") t; z ← decimal 0 rest; decode (Z.to_pos z)) with
  | Some tu =>
      let c := claims_of tu in
      if now - 60 <=? cl_exp c then Ok c else Err "ExpiredSignature"%string
  | None => Err "InvalidToken"%string
  end.
#[export] Instance toy_jwt : Jwt := {|
  jwt_encode s c := Ok (s +:+ "." +:+ pretty (Z.pos (encode (claims_tuple c))));
  jwt_decode := toy_decode |}.
Lemma toy_decode_encode s c now t :
  jwt_encode s c = Ok t →
  toy_decode s now t = if now - 60 <=? cl_exp c then Ok c else Err "ExpiredSignature"%string.
Proof.
  intros [= <-]. unfold toy_decode. rewrite append_assoc, strip_prefix_app. cbn [mbind option_bind].
  change (pretty (Z.pos ?p)) with (pretty_N_go (N.pos p) "").
  rewrite decimal_pretty_go. cbn -[claims_of claims_tuple decode encode]. rewrite decode_encode.
  by rewrite claims_of_tuple.
Qed.
#[export] Instance toy_jwt_laws : JwtLaws.
Proof.
  split.
  - intros s c t now He Hl. cbn. rewrite (toy_decode_encode _ _ _ _ He). by rewrite (proj2 (Z.leb_le _ _)).
  - intros s now t c. cbn. unfold toy_decode. case_match; [|done]. case_match eqn:E; [|done].
    intros [= <-]. by apply Z.leb_le in E.
  - intros s c t now c' He. cbn. rewrite (toy_decode_encode _ _ _ _ He). case_match; [|done]. by intros [= ->].
Qed.

Definition token : string :=
  match generate_token AuthConfig_default "alice" Validator 1000 with Ok t => t | Err _ => "" end.
Definition bearer : Request := {|
  rq_headers := [("authorization"%string, b_ ("Bearer " +:+ token))]; rq_connect_info := None; rq_claims := None |}.
Lemma token_grants_exactly_its_role_witness :
  auth_middleware AuthConfig_default 4660 bearer
    (λ rq, require_role User rq (λ rq', Ok (default "" (cl_sub <$> rq_claims rq')))) = Ok "alice"%string ∧
  is_err (auth_middleware AuthConfig_default 4660 bearer
    (λ rq, require_role Admin rq (λ rq', Ok (cl_sub <$> rq_claims rq')))) = true ∧
  (∃ m, auth_middleware AuthConfig_default 4661 bearer
    (λ rq, require_role User rq (λ rq', Ok (cl_sub <$> rq_claims rq'))) = Err (Unauthorized m)).
Proof.
  assert (header_str bearer "authorization" = Some ("Bearer " +:+ token)) as Hh by by vm_compute.
  assert (generate_token AuthConfig_default "alice" Validator 1000 = Ok token) as Hg by by vm_compute.
  assert (in_u 64 (1000 + jwt_expiration_secs AuthConfig_default)) as Hu by (cbn [jwt_expiration_secs AuthConfig_default]; unfold in_u; lia).
  split_and!.
  - refine (eq_trans (proj1 (token_grants_exactly_its_role AuthConfig_default "alice" Validator 1000 4660
      token User bearer (λ rq', Ok (default "" (cl_sub <$> rq_claims rq'))) Hg Hu Hh) _) _); [by vm_compute|].
    by vm_compute.
  - refine (eq_trans (f_equal is_err (proj1 (token_grants_exactly_its_role AuthConfig_default "alice" Validator
      1000 4660 token Admin bearer (λ rq', Ok (cl_sub <$> rq_claims rq')) Hg Hu Hh) _)) _); [by vm_compute|].
    by vm_compute.
  - refine (proj2 (token_grants_exactly_its_role AuthConfig_default "alice" Validator 1000 4661
      token User bearer (λ rq', Ok (cl_sub <$> rq_claims rq')) Hg Hu Hh) _). by vm_compute.
Defined.

Definition lim : RateLimitConfig := {| rl_requests_per_second := 1; rl_burst_size := 2 |}.
(** Four requests within one second, across the end of a window: three pass,
    one more than the burst size. *)
Definition burst : list (IpAddr * Z) :=
  [(localhost, SECOND - 1); (localhost, SECOND); (localhost, SECOND + 1); (localhost, SECOND + 2)].
Lemma rate_limit_bound_witness :
  let '(l, _) := run_checks (RateLimiter_new lim) [(localhost, 0)] in
  accepted localhost burst (run_checks l burst).2 = 3 ∧
  accepted localhost burst (run_checks l burst).2 ≤ 4.
Proof.
  split; [by vm_compute|].
  exact (rate_limit_bound lim [(localhost, 0)] burst localhost (SECOND - 1) ltac:(by vm_compute)
           ltac:(repeat constructor; by vm_compute)).
Defined.
Lemma forwarded_header_evades_limit_witness :
  (run_checks (RateLimiter_new lim)
     ((λ s, (client_ip (forwarded s), 5)) <$> ["10.0.0.1"; "10.0.0.2"; "10.0.0.3, 1.1.1.1"; "::1"]%string)).2
  = [true; true; true; true].
Proof.
  pose proof (forwarded_header_evades_limit lim ["10.0.0.1"; "10.0.0.2"; "10.0.0.3, 1.1.1.1"; "::1"]%string 5
    ltac:(by vm_compute) ltac:(by apply (bool_decide_eq_true_1 _); vm_compute)) as Hall.
  by vm_compute.
Defined.
End ToyJwt.
