(* ===== verification/ApiRoutes.v ===== *)
(** * ApiRoutes: the chain's request handlers (crates/api/src/routes: blocks,
    transactions, accounts, chain, health, receipts, contracts, validators; and
    the [AppState] of lib.rs)

    The server's storage handle is the one inside the consensus engine's chain
    state: the node hands both components the same database.  Handlers that
    only read return a result; [submit_transaction] also returns the new state. *)

From S2P Require Import Prelude Crypto Merkle CoreTypes Validators Storage Vm Consensus Finality TxPool ChainState Engine BridgeTypes Text ApiTypes.

Record AppState (D : Type) `{Wasmtime} : Type := {
  app_consensus : ConsensusEngine D;
  app_auth_config : AuthConfig
}.
Arguments app_consensus {D _}.
Arguments app_auth_config {D _}.

(** DTOs of the routes *)
Record BalanceResponse : Type := { br_address : string; br_balance : string }.
Record ChainStatus : Type := {
  cs_height : Z; cs_finalized_height : Z; cs_pending_transactions : nat; cs_syncing : bool
}.
Record HealthResponse : Type := { hr_status : string; hr_version : string }.
Record ReadyResponse : Type := { rr_ready : bool; rr_storage_ok : bool; rr_consensus_ok : bool }.
Record ReceiptDto : Type := {
  rd_tx_hash : string;
  rd_block_number : Z;
  rd_block_hash : string;
  rd_index : Z;
  rd_status : string;
  rd_gas_used : Z;
  rd_logs_count : nat;
  rd_contract_address : option string;
  rd_return_data : string
}.
Record ContractInfoDto : Type := {
  ct_address : string; ct_balance : string; ct_code_hash : string; ct_nonce : Z
}.
Record StorageValueDto : Type := { sv_key : string; sv_value : string }.
Record PaginationParams : Type := { pg_page : Z; pg_per_page : Z }.
Definition default_page : Z := 1.
Definition default_per_page : Z := 20.

Definition parse_tx_type (s : string) : result ApiError TxType :=
  let l := str_to_lowercase s in
  if one_of l ["transfer"] then Ok Transfer
  else if one_of l ["contractdeploy"; "contract_deploy"] then Ok ContractDeploy
  else if one_of l ["contractcall"; "contract_call"] then Ok ContractCall
  else if one_of l ["stake"] then Ok Stake
  else if one_of l ["unstake"] then Ok Unstake
  else Err (BadRequest ("Unknown tx_type: " +:+ l)).

(** [env!("CARGO_PKG_VERSION")] of the workspace. *)
Definition CARGO_PKG_VERSION : string := "0.1.0".

Section Handlers.
Context `{CryptoPrims} `{Wasmtime} {D : Type} `{RocksDB D}.
Context `{Bincode Transaction} `{Bincode BlockHeader} `{Bincode Block} `{Bincode Z} `{Bincode Account}
  `{Bincode SignedTransaction} `{Bincode (Z * U32)} `{Bincode TransactionReceipt}
  `{Bincode ValidatorInfo} `{Bincode EpochInfo}.
#[local] Existing Instance rocks_store.
Implicit Types (st : AppState D) (d : D).

Definition app_storage st : D := cst_storage (en_chain_state (app_consensus st)).
Definition app_chain_info st : ChainInfo := chain_info (app_consensus st).
Definition set_consensus st (e : ConsensusEngine D) : AppState D :=
  {| app_consensus := e; app_auth_config := app_auth_config st |}.
(** [storage.call(..)?] in a handler *)
Definition storage_try {A} (r : result StorageError A) : result ApiError A := map_err from_storage_error r.

(** ** blocks.rs *)
(** The loop of [list_blocks] from index [i], [n] rounds before [per_page]. *)
Fixpoint list_blocks_loop d (start i : Z) (n : nat) : result ApiError (list BlockDto) :=
  match n with
  | O => Ok []
  | S n' =>
      if start <? i then Ok []
      else
        r ← storage_try (get_block_by_number d (start - i));
        rest ← list_blocks_loop d start (i + 1) n';
        Ok (match r with Some b => BlockDto_from b :: rest | None => rest end)
  end.
Definition list_blocks st (params : PaginationParams) : result ApiError (ApiResponse (list BlockDto)) :=
  let height := ci_height (app_chain_info st) in
  let per_page := Z.min (Z.max (pg_per_page params) 1) 100 in
  let page := Z.max (pg_page params) 1 in
  let start := sat_sub height (wmul 64 (page - 1) per_page) in
  blocks ← list_blocks_loop (app_storage st) start 0 (Z.to_nat per_page);
  Ok (ApiResponse_ok blocks).

Definition get_latest_block_route st : result ApiError (ApiResponse BlockDto) :=
  r ← storage_try (get_latest_block (app_storage st));
  b ← ok_or r (ApiNotFound "No blocks in chain");
  Ok (ApiResponse_ok (BlockDto_from b)).

Definition get_block_route st (id : string) : result ApiError (ApiResponse BlockDto) :=
  r ← match parse_uint 64 id with
      | Some number => storage_try (get_block_by_number (app_storage st) number)
      | None =>
          h ← map_err (λ _, BadRequest ("Invalid block identifier: " +:+ id)) (Blake3Hash_from_hex id);
          storage_try (get_block_by_hash (app_storage st) h)
      end;
  b ← ok_or r (ApiNotFound ("Block not found: " +:+ id));
  Ok (ApiResponse_ok (BlockDto_from b)).

(** ** transactions.rs *)
Definition get_transaction_route st (hash_str : string) : result ApiError (ApiResponse TransactionDto) :=
  h ← map_err (λ _, BadRequest ("Invalid transaction hash: " +:+ hash_str)) (Blake3Hash_from_hex hash_str);
  r ← storage_try (get_transaction (app_storage st) h);
  tx ← ok_or r (ApiNotFound ("Transaction not found: " +:+ hash_str));
  Ok (ApiResponse_ok (TransactionDto_from tx)).

Definition bad_request {A} (what : string) (r : result CryptoError A) : result ApiError A :=
  map_err (λ e, BadRequest (what +:+ crypto_error_display e)) r.
(** [hex::decode(s.strip_prefix("0x").unwrap_or(s))] *)
Definition decode_hex_arg (what s : string) : result ApiError bytes :=
  map_err (λ e, BadRequest (what +:+ e)) (hex_dec (strip_0x s)).

(** The transaction a request stands for. *)
Definition parse_request (req : SubmitTransactionRequest) : result ApiError SignedTransaction :=
  from ← bad_request "Invalid from address: " (Address_from_hex (sr_from req));
  to ← bad_request "Invalid to address: "
         (match sr_to req with
          | Some s => a ← Address_from_hex s; Ok (Some a)
          | None => Ok None
          end);
  value ← ok_or (parse_uint 128 (sr_value req)) (BadRequest "Invalid value: must be a u128 integer");
  tx_type ← parse_tx_type (sr_tx_type req);
  data ← decode_hex_arg "Invalid hex data: " (sr_data req);
  pk ← bad_request "Invalid public key: " (PublicKey_from_hex (sr_public_key req));
  signature ← bad_request "Invalid signature: " (Signature_from_hex (sr_signature req));
  let tx := {| tx_chain_id := sr_chain_id req; tx_nonce := sr_nonce req; tx_from := from; tx_to := to;
               tx_value := value; tx_tx_type := tx_type; tx_gas_limit := sr_gas_limit req;
               tx_gas_price := sr_gas_price req; tx_data := data; tx_timestamp := sr_timestamp req |} in
  Ok {| stx_transaction := tx; stx_public_key := pk; stx_signature := signature;
        stx_tx_hash := hash (bincode_ser tx ++ ba_bytes signature) |}.

Definition verify_failed (e : CoreError) : ApiError :=
  BadRequest ("Transaction verification failed: " +:+ core_error_display e).

Definition submit_transaction st (req : SubmitTransactionRequest) (now : Z)
    : AppState D * result ApiError (ApiResponse SubmitTransactionResponse) :=
  match (signed ← parse_request req; _ ← map_err verify_failed (stx_verify signed); Ok signed) with
  | Err e => (st, Err e)
  | Ok signed =>
      let '(e, r) := on_transaction_received (app_consensus st) signed now in
      (set_consensus st e,
       match r with
       | Err err => Err (from_consensus_error err)
       | Ok _ => Ok (ApiResponse_ok {| str_tx_hash := Blake3Hash_display (stx_tx_hash signed) |})
       end)
  end.

(** ** accounts.rs *)
Definition get_account_route st (addr_str : string) : result ApiError (ApiResponse AccountDto) :=
  address ← bad_request "Invalid address: " (Address_from_hex addr_str);
  r ← storage_try (get_account (app_storage st) address);
  acc ← ok_or r (ApiNotFound ("Account not found: " +:+ addr_str));
  Ok (ApiResponse_ok (AccountDto_from acc)).
Definition get_balance_route st (addr_str : string) : result ApiError (ApiResponse BalanceResponse) :=
  address ← bad_request "Invalid address: " (Address_from_hex addr_str);
  balance ← storage_try (db_get_balance (app_storage st) address);
  Ok (ApiResponse_ok {| br_address := Address_to_hex address; br_balance := z_str balance |}).

(** ** chain.rs, health.rs *)
Definition chain_info_route st : result ApiError (ApiResponse ChainInfoDto) :=
  Ok (ApiResponse_ok (ChainInfoDto_from (app_chain_info st))).
Definition chain_status st : result ApiError (ApiResponse ChainStatus) :=
  let info := app_chain_info st in
  Ok (ApiResponse_ok {| cs_height := ci_height info; cs_finalized_height := ci_finalized_height info;
                        cs_pending_transactions := ci_pending_transactions info; cs_syncing := false |}).
Definition health : result ApiError (ApiResponse HealthResponse) :=
  Ok (ApiResponse_ok {| hr_status := "ok"; hr_version := CARGO_PKG_VERSION |}).
Definition readiness st : result ApiError (ApiResponse ReadyResponse) :=
  let storage_ok := is_ok (get_chain_height (app_storage st)) in
  let info := app_chain_info st in
  let consensus_ok := (0 <? ci_height info) || (0 <? ci_active_validators info)%nat in
  Ok (ApiResponse_ok {| rr_ready := storage_ok && consensus_ok; rr_storage_ok := storage_ok;
                        rr_consensus_ok := consensus_ok |}).

(** ** receipts.rs *)
Definition ReceiptDto_from (r : TransactionReceipt) : ReceiptDto := {|
  rd_tx_hash := Blake3Hash_display (rc_tx_hash r); rd_block_number := rc_block_number r;
  rd_block_hash := Blake3Hash_display (rc_block_hash r); rd_index := rc_index r;
  rd_status := tx_status_debug (rc_status r); rd_gas_used := rc_gas_used r;
  rd_logs_count := length (rc_logs r); rd_contract_address := Address_to_hex <$> rc_contract_address r;
  rd_return_data := hex_enc (rc_return_data r) |}.
Definition get_receipt_route st (hash_str : string) : result ApiError (ApiResponse ReceiptDto) :=
  h ← map_err (λ _, BadRequest ("Invalid hash: " +:+ hash_str)) (Blake3Hash_from_hex hash_str);
  r ← storage_try (get_receipt (app_storage st) h);
  receipt ← ok_or r (ApiNotFound ("Receipt not found: " +:+ hash_str));
  Ok (ApiResponse_ok (ReceiptDto_from receipt)).

(** ** contracts.rs *)
Definition contract_account st (addr_str : string) : result ApiError (Address * Account * Blake3Hash) :=
  addr ← bad_request "Invalid address: " (Address_from_hex addr_str);
  r ← storage_try (get_account (app_storage st) addr);
  account ← ok_or r (ApiNotFound ("Account not found: " +:+ addr_str));
  code_hash ← ok_or (acc_code_hash account) (ApiNotFound "Not a contract account");
  Ok (addr, account, code_hash).
Definition get_contract_info st (addr_str : string) : result ApiError (ApiResponse ContractInfoDto) :=
  '(addr, account, code_hash) ← contract_account st addr_str;
  Ok (ApiResponse_ok {| ct_address := Address_to_hex addr; ct_balance := z_str (acc_balance account);
                        ct_code_hash := Blake3Hash_display code_hash; ct_nonce := acc_nonce account |}).
Definition get_contract_storage_route st (addr_str key_hex : string)
    : result ApiError (ApiResponse StorageValueDto) :=
  addr ← bad_request "Invalid address: " (Address_from_hex addr_str);
  key ← decode_hex_arg "Invalid hex key: " key_hex;
  r ← storage_try (get_contract_storage (app_storage st) addr key);
  value ← ok_or r (ApiNotFound "Storage key not found");
  Ok (ApiResponse_ok {| sv_key := hex_enc key; sv_value := hex_enc value |}).
Definition get_contract_code_route st (addr_str : string) : result ApiError (ApiResponse Json) :=
  '(addr, account, code_hash) ← contract_account st addr_str;
  r ← storage_try (get_contract_code (app_storage st) code_hash);
  code ← ok_or r (ApiNotFound "Contract code not found");
  Ok (ApiResponse_ok (JObj [("code_hash"%string, JStr (Blake3Hash_display code_hash));
                            ("code_size"%string, JNum (lenZ code));
                            ("code"%string, JStr (hex_enc code))])).

(** ** validators.rs *)
Definition list_validators st : result ApiError (ApiResponse (list ValidatorDto)) :=
  let epoch := cst_current_epoch (en_chain_state (app_consensus st)) in
  Ok (ApiResponse_ok (ValidatorDto_from <$> vs_validators (ep_validator_set epoch))).
End Handlers.

(** ** Properties *)
Section RouteProperties.
Context `{CryptoPrims} `{!CryptoLaws} `{Wasmtime} {D : Type} `{RocksDB D}.
Context `{Bincode Transaction} `{Bincode BlockHeader} `{Bincode Block} `{Bincode Z} `{Bincode Account}
  `{Bincode SignedTransaction} `{Bincode (Z * U32)} `{Bincode TransactionReceipt}
  `{Bincode ValidatorInfo} `{Bincode EpochInfo}.
#[local] Existing Instance rocks_store.
Implicit Types (st : AppState D) (d : D).

(** *** Pagination *)
(** The block numbers of a chain, newest first: [h, h-1, .., 0]. *)
Definition newest_first (h : Z) : list Z := (λ i, h - Z.of_nat i) <$> seq 0 (Z.to_nat (h + 1)).

Lemma list_blocks_loop_numbers d (blk : Z → Block) start i n :
  0 ≤ i → (∀ k, 0 ≤ k ≤ start - i → get_block_by_number d k = Ok (Some (blk k))) →
  list_blocks_loop d start i n =
    Ok (BlockDto_from ∘ blk <$> take n (newest_first (start - i))).
Proof.
  revert i. induction n as [|n IH]; intros i Hi Hblk; [done|]. cbn [list_blocks_loop].
  unfold newest_first. destruct (Z.ltb_spec start i).
  { by rewrite (Z2Nat.nonpos (start - i + 1)) by lia. }
  rewrite Hblk by lia. cbn [storage_try map_err mbind result_bind].
  rewrite IH; [|lia|intros k Hk; apply Hblk; lia]. cbn [mbind result_bind].
  replace (Z.to_nat (start - i + 1)) with (S (Z.to_nat (start - i))) by lia.
  cbn [seq fmap list_fmap take compose]. rewrite Z.sub_0_r. do 2 f_equal.
  rewrite <- seq_shift, <- list_fmap_compose. unfold newest_first.
  replace (start - (i + 1) + 1) with (start - i) by lia.
  do 2 f_equal. apply list_fmap_ext. intros j x _. simpl. lia.
Qed.

Lemma drop_newest_first h m : 0 ≤ m ≤ h → drop (Z.to_nat m) (newest_first h) = newest_first (h - m).
Proof.
  intros Hm. unfold newest_first. rewrite <- fmap_drop, drop_seq.
  replace (Z.to_nat (h + 1) - Z.to_nat m)%nat with (Z.to_nat (h - m + 1)) by lia.
  apply list_eq. intros i. rewrite !list_lookup_fmap.
  destruct (decide (i < Z.to_nat (h - m + 1))%nat) as [Hi|Hi].
  - rewrite !lookup_seq_lt by lia. simpl. f_equal. lia.
  - rewrite !lookup_seq_ge by lia. done.
Qed.

(** Pages of the block list: the blocks from the page's start downwards, at most the
    clamped page size of them; a page past the end starts at block 0 again. *)
Theorem list_blocks_pages st (blk : Z → Block) (page per_page : Z) :
  let height := ci_height (app_chain_info st) in
  0 ≤ height → 1 ≤ page → 1 ≤ per_page ≤ 100 → (page - 1) * per_page < 2 ^ 64 →
  (∀ k, 0 ≤ k ≤ height → get_block_by_number (app_storage st) k = Ok (Some (blk k))) →
  list_blocks st {| pg_page := page; pg_per_page := per_page |} =
    Ok (ApiResponse_ok (BlockDto_from ∘ blk <$>
      if (page - 1) * per_page <=? height
      then take (Z.to_nat per_page) (drop (Z.to_nat ((page - 1) * per_page)) (newest_first height))
      else [0])).
Proof.
  intros height Hh Hp Hpp Hfit Hblk. unfold list_blocks. cbn [pg_page pg_per_page].
  rewrite (Z.max_l per_page 1), (Z.min_l per_page 100), (Z.max_l page 1) by lia. fold height.
  assert (0 ≤ (page - 1) * per_page) by nia.
  rewrite wmul_small by (unfold in_u; lia). unfold sat_sub.
  rewrite (list_blocks_loop_numbers _ blk) by (try lia; intros k Hk; apply Hblk; lia).
  cbn [mbind result_bind]. rewrite Z.sub_0_r. do 3 f_equal.
  destruct (Z.leb_spec ((page - 1) * per_page) height).
  - by rewrite Z.max_r, drop_newest_first by lia.
  - rewrite Z.max_l by lia. destruct (Z.to_nat per_page) as [|n] eqn:E; [lia|]. by destruct n.
Qed.

(** *** Submitting *)
(** The strings of a request name the fields of a signed transaction. *)
Definition describes (req : SubmitTransactionRequest) (t : SignedTransaction) : Prop :=
  let tx := stx_transaction t in
  sr_chain_id req = tx_chain_id tx ∧ sr_nonce req = tx_nonce tx ∧
  Address_from_hex (sr_from req) = Ok (tx_from tx) ∧
  (match sr_to req with Some s => Some <$> Address_from_hex s | None => Ok None end) = Ok (tx_to tx) ∧
  sr_value req = z_str (tx_value tx) ∧ sr_tx_type req = tx_type_debug (tx_tx_type tx) ∧
  sr_gas_limit req = tx_gas_limit tx ∧ sr_gas_price req = tx_gas_price tx ∧
  sr_data req = hex_enc (tx_data tx) ∧ sr_timestamp req = tx_timestamp tx ∧
  sr_public_key req = PublicKey_to_hex (stx_public_key t) ∧
  sr_signature req = Signature_to_hex (stx_signature t).

Lemma parse_tx_type_debug t : parse_tx_type (tx_type_debug t) = Ok t.
Proof. by destruct t; vm_compute. Qed.

Lemma array_from_hex_enc n (a : barray n) : array_from_hex n (hex_enc (ba_bytes a)) = Ok a.
Proof. exact (array_from_hex_encode n a false). Qed.
Lemma parse_request_describes req t :
  describes req t → in_u 128 (tx_value (stx_transaction t)) →
  stx_tx_hash t = hash (bincode_ser (stx_transaction t) ++ ba_bytes (stx_signature t)) →
  parse_request req = Ok t.
Proof.
  intros (Hc & Hn & Hf & Hto & Hv & Hty & Hgl & Hgp & Hd & Hts & Hpk & Hs) Hval Hhash.
  unfold parse_request, bad_request, decode_hex_arg.
  rewrite Hf. cbn [map_err mbind result_bind].
  assert (match sr_to req with Some s => a ← Address_from_hex s; Ok (Some a) | None => Ok None end
          = Ok (tx_to (stx_transaction t))) as ->.
  { rewrite <- Hto. destruct (sr_to req) as [s|]; [|done]. by destruct (Address_from_hex s). }
  cbn [map_err mbind result_bind]. rewrite Hv, parse_uint_print by done. cbn [ok_or mbind result_bind].
  rewrite Hty, parse_tx_type_debug. cbn [mbind result_bind].
  rewrite Hd, hex_enc_no_prefix, hex_dec_enc. cbn [map_err mbind result_bind].
  unfold PublicKey_from_hex, Signature_from_hex. rewrite Hpk, Hs. unfold PublicKey_to_hex, Signature_to_hex.
  rewrite !array_from_hex_enc.
  cbn [map_err mbind result_bind]. rewrite Hc, Hn, Hgl, Hgp, Hts.
  destruct t as [[] pk sg h]. cbn in *. by rewrite Hhash.
Qed.

(** What [on_transaction_received] leaves. *)
Lemma on_transaction_received_cases (e : ConsensusEngine D) t now e' r :
  on_transaction_received e t now = (e', r) →
  en_chain_state e' = en_chain_state e ∧ en_finality e' = en_finality e ∧
  match r with
  | Ok _ => tp_pending (en_tx_pool e') !! stx_tx_hash t =
              Some {| pt_tx := t; pt_added_at := now; pt_gas_price := price_of t |} ∧
            tp_pending (en_tx_pool e) !! stx_tx_hash t = None ∧ stx_verify t = Ok () ∧
            en_events e' = en_events e ++ [TransactionPooled (stx_tx_hash t)]
  | Err _ => en_tx_pool e' = en_tx_pool e ∧ en_events e' = en_events e
  end.
Proof.
  unfold on_transaction_received, pool_insert. destruct (stx_verify t) as [[]|ce] eqn:Hv; [|by intros [= <- <-]].
  repeat case_match; intros [= <- <-]; simplify_eq/=; try done.
  zbool. split_and!; try done.
  - by rewrite lookup_insert_eq.
  - destruct (tp_pending (en_tx_pool e) !! tx_hash_of t) eqn:E; [|done].
    match goal with Hb : ¬ is_Some _ |- _ => by destruct Hb end.
Qed.

(** An accepted submission is the transaction the request describes, verified and new to
    the mempool, which now holds it and announces it; a refused one changes nothing. *)
Theorem submit_transaction_effect st req now st' r :
  submit_transaction st req now = (st', r) →
  app_storage st' = app_storage st ∧
  match r with
  | Ok resp => ∃ t, parse_request req = Ok t ∧ stx_verify t = Ok () ∧
      stx_tx_hash t = hash (bincode_ser (stx_transaction t) ++ ba_bytes (stx_signature t)) ∧
      ar_data resp = Some {| str_tx_hash := Blake3Hash_display (stx_tx_hash t) |} ∧
      pool_get (en_tx_pool (app_consensus st)) (stx_tx_hash t) = None ∧
      pool_get (en_tx_pool (app_consensus st')) (stx_tx_hash t) = Some t ∧
      en_events (app_consensus st') = en_events (app_consensus st) ++ [TransactionPooled (stx_tx_hash t)]
  | Err _ => en_tx_pool (app_consensus st') = en_tx_pool (app_consensus st) ∧
             en_events (app_consensus st') = en_events (app_consensus st)
  end.
Proof.
  unfold submit_transaction. destruct (parse_request req) as [t|e] eqn:Hp; [|by intros [= <- <-]].
  cbn [mbind result_bind]. destruct (stx_verify t) as [[]|e] eqn:Hv; [|by intros [= <- <-]].
  cbn [map_err mbind result_bind].
  destruct (on_transaction_received _ t now) as [e' r'] eqn:Hr. intros [= <- <-].
  apply on_transaction_received_cases in Hr as (Hcs & Hfin & Hcase).
  split; [unfold app_storage; simpl; by rewrite Hcs|]. destruct r' as [u|err]; [|done].
  destruct Hcase as (Hin & Hout & _ & Hev). exists t. unfold pool_get. simpl. rewrite Hin, Hout.
  split_and!; try done. clear -Hp. unfold parse_request, bad_request, decode_hex_arg in Hp.
  repeat (match type of Hp with context [mbind _ ?x] => destruct x eqn:?; cbn [mbind result_bind] in Hp; [|done] end).
  by injection Hp as <-.
Qed.

(** *** Reading a committed block *)
Lemma hash_id_not_number h : parse_uint 64 (Blake3Hash_display h) = None.
Proof. done. Qed.
Lemma hash_from_display h : Blake3Hash_from_hex (Blake3Hash_display h) = Ok h.
Proof. exact (array_from_hex_encode 32 h true). Qed.

Context `{!RocksDBLaws D} `{!BincodeLaws Block} `{!BincodeLaws Account}
  `{!BincodeLaws SignedTransaction} `{!BincodeLaws TransactionReceipt} `{!BincodeLaws Z}.

(** After a block is committed to the database the API serves exactly that block by
    number, by hash and as the latest one, and each of its transactions and receipts by
    hash. *)
Theorem committed_block_served st d b rs accs :
  commit_block d b rs accs = Ok (app_storage st) →
  in_u 64 (hdr_number (blk_header b)) → NoDup (stx_tx_hash <$> blk_transactions b) →
  rc_tx_hash <$> rs = stx_tx_hash <$> blk_transactions b →
  get_block_route st (z_str (hdr_number (blk_header b))) = Ok (ApiResponse_ok (BlockDto_from b)) ∧
  get_block_route st (Blake3Hash_display (block_hash b)) = Ok (ApiResponse_ok (BlockDto_from b)) ∧
  get_latest_block_route st = Ok (ApiResponse_ok (BlockDto_from b)) ∧
  (∀ t, t ∈ blk_transactions b →
     get_transaction_route st (Blake3Hash_display (stx_tx_hash t)) = Ok (ApiResponse_ok (TransactionDto_from t))) ∧
  (∀ r, r ∈ rs →
     get_receipt_route st (Blake3Hash_display (rc_tx_hash r)) = Ok (ApiResponse_ok (ReceiptDto_from r))).
Proof.
  intros Hc Hn Hnd Hrs. split_and!.
  - unfold get_block_route. rewrite parse_uint_print by done.
    by rewrite (commit_get_block_by_number _ _ _ _ _ Hc).
  - unfold get_block_route. rewrite hash_id_not_number, hash_from_display. cbn [map_err mbind result_bind].
    by rewrite (commit_get_block_by_hash _ _ _ _ _ Hn Hc).
  - unfold get_latest_block_route, get_latest_block.
    pose proof (@cs_commit_height D rocks_store rocks_store_laws _ _ _ _ _ Hc) as Hh. simpl in Hh. rewrite Hh.
    cbn [mbind result_bind]. by rewrite (commit_get_block_by_number _ _ _ _ _ Hc).
  - intros t Ht. unfold get_transaction_route. rewrite hash_from_display. cbn [map_err mbind result_bind].
    by rewrite (commit_get_transaction _ _ _ _ _ _ Hnd Ht Hc).
  - intros r Hr. unfold get_receipt_route. rewrite hash_from_display. cbn [map_err mbind result_bind].
    by rewrite (commit_get_receipt _ _ _ _ _ _ ltac:(by rewrite Hrs) Hr Hc).
Qed.
End RouteProperties.
