(* ===== verification/Keystore.v ===== *)
(** * Keystore: encrypted keys and mnemonics (crates/crypto: keystore.rs,
    mnemonic.rs)

    The scrypt, aes_gcm, serde_json, bip39 and hkdf crates and the file system
    are classes with their documented behaviour; the random salt, nonce and
    entropy are arguments.  [None] is a panic: [Nonce::from_slice] asserts that
    it is given 12 bytes. *)

From S2P Require Import Prelude Crypto Merkle CoreTypes Validators Storage Instances.

(** ** keystore.rs *)
Record KdfParams : Type := {
  kdf_algorithm : string;
  kdf_log_n : Z;
  kdf_r : Z;
  kdf_p : Z;
  kdf_salt : bytes
}.
Record CryptoParams : Type := {
  cp_cipher : string;
  cp_ciphertext : bytes;
  cp_nonce : bytes;
  cp_kdf : KdfParams
}.
Record EncryptedKeystore : Type := { ek_version : Z; ek_crypto : CryptoParams }.

Class KeystoreCrates := {
  (** [scrypt::Params::new(log_n, r, p, 32)] *)
  scrypt_params : Z → Z → Z → result string ();
  (** [scrypt::scrypt(password, salt, params, &mut [u8; 32])] *)
  scrypt : bytes → bytes → Z → Z → Z → result string (barray 32);
  (** [Aes256Gcm] with a 32-byte key and a 12-byte nonce *)
  aes_encrypt : barray 32 → barray 12 → bytes → result string bytes;
  aes_decrypt : barray 32 → barray 12 → bytes → result string bytes;
  (** [serde_json::to_vec_pretty] and [from_slice] at [EncryptedKeystore] *)
  keystore_to_vec : EncryptedKeystore → result string bytes;
  keystore_from_slice : bytes → result string EncryptedKeystore
}.
(** Documented behaviour: AES-GCM decrypts what it encrypted and, being
    authenticated and deterministic for a key and a nonce, accepts nothing
    else; JSON written by [to_vec_pretty] reads back. *)
Class KeystoreLaws `{KeystoreCrates} : Prop := {
  aes_decrypt_encrypt k n m c : aes_encrypt k n m = Ok c → aes_decrypt k n c = Ok m;
  aes_decrypt_sound k n m c : aes_decrypt k n c = Ok m → aes_encrypt k n m = Ok c;
  keystore_from_to ks bs : keystore_to_vec ks = Ok bs → keystore_from_slice bs = Ok ks
}.

Class FileSystem (F : Type) := {
  fs_read : F → string → result string bytes;
  fs_write : F → string → bytes → result string F
}.
Class FileSystemLaws (F : Type) `{FileSystem F} : Prop := {
  fs_read_write (f f' : F) p bs : fs_write f p bs = Ok f' → fs_read f' p = Ok bs;
  fs_read_other (f f' : F) p p' bs : fs_write f p bs = Ok f' → p ≠ p' → fs_read f' p' = fs_read f p'
}.

Section Keystore.
Context `{CryptoPrims} `{KeystoreCrates}.

(** [salt] and [nonce_bytes] come from [OsRng]. *)
Definition keystore_encrypt (keypair : KeyPair) (password : string) (salt : barray 32) (nonce_bytes : barray 12)
    : result CryptoError bytes :=
  _ ← map_err EncryptionError (scrypt_params 14 8 1);
  derived_key ← map_err EncryptionError (scrypt (b_ password) (ba_bytes salt) 14 8 1);
  ciphertext ← map_err EncryptionError (aes_encrypt derived_key nonce_bytes (ba_bytes (secret_bytes keypair)));
  map_err CryptoSerialization (keystore_to_vec {|
    ek_version := 1;
    ek_crypto := {|
      cp_cipher := "aes-256-gcm"; cp_ciphertext := ciphertext; cp_nonce := ba_bytes nonce_bytes;
      cp_kdf := {| kdf_algorithm := "scrypt"; kdf_log_n := 14; kdf_r := 8; kdf_p := 1;
                   kdf_salt := ba_bytes salt |} |} |}).

(** The key a keystore's parameters and a password derive. *)
Definition derive_key (ks : EncryptedKeystore) (password : string) : result CryptoError (barray 32) :=
  let kdf := cp_kdf (ek_crypto ks) in
  _ ← map_err DecryptionError (scrypt_params (kdf_log_n kdf) (kdf_r kdf) (kdf_p kdf));
  map_err DecryptionError (scrypt (b_ password) (kdf_salt kdf) (kdf_log_n kdf) (kdf_r kdf) (kdf_p kdf)).

Definition decrypt_secret (secret : bytes) : result CryptoError KeyPair :=
  match ba_try secret with
  | None => Err (DecryptionError "invalid decrypted key length")
  | Some key_bytes => KeyPair_from_bytes key_bytes
  end.

Definition keystore_decrypt (encrypted : bytes) (password : string) : option (result CryptoError KeyPair) :=
  match keystore_from_slice encrypted with
  | Err e => Some (Err (DecryptionError e))
  | Ok ks =>
      if negb (ek_version ks =? 1) then
        Some (Err (DecryptionError ("unsupported keystore version: " +:+ z_str (ek_version ks))))
      else
        match derive_key ks password with
        | Err e => Some (Err e)
        | Ok derived_key =>
            nonce ← ba_try (cp_nonce (ek_crypto ks));
            Some (secret ← map_err (λ _, DecryptionError "wrong password or corrupted keystore")
                             (aes_decrypt derived_key nonce (cp_ciphertext (ek_crypto ks)));
                  decrypt_secret secret)
        end
  end.

Context {F : Type} `{FileSystem F}.
Definition save_to_file (f : F) (keypair : KeyPair) (password path : string) (salt : barray 32)
    (nonce_bytes : barray 12) : result CryptoError F :=
  encrypted ← keystore_encrypt keypair password salt nonce_bytes;
  map_err KeystoreError (fs_write f path encrypted).
Definition load_from_file (f : F) (path password : string) : option (result CryptoError KeyPair) :=
  match fs_read f path with
  | Err e => Some (Err (KeystoreError e))
  | Ok data => keystore_decrypt data password
  end.
End Keystore.

(** ** mnemonic.rs *)
Class Bip39 := {
  Bip39Mnemonic : Type;
  bip39_from_entropy : bytes → result string Bip39Mnemonic;
  bip39_parse : string → result string Bip39Mnemonic;
  bip39_to_string : Bip39Mnemonic → string;
  bip39_to_seed : Bip39Mnemonic → string → barray 64;
  (** [Hkdf::<Sha256>::new(Some(salt), ikm).expand(info, &mut [u8; 32])] *)
  hkdf_expand : bytes → bytes → bytes → result string (barray 32)
}.
(** Documented behaviour: a phrase parses to the mnemonic it prints; entropy
    of 128 or 256 bits is accepted; HKDF-SHA256 yields 32 bytes. *)
Class Bip39Laws `{Bip39} : Prop := {
  bip39_parse_print m : bip39_parse (bip39_to_string m) = Ok m;
  bip39_entropy_ok e : length e = 16%nat ∨ length e = 32%nat → is_ok (bip39_from_entropy e) = true;
  hkdf_ok salt ikm info : is_ok (hkdf_expand salt ikm info) = true
}.

Section Mnemonic.
Context `{CryptoPrims} `{Bip39}.

(** [fill n] is what [OsRng] writes into [n] bytes. *)
Definition Mnemonic_generate (word_count : nat) (fill : nat → bytes) : result CryptoError Bip39Mnemonic :=
  match word_count with
  | 12%nat => map_err MnemonicError (bip39_from_entropy (fill 16%nat))
  | 24%nat => map_err MnemonicError (bip39_from_entropy (fill 32%nat))
  | _ => Err (MnemonicError "word count must be 12 or 24")
  end.
Definition Mnemonic_from_phrase (phrase : string) : result CryptoError Bip39Mnemonic :=
  map_err MnemonicError (bip39_parse phrase).
Definition Mnemonic_phrase (m : Bip39Mnemonic) : string := bip39_to_string m.
Definition Mnemonic_to_seed (m : Bip39Mnemonic) (password : string) : barray 64 := bip39_to_seed m password.
Definition Mnemonic_to_keypair (m : Bip39Mnemonic) (password : string) : result CryptoError KeyPair :=
  let seed := Mnemonic_to_seed m password in
  secret_key ← map_err KeyDerivation
    (hkdf_expand (b_ "rustchain-ed25519") (ba_bytes seed) (b_ "ed25519 key derivation"));
  KeyPair_from_bytes secret_key.
End Mnemonic.

(** ** Properties *)
Section KeystoreProperties.
Context `{CryptoPrims} `{KeystoreCrates} `{!KeystoreLaws}.

Lemma keystore_decrypt_encrypt kp pw salt nonce bs :
  keystore_encrypt kp pw salt nonce = Ok bs → keystore_decrypt bs pw = Some (Ok kp).
Proof.
  unfold keystore_encrypt. destruct (scrypt_params 14 8 1) as [[]|] eqn:Hp; [|done].
  cbn [map_err mbind result_bind].
  destruct (scrypt (b_ pw) (ba_bytes salt) 14 8 1) as [key|] eqn:Hs; [|done]. cbn [map_err mbind result_bind].
  destruct (aes_encrypt key nonce (ba_bytes (secret_bytes kp))) as [c|] eqn:Ha; [|done]. cbn [map_err mbind result_bind].
  destruct (keystore_to_vec _) as [bs'|] eqn:Hv; [|done]. intros [= ->].
  unfold keystore_decrypt. rewrite (keystore_from_to _ _ Hv). unfold derive_key.
  cbn [ek_version ek_crypto cp_kdf kdf_log_n kdf_r kdf_p kdf_salt cp_nonce cp_ciphertext negb Z.eqb Pos.eqb].
  rewrite Hp, Hs. cbn [map_err mbind result_bind]. rewrite ba_try_bytes. cbn [mbind option_bind].
  rewrite (aes_decrypt_encrypt _ _ _ _ Ha). cbn [map_err mbind result_bind].
  unfold decrypt_secret. rewrite ba_try_bytes. by destruct kp.
Qed.

(** What a successful decryption proves about the file: it is a version 1
    keystore whose ciphertext is the encryption of the returned secret under the
    key derived from the password. *)
Lemma keystore_decrypt_sound bs pw kp :
  keystore_decrypt bs pw = Some (Ok kp) →
  ∃ ks key nonce, keystore_from_slice bs = Ok ks ∧ ek_version ks = 1 ∧
    derive_key ks pw = Ok key ∧ ba_bytes nonce = cp_nonce (ek_crypto ks) ∧
    aes_encrypt key nonce (ba_bytes (secret_bytes kp)) = Ok (cp_ciphertext (ek_crypto ks)).
Proof.
  unfold keystore_decrypt. destruct (keystore_from_slice bs) as [ks|]; [|done].
  destruct (Z.eqb_spec (ek_version ks) 1); [|done]. cbn [negb].
  destruct (derive_key ks pw) as [key|] eqn:Hk; [|done].
  destruct (ba_try (cp_nonce (ek_crypto ks))) as [nonce|] eqn:Hn; [|done]. cbn [mbind option_bind].
  destruct (aes_decrypt key nonce _) as [secret|] eqn:Ha; [|done]. cbn [map_err mbind result_bind].
  unfold decrypt_secret. destruct (ba_try secret) as [k|] eqn:Ht; [|done]. intros [= <-].
  exists ks, key, nonce. apply ba_try_Some in Hn, Ht. simpl.
  split_and!; try done. rewrite Ht. by apply aes_decrypt_sound.
Qed.

Context {F : Type} `{FileSystem F} `{!FileSystemLaws F}.
(** C27: A key pair saved to a keystore file is loaded back with the same password, and
    any other password that opens the file derives a key under which the key pair it yields
    encrypts to the very ciphertext stored. *)
Theorem keystore_roundtrip (f f' : F) kp pw path salt nonce :
  save_to_file f kp pw path salt nonce = Ok f' →
  load_from_file f' path pw = Some (Ok kp) ∧
  (∀ pw' kp', load_from_file f' path pw' = Some (Ok kp') →
     ∃ key key', scrypt (b_ pw) (ba_bytes salt) 14 8 1 = Ok key ∧
       scrypt (b_ pw') (ba_bytes salt) 14 8 1 = Ok key' ∧
       aes_encrypt key' nonce (ba_bytes (secret_bytes kp')) = aes_encrypt key nonce (ba_bytes (secret_bytes kp))).
Proof.
  unfold save_to_file, load_from_file.
  destruct (keystore_encrypt kp pw salt nonce) as [bs|] eqn:He; [|done]. cbn [mbind result_bind].
  destruct (fs_write f path bs) as [f1|] eqn:Hw; [|done]. intros [= ->].
  rewrite (fs_read_write _ _ _ _ Hw). split; [by eapply keystore_decrypt_encrypt|].
  intros pw' kp' Hd. apply keystore_decrypt_sound in Hd as (ks & key' & n' & Hfrom & _ & Hkey & Hn & Ha).
  unfold keystore_encrypt in He. destruct (scrypt_params 14 8 1) as [[]|] eqn:Hp; [|done].
  cbn [map_err mbind result_bind] in He.
  destruct (scrypt (b_ pw) (ba_bytes salt) 14 8 1) as [key|] eqn:Hs; [|done]. cbn [map_err mbind result_bind] in He.
  destruct (aes_encrypt key nonce (ba_bytes (secret_bytes kp))) as [c|] eqn:Hc; [|done]. cbn [map_err mbind result_bind] in He.
  destruct (keystore_to_vec _) as [bs'|] eqn:Hv; [|done]. simplify_eq/=.
  rewrite (keystore_from_to _ _ Hv) in Hfrom. simplify_eq/=. unfold derive_key in Hkey.
  cbn [ek_crypto cp_kdf kdf_log_n kdf_r kdf_p kdf_salt] in Hkey. rewrite Hp in Hkey. cbn [map_err mbind result_bind] in Hkey.
  destruct (scrypt (b_ pw') (ba_bytes salt) 14 8 1) as [k2|]; [|done]. injection Hkey as ->.
  apply barray_eq in Hn as ->. exists key, key'. rewrite Hc. done.
Qed.

(** A keystore whose nonce does not have 12 bytes makes decryption panic once the key is
    derived. *)
Theorem keystore_decrypt_panics bs pw :
  keystore_decrypt bs pw = None ↔
  ∃ ks key, keystore_from_slice bs = Ok ks ∧ ek_version ks = 1 ∧ derive_key ks pw = Ok key ∧
    length (cp_nonce (ek_crypto ks)) ≠ 12%nat.
Proof.
  unfold keystore_decrypt. destruct (keystore_from_slice bs) as [ks|]; [|split; [done|intros (? & ? & ? & ? & ? & ?); simplify_eq]].
  destruct (Z.eqb_spec (ek_version ks) 1) as [Hv|Hv]; cbn [negb]; [|split; [done|intros (? & ? & ? & ? & ? & ?); simplify_eq]].
  destruct (derive_key ks pw) as [key|] eqn:Hk; [|split; [done|intros (? & ? & [= <-] & ? & ? & ?); congruence]].
  destruct (ba_try (cp_nonce (ek_crypto ks))) as [nonce|] eqn:Hn; cbn [mbind option_bind].
  - apply ba_try_Some in Hn. split; [done|]. intros (ks' & key' & [= <-] & _ & _ & Hl). destruct Hl.
    by rewrite <- Hn, ba_length.
  - split; [|done]. intros _. exists ks, key. split_and!; try done. intros Hl. by apply ba_try_None in Hn.
Qed.
End KeystoreProperties.

Section MnemonicProperties.
Context `{CryptoPrims} `{Bip39} `{!Bip39Laws}.

Lemma Mnemonic_phrase_roundtrip m : Mnemonic_from_phrase (Mnemonic_phrase m) = Ok m.
Proof. unfold Mnemonic_from_phrase, Mnemonic_phrase. by rewrite bip39_parse_print. Qed.
Lemma Mnemonic_to_keypair_ok m pw : ∃ kp, Mnemonic_to_keypair m pw = Ok kp.
Proof.
  unfold Mnemonic_to_keypair.
  pose proof (hkdf_ok (b_ "rustchain-ed25519") (ba_bytes (Mnemonic_to_seed m pw)) (b_ "ed25519 key derivation")) as Hk.
  destruct (hkdf_expand _ _ _); [|done]. by eexists.
Qed.
Lemma Mnemonic_generate_ok n fill :
  (∀ k, length (fill k) = k) → is_ok (Mnemonic_generate n fill) = true ↔ n = 12%nat ∨ n = 24%nat.
Proof.
  intros Hf. split.
  - intros Hok. do 25 (destruct n as [|n]; [by (done || auto)|]). done.
  - intros [-> | ->]; unfold Mnemonic_generate;
      [pose proof (bip39_entropy_ok (fill 16%nat)) as Hb|pose proof (bip39_entropy_ok (fill 32%nat)) as Hb];
      rewrite Hf in Hb; specialize (Hb ltac:(auto)); by destruct (bip39_from_entropy _).
Qed.
End MnemonicProperties.

(** ** Concrete instances, for the witnesses *)
Module ToyKeystore.
Import ToyCrypto.
#[export] Program Instance ser_keystore : Ser EncryptedKeystore :=
  ser_iso (λ k, let c := ek_crypto k in let d := cp_kdf c in
             (ek_version k, cp_cipher c, cp_ciphertext c, cp_nonce c,
              kdf_algorithm d, kdf_log_n d, kdf_r d, kdf_p d, kdf_salt d))
    (λ '(a, b, c, d, e, f, g, h, i), Some {| ek_version := a; ek_crypto := {| cp_cipher := b;
       cp_ciphertext := c; cp_nonce := d; cp_kdf := {| kdf_algorithm := e; kdf_log_n := f; kdf_r := g;
       kdf_p := h; kdf_salt := i |} |} |}) _.
Next Obligation. by intros [? [? ? ? []]]. Qed.
(** A cipher that prepends the key and the nonce. *)
Definition toy_encrypt (k : barray 32) (n : barray 12) (m : bytes) : bytes := ba_bytes k ++ ba_bytes n ++ m.
Definition toy_decrypt (k : barray 32) (n : barray 12) (c : bytes) : result string bytes :=
  if bool_decide (take 44 c = ba_bytes k ++ ba_bytes n) then Ok (drop 44 c) else Err "aead::Error"%string.
#[export] Instance toy_keystore : KeystoreCrates := {|
  scrypt_params n r p := if 20 <? n then Err "invalid params"%string else Ok ();
  scrypt pw salt _ _ _ := Ok (toy_blake3 (pw ++ salt));
  aes_encrypt k n m := Ok (toy_encrypt k n m);
  aes_decrypt := toy_decrypt;
  keystore_to_vec k := Ok (ser k);
  keystore_from_slice bs := match de bs with Some (k, []) => Ok k | _ => Err "invalid JSON"%string end |}.
Lemma toy_prefix (k : barray 32) (n : barray 12) : length (ba_bytes k ++ ba_bytes n) = 44%nat.
Proof. by rewrite length_app, !ba_length. Qed.
#[export] Instance toy_keystore_laws : KeystoreLaws.
Proof.
  split; simpl.
  - intros k n m c [= <-]. unfold toy_decrypt, toy_encrypt. rewrite app_assoc.
    rewrite take_app_exact, bool_decide_eq_true_2 by (done || apply toy_prefix).
    by rewrite drop_app_length' by (by rewrite toy_prefix).
  - intros k n m c. unfold toy_decrypt, toy_encrypt. case_bool_decide as Hd; [|done]. intros [= <-].
    rewrite app_assoc, <- Hd. by rewrite take_drop.
  - intros ks bs [= <-].
    change (match de (ser ks) with Some (k, []) => Ok k | _ => Err "invalid JSON"%string end = Ok ks).
    by rewrite <- (app_nil_r (ser ks)), de_ser.
Qed.
#[export] Instance toy_fs : FileSystem (gmap string bytes) := {|
  fs_read f p := match f !! p with Some bs => Ok bs | None => Err "No such file or directory"%string end;
  fs_write f p bs := Ok (<[p := bs]> f) |}.
#[export] Instance toy_fs_laws : FileSystemLaws (gmap string bytes).
Proof.
  split; simpl.
  - intros f f' p bs [= <-]. by rewrite lookup_insert_eq.
  - intros f f' p p' bs [= <-] Hp. by rewrite lookup_insert_ne.
Qed.
(** A mnemonic is its entropy, a phrase its bytes. *)
#[export] Instance toy_bip39 : Bip39 := {|
  Bip39Mnemonic := bytes;
  bip39_from_entropy e := if bool_decide (length e ∈ [16; 32]%nat) then Ok e else Err "bad entropy"%string;
  bip39_parse s := Ok (String.list_byte_of_string s);
  bip39_to_string := String.string_of_list_byte;
  bip39_to_seed m pw := ba_of 64 (ba_bytes (toy_blake3 (m ++ b_ pw)) ++ ba_bytes (toy_blake3 (b_ pw ++ m)));
  hkdf_expand salt ikm info := Ok (toy_blake3 (salt ++ ikm ++ info)) |}.
#[export] Instance toy_bip39_laws : Bip39Laws.
Proof.
  split; simpl.
  - intros m. by rewrite String.list_byte_of_string_of_list_byte.
  - intros e He. rewrite bool_decide_eq_true_2 by set_solver. done.
  - done.
Qed.

Definition salt0 : barray 32 := ba_repeat 32 Byte.x0a.
Definition nonce0 : barray 12 := ba_repeat 12 Byte.x0b.
Lemma keystore_roundtrip_witness :
  match save_to_file (∅ : gmap string bytes) (kp Byte.x05) "secret" "key.json" salt0 nonce0 with
  | Ok f => load_from_file f "key.json" "secret" = Some (Ok (kp Byte.x05)) ∧
            (is_ok <$> load_from_file f "key.json" "guess") = Some false
  | Err _ => False
  end.
Proof.
  destruct (save_to_file (∅ : gmap string bytes) (kp Byte.x05) "secret" "key.json" salt0 nonce0) as [f|] eqn:Hs.
  - split; [exact (proj1 (keystore_roundtrip _ _ _ _ _ _ _ Hs))|].
    injection Hs as <-. by vm_compute.
  - discriminate Hs.
Defined.
(** A version 1 keystore with an 11-byte nonce. *)
Definition bad_nonce : bytes := ser {| ek_version := 1; ek_crypto := {| cp_cipher := "aes-256-gcm";
  cp_ciphertext := []; cp_nonce := replicate 11 Byte.x00; cp_kdf := {| kdf_algorithm := "scrypt";
  kdf_log_n := 14; kdf_r := 8; kdf_p := 1; kdf_salt := [] |} |} |}.
Lemma bad_nonce_panics : keystore_decrypt bad_nonce "any" = None.
Proof. by vm_compute. Qed.
End ToyKeystore.
