(* ===== verification/UnitTests.v ===== *)
(** * UnitTests: the test modules of crates/crypto, core, consensus and vm

    Every [#[test]] function as a program in the option monad: [None] is the panic of a
    failed assertion or of an [unwrap].  [KeyPair::generate()] takes its entropy as an
    argument.  Each module ends with the proof that its tests pass; tests that hold for
    every key, by the laws of the crates, are proved for every key, the others are
    evaluated on the concrete instances. *)

From S2P Require Import Prelude Crypto Merkle CoreTypes Validators Storage Instances Vm Consensus Finality TxPool Keystore.

(** ** Assertions *)
Definition Test : Type := option ().
Definition assert (b : bool) : Test := if b then Some () else None.
Definition unwrap {E A} (r : result E A) : option A := match r with Ok a => Some a | Err _ => None end.
Definition passes (t : Test) : bool := bool_decide (is_Some t).
Definition is_err {E A} (r : result E A) : bool := negb (is_ok r).
Notation "x == y" := (assert (bool_decide (x = y))) (at level 70).
Notation "x != y" := (assert (bool_decide (x ≠ y))) (at level 70).

Section CryptoTests.
Context `{CryptoPrims}.

(** *** hash.rs *)
Definition test_hash_deterministic : Test :=
  let h1 := hash (b_ "hello world") in
  let h2 := hash (b_ "hello world") in
  h1 == h2.
Definition test_hash_different_inputs : Test :=
  let h1 := hash (b_ "hello") in
  let h2 := hash (b_ "world") in
  h1 != h2.
Definition test_hash_hex_roundtrip : Test :=
  let h := hash (b_ "test data") in
  let hex_str := Blake3Hash_to_hex h in
  h2 ← unwrap (Blake3Hash_from_hex hex_str);
  h == h2.
Definition test_hash_multiple_domain_separation : Test :=
  let h1 := hash_multiple [b_ "ab"; b_ "cd"] in
  let h2 := hash_multiple [b_ "abc"; b_ "d"] in
  h1 != h2.
Definition test_zero_hash : Test := Blake3Hash_ZERO == Blake3Hash_from_bytes (ba_repeat 32 Byte.x00).

(** *** address.rs *)
Definition test_address_hex_roundtrip : Test :=
  let addr := Address_from_bytes (ba_of 20 (byte_of_Z <$> seqZ 1 20)) in
  let hex_str := Address_to_hex addr in
  addr2 ← unwrap (Address_from_hex hex_str);
  addr == addr2.
Definition test_zero_address : Test :=
  _ ← assert (Address_is_zero Address_ZERO);
  assert (negb (Address_is_zero (Address_from_bytes (ba_repeat 20 Byte.x01)))).
Definition test_address_display : Test :=
  let addr := Address_ZERO in
  _ ← assert (String.prefix "0x" (Address_to_hex addr));
  String.length (Address_to_hex addr) == 42%nat.

(** *** keypair.rs *)
Definition test_keypair_generate_and_sign (entropy : barray 32) : Test :=
  let kp := KeyPair_generate entropy in
  let msg := b_ "hello blockchain" in
  let sig := sign kp msg in
  assert (is_ok (verify (public_key kp) msg sig)).
Definition test_invalid_signature (entropy1 entropy2 : barray 32) : Test :=
  let kp1 := KeyPair_generate entropy1 in
  let kp2 := KeyPair_generate entropy2 in
  let msg := b_ "hello" in
  let sig := sign kp1 msg in
  assert (is_err (verify (public_key kp2) msg sig)).
Definition test_wrong_message (entropy : barray 32) : Test :=
  let kp := KeyPair_generate entropy in
  let sig := sign kp (b_ "correct message") in
  assert (is_err (verify (public_key kp) (b_ "wrong message") sig)).
Definition test_keypair_from_bytes (entropy : barray 32) : Test :=
  let kp1 := KeyPair_generate entropy in
  kp2 ← unwrap (KeyPair_from_bytes (secret_bytes kp1));
  public_key kp1 == public_key kp2.
Definition test_address_derivation (entropy : barray 32) : Test :=
  let kp := KeyPair_generate entropy in
  let addr1 := to_address (public_key kp) in
  let addr2 := KeyPair_address kp in
  addr1 == addr2.
Definition test_public_key_hex_roundtrip (entropy : barray 32) : Test :=
  let kp := KeyPair_generate entropy in
  let pk := public_key kp in
  let hex_str := PublicKey_to_hex pk in
  pk2 ← unwrap (PublicKey_from_hex hex_str);
  pk == pk2.

(** *** merkle.rs *)
Definition byte_leaves (n : Z) : list Blake3Hash := (λ i, hash [byte_of_Z i]) <$> seqZ 0 n.
Definition test_empty_tree : Test :=
  let tree := MerkleTree_new [] in
  root tree == Blake3Hash_ZERO.
Definition test_single_leaf : Test :=
  let leaf := hash (b_ "hello") in
  let tree := MerkleTree_new [leaf] in
  root tree == leaf.
Definition test_two_leaves : Test :=
  let a := hash (b_ "a") in
  let b := hash (b_ "b") in
  let tree := MerkleTree_new [a; b] in
  let expected := hash_multiple [Blake3Hash_as_ref a; Blake3Hash_as_ref b] in
  root tree == expected.
Definition proofs_verify (leaves : list Blake3Hash) : Test :=
  let tree := MerkleTree_new leaves in
  let root := root tree in
  foldl (λ t i, _ ← t; proof ← proof tree i; assert (verify_proof root proof)) (Some ()) (seq 0 (length leaves)).
Definition test_proof_verification : Test := proofs_verify (byte_leaves 8).
Definition test_proof_invalid_root : Test :=
  let tree := MerkleTree_new (byte_leaves 4) in
  proof ← proof tree 0;
  let wrong_root := hash (b_ "wrong") in
  assert (negb (verify_proof wrong_root proof)).
Definition test_odd_number_of_leaves : Test := proofs_verify (byte_leaves 5).
Definition test_deterministic : Test :=
  let tree1 := MerkleTree_new (byte_leaves 10) in
  let tree2 := MerkleTree_new (byte_leaves 10) in
  root tree1 == root tree2.

(** *** keystore.rs: [salt] and [nonce] are [OsRng]'s; the temporary directory is [dir] *)
Context `{KeystoreCrates}.
Definition decrypted (r : option (result CryptoError KeyPair)) : option KeyPair := r ≫= unwrap.
Definition test_encrypt_decrypt_roundtrip (entropy salt : barray 32) (nonce : barray 12) : Test :=
  let kp := KeyPair_generate entropy in
  encrypted ← unwrap (keystore_encrypt kp "test-password" salt nonce);
  kp2 ← decrypted (keystore_decrypt encrypted "test-password");
  public_key kp == public_key kp2.
Definition test_wrong_password (entropy salt : barray 32) (nonce : barray 12) : Test :=
  let kp := KeyPair_generate entropy in
  encrypted ← unwrap (keystore_encrypt kp "correct-password" salt nonce);
  r ← keystore_decrypt encrypted "wrong-password";
  assert (is_err r).
Definition test_file_roundtrip {F} `{FileSystem F} (f : F) (dir : string) (entropy salt : barray 32) (nonce : barray 12) : Test :=
  let kp := KeyPair_generate entropy in
  let path := (dir +:+ "/rustchain_test_keystore.json")%string in
  f ← unwrap (save_to_file f kp "file-password" path salt nonce);
  kp2 ← decrypted (load_from_file f path "file-password");
  public_key kp == public_key kp2.
End CryptoTests.

(** *** mnemonic.rs: [fill] is the random source, [words] splits at white space *)
Section MnemonicTests.
Context `{CryptoPrims} `{Bip39} (words : string → list string).
Definition test_generate_12_words (fill : nat → bytes) : Test :=
  m ← unwrap (Mnemonic_generate 12 fill);
  length (words (Mnemonic_phrase m)) == 12%nat.
Definition test_generate_24_words (fill : nat → bytes) : Test :=
  m ← unwrap (Mnemonic_generate 24 fill);
  length (words (Mnemonic_phrase m)) == 24%nat.
Definition test_invalid_word_count (fill : nat → bytes) : Test := assert (is_err (Mnemonic_generate 15 fill)).
Definition test_from_phrase_roundtrip (fill : nat → bytes) : Test :=
  m1 ← unwrap (Mnemonic_generate 12 fill);
  let phrase := Mnemonic_phrase m1 in
  m2 ← unwrap (Mnemonic_from_phrase phrase);
  Mnemonic_phrase m1 == Mnemonic_phrase m2.
Definition test_keypair_derivation_deterministic (fill : nat → bytes) : Test :=
  m ← unwrap (Mnemonic_generate 24 fill);
  kp1 ← unwrap (Mnemonic_to_keypair m "password");
  kp2 ← unwrap (Mnemonic_to_keypair m "password");
  public_key kp1 == public_key kp2.
Definition test_different_passwords_different_keys (fill : nat → bytes) : Test :=
  m ← unwrap (Mnemonic_generate 24 fill);
  kp1 ← unwrap (Mnemonic_to_keypair m "password1");
  kp2 ← unwrap (Mnemonic_to_keypair m "password2");
  public_key kp1 != public_key kp2.
End MnemonicTests.

(** *** crates/vm/src/gas.rs *)
Definition test_gas_meter_consume : Test :=
  let meter := GasMeter_new 1000 in
  let '(meter, r) := consume meter 500 in
  _ ← assert (is_ok r);
  _ ← gm_consumed meter == 500;
  remaining meter == 500.
Definition test_gas_meter_overflow : Test :=
  let meter := GasMeter_new 100 in
  let '(meter, r) := consume meter 101 in
  _ ← assert (is_err r);
  assert (is_exhausted meter).
Definition test_gas_meter_exact : Test :=
  let meter := GasMeter_new 100 in
  let '(meter, r) := consume meter 100 in
  _ ← assert (is_ok r);
  let '(meter, r) := consume meter 1 in
  assert (is_err r).

(** ** crates/core *)
Section CoreTests.
Context `{CryptoPrims} `{Bincode Transaction} `{Bincode BlockHeader}.

(** *** account.rs *)
Definition test_new_account (entropy : barray 32) : Test :=
  let kp := KeyPair_generate entropy in
  let acct := Account_new (KeyPair_address kp) 1000 in
  _ ← acc_balance acct == 1000;
  _ ← acc_nonce acct == 0;
  assert (negb (is_contract acct)).
Definition test_contract_account (entropy : barray 32) : Test :=
  let kp := KeyPair_generate entropy in
  let code_hash := hash (b_ "contract code") in
  let acct := Account_new_contract (KeyPair_address kp) 0 code_hash in
  assert (is_contract acct).
Definition test_balance_check : Test :=
  let acct := Account_new Address_ZERO 500 in
  _ ← assert (has_sufficient_balance acct 500);
  assert (negb (has_sufficient_balance acct 501)).
Definition test_increment_nonce : Test :=
  let acct := Account_new Address_ZERO 0 in
  _ ← acc_nonce acct == 0;
  let acct := increment_nonce acct in
  acc_nonce acct == 1.

(** *** transaction.rs *)
Definition make_transfer (keypair : KeyPair) : Transaction := {|
  tx_chain_id := 1; tx_nonce := 0; tx_from := KeyPair_address keypair; tx_to := Some Address_ZERO; tx_value := 1000;
  tx_tx_type := Transfer; tx_gas_limit := 21000; tx_gas_price := 1; tx_data := []; tx_timestamp := 1000 |}.
Definition test_sign_and_verify (entropy : barray 32) : Test :=
  let kp := KeyPair_generate entropy in
  let tx := make_transfer kp in
  let signed := SignedTransaction_new tx kp in
  assert (is_ok (stx_verify signed)).
Definition test_wrong_signer (entropy1 entropy2 : barray 32) : Test :=
  let kp1 := KeyPair_generate entropy1 in
  let kp2 := KeyPair_generate entropy2 in
  let tx := make_transfer kp1 in
  let signed := SignedTransaction_new tx kp2 in
  assert (is_err (stx_verify signed)).
Definition test_transfer_requires_recipient (entropy : barray 32) : Test :=
  let kp := KeyPair_generate entropy in
  let tx := make_transfer kp in
  let tx := {| tx_chain_id := tx_chain_id tx; tx_nonce := tx_nonce tx; tx_from := tx_from tx; tx_to := None;
    tx_value := tx_value tx; tx_tx_type := tx_tx_type tx; tx_gas_limit := tx_gas_limit tx; tx_gas_price := tx_gas_price tx;
    tx_data := tx_data tx; tx_timestamp := tx_timestamp tx |} in
  assert (is_err (tx_validate_basic tx)).
Definition test_deploy_requires_data (entropy : barray 32) : Test :=
  let kp := KeyPair_generate entropy in
  let tx := {| tx_chain_id := 1; tx_nonce := 0; tx_from := KeyPair_address kp; tx_to := None; tx_value := 0;
    tx_tx_type := ContractDeploy; tx_gas_limit := 100000; tx_gas_price := 1; tx_data := []; tx_timestamp := 1000 |} in
  assert (is_err (tx_validate_basic tx)).
Definition test_total_cost (entropy : barray 32) : Test :=
  let kp := KeyPair_generate entropy in
  let tx := make_transfer kp in
  total_cost tx == 1000 + 21000.
Definition test_tx_hash_deterministic (entropy : barray 32) : Test :=
  let kp := KeyPair_generate entropy in
  let tx1 := make_transfer kp in
  let tx2 := tx1 in
  let signed1 := SignedTransaction_new tx1 kp in
  let signed2 := SignedTransaction_new tx2 kp in
  stx_tx_hash signed1 == stx_tx_hash signed2.

(** *** block.rs *)
Definition make_genesis (entropy : barray 32) : Block * KeyPair :=
  let kp := KeyPair_generate entropy in
  let block := Block_genesis 1 1000 (KeyPair_address kp) (public_key kp) 1000000 (b_ "genesis") in
  (block, kp).
Definition test_genesis_block (entropy : barray 32) : Test :=
  let '(block, _kp) := make_genesis entropy in
  _ ← hdr_number (blk_header block) == 0;
  _ ← hdr_parent_hash (blk_header block) == Blake3Hash_ZERO;
  length (blk_transactions block) == 0%nat.
Definition test_block_hash_deterministic (entropy : barray 32) : Test :=
  let '(block, _kp) := make_genesis entropy in
  block_hash block == block_hash block.
Definition test_sign_and_verify_header (entropy : barray 32) : Test :=
  let '(block, kp) := make_genesis entropy in
  let header := header_sign (blk_header block) kp in
  assert (is_ok (verify_signature header)).
Definition test_validate_basic_genesis (entropy : barray 32) : Test :=
  let '(block, _kp) := make_genesis entropy in
  assert (is_ok (block_validate_basic block)).
Definition test_extra_data_too_large (entropy : barray 32) : Test :=
  let kp := KeyPair_generate entropy in
  let block := Block_genesis 1 1000 (KeyPair_address kp) (public_key kp) 1000000
    (replicate (Z.to_nat (MAX_EXTRA_DATA_SIZE + 1)) Byte.x00) in
  assert (is_err (header_validate_basic (blk_header block))).

(** *** genesis.rs *)
Definition test_devnet_genesis_valid (entropy : barray 32) (now : Z) : Test :=
  let config := devnet_default (KeyPair_generate entropy) now in
  assert (is_ok (genesis_validate config)).
Definition test_genesis_block_creation (entropy : barray 32) (now : Z) : Test :=
  let config := devnet_default (KeyPair_generate entropy) now in
  block ← to_genesis_block config;
  _ ← hdr_number (blk_header block) == 0;
  hdr_chain_id (blk_header block) == 9999.
Definition test_empty_validators_invalid (entropy : barray 32) (now : Z) : Test :=
  let config := devnet_default (KeyPair_generate entropy) now in
  let config := {| gc_chain_id := gc_chain_id config; gc_chain_name := gc_chain_name config;
    gc_timestamp := gc_timestamp config; gc_initial_validators := []; gc_initial_accounts := gc_initial_accounts config;
    gc_consensus_params := gc_consensus_params config; gc_gas_limit := gc_gas_limit config |} in
  assert (is_err (genesis_validate config)).

(** *** validator.rs *)
Definition make_validator (entropy : barray 32) (stake : Z) : ValidatorInfo :=
  let kp := KeyPair_generate entropy in
  ValidatorInfo_new (KeyPair_address kp) (public_key kp) stake.
Definition test_quorum_threshold (e1 e2 e3 : barray 32) : Test :=
  let validators := [make_validator e1 100; make_validator e2 200; make_validator e3 300] in
  let set := ValidatorSet_new validators 10 100 in
  _ ← total_active_stake set == 600;
  quorum_threshold set == 400.
Definition test_active_validators (e1 e2 : barray 32) : Test :=
  let v1 := make_validator e1 100 in
  let v2 := make_validator e2 200 in
  let v1 := vi_set_active v1 false in
  let set := ValidatorSet_new [v1; v2] 10 100 in
  length (active_validators set) == 1%nat.
Definition test_jailed_validator (entropy : barray 32) : Test :=
  let v := make_validator entropy 100 in
  let v := vi_set_jailed v (Some 5000) in
  _ ← assert (is_jailed v 4000);
  _ ← assert (negb (is_jailed v 5000));
  assert (negb (is_jailed v 6000)).
End CoreTests.

(** ** crates/consensus *)
Section ConsensusTests.
Context `{CryptoPrims} `{Rng} `{Bincode Transaction}.

(** *** finality.rs *)
Definition make_finality_engine (entropy : list (barray 32)) : FinalityEngine * list KeyPair :=
  let keypairs := KeyPair_generate <$> entropy in
  let validators := (λ kp, ValidatorInfo_new (KeyPair_address kp) (public_key kp) 100) <$> keypairs in
  let vs := ValidatorSet_new validators 10 100 in
  (FinalityEngine_new vs, keypairs).
Definition is_pending (s : FinalityStatus) : bool := match s with Pending _ _ => true | Finalized => false end.
Definition test_finality_with_quorum (e1 e2 e3 : barray 32) (now1 now2 : Z) : Test :=
  let '(engine, keypairs) := make_finality_engine [e1; e2; e3] in
  let block_hash := hash (b_ "block1") in
  kp0 ← keypairs !! 0%nat;
  let vote1 := FinalityVote_new 1 block_hash kp0 now1 in
  let '(engine, r) := add_vote engine vote1 in
  status ← unwrap r;
  _ ← assert (is_pending status);
  kp1 ← keypairs !! 1%nat;
  let vote2 := FinalityVote_new 1 block_hash kp1 now2 in
  let '(engine, r) := add_vote engine vote2 in
  status ← unwrap r;
  _ ← assert (negb (is_pending status));
  _ ← assert (is_finalized engine 1);
  fe_finalized_height engine == 1.
Definition test_single_vote_not_enough (e1 e2 e3 : barray 32) (now : Z) : Test :=
  let '(engine, keypairs) := make_finality_engine [e1; e2; e3] in
  let block_hash := hash (b_ "block1") in
  kp0 ← keypairs !! 0%nat;
  let vote := FinalityVote_new 1 block_hash kp0 now in
  let '(engine, r) := add_vote engine vote in
  status ← unwrap r;
  _ ← assert (is_pending status);
  assert (negb (is_finalized engine 1)).
Definition test_invalid_voter (e1 e2 e3 rogue : barray 32) (now : Z) : Test :=
  let '(engine, _) := make_finality_engine [e1; e2; e3] in
  let block_hash := hash (b_ "block1") in
  let rogue := KeyPair_generate rogue in
  let vote := FinalityVote_new 1 block_hash rogue now in
  assert (is_err (add_vote engine vote).2).

(** *** pos.rs *)
Definition make_validators (stakes : list (barray 32 * Z)) : list ValidatorInfo :=
  (λ '(entropy, stake), make_validator entropy stake) <$> stakes.
Definition test_single_validator (e1 : barray 32) : Test :=
  let validators := make_validators [(e1, 1000)] in
  let parent := hash (b_ "parent") in
  proposer ← unwrap (select_proposer validators parent 1);
  v0 ← validators !! 0%nat;
  proposer == vi_address v0.
Definition test_deterministic_selection (e1 e2 e3 : barray 32) : Test :=
  let validators := make_validators [(e1, 100); (e2, 200); (e3, 300)] in
  let parent := hash (b_ "parent") in
  p1 ← unwrap (select_proposer validators parent 1);
  p2 ← unwrap (select_proposer validators parent 1);
  p1 == p2.
(** The proposers of the blocks [0 .. n-1]. *)
Definition proposers_of (validators : list ValidatorInfo) (parent : Blake3Hash) (n : Z) : option (list Address) :=
  mapM (λ i, unwrap (select_proposer validators parent i)) (seqZ 0 n).
Definition test_different_blocks_different_proposers (e1 e2 e3 : barray 32) : Test :=
  let validators := make_validators [(e1, 100); (e2, 100); (e3, 100)] in
  let parent := hash (b_ "parent") in
  proposers ← proposers_of validators parent 100;
  assert (1 <? size (list_to_set proposers : gset Address))%nat.
Definition test_empty_validators : Test :=
  let parent := hash (b_ "parent") in
  assert (is_err (select_proposer [] parent 1)).
Definition test_weighted_selection_bias (e1 e2 e3 : barray 32) : Test :=
  let validators := make_validators [(e1, 9000); (e2, 500); (e3, 500)] in
  let parent := hash (b_ "test") in
  proposers ← proposers_of validators parent 1000;
  let counts := (λ v, length (List.filter (λ p, bool_decide (p = vi_address v)) proposers)) <$> validators in
  match counts with
  | [c0; c1; c2] => assert (c1 + c2 <? c0)%nat
  | _ => None
  end.

(** *** slashing.rs *)
Definition make_slasher : ConsensusParams := ConsensusParams_default.
Definition test_double_sign_slash (entropy : barray 32) : Test :=
  let slasher := make_slasher in
  let validator := make_validator entropy 1000000000000000000 in
  let reason := DoubleSign (hash (b_ "block_a")) (hash (b_ "block_b")) 100 in
  penalty ← evaluate_evidence slasher reason validator;
  _ ← assert (sp_jail penalty);
  _ ← assert (0 <? sp_amount penalty);
  let original_stake := vi_stake validator in
  let validator := apply_slash slasher validator penalty 1000 in
  _ ← assert (vi_stake validator <? original_stake);
  _ ← assert (bool_decide (is_Some (vi_jailed_until validator)));
  vi_slash_count validator == 1.
Definition test_downtime_below_threshold (entropy : barray 32) : Test :=
  let slasher := make_slasher in
  let validator := make_validator entropy 1000000000000000000 in
  let reason := Downtime 10 100 in
  evaluate_evidence slasher reason validator == None.
Definition test_detect_double_sign : Test :=
  let h1 := hash (b_ "block1") in
  let h2 := hash (b_ "block2") in
  _ ← assert (bool_decide (is_Some (detect_double_sign h1 h2 100)));
  assert (bool_decide (¬ is_Some (detect_double_sign h1 h1 100))).

(** *** tx_pool.rs: [order] enumerates the pool *)
Definition make_signed_tx (kp : KeyPair) (nonce gas_price : Z) : SignedTransaction :=
  let tx := {| tx_chain_id := 1; tx_nonce := nonce; tx_from := KeyPair_address kp; tx_to := Some Address_ZERO;
    tx_value := 100; tx_tx_type := Transfer; tx_gas_limit := 21000; tx_gas_price := gas_price; tx_data := [];
    tx_timestamp := 1000 |} in
  SignedTransaction_new tx kp.
(** [pool.insert(tx).unwrap()] *)
Definition insert_unwrap (pool : TransactionPool) (tx : SignedTransaction) (now : Z) : option TransactionPool :=
  match pool_insert pool tx now with (pool, Ok _) => Some pool | (_, Err _) => None end.
Definition test_insert_and_get (entropy : barray 32) (now : Z) : Test :=
  let pool := TransactionPool_new 100 1 in
  let kp := KeyPair_generate entropy in
  let tx := make_signed_tx kp 0 10 in
  let hash := stx_tx_hash tx in
  pool ← insert_unwrap pool tx now;
  _ ← assert (pool_contains pool hash);
  pending_count pool == 1%nat.
Definition test_duplicate_rejection (entropy : barray 32) (now : Z) : Test :=
  let pool := TransactionPool_new 100 1 in
  let kp := KeyPair_generate entropy in
  let tx := make_signed_tx kp 0 10 in
  pool ← insert_unwrap pool tx now;
  assert (is_err (pool_insert pool tx now).2).
Definition test_gas_price_minimum (entropy : barray 32) (now : Z) : Test :=
  let pool := TransactionPool_new 100 5 in
  let kp := KeyPair_generate entropy in
  let tx := make_signed_tx kp 0 1 in
  assert (is_err (pool_insert pool tx now).2).
Definition test_select_transactions (entropy : barray 32) (now : Z) : Test :=
  let pool := TransactionPool_new 100 1 in
  let kp := KeyPair_generate entropy in
  pool ← foldl (λ p i, pool ← p; insert_unwrap pool (make_signed_tx kp i (10 - i)) now) (Some pool) (seqZ 0 5);
  let selected := select_transactions pool (map_to_list (tp_pending pool)) 100000 3 in
  length selected == 3%nat.
Definition test_remove_transaction (entropy : barray 32) (now : Z) : Test :=
  let pool := TransactionPool_new 100 1 in
  let kp := KeyPair_generate entropy in
  let tx := make_signed_tx kp 0 10 in
  let hash := stx_tx_hash tx in
  pool ← insert_unwrap pool tx now;
  let '(pool, removed) := pool_remove pool hash in
  _ ← assert (bool_decide (is_Some removed));
  _ ← assert (negb (pool_contains pool hash));
  pending_count pool == 0%nat.
End ConsensusTests.

(** ** The tests pass *)
Lemma assert_eq {A} `{EqDecision A} (x y : A) : x = y → passes (assert (bool_decide (x = y))) = true.
Proof. intros ->. by rewrite bool_decide_eq_true_2. Qed.
Lemma assert_true b : b = true → passes (assert b) = true.
Proof. by intros ->. Qed.

Section EveryKey.
Context `{CryptoPrims} `{!CryptoLaws} `{Rng} `{Bincode Transaction} `{Bincode BlockHeader} (e1 e2 e3 : barray 32) (now : Z).

Lemma hex_plain n (a : barray n) : array_from_hex n (hex_enc (ba_bytes a)) = Ok a.
Proof. exact (array_from_hex_encode n a false). Qed.
Lemma hex_prefixed n (a : barray n) : array_from_hex n ("0x" +:+ hex_enc (ba_bytes a)) = Ok a.
Proof. exact (array_from_hex_encode n a true). Qed.

(** For every key: hashing, hex, addresses and signatures (crates/crypto). *)
Lemma crypto_tests_pass : Forall (λ t : Test, passes t = true)
  [test_hash_deterministic; test_hash_hex_roundtrip; test_zero_hash; test_address_hex_roundtrip; test_zero_address;
   test_keypair_generate_and_sign e1; test_keypair_from_bytes e1; test_address_derivation e1;
   test_public_key_hex_roundtrip e1; test_empty_tree; test_single_leaf; test_two_leaves; test_deterministic].
Proof.
  repeat constructor; try (by apply assert_eq).
  - unfold test_hash_hex_roundtrip, Blake3Hash_from_hex, Blake3Hash_to_hex. rewrite hex_plain. by apply assert_eq.
  - unfold test_address_hex_roundtrip, Address_from_hex, Address_to_hex. rewrite hex_prefixed. by apply assert_eq.
  - unfold test_keypair_generate_and_sign. by rewrite verify_sign.
  - unfold test_public_key_hex_roundtrip, PublicKey_from_hex, PublicKey_to_hex. rewrite hex_plain. by apply assert_eq.
Qed.

(** For every key and clock: accounts, transactions, blocks, genesis and validators (crates/core). *)
Lemma core_tests_pass : Forall (λ t : Test, passes t = true)
  [test_new_account e1; test_contract_account e1; test_balance_check; test_increment_nonce;
   test_transfer_requires_recipient e1; test_deploy_requires_data e1; test_total_cost e1;
   test_tx_hash_deterministic e1; test_sign_and_verify e1; test_genesis_block e1; test_block_hash_deterministic e1;
   test_sign_and_verify_header e1; test_validate_basic_genesis e1; test_extra_data_too_large e1;
   test_devnet_genesis_valid e1 now; test_genesis_block_creation e1 now; test_empty_validators_invalid e1 now;
   test_quorum_threshold e1 e2 e3; test_active_validators e1 e2; test_jailed_validator e1;
   test_double_sign_slash e1; test_downtime_below_threshold e1; test_single_validator e1].
Proof.
  repeat constructor; try (by apply assert_eq).
  - unfold test_sign_and_verify. by rewrite (proj1 (sign_then_verify (make_transfer (KeyPair_generate e1)) _ eq_refl eq_refl)).
  - apply assert_true.
    pose proof (header_sign_then_verify (blk_header (make_genesis e1).1) (KeyPair_generate e1) Signature_default eq_refl) as [Hv _].
    exact (f_equal is_ok Hv).
  - apply assert_true. cbn. by rewrite !bool_decide_eq_true_2.
Qed.
End EveryKey.

Module Evaluated.
Import ToyCrypto ToyKeystore ToyRng.
Definition k1 : barray 32 := ba_repeat 32 Byte.x11.
Definition k2 : barray 32 := ba_repeat 32 Byte.x22.
Definition k3 : barray 32 := ba_repeat 32 Byte.x33.
Definition k4 : barray 32 := ba_repeat 32 Byte.x44.
(** Tests that need different hashes or keys, or the random source. *)
Lemma evaluated_tests_pass : Forall (λ t : Test, passes t = true)
  [test_hash_different_inputs; test_hash_multiple_domain_separation; test_address_display;
   test_invalid_signature k1 k2; test_wrong_message k1; test_proof_verification; test_proof_invalid_root;
   test_odd_number_of_leaves; test_wrong_password k1 salt0 nonce0; test_wrong_signer k1 k2;
   test_encrypt_decrypt_roundtrip k1 salt0 nonce0; test_file_roundtrip (∅ : gmap string bytes) "/tmp" k1 salt0 nonce0;
   test_invalid_word_count (λ n, replicate n Byte.x05); test_from_phrase_roundtrip (λ n, replicate n Byte.x05);
   test_keypair_derivation_deterministic (λ n, replicate n Byte.x05);
   test_different_passwords_different_keys (λ n, replicate n Byte.x05);
   test_gas_meter_consume; test_gas_meter_overflow; test_gas_meter_exact;
   test_finality_with_quorum k1 k2 k3 5 6; test_single_vote_not_enough k1 k2 k3 5; test_invalid_voter k1 k2 k3 k4 5;
   test_deterministic_selection k1 k2 k3; test_different_blocks_different_proposers k1 k2 k3;
   test_empty_validators; test_weighted_selection_bias k1 k2 k3; test_detect_double_sign;
   test_insert_and_get k1 5; test_duplicate_rejection k1 5; test_gas_price_minimum k1 5; test_select_transactions k1 5;
   test_remove_transaction k1 5].
Proof. repeat (constructor; [by vm_compute|]). constructor. Qed.
End Evaluated.

(** The word counts follow from the documented length of a phrase: three words for every
    four bytes of entropy. *)
Lemma word_counts_pass `{CryptoPrims} `{Bip39} `{!Bip39Laws} (words : string → list string) (fill : nat → bytes) :
  (∀ e m, bip39_from_entropy e = Ok m → 4 * length (words (bip39_to_string m)) = 3 * length e)%nat →
  (∀ n, length (fill n) = n) →
  passes (test_generate_12_words words fill) = true ∧ passes (test_generate_24_words words fill) = true.
Proof.
  intros Hw Hf. split; unfold test_generate_12_words, test_generate_24_words, Mnemonic_generate, Mnemonic_phrase.
  - pose proof (bip39_entropy_ok (fill 16%nat)) as He. rewrite Hf in He.
    destruct (bip39_from_entropy (fill 16%nat)) as [m|] eqn:Hm; [|by discriminate He; left].
    apply assert_eq. apply Hw in Hm. rewrite Hf in Hm. lia.
  - pose proof (bip39_entropy_ok (fill 32%nat)) as He. rewrite Hf in He.
    destruct (bip39_from_entropy (fill 32%nat)) as [m|] eqn:Hm; [|by discriminate He; right].
    apply assert_eq. apply Hw in Hm. rewrite Hf in Hm. lia.
Qed.
