(* ===== verification/BridgeTests.v ===== *)
(** * BridgeTests: the test modules of crates/bridge

    The [#[test]] functions of htlc.rs, state.rs, validator.rs, relay.rs, registry.rs and
    the chain adapters, as programs in the option monad of UnitTests.v.  The clock
    readings are arguments; SHA-256 is the verified implementation of Sha256.v. *)

From S2P Require Import Prelude Crypto Merkle CoreTypes Validators Storage Instances Vm Consensus Finality TxPool Keystore UnitTests Sha256 BridgeTypes Text Htlc BridgeState Relayer.

#[export] Instance sha2_verified : Sha2 := {| sha256 := simple_sha256 |}.
(** [call.unwrap()] on a method that changes its object. *)
Definition unwrap_call {M E A} (r : M * result E A) : option (M * A) :=
  match r with (m, Ok a) => Some (m, a) | (_, Err _) => None end.
Definition test_address (byte : byte) : Address := Address_from_bytes (ba_repeat 20 byte).

(** ** htlc.rs *)
Section HtlcTests.
Context `{CryptoPrims} (now : Z).

Definition test_hash_secret : Test :=
  let secret := b_ "my_secret_preimage" in
  let hash1 := hash_secret secret in
  let hash2 := hash_secret secret in
  _ ← hash1 == hash2;
  let hash3 := hash_secret (b_ "different") in
  hash1 != hash3.
Definition test_create_swap : Test :=
  let mgr := HtlcManager_new 3600 in
  let sender := test_address Byte.x01 in
  let recipient := test_address Byte.x02 in
  let secret := b_ "test_secret" in
  let hash_lock := hash_secret secret in
  '(mgr, swap) ← unwrap_call (create_swap mgr sender recipient 1000 hash_lock Ethereum "0xabc123" "500000000000000000" None now);
  _ ← sw_status swap == HActive;
  _ ← sw_amount swap == 1000;
  _ ← sw_sender swap == sender;
  sw_recipient swap == recipient.
Definition test_claim_swap : Test :=
  let mgr := HtlcManager_new 3600 in
  let sender := test_address Byte.x01 in
  let recipient := test_address Byte.x02 in
  let secret := b_ "claim_test_secret" in
  let hash_lock := hash_secret secret in
  '(mgr, swap) ← unwrap_call (create_swap mgr sender recipient 500 hash_lock Bitcoin "bc1q..." "10000" None now);
  '(mgr, claimed) ← unwrap_call (claim_swap mgr (sw_id swap) secret recipient now);
  _ ← sw_status claimed == HClaimed;
  sw_preimage claimed == Some secret.
Definition test_claim_wrong_preimage : Test :=
  let mgr := HtlcManager_new 3600 in
  let sender := test_address Byte.x01 in
  let recipient := test_address Byte.x02 in
  let secret := b_ "real_secret" in
  let hash_lock := hash_secret secret in
  '(mgr, swap) ← unwrap_call (create_swap mgr sender recipient 100 hash_lock Solana "So1..." "1000000000" None now);
  let result := (claim_swap mgr (sw_id swap) (b_ "wrong_secret") recipient now).2 in
  assert (match result with Err InvalidPreimage => true | _ => false end).
Definition test_claim_wrong_recipient : Test :=
  let mgr := HtlcManager_new 3600 in
  let sender := test_address Byte.x01 in
  let recipient := test_address Byte.x02 in
  let impostor := test_address Byte.x03 in
  let secret := b_ "auth_secret" in
  let hash_lock := hash_secret secret in
  '(mgr, swap) ← unwrap_call (create_swap mgr sender recipient 100 hash_lock Ethereum "0x..." "1" None now);
  let result := (claim_swap mgr (sw_id swap) secret impostor now).2 in
  assert (match result with Err (Unauthorized _) => true | _ => false end).
Definition test_refund_before_expiry_fails : Test :=
  let mgr := HtlcManager_new 3600 in
  let sender := test_address Byte.x01 in
  let recipient := test_address Byte.x02 in
  let hash_lock := hash_secret (b_ "s") in
  '(mgr, swap) ← unwrap_call (create_swap mgr sender recipient 100 hash_lock Polygon "0x..." "1" None now);
  let result := (refund_swap mgr (sw_id swap) sender now).2 in
  assert (match result with Err HtlcNotExpired => true | _ => false end).
Definition test_refund_expired_swap : Test :=
  let mgr := HtlcManager_new 3600 in
  let sender := test_address Byte.x01 in
  let recipient := test_address Byte.x02 in
  let hash_lock := hash_secret (b_ "expire_test") in
  let past := now -! 100 in
  let id := hex_enc (ba_bytes hash_lock) in
  let swap := {|
    sw_id := id; sw_hash_lock := hash_lock; sw_preimage := None; sw_sender := sender; sw_recipient := recipient;
    sw_amount := 100; sw_external_chain := BnbChain; sw_external_address := "0x..."; sw_external_amount := "1";
    sw_timelock := past; sw_status := HActive; sw_created_at := past -! 3600; sw_settled_at := None |} in
  let mgr := hm_set_swaps mgr (<[id := swap]> (hm_swaps mgr)) in
  '(mgr, refunded) ← unwrap_call (refund_swap mgr id sender now);
  sw_status refunded == HRefunded.
Definition test_duplicate_swap_rejected : Test :=
  let mgr := HtlcManager_new 3600 in
  let sender := test_address Byte.x01 in
  let recipient := test_address Byte.x02 in
  let hash_lock := hash_secret (b_ "dup") in
  '(mgr, _) ← unwrap_call (create_swap mgr sender recipient 100 hash_lock Ethereum "0x..." "1" None now);
  let result := (create_swap mgr sender recipient 200 hash_lock Ethereum "0x..." "2" None now).2 in
  assert (match result with Err (HtlcAlreadyExists _) => true | _ => false end).
Definition test_list_and_count : Test :=
  let mgr := HtlcManager_new 3600 in
  let sender := test_address Byte.x01 in
  let recipient := test_address Byte.x02 in
  mgr ← foldl (λ r i,
      mgr ← r;
      let secret := replicate 16 (byte_of_Z i) in
      let hash_lock := hash_secret secret in
      fst <$> unwrap_call (create_swap mgr sender recipient ((i + 1) * 100) hash_lock Ethereum
        ("0x" +:+ hex_encode [byte_of_Z i]) "1" None now)) (Some mgr) (seqZ 0 5);
  _ ← htlc_active_count mgr == 5%nat;
  let all := list_swaps (map_to_list (hm_swaps mgr)).*2 10 0 in
  _ ← length all == 5%nat;
  let page := list_swaps (map_to_list (hm_swaps mgr)).*2 2 2 in
  _ ← length page == 2%nat;
  let sender_swaps := get_swaps_by_sender mgr sender in
  length sender_swaps == 5%nat.
End HtlcTests.

(** ** registry.rs *)
Definition test_supported_chains : Test :=
  let registry := ChainRegistry_new in
  length (supported_chains registry) == 5%nat.
Definition test_tokens_for_chain : Test :=
  let registry := ChainRegistry_new in
  let eth_tokens := tokens_for_chain registry Ethereum in
  _ ← length eth_tokens == 3%nat;
  _ ← assert (existsb (λ t, bool_decide (bt_symbol t = "ETH"%string)) eth_tokens);
  assert (existsb (λ t, bool_decide (bt_symbol t = "USDT"%string)) eth_tokens).
Definition test_is_supported : Test :=
  let registry := ChainRegistry_new in
  _ ← assert (is_supported registry Bitcoin "BTC");
  _ ← assert (is_supported registry Ethereum "ETH");
  _ ← assert (is_supported registry Ethereum "USDT");
  _ ← assert (negb (is_supported registry Bitcoin "ETH"));
  assert (negb (is_supported registry Solana "DOGE")).
Definition test_get_token : Test :=
  let registry := ChainRegistry_new in
  btc ← get_token registry Bitcoin "BTC";
  _ ← bt_decimals btc == 8;
  bt_name btc == "Bitcoin"%string.

(** ** state.rs: [now] is [Utc::now()], [id_now] the second reading in [next_id] *)
Section StateTests.
Context `{CryptoPrims} (now id_now : Z).

Definition test_outbound_transfer : Test :=
  let state := BridgeState_new BridgeConfig_default in
  let sender := test_address Byte.x01 in
  '(state, transfer) ← unwrap_call (initiate_outbound state sender Ethereum "0xabc" "RCT" 1000 10 now id_now);
  _ ← br_status transfer == Pending;
  _ ← br_amount transfer == 1000;
  _ ← br_direction transfer == Outbound;
  fetched ← get_transfer state (br_id transfer);
  br_id fetched == br_id transfer.
Definition test_inbound_transfer : Test :=
  let state := BridgeState_new BridgeConfig_default in
  let recipient := test_address Byte.x02 in
  '(state, transfer) ← unwrap_call (record_inbound state Bitcoin "bc1q..." recipient "BTC" 50000 50 "0xdeadbeef" now id_now);
  _ ← br_status transfer == SourceConfirmed;
  br_direction transfer == Inbound.
Definition with_min_signatures (c : BridgeConfig) (n : Z) : BridgeConfig := {|
  bc_enabled := bc_enabled c; bc_min_signatures := n; bc_htlc_timelock_seconds := bc_htlc_timelock_seconds c;
  bc_transfer_timeout_seconds := bc_transfer_timeout_seconds c; bc_operator := bc_operator c;
  bc_accept_inbound := bc_accept_inbound c; bc_allow_outbound := bc_allow_outbound c |}.
Definition test_confirmations_and_completion : Test :=
  let state := BridgeState_new (with_min_signatures BridgeConfig_default 2) in
  let sender := test_address Byte.x01 in
  let val1 := test_address Byte.x0a in
  let val2 := test_address Byte.x0b in
  '(state, transfer) ← unwrap_call (initiate_outbound state sender Polygon "0xdef" "RCT" 500 5 now id_now);
  '(state, t) ← unwrap_call (add_confirmation state (br_id transfer) val1 now);
  _ ← br_confirmations t == 1;
  _ ← br_status t == Pending;
  '(state, t) ← unwrap_call (add_confirmation state (br_id transfer) val2 now);
  _ ← br_confirmations t == 2;
  _ ← br_status t == Validated;
  '(state, t) ← unwrap_call (complete_transfer state (br_id transfer) "0xfinaltx" now);
  br_status t == Completed.
Definition test_paused_bridge : Test :=
  let state := BridgeState_new BridgeConfig_default in
  let state := pause state in
  let '(state, result) := initiate_outbound state (test_address Byte.x01) Ethereum "0x" "RCT" 100 1 now id_now in
  _ ← assert (match result with Err BridgePaused => true | _ => false end);
  let state := unpause state in
  let '(state, result) := initiate_outbound state (test_address Byte.x01) Ethereum "0x" "RCT" 100 1 now id_now in
  assert (is_ok result).
Definition test_liquidity_tracking : Test :=
  let state := BridgeState_new BridgeConfig_default in
  '(state, _) ← unwrap_call (initiate_outbound state (test_address Byte.x01) Ethereum "0x" "ETH" 1000 10 now id_now);
  let liquidity := get_liquidity state in
  eth ← List.find (λ l, bool_decide (bl_chain l = Ethereum)) liquidity;
  bl_locked_amount eth == 1000.

(** ** validator.rs *)
Definition add_unwrap (set : BridgeValidatorSet) (kp : KeyPair) : option BridgeValidatorSet :=
  fst <$> unwrap_call (add_validator set (KeyPair_address kp) (public_key kp) 100 now).
Definition test_add_and_list_validators (e1 e2 : barray 32) : Test :=
  let set := BridgeValidatorSet_new 2 in
  let kp1 := KeyPair_generate e1 in
  let kp2 := KeyPair_generate e2 in
  set ← add_unwrap set kp1;
  set ← add_unwrap set kp2;
  _ ← validators_active_count set == 2%nat;
  _ ← assert (is_validator set (KeyPair_address kp1));
  assert (is_validator set (KeyPair_address kp2)).
Definition test_threshold_verification (e1 e2 e3 : barray 32) : Test :=
  let set := BridgeValidatorSet_new 2 in
  let kp1 := KeyPair_generate e1 in
  let kp2 := KeyPair_generate e2 in
  let kp3 := KeyPair_generate e3 in
  set ← add_unwrap set kp1;
  set ← add_unwrap set kp2;
  _ ← assert (is_ok (verify_threshold set [KeyPair_address kp1; KeyPair_address kp2]));
  _ ← assert (is_err (verify_threshold set [KeyPair_address kp1]));
  assert (is_err (verify_threshold set [KeyPair_address kp1; KeyPair_address kp3])).
Definition test_remove_validator (e : barray 32) : Test :=
  let set := BridgeValidatorSet_new 1 in
  let kp := KeyPair_generate e in
  set ← add_unwrap set kp;
  _ ← assert (is_validator set (KeyPair_address kp));
  '(set, _) ← unwrap_call (remove_validator set (KeyPair_address kp));
  _ ← assert (negb (is_validator set (KeyPair_address kp)));
  validators_active_count set == 0%nat.

(** ** relay.rs: the relayer without adapters *)
Definition setup (validators : BridgeValidatorSet) : BridgeRelayer DynAdapter :=
  BridgeRelayer_new (BridgeState_new BridgeConfig_default) validators.
(** [finalize_transfer] may panic. *)
Definition finalize_unwrap (relayer : BridgeRelayer DynAdapter) (id : string)
    : option (BridgeRelayer DynAdapter * BridgeTransfer) := finalize_transfer relayer id now ≫= unwrap_call.
Definition test_outbound_flow (e1 e2 : barray 32) : Test :=
  let kp1 := KeyPair_generate e1 in
  let kp2 := KeyPair_generate e2 in
  validators ← add_unwrap (BridgeValidatorSet_new 2) kp1;
  validators ← add_unwrap validators kp2;
  let relayer := setup validators in
  let sender := test_address Byte.x01 in
  '(relayer, transfer) ← unwrap_call (process_outbound_request relayer sender Ethereum "0xrecipient" "RCT" 10000 now id_now);
  _ ← br_status transfer == Pending;
  '(relayer, _) ← unwrap_call (submit_confirmation relayer (br_id transfer) (KeyPair_address kp1) now);
  '(relayer, t) ← unwrap_call (submit_confirmation relayer (br_id transfer) (KeyPair_address kp2) now);
  _ ← br_status t == Validated;
  '(relayer, t) ← finalize_unwrap relayer (br_id transfer);
  br_status t == Completed.
Definition test_inbound_flow (e1 e2 : barray 32) : Test :=
  let kp1 := KeyPair_generate e1 in
  let kp2 := KeyPair_generate e2 in
  validators ← add_unwrap (BridgeValidatorSet_new 2) kp1;
  validators ← add_unwrap validators kp2;
  let relayer := setup validators in
  let recipient := test_address Byte.x02 in
  '(relayer, transfer) ← unwrap_call
    (process_inbound_event relayer Bitcoin "bc1qsender" recipient "BTC" 100000 "0xbtctx" now id_now);
  _ ← br_status transfer == SourceConfirmed;
  '(relayer, _) ← unwrap_call (submit_confirmation relayer (br_id transfer) (KeyPair_address kp1) now);
  '(relayer, t) ← unwrap_call (submit_confirmation relayer (br_id transfer) (KeyPair_address kp2) now);
  _ ← br_status t == Validated;
  '(relayer, t) ← finalize_unwrap relayer (br_id transfer);
  br_status t == Completed.
Definition test_non_validator_cannot_confirm : Test :=
  let relayer := setup (BridgeValidatorSet_new 2) in
  let sender := test_address Byte.x01 in
  let non_validator := test_address (byte_of_Z 99) in
  '(relayer, transfer) ← unwrap_call (process_outbound_request relayer sender Solana "So1..." "RCT" 5000 now id_now);
  let result := (submit_confirmation relayer (br_id transfer) non_validator now).2 in
  assert (match result with Err (Unauthorized _) => true | _ => false end).
End StateTests.

(** ** chains/bitcoin.rs, ethereum.rs, solana.rs *)
Definition test_bitcoin_adapter : Test :=
  let adapter := BitcoinAdapter_default_testnet in
  _ ← ca_chain_name adapter == "Bitcoin"%string;
  ca_required_confirmations adapter == 6.
Definition test_htlc_script_generation : Test :=
  let hash_lock := ba_repeat 32 Byte.xab in
  let recipient_pk := replicate 33 Byte.x02 in
  let sender_pk := replicate 33 Byte.x03 in
  let timelock := 800000 in
  let script := build_htlc_script hash_lock recipient_pk sender_pk timelock in
  _ ← script !! 0%nat == Some Byte.x63;
  _ ← script !! 1%nat == Some Byte.xa8;
  assert (bool_decide (script ≠ [])).
Definition test_submit_unlock_bitcoin : Test :=
  let adapter := BitcoinAdapter_default_testnet in
  '(_, txid) ← bitcoin_submit_unlock adapter "bc1q..." "BTC" 100000 ≫= unwrap_call;
  String.length txid == 64%nat.
Definition test_evm_adapter_creation : Test :=
  adapter ← EvmAdapter_new Ethereum "https://eth.llamarpc.com" "0xbridge";
  _ ← ca_chain_name adapter == "Ethereum"%string;
  _ ← ca_required_confirmations adapter == 12;
  assert (ca_is_connected adapter).
Definition test_defaults : Test :=
  defaults ← EvmAdapter_defaults;
  length defaults == 3%nat.
Definition test_submit_unlock_evm : Test :=
  adapter ← EvmAdapter_new BnbChain "https://bsc.test" "0xbridge";
  '(_, tx) ← evm_submit_unlock adapter "0xrecipient" "BNB" 1000 ≫= unwrap_call;
  assert (String.prefix "0x" tx).
Definition test_solana_adapter `{CryptoPrims} : Test :=
  let adapter := SolanaAdapter_default_devnet in
  _ ← ca_chain_name adapter == "Solana"%string;
  _ ← ca_required_confirmations adapter == 32;
  assert (ca_is_connected adapter).
Definition test_submit_unlock_solana `{CryptoPrims} : Test :=
  let adapter := SolanaAdapter_default_devnet in
  '(_, sig) ← solana_submit_unlock adapter "So1recipient..." "SOL" 1000000000 ≫= unwrap_call;
  assert (bool_decide (sig ≠ ""%string)).

(** ** The tests pass *)
Module BridgeEvaluated.
Import ToyCrypto.
Definition k1 : barray 32 := ba_repeat 32 Byte.x11.
Definition k2 : barray 32 := ba_repeat 32 Byte.x22.
Definition k3 : barray 32 := ba_repeat 32 Byte.x33.
Definition noon : Z := 1700000000.
Lemma bridge_tests_pass : Forall (λ t : Test, passes t = true)
  [test_hash_secret; test_create_swap noon; test_claim_swap noon; test_claim_wrong_preimage noon;
   test_claim_wrong_recipient noon; test_refund_before_expiry_fails noon; test_refund_expired_swap noon;
   test_duplicate_swap_rejected noon; test_list_and_count noon;
   test_supported_chains; test_tokens_for_chain; test_is_supported; test_get_token;
   test_outbound_transfer noon noon; test_inbound_transfer noon noon; test_confirmations_and_completion noon noon;
   test_paused_bridge noon noon; test_liquidity_tracking noon noon;
   test_add_and_list_validators noon k1 k2; test_threshold_verification noon k1 k2 k3; test_remove_validator noon k1;
   test_outbound_flow noon noon k1 k2; test_inbound_flow noon noon k1 k2; test_non_validator_cannot_confirm noon noon;
   test_bitcoin_adapter; test_htlc_script_generation; test_submit_unlock_bitcoin; test_evm_adapter_creation;
   test_defaults; test_submit_unlock_evm; test_solana_adapter; test_submit_unlock_solana].
Proof. repeat (constructor; [by vm_compute|]). constructor. Qed.
End BridgeEvaluated.
