(* ===== verification/ContractTests.v ===== *)
(** * ContractTests: the test modules of contracts/sdk and contracts/bridge

    The [#[test]] functions run natively over the mock environment: they are computations
    of ContractSdk.v, an assertion that fails aborts.  Each passes from whatever
    environment an earlier test of the thread left behind. *)

From S2P Require Import Prelude Crypto ContractSdk Sha256 BridgeContract.

Definition check (b : bool) : contract () := if b then mret () else abort "assertion failed".
Definition modify (f : MockEnv → MockEnv) : contract () := λ e, Ok (f e, ()).
Definition gets {A} (f : MockEnv → A) : contract A := λ e, Ok (e, f e).
Definition succeeds (t : contract ()) (e : MockEnv) : bool := is_ok (t e).

(** ** contracts/sdk *)
Definition test_mock_storage_roundtrip : contract () :=
  modify mock_reset;;
  v ← storage_read (b_ "key1"); check (bool_decide (v = None));;
  storage_write (b_ "key1") (b_ "hello");;
  v ← storage_read (b_ "key1"); check (bool_decide (v = Some (b_ "hello")));;
  storage_write (b_ "key1") (b_ "updated");;
  v ← storage_read (b_ "key1"); check (bool_decide (v = Some (b_ "updated"))).
Definition test_mock_caller : contract () :=
  modify mock_reset;;
  c ← caller; check (bool_decide (c = ba_repeat 20 Byte.x00));;
  let addr := ba_repeat 20 Byte.x01 in
  modify (mock_set_caller addr);;
  c ← caller; check (bool_decide (c = addr)).
Definition test_mock_block_info : contract () :=
  modify mock_reset;;
  modify (mock_set_block_number 42);;
  modify (mock_set_block_timestamp 1700000100);;
  modify (mock_set_chain_id 1337);;
  n ← block_number; check (n =? 42);;
  t ← block_timestamp; check (t =? 1700000100);;
  c ← sdk_chain_id; check (c =? 1337).
Definition test_mock_transfer_success : contract () :=
  modify mock_reset;;
  modify (mock_set_balance 1000);;
  let to := ba_repeat 20 Byte.x02 in
  ok ← sdk_transfer to 600; check ok;;
  b ← self_balance; check (b =? 400);;
  transfers ← gets mock_get_transfers;
  check (length transfers =? 1)%nat;;
  check (bool_decide (transfers !! 0%nat = Some (to, 600))).
Definition test_mock_transfer_insufficient : contract () :=
  modify mock_reset;;
  modify (mock_set_balance 100);;
  let to := ba_repeat 20 Byte.x03 in
  ok ← sdk_transfer to 200; check (negb ok);;
  b ← self_balance; check (b =? 100);;
  transfers ← gets mock_get_transfers;
  check (bool_decide (transfers = [])).
Definition test_mock_events : contract () :=
  modify mock_reset;;
  emit_event "Event1";;
  emit_event "Event2";;
  events ← gets mock_get_events;
  check (length events =? 2)%nat;;
  check (bool_decide (events !! 0%nat = Some (b_ "Event1")));;
  check (bool_decide (events !! 1%nat = Some (b_ "Event2"))).
Definition test_mock_self_address : contract () :=
  modify mock_reset;;
  let addr := ba_repeat 20 Byte.xab in
  modify (mock_set_self_address addr);;
  a ← self_address; check (bool_decide (a = addr)).
(** [#[should_panic(expected = "contract abort: test error")]] *)
Definition test_mock_abort : contract () :=
  modify mock_reset;;
  abort "test error".

(** ** contracts/bridge *)
Definition test_sha256 : contract () :=
  let hash := ba_bytes (simple_sha256 []) in
  check (bool_decide (hash !! 0%nat = Some Byte.xe3));;
  check (bool_decide (hash !! 1%nat = Some Byte.xb0));;
  check (bool_decide (hash !! 31%nat = Some Byte.x55));;
  let hash := ba_bytes (simple_sha256 (b_ "abc")) in
  check (bool_decide (hash !! 0%nat = Some Byte.xba));;
  check (bool_decide (hash !! 1%nat = Some Byte.x78)).
(** [hex.chunks(2)] *)
Fixpoint pairs (l : bytes) : list bytes :=
  match l with a :: b :: rest => [a; b] :: pairs rest | [] => [] | l => [l] end.
Definition test_hex_encode : contract () :=
  let bytes := ba_repeat 32 Byte.xab in
  let hex := hex_encode_32 bytes in
  check (length hex =? 64)%nat;;
  check (forallb (λ chunk, bool_decide (chunk = b_ "ab")) (pairs hex));;
  let b2 := ba_of 32 ([Byte.x01] ++ replicate 30 Byte.x00 ++ [Byte.xff]) in
  let h2 := hex_encode_32 b2 in
  check (bool_decide (take 2 h2 = b_ "01"));;
  check (bool_decide (take 2 (drop 62 h2) = b_ "ff")).
Definition test_htlc_encode_decode : contract () :=
  let sender := ba_repeat 20 Byte.x01 in
  let recipient := ba_repeat 20 Byte.x02 in
  let amount := 12345 in
  let timelock := 999 in
  let status := Byte.x00 in
  let encoded := encode_htlc sender recipient amount timelock status in
  match decode_htlc encoded with
  | None => abort "called `Option::unwrap()` on a `None` value"
  | Some decoded =>
      check (bool_decide (hd_sender decoded = sender));;
      check (bool_decide (hd_recipient decoded = recipient));;
      check (hd_amount decoded =? amount);;
      check (hd_timelock decoded =? timelock);;
      check (bool_decide (hd_status decoded = status))
  end.
Definition test_init : contract () :=
  modify mock_reset;;
  let owner := ba_repeat 20 Byte.x01 in
  modify (mock_set_caller owner);;
  _ ← init;
  a ← read_address (b_ "owner"); check (bool_decide (a = owner));;
  p ← read_bool (b_ "paused"); check (negb p);;
  n ← read_u64 (b_ "htlc_count"); check (n =? 0);;
  f ← read_u64 (b_ "fee_bps"); check (f =? 10).
Definition test_pause_unpause : contract () :=
  modify mock_reset;;
  let owner := ba_repeat 20 Byte.x01 in
  modify (mock_set_caller owner);;
  _ ← init;
  _ ← pause;
  p ← read_bool (b_ "paused"); check p;;
  _ ← unpause;
  p ← read_bool (b_ "paused"); check (negb p).
Definition test_add_remove_validator : contract () :=
  modify mock_reset;;
  let owner := ba_repeat 20 Byte.x01 in
  modify (mock_set_caller owner);;
  _ ← init;
  let val_addr := ba_repeat 20 Byte.x10 in
  let vk := validator_key val_addr in
  write_bool vk true;;
  write_u64 (b_ "validator_count") 1;;
  v ← read_bool vk; check v;;
  n ← read_u64 (b_ "validator_count"); check (n =? 1);;
  write_bool vk false;;
  write_u64 (b_ "validator_count") 0;;
  v ← read_bool vk; check (negb v).

(** ** The tests pass, whatever ran before them *)
Lemma succeeds_reset (t : contract ()) e : succeeds (modify mock_reset;; t) e = succeeds t MockEnv_default.
Proof. done. Qed.
Lemma contract_tests_pass e : Forall (λ t : contract (), succeeds t e = true)
  [test_mock_storage_roundtrip; test_mock_caller; test_mock_block_info; test_mock_transfer_success;
   test_mock_transfer_insufficient; test_mock_events; test_mock_self_address;
   test_init; test_pause_unpause; test_add_remove_validator].
Proof. repeat (constructor; [etrans; [exact (succeeds_reset _ e)|by vm_compute]|]). constructor. Qed.
Lemma pure_contract_tests_pass : Forall (λ t : contract (), succeeds t MockEnv_default = true)
  [test_sha256; test_hex_encode; test_htlc_encode_decode].
Proof. repeat (constructor; [by vm_compute|]). constructor. Qed.
Lemma abort_test_panics e : test_mock_abort e = Err (Abort "contract abort: test error").
Proof. done. Qed.
