(* ===== verification/ApiWallet.v ===== *)
(** * ApiWallet: the wallet endpoints (crates/api/src/routes/wallet.rs)

    Accounts are created and imported without touching the chain; the other
    handlers decrypt the keystore in the request, build a transaction from it
    and submit it.  [None] is the panic of the keystore decryption.  Random
    bytes, the wall clock ([now_ms]) and the pool's clock ([now]) are arguments.
    The JSON text of a keystore is read and written by serde_json. *)

From S2P Require Import Prelude Crypto Merkle CoreTypes Validators Storage Vm Consensus Finality TxPool ChainState Engine BridgeTypes Text ApiTypes ApiRoutes Keystore.

Record CreateAccountRequest : Type := { ca_password : string; ca_word_count : option nat }.
Record CreateAccountResponse : Type := {
  car_address : string; car_mnemonic : string; car_public_key : string; car_keystore : Json
}.
Record ImportMnemonicRequest : Type := { im_mnemonic : string; im_password : string }.
Record ImportPrivateKeyRequest : Type := { ip_private_key : string; ip_password : string }.
Record ImportAccountResponse : Type := { iar_address : string; iar_public_key : string; iar_keystore : Json }.
Record WalletTransferRequest : Type := {
  wt_keystore : Json; wt_password : string; wt_to : string; wt_value : string;
  wt_gas_limit : option Z; wt_gas_price : option Z
}.
Record WalletStakeRequest : Type := {
  ws_keystore : Json; ws_password : string; ws_value : string;
  ws_gas_limit : option Z; ws_gas_price : option Z
}.
Record WalletUnstakeRequest : Type := {
  wu_keystore : Json; wu_password : string; wu_value : string;
  wu_gas_limit : option Z; wu_gas_price : option Z
}.
Record WalletDeployRequest : Type := {
  wd_keystore : Json; wd_password : string; wd_bytecode : string;
  wd_gas_limit : option Z; wd_gas_price : option Z
}.
Record WalletCallRequest : Type := {
  wc_keystore : Json; wc_password : string; wc_contract : string; wc_function : string;
  wc_args : option string; wc_value : option string;
  wc_gas_limit : option Z; wc_gas_price : option Z
}.
Record WalletTxResponse : Type := { wr_tx_hash : string; wr_from : string; wr_nonce : Z }.

(** serde_json at [Value]: [to_vec] and [from_slice]. *)
Class JsonText := {
  json_to_vec : Json → result string bytes;
  json_from_slice : bytes → result string Json
}.
(** Text read as a [Value] and written again reads as the same keystore. *)
Class JsonTextLaws `{JsonText} `{KeystoreCrates} : Prop := {
  json_reencode bs v bs' : json_from_slice bs = Ok v → json_to_vec v = Ok bs' →
    keystore_from_slice bs' = keystore_from_slice bs;
  (** text that reads as a keystore is a JSON value that can be written again *)
  json_keystore_text bs ks : keystore_from_slice bs = Ok ks →
    ∃ v bs', json_from_slice bs = Ok v ∧ json_to_vec v = Ok bs'
}.

(** Contract call data, as the chain's [extract_function_name] reads it:
    the length of the name in four bytes, the name, the arguments. *)
Definition call_data (function : string) (args : bytes) : bytes :=
  let func_bytes := b_ function in
  to_le_bytes 4 (as_u 32 (lenZ func_bytes)) ++ func_bytes ++ args.

Section Accounts.
Context `{CryptoPrims} `{KeystoreCrates} `{Bip39} `{JsonText}.

Definition decrypt_keystore (keystore_json : Json) (password : string) : option (result ApiError KeyPair) :=
  match json_to_vec keystore_json with
  | Err e => Some (Err (BadRequest ("Invalid keystore JSON: " +:+ e)))
  | Ok keystore_bytes =>
      r ← keystore_decrypt keystore_bytes password;
      Some (map_err (λ e, BadRequest ("Keystore decryption failed (wrong password?): " +:+ crypto_error_display e)) r)
  end.

Definition encrypt_keypair (keypair : KeyPair) (password : string) (salt : barray 32) (nonce : barray 12)
    : result ApiError Json :=
  encrypted ← map_err (λ e, Internal ("Keystore encryption failed: " +:+ crypto_error_display e))
                (keystore_encrypt keypair password salt nonce);
  map_err (λ e, Internal ("Keystore JSON parse failed: " +:+ e)) (json_from_slice encrypted).

Definition is_empty (s : string) : bool := bool_decide (s = ""%string).

Definition create_account (req : CreateAccountRequest) (fill : nat → bytes) (salt : barray 32) (nonce : barray 12)
    : result ApiError (ApiResponse CreateAccountResponse) :=
  let word_count := default 12%nat (ca_word_count req) in
  if negb (word_count =? 12)%nat && negb (word_count =? 24)%nat then
    Err (BadRequest "word_count must be 12 or 24")
  else if is_empty (ca_password req) then Err (BadRequest "password is required")
  else
    mnemonic ← map_err (λ e, Internal ("Mnemonic generation failed: " +:+ crypto_error_display e))
                 (Mnemonic_generate word_count fill);
    keypair ← map_err (λ e, Internal ("Key derivation failed: " +:+ crypto_error_display e))
                (Mnemonic_to_keypair mnemonic (ca_password req));
    keystore ← encrypt_keypair keypair (ca_password req) salt nonce;
    Ok (ApiResponse_ok {| car_address := Address_to_hex (KeyPair_address keypair);
                          car_mnemonic := Mnemonic_phrase mnemonic;
                          car_public_key := PublicKey_to_hex (public_key keypair);
                          car_keystore := keystore |}).

Definition import_response (keypair : KeyPair) (keystore : Json) : ApiResponse ImportAccountResponse :=
  ApiResponse_ok {| iar_address := Address_to_hex (KeyPair_address keypair);
                    iar_public_key := PublicKey_to_hex (public_key keypair); iar_keystore := keystore |}.

Definition import_mnemonic (req : ImportMnemonicRequest) (salt : barray 32) (nonce : barray 12)
    : result ApiError (ApiResponse ImportAccountResponse) :=
  if is_empty (im_password req) then Err (BadRequest "password is required")
  else
    mnemonic ← map_err (λ e, BadRequest ("Invalid mnemonic: " +:+ crypto_error_display e))
                 (Mnemonic_from_phrase (im_mnemonic req));
    keypair ← map_err (λ e, Internal ("Key derivation failed: " +:+ crypto_error_display e))
                (Mnemonic_to_keypair mnemonic (im_password req));
    keystore ← encrypt_keypair keypair (im_password req) salt nonce;
    Ok (import_response keypair keystore).

Definition import_private_key (req : ImportPrivateKeyRequest) (salt : barray 32) (nonce : barray 12)
    : result ApiError (ApiResponse ImportAccountResponse) :=
  if is_empty (ip_password req) then Err (BadRequest "password is required")
  else
    key_bytes ← decode_hex_arg "Invalid hex private key: " (ip_private_key req);
    match ba_try key_bytes with
    | None => Err (BadRequest "Private key must be 32 bytes (64 hex chars)")
    | Some arr =>
        keypair ← map_err (λ e, BadRequest ("Invalid private key: " +:+ crypto_error_display e))
                    (KeyPair_from_bytes arr);
        keystore ← encrypt_keypair keypair (ip_password req) salt nonce;
        Ok (import_response keypair keystore)
    end.
End Accounts.

Section WalletHandlers.
Context `{CryptoPrims} `{Wasmtime} {D : Type} `{RocksDB D} `{KeystoreCrates} `{JsonText}.
Context `{Bincode Transaction} `{Bincode BlockHeader} `{Bincode Block} `{Bincode Z} `{Bincode Account}
  `{Bincode SignedTransaction} `{Bincode (Z * U32)} `{Bincode TransactionReceipt}
  `{Bincode ValidatorInfo} `{Bincode EpochInfo}.
#[local] Existing Instance rocks_store.
Implicit Types st : AppState D.

Definition get_nonce st (address : Address) : result ApiError Z :=
  r ← storage_try (get_account (app_storage st) address);
  Ok (match r with Some account => acc_nonce account | None => 0 end).
Definition get_chain_id st : Z := ci_chain_id (app_chain_info st).

Definition sign_and_submit st (keypair : KeyPair) (tx : Transaction) (now : Z)
    : AppState D * result ApiError WalletTxResponse :=
  let signed := SignedTransaction_new tx keypair in
  match stx_verify signed with
  | Err e => (st, Err (verify_failed e))
  | Ok _ =>
      let '(e, r) := on_transaction_received (app_consensus st) signed now in
      (set_consensus st e,
       match r with
       | Err err => Err (from_consensus_error err)
       | Ok _ => Ok {| wr_tx_hash := Blake3Hash_display (stx_tx_hash signed);
                       wr_from := Address_to_hex (tx_from (stx_transaction signed));
                       wr_nonce := tx_nonce (stx_transaction signed) |}
       end)
  end.

(** The frame of the five handlers: decrypt, build the transaction from the
    keypair, sign and submit. *)
Definition wallet_send st (keystore : Json) (password : string)
    (build : KeyPair → result ApiError Transaction) (now : Z)
    : option (AppState D * result ApiError (ApiResponse WalletTxResponse)) :=
  r ← decrypt_keystore keystore password;
  Some (match (keypair ← r; tx ← build keypair; Ok (keypair, tx)) with
        | Err e => (st, Err e)
        | Ok (keypair, tx) =>
            let '(st, resp) := sign_and_submit st keypair tx now in (st, ApiResponse_ok <$> resp)
        end).

Definition parse_value (s : string) : result ApiError Z := ok_or (parse_uint 128 s) (BadRequest "Invalid value").

Definition send_transfer st (req : WalletTransferRequest) (now_ms now : Z) :=
  wallet_send st (wt_keystore req) (wt_password req) (λ keypair,
    let from := KeyPair_address keypair in
    to ← bad_request "Invalid to address: " (Address_from_hex (wt_to req));
    value ← parse_value (wt_value req);
    let chain_id := get_chain_id st in
    nonce ← get_nonce st from;
    Ok {| tx_chain_id := chain_id; tx_nonce := nonce; tx_from := from; tx_to := Some to;
          tx_value := value; tx_tx_type := Transfer; tx_gas_limit := default 21000 (wt_gas_limit req);
          tx_gas_price := default 1 (wt_gas_price req); tx_data := []; tx_timestamp := now_ms |}) now.

Definition send_stake st (req : WalletStakeRequest) (now_ms now : Z) :=
  wallet_send st (ws_keystore req) (ws_password req) (λ keypair,
    let from := KeyPair_address keypair in
    value ← parse_value (ws_value req);
    let chain_id := get_chain_id st in
    nonce ← get_nonce st from;
    Ok {| tx_chain_id := chain_id; tx_nonce := nonce; tx_from := from; tx_to := None;
          tx_value := value; tx_tx_type := Stake; tx_gas_limit := default 50000 (ws_gas_limit req);
          tx_gas_price := default 1 (ws_gas_price req); tx_data := []; tx_timestamp := now_ms |}) now.

Definition send_unstake st (req : WalletUnstakeRequest) (now_ms now : Z) :=
  wallet_send st (wu_keystore req) (wu_password req) (λ keypair,
    let from := KeyPair_address keypair in
    value ← parse_value (wu_value req);
    let chain_id := get_chain_id st in
    nonce ← get_nonce st from;
    Ok {| tx_chain_id := chain_id; tx_nonce := nonce; tx_from := from; tx_to := None;
          tx_value := value; tx_tx_type := Unstake; tx_gas_limit := default 50000 (wu_gas_limit req);
          tx_gas_price := default 1 (wu_gas_price req); tx_data := []; tx_timestamp := now_ms |}) now.

Definition deploy_contract st (req : WalletDeployRequest) (now_ms now : Z) :=
  wallet_send st (wd_keystore req) (wd_password req) (λ keypair,
    let from := KeyPair_address keypair in
    bytecode ← decode_hex_arg "Invalid hex bytecode: " (wd_bytecode req);
    if (length bytecode =? 0)%nat then Err (BadRequest "Bytecode cannot be empty")
    else
      let chain_id := get_chain_id st in
      nonce ← get_nonce st from;
      Ok {| tx_chain_id := chain_id; tx_nonce := nonce; tx_from := from; tx_to := None;
            tx_value := 0; tx_tx_type := ContractDeploy; tx_gas_limit := default 1000000 (wd_gas_limit req);
            tx_gas_price := default 1 (wd_gas_price req); tx_data := bytecode; tx_timestamp := now_ms |}) now.

Definition call_contract_route st (req : WalletCallRequest) (now_ms now : Z) :=
  wallet_send st (wc_keystore req) (wc_password req) (λ keypair,
    let from := KeyPair_address keypair in
    contract ← bad_request "Invalid contract address: " (Address_from_hex (wc_contract req));
    value ← parse_value (default "0"%string (wc_value req));
    let args_hex := strip_0x (default ""%string (wc_args req)) in
    args ← (if is_empty args_hex then Ok []
            else map_err (λ e, BadRequest ("Invalid hex args: " +:+ e)) (hex_dec args_hex));
    let chain_id := get_chain_id st in
    nonce ← get_nonce st from;
    Ok {| tx_chain_id := chain_id; tx_nonce := nonce; tx_from := from; tx_to := Some contract;
          tx_value := value; tx_tx_type := ContractCall; tx_gas_limit := default 500000 (wc_gas_limit req);
          tx_gas_price := default 1 (wc_gas_price req); tx_data := call_data (wc_function req) args;
          tx_timestamp := now_ms |}) now.
End WalletHandlers.

(** ** Properties *)
(** The call data the wallet encodes is split by the chain into the same function name
    and arguments. *)
Theorem call_data_roundtrip function args :
  from_utf8 (b_ function) = Some function → lenZ (b_ function) < 2 ^ 32 →
  extract_function_name (call_data function args) =
    if (0 <? length (b_ function))%nat && (length (b_ function) <=? 256)%nat then (function, args)
    else ("call"%string, call_data function args).
Proof.
  intros Hutf Hlen. unfold extract_function_name. set (f := b_ function) in *.
  assert (call_data function args = to_le_bytes 4 (lenZ f) ++ f ++ args) as ->.
  { unfold call_data. fold f. by rewrite as_u_small by (unfold in_u, lenZ in *; lia). }
  set (p := to_le_bytes 4 (lenZ f)). assert (length p = 4%nat) as Hp by apply length_to_le_bytes.
  rewrite !length_app, Hp. rewrite (proj2 (Nat.leb_le 4 _)) by lia.
  rewrite take_app_exact by done.
  assert (Z.to_nat (from_le_bytes p) = length f) as Hn.
  { unfold p. rewrite from_to_le_bytes by (unfold in_u; unfold lenZ in *; simpl; lia). unfold lenZ. lia. }
  rewrite Hn, (proj2 (Nat.leb_le (4 + length f) _)) by lia. rewrite andb_true_r.
  destruct (_ && _); [|done].
  rewrite (drop_app_length' p) by done. rewrite take_app_exact by done. rewrite Hutf.
  by rewrite app_assoc, (drop_app_length' (p ++ f)) by (rewrite length_app, Hp; lia).
Qed.

Section WalletProperties.
Context `{CryptoPrims} `{!CryptoLaws} `{KeystoreCrates} `{!KeystoreLaws} `{Bip39} `{!Bip39Laws}
  `{JsonText} `{!JsonTextLaws}.

Lemma decrypt_encrypt_keypair kp pw salt nonce v bs' :
  encrypt_keypair kp pw salt nonce = Ok v → json_to_vec v = Ok bs' → decrypt_keystore v pw = Some (Ok kp).
Proof.
  unfold encrypt_keypair, decrypt_keystore.
  destruct (keystore_encrypt kp pw salt nonce) as [bs|] eqn:He; [|done]. cbn [map_err mbind result_bind].
  destruct (json_from_slice bs) as [v'|] eqn:Hf; [|done]. intros [= ->] Hv. rewrite Hv.
  pose proof (keystore_decrypt_encrypt _ _ _ _ _ He) as Hd. unfold keystore_decrypt in Hd |- *.
  rewrite (json_reencode _ _ _ Hf Hv). by rewrite Hd.
Qed.
Lemma encrypt_keypair_writes kp pw salt nonce v :
  encrypt_keypair kp pw salt nonce = Ok v → ∃ bs', json_to_vec v = Ok bs'.
Proof.
  unfold encrypt_keypair. destruct (keystore_encrypt kp pw salt nonce) as [bs|] eqn:He; [|done].
  cbn [map_err mbind result_bind]. destruct (json_from_slice bs) as [v'|] eqn:Hf; [|done]. intros [= ->].
  assert (∃ ks, keystore_from_slice bs = Ok ks) as [ks Hks].
  { apply keystore_decrypt_encrypt, keystore_decrypt_sound in He as (ks & _ & _ & Hks & _). by exists ks. }
  destruct (json_keystore_text _ _ Hks) as (v2 & bs2 & Hf2 & Hw). rewrite Hf in Hf2. injection Hf2 as ->.
  by exists bs2.
Qed.

(** An account created by the API is recovered from its phrase and opened with its
    password. *)
Theorem wallet_account_recoverable req fill salt nonce resp salt' nonce' :
  create_account req fill salt nonce = Ok resp →
  ∃ data kp, ar_data resp = Some data ∧
    car_address data = Address_to_hex (KeyPair_address kp) ∧
    decrypt_keystore (car_keystore data) (ca_password req) = Some (Ok kp) ∧
    (∀ resp', import_mnemonic {| im_mnemonic := car_mnemonic data; im_password := ca_password req |} salt' nonce'
        = Ok resp' →
      ∃ data', ar_data resp' = Some data' ∧ iar_address data' = car_address data ∧
        iar_public_key data' = car_public_key data ∧
        decrypt_keystore (iar_keystore data') (ca_password req) = Some (Ok kp)).
Proof.
  unfold create_account. case_match; [done|]. destruct (is_empty (ca_password req)) eqn:Hpw; [done|].
  destruct (Mnemonic_generate _ fill) as [m|] eqn:Hg; [|done]. cbn [map_err mbind result_bind].
  destruct (Mnemonic_to_keypair m (ca_password req)) as [kp|] eqn:Hk; [|done]. cbn [map_err mbind result_bind].
  destruct (encrypt_keypair kp _ salt nonce) as [v|] eqn:He; [|done]. intros [= <-].
  eexists _, kp. split; [done|]. split; [done|]. cbn [car_keystore car_mnemonic car_address car_public_key].
  destruct (encrypt_keypair_writes _ _ _ _ _ He) as [bs Hw].
  split; [by eapply decrypt_encrypt_keypair|]. intros resp'. unfold import_mnemonic.
  cbn [im_mnemonic im_password]. rewrite Hpw, Mnemonic_phrase_roundtrip. cbn [map_err mbind result_bind].
  rewrite Hk. cbn [map_err mbind result_bind].
  destruct (encrypt_keypair kp _ salt' nonce') as [v'|] eqn:He'; [|done]. intros [= <-].
  eexists. split; [done|]. split; [done|]. split; [done|].
  destruct (encrypt_keypair_writes _ _ _ _ _ He') as [bs' Hw']. by eapply decrypt_encrypt_keypair.
Qed.
End WalletProperties.

Section WalletSubmit.
Context `{CryptoPrims} `{!CryptoLaws} `{Wasmtime} {D : Type} `{RocksDB D} `{KeystoreCrates} `{JsonText}.
Context `{Bincode Transaction} `{Bincode BlockHeader} `{Bincode Block} `{Bincode Z} `{Bincode Account}
  `{Bincode SignedTransaction} `{Bincode (Z * U32)} `{Bincode TransactionReceipt}
  `{Bincode ValidatorInfo} `{Bincode EpochInfo}.
#[local] Existing Instance rocks_store.
Implicit Types st : AppState D.

(** A handler that answers [Ok] has pooled exactly the transaction it built,
    signed with the key of the keystore; otherwise the pool is unchanged. *)
Lemma wallet_send_effect st ks pw build now st' r :
  wallet_send st ks pw build now = Some (st', r) →
  app_storage st' = app_storage st ∧
  match r with
  | Ok resp => ∃ kp tx, decrypt_keystore ks pw = Some (Ok kp) ∧ build kp = Ok tx ∧
      let t := SignedTransaction_new tx kp in
      stx_verify t = Ok () ∧ pool_get (en_tx_pool (app_consensus st')) (stx_tx_hash t) = Some t ∧
      ar_data resp = Some {| wr_tx_hash := Blake3Hash_display (stx_tx_hash t);
                             wr_from := Address_to_hex (tx_from tx); wr_nonce := tx_nonce tx |}
  | Err _ => en_tx_pool (app_consensus st') = en_tx_pool (app_consensus st)
  end.
Proof.
  unfold wallet_send. destruct (decrypt_keystore ks pw) as [[kp|e]|] eqn:Hd; [|by intros [= <- <-]|done].
  cbn [mbind option_bind result_bind]. destruct (build kp) as [tx|e] eqn:Hb; [|by intros [= <- <-]].
  cbn [mbind result_bind]. unfold sign_and_submit.
  destruct (stx_verify _) as [[]|e] eqn:Hv; [|by intros [= <- <-]].
  destruct (on_transaction_received _ _ now) as [e' r'] eqn:Hr. intros [= <- <-].
  apply on_transaction_received_cases in Hr as (Hcs & _ & Hcase).
  split; [unfold app_storage; simpl; by rewrite Hcs|]. destruct r' as [u|err]; [|by destruct Hcase].
  destruct Hcase as (Hin & _ & _ & _). exists kp, tx. cbv zeta. unfold pool_get. cbn [app_consensus set_consensus].
  by rewrite Hin.
Qed.

(** A wallet transfer submits the transaction signed by the decrypted key, with the
    committed nonce. *)
Theorem wallet_transfer_effect st req now_ms now st' resp :
  send_transfer st req now_ms now = Some (st', Ok resp) →
  ∃ kp tx data, decrypt_keystore (wt_keystore req) (wt_password req) = Some (Ok kp) ∧
    let t := SignedTransaction_new tx kp in
    ar_data resp = Some data ∧ wr_tx_hash data = Blake3Hash_display (stx_tx_hash t) ∧
    pool_get (en_tx_pool (app_consensus st')) (stx_tx_hash t) = Some t ∧ stx_verify t = Ok () ∧
    tx_from tx = KeyPair_address kp ∧ Some <$> Address_from_hex (wt_to req) = Ok (tx_to tx) ∧
    parse_uint 128 (wt_value req) = Some (tx_value tx) ∧ tx_tx_type tx = Transfer ∧
    get_nonce st (tx_from tx) = Ok (tx_nonce tx) ∧
    (* the nonce is the committed one: sending again before the next block reuses it *)
    get_nonce st' (tx_from tx) = Ok (tx_nonce tx).
Proof.
  intros [Hst Hsend]%wallet_send_effect. destruct Hsend as (kp & tx & Hd & Hb & Hv & Hpool & Hresp).
  exists kp, tx, {| wr_tx_hash := Blake3Hash_display (stx_tx_hash (SignedTransaction_new tx kp));
                    wr_from := Address_to_hex (tx_from tx); wr_nonce := tx_nonce tx |}.
  split; [done|]. cbv zeta. split; [done|]. split; [done|]. clear Hresp.
  unfold parse_value, bad_request in Hb.
  destruct (Address_from_hex (wt_to req)) as [a|] eqn:Ha; [|done]. cbn [map_err mbind result_bind] in Hb.
  destruct (parse_uint 128 (wt_value req)) as [v|] eqn:Hp; [|done]. cbn [ok_or mbind result_bind] in Hb.
  destruct (get_nonce st _) as [n|] eqn:Hn; [|done]. injection Hb as <-. cbn [tx_from tx_to tx_value tx_tx_type tx_nonce].
  split_and!; try done. unfold get_nonce in *. by rewrite Hst.
Qed.
End WalletSubmit.
