(* ===== verification/ApiBridge.v ===== *)
(** * ApiBridge: the bridge endpoints (crates/api/src/routes/bridge.rs)

    The handlers share one swap manager and one relayer; the bridge state and
    the validator set they read are the ones inside the relayer.  The clocks of
    the components are arguments, and so is the order in which a concurrent map
    is listed.  [bridge_router] is the state the server starts with.
    [bridge_api_provenance] traces every swap and transfer the API shows, and every
    settlement, to the requests that were served; [transfer_completes] is about the
    relayer behind it once it has validators. *)

From S2P Require Import Prelude Crypto Merkle CoreTypes Validators Storage Vm Consensus Finality TxPool ChainState Engine BridgeTypes Htlc BridgeState Relayer Text ApiTypes ApiRoutes.

Record BridgeAppState : Type := {
  bas_htlc : HtlcManager;
  bas_relayer : BridgeRelayer DynAdapter;
  bas_registry : ChainRegistry
}.
Definition bas_bridge_state (s : BridgeAppState) : BridgeState := rl_state (bas_relayer s).
Definition bas_validators (s : BridgeAppState) : BridgeValidatorSet := rl_validators (bas_relayer s).
Definition bas_set_htlc (s : BridgeAppState) (m : HtlcManager) : BridgeAppState := {|
  bas_htlc := m; bas_relayer := bas_relayer s; bas_registry := bas_registry s |}.
Definition bas_set_relayer (s : BridgeAppState) (r : BridgeRelayer DynAdapter) : BridgeAppState := {|
  bas_htlc := bas_htlc s; bas_relayer := r; bas_registry := bas_registry s |}.

(** DTOs *)
Record TokenInfo : Type := {
  ti_symbol : string; ti_name : string; ti_decimals : Z; ti_enabled : bool;
  ti_min_amount : string; ti_max_amount : string; ti_fee_bps : Z
}.
Record ChainInfoResponse : Type := {
  cir_name : string; cir_symbol : string; cir_chain_id : Z; cir_is_evm : bool; cir_tokens : list TokenInfo
}.
Record SupportedChainsResponse : Type := { scr_chains : list ChainInfoResponse }.
Record CreateHtlcRequest : Type := {
  ch_sender : string; ch_recipient : string; ch_amount : string; ch_hash_lock : string;
  ch_external_chain : string; ch_external_address : string; ch_external_amount : string;
  ch_timelock : option Z
}.
Record ClaimHtlcRequest : Type := { cl_swap_id : string; cl_preimage : string; cl_claimer : string }.
Record RefundHtlcRequest : Type := { rf_swap_id : string; rf_refunder : string }.
Record InitiateTransferRequest : Type := {
  it_sender : string; it_dest_chain : string; it_recipient : string; it_token_symbol : string; it_amount : string
}.
Record ConfirmTransferRequest : Type := { ct_transfer_id : string; ct_validator : string }.
Record BridgeStatsResponse : Type := {
  st_total_transfers : nat; st_pending_transfers : nat; st_active_htlcs : nat;
  st_supported_chains : nat; st_bridge_validators : nat; st_liquidity : list BridgeLiquidity
}.

Section BridgeHandlers.
Context `{CryptoPrims} `{Sha2}.
Implicit Types st : BridgeAppState.

(** ** Reading *)
Definition token_info (t : BridgeToken) : TokenInfo := {|
  ti_symbol := bt_symbol t; ti_name := bt_name t; ti_decimals := bt_decimals t; ti_enabled := bt_enabled t;
  ti_min_amount := z_str (bt_min_amount t); ti_max_amount := z_str (bt_max_amount t);
  ti_fee_bps := bt_fee_bps t |}.
Definition list_chains st : ApiResponse SupportedChainsResponse :=
  ApiResponse_ok {| scr_chains := (λ chain, {|
    cir_name := chain_name chain; cir_symbol := chain_symbol chain; cir_chain_id := chain_id chain;
    cir_is_evm := is_evm chain; cir_tokens := token_info <$> tokens_for_chain (bas_registry st) chain |}) <$> all_chains |}.
Definition bridge_stats st : ApiResponse BridgeStatsResponse :=
  ApiResponse_ok {| st_total_transfers := total_transfers (bas_bridge_state st);
    st_pending_transfers := pending_transfers (bas_bridge_state st);
    st_active_htlcs := htlc_active_count (bas_htlc st);
    st_supported_chains := length all_chains;
    st_bridge_validators := validators_active_count (bas_validators st);
    st_liquidity := get_liquidity (bas_bridge_state st) |}.
Definition fee_schedule : ApiResponse (list BridgeFeeSchedule) := ApiResponse_ok get_fee_schedule.
Definition liquidity st : ApiResponse (list BridgeLiquidity) :=
  ApiResponse_ok (get_liquidity (bas_bridge_state st)).
(** [order] lists the transfers in the map's order. *)
Definition list_transfers_route (order : list BridgeTransfer) : ApiResponse (list BridgeTransfer) :=
  ApiResponse_ok (list_transfers order 100 0).
Definition get_transfer_route st (id : string) : result ApiError (ApiResponse BridgeTransfer) :=
  t ← ok_or (get_transfer (bas_bridge_state st) id) (ApiNotFound ("Transfer " +:+ id +:+ " not found"));
  Ok (ApiResponse_ok t).
Definition list_htlcs (order : list HtlcSwap) : ApiResponse (list HtlcSwap) :=
  ApiResponse_ok (list_swaps order 100 0).
Definition get_htlc st (id : string) : result ApiError (ApiResponse HtlcSwap) :=
  s ← ok_or (get_swap (bas_htlc st) id) (ApiNotFound ("HTLC " +:+ id +:+ " not found"));
  Ok (ApiResponse_ok s).
Definition list_validators_route st : ApiResponse (list BridgeValidator) :=
  ApiResponse_ok (BridgeState.list_validators (bas_validators st)).

(** ** Transfers *)
Definition bridge_bad {A} (what : string) (r : result BridgeError A) : result ApiError (ApiResponse A) :=
  map_err (λ e, BadRequest (what +:+ bridge_error_display e)) (ApiResponse_ok <$> r).

Definition parse_initiate (req : InitiateTransferRequest) : result ApiError (Address * ExternalChain * Z) :=
  sender ← bad_request "Invalid sender: " (Address_from_hex (it_sender req));
  dest ← ok_or (from_name (it_dest_chain req)) (BadRequest ("Unsupported chain: " +:+ it_dest_chain req));
  amount ← ok_or (parse_uint 128 (it_amount req)) (BadRequest "Invalid amount");
  if amount =? 0 then Err (BadRequest "Amount must be > 0") else Ok (sender, dest, amount).
Definition initiate_transfer st (req : InitiateTransferRequest) (now id_now : Z)
    : BridgeAppState * result ApiError (ApiResponse BridgeTransfer) :=
  match parse_initiate req with
  | Err e => (st, Err e)
  | Ok (sender, dest, amount) =>
      let '(r, res) := process_outbound_request (bas_relayer st) sender dest (it_recipient req)
                         (it_token_symbol req) amount now id_now in
      (bas_set_relayer st r, bridge_bad "Bridge error: " res)
  end.
Definition confirm_transfer st (req : ConfirmTransferRequest) (now : Z)
    : BridgeAppState * result ApiError (ApiResponse BridgeTransfer) :=
  match bad_request "Invalid validator: " (Address_from_hex (ct_validator req)) with
  | Err e => (st, Err e)
  | Ok validator =>
      let '(r, res) := submit_confirmation (bas_relayer st) (ct_transfer_id req) validator now in
      (bas_set_relayer st r, bridge_bad "Confirmation error: " res)
  end.

(** ** Swaps *)
Definition parse_create (req : CreateHtlcRequest)
    : result ApiError (Address * Address * Z * barray 32 * ExternalChain) :=
  sender ← bad_request "Invalid sender: " (Address_from_hex (ch_sender req));
  recipient ← bad_request "Invalid recipient: " (Address_from_hex (ch_recipient req));
  amount ← ok_or (parse_uint 128 (ch_amount req)) (BadRequest "Invalid amount");
  hash_bytes ← decode_hex_arg "Invalid hash_lock hex: " (ch_hash_lock req);
  hash_lock ← ok_or (ba_try hash_bytes) (BadRequest "hash_lock must be 32 bytes (64 hex chars)");
  chain ← ok_or (from_name (ch_external_chain req)) (BadRequest ("Unsupported chain: " +:+ ch_external_chain req));
  Ok (sender, recipient, amount, hash_lock, chain).
Definition create_htlc st (req : CreateHtlcRequest) (now : Z)
    : BridgeAppState * result ApiError (ApiResponse HtlcSwap) :=
  match parse_create req with
  | Err e => (st, Err e)
  | Ok (sender, recipient, amount, hash_lock, chain) =>
      let '(m, res) := create_swap (bas_htlc st) sender recipient amount hash_lock chain
                         (ch_external_address req) (ch_external_amount req) (ch_timelock req) now in
      (bas_set_htlc st m, bridge_bad "HTLC error: " res)
  end.
Definition claim_htlc_handler st (req : ClaimHtlcRequest) (now : Z)
    : BridgeAppState * result ApiError (ApiResponse HtlcSwap) :=
  match (claimer ← bad_request "Invalid claimer: " (Address_from_hex (cl_claimer req));
         preimage ← decode_hex_arg "Invalid preimage hex: " (cl_preimage req);
         Ok (claimer, preimage)) with
  | Err e => (st, Err e)
  | Ok (claimer, preimage) =>
      let '(m, res) := claim_swap (bas_htlc st) (cl_swap_id req) preimage claimer now in
      (bas_set_htlc st m, bridge_bad "Claim error: " res)
  end.
Definition refund_htlc_handler st (req : RefundHtlcRequest) (now : Z)
    : BridgeAppState * result ApiError (ApiResponse HtlcSwap) :=
  match bad_request "Invalid refunder: " (Address_from_hex (rf_refunder req)) with
  | Err e => (st, Err e)
  | Ok refunder =>
      let '(m, res) := refund_swap (bas_htlc st) (rf_swap_id req) refunder now in
      (bas_set_htlc st m, bridge_bad "Refund error: " res)
  end.

Definition bridge_router : BridgeAppState := {|
  bas_htlc := HtlcManager_new 3600;
  bas_relayer := BridgeRelayer_new (BridgeState_new BridgeConfig_default) (BridgeValidatorSet_new 2);
  bas_registry := ChainRegistry_new |}.

(** ** The requests that change the state, and runs of them *)
Inductive BridgeRequest : Type :=
| RqInitiate (req : InitiateTransferRequest)
| RqConfirm (req : ConfirmTransferRequest)
| RqCreate (req : CreateHtlcRequest)
| RqClaim (req : ClaimHtlcRequest)
| RqRefund (req : RefundHtlcRequest).
Definition bridge_handle st (rq : BridgeRequest) (now id_now : Z)
    : BridgeAppState * result ApiError (ApiResponse BridgeTransfer + ApiResponse HtlcSwap) :=
  match rq with
  | RqInitiate req => let '(st, r) := initiate_transfer st req now id_now in (st, inl <$> r)
  | RqConfirm req => let '(st, r) := confirm_transfer st req now in (st, inl <$> r)
  | RqCreate req => let '(st, r) := create_htlc st req now in (st, inr <$> r)
  | RqClaim req => let '(st, r) := claim_htlc_handler st req now in (st, inr <$> r)
  | RqRefund req => let '(st, r) := refund_htlc_handler st req now in (st, inr <$> r)
  end.
Inductive bridge_api_reachable : nat → BridgeAppState → Prop :=
| bar_start : bridge_api_reachable 0 bridge_router
| bar_request n st rq now id_now : bridge_api_reachable n st → 0 ≤ id_now →
    bridge_api_reachable (S n) (bridge_handle st rq now id_now).1.
End BridgeHandlers.

(** ** Properties *)
Section BridgeApi.
Context `{CryptoPrims} `{Sha2}.
Implicit Types st : BridgeAppState.

Lemma bridge_reachable_or n (r r' : BridgeRelayer DynAdapter) o cfg vs ads :
  bridge_reachable cfg vs ads n r → op_times o → bridge_apply r o = Some r' →
  bridge_reachable cfg vs ads (S n) r'.
Proof. intros Hr Ho Ha. by eapply br_step. Qed.

(** What a request does to the two components: one operation on one of them,
    or none. *)
Lemma bridge_handle_steps st rq now id_now :
  0 ≤ id_now →
  let st' := (bridge_handle st rq now id_now).1 in
  (st' = st) ∨
  (∃ o, op_times o ∧ bridge_apply (bas_relayer st) o = Some (bas_relayer st') ∧ bas_htlc st' = bas_htlc st) ∨
  (∃ o, (∀ a b v h c ea ev t, o = OpCreate a b v h c ea ev t → in_u 128 v) ∧
        bas_htlc st' = htlc_apply (bas_htlc st) o now ∧ bas_relayer st' = bas_relayer st).
Proof.
  intros Hid. destruct rq as [req|req|req|req|req]; simpl.
  - unfold initiate_transfer. destruct (parse_initiate req) as [[[a c] v]|]; [|by left].
    right; left. exists (BOutbound a c (it_recipient req) (it_token_symbol req) v now id_now).
    split; [done|]. simpl. by destruct (process_outbound_request _ _ _ _ _ _ _ _).
  - unfold confirm_transfer. destruct (bad_request _ _) as [a|]; [|by left].
    right; left. exists (BConfirm (ct_transfer_id req) a now). split; [done|]. simpl.
    by destruct (submit_confirmation _ _ _ _).
  - unfold create_htlc. destruct (parse_create req) as [[[[[a b] v] h] c]|] eqn:Hp; [|by left].
    right; right. exists (OpCreate a b v h c (ch_external_address req) (ch_external_amount req) (ch_timelock req)).
    split; [|simpl; by destruct (create_swap _ _ _ _ _ _ _ _ _ _)].
    intros a' b' w h' c' ea ev tl Heq. injection Heq as _ _ <- _ _ _ _ _.
    unfold parse_create in Hp.
    repeat match type of Hp with mbind _ ?x = _ => destruct x eqn:?; cbn [mbind result_bind] in Hp; [|discriminate Hp] end.
    match goal with E : ok_or (parse_uint 128 ?s) _ = Ok _ |- _ => destruct (parse_uint 128 s) eqn:Hv; [|done] end.
    apply parse_uint_range in Hv; [|done]. naive_solver.
  - unfold claim_htlc_handler.
    destruct (bad_request _ _) as [a|]; [|by left]. cbn [mbind result_bind].
    destruct (decode_hex_arg _ _) as [p|]; [|by left]. cbn [mbind result_bind].
    right; right. exists (OpClaim (cl_swap_id req) p a). split; [done|]. simpl. by destruct (claim_swap _ _ _ _ _).
  - unfold refund_htlc_handler. destruct (bad_request _ _) as [a|]; [|by left].
    right; right. exists (OpRefund (rf_swap_id req) a). split; [done|]. simpl. by destruct (refund_swap _ _ _ _).
Qed.

(** The swap manager and the relayer behind the API are in states that they reach by their
    own operations, so that the invariants of both carry over. *)
Lemma bridge_api_refines n st :
  bridge_api_reachable n st →
  htlc_reachable 3600 (bas_htlc st) ∧
  ∃ k, (k ≤ n)%nat ∧ bridge_reachable BridgeConfig_default (BridgeValidatorSet_new 2) ∅ k (bas_relayer st).
Proof.
  induction 1 as [|n st rq now id_now Hr [Hh (k & Hk & Hb)] Hid].
  - split; [constructor|]. exists 0%nat. split; [done|constructor].
  - destruct (bridge_handle_steps st rq now id_now Hid) as [->|[(o & Ho & Ha & ->)|(o & Ho & -> & ->)]].
    + split; [done|]. exists k. split; [lia|done].
    + split; [done|]. exists (S k). split; [lia|]. by eapply bridge_reachable_or.
    + split; [by constructor|]. exists k. split; [lia|done].
Qed.

(** No request adds a validator, and none starts an inbound transfer. *)
Definition stuck st : Prop :=
  vs_validators (bas_validators st) = ∅ ∧
  ∀ id t, get_transfer (bas_bridge_state st) id = Some t → br_status t = Pending ∧ br_confirmations t = 0.

Lemma confirm_no_validators (r : BridgeRelayer DynAdapter) id a now :
  vs_validators (rl_validators r) = ∅ →
  submit_confirmation r id a now = (r, Err (BridgeTypes.Unauthorized "Not a bridge validator")).
Proof. intros Hv. unfold submit_confirmation, is_validator. by rewrite Hv, lookup_empty. Qed.
Lemma stuck_handle st rq now id_now : stuck st → stuck (bridge_handle st rq now id_now).1.
Proof.
  intros [Hv Ht]. unfold stuck, bas_validators, bas_bridge_state in *. destruct rq as [req|req|req|req|req]; simpl.
  - unfold initiate_transfer. destruct (parse_initiate req) as [[[a c] v]|]; [|done].
    unfold process_outbound_request. destruct (v <=? _); [done|].
    unfold initiate_outbound. destruct (is_paused _); [done|]. destruct (negb _); [done|].
    destruct (next_id _ _) as [cnt i]. cbn. split; [done|]. intros id t. unfold get_transfer. simpl.
    rewrite lookup_insert_Some. intros [[<- <-]|[_ Hl]]; [done|by apply (Ht id)].
  - unfold confirm_transfer. destruct (bad_request _ _) as [a|]; [|done].
    by rewrite confirm_no_validators.
  - unfold create_htlc. destruct (parse_create req) as [[[[[a b] v] h] c]|]; [|done].
    by destruct (create_swap _ _ _ _ _ _ _ _ _ _).
  - unfold claim_htlc_handler. destruct (_ ≫= _) as [[a p]|]; [|done]. by destruct (claim_swap _ _ _ _ _).
  - unfold refund_htlc_handler. destruct (bad_request _ _) as [a|]; [|done]. by destruct (refund_swap _ _ _ _).
Qed.

(** The API has no bridge validators: whatever requests it serves, no transfer is ever
    confirmed or completed. *)
Theorem bridge_api_never_confirms n st :
  bridge_api_reachable n st →
  (∀ id t, get_transfer (bas_bridge_state st) id = Some t → br_status t = Pending ∧ br_confirmations t = 0) ∧
  (∀ req now, ∃ m, confirm_transfer st req now = (st, Err (BadRequest m))).
Proof.
  intros Hr. assert (stuck st) as [Hv Ht].
  { induction Hr as [|n st rq now id_now Hr IH Hid]; [|by apply stuck_handle].
    split; [done|]. intros id t. done. }
  split; [done|]. intros req now. unfold confirm_transfer.
  destruct (Address_from_hex (ct_validator req)) as [a|e]; simpl; [|by eexists].
  rewrite confirm_no_validators by done. eexists. by destruct st.
Qed.
End BridgeApi.

(** ** Provenance
    What the bridge holds, in terms of the requests served: a request with the time of its
    handling and of the identifier it may have been given. *)
Section Provenance.
Context `{CryptoPrims} `{Sha2}.
Implicit Types (st : BridgeAppState) (reqs : list (BridgeRequest * Z * Z)).

Definition api_run reqs : BridgeAppState :=
  foldl (λ st '(rq, now, id_now), (bridge_handle st rq now id_now).1) bridge_router reqs.
Definition served reqs (rq : BridgeRequest) (now : Z) : Prop := ∃ id_now, (rq, now, id_now) ∈ reqs.

(** The swap that a create request describes. *)
Record describes (req : CreateHtlcRequest) (now : Z) (s : HtlcSwap) : Prop := {
  ds_sender : Address_from_hex (ch_sender req) = Ok (sw_sender s);
  ds_recipient : Address_from_hex (ch_recipient req) = Ok (sw_recipient s);
  ds_amount : parse_uint 128 (ch_amount req) = Some (sw_amount s) ∧ sw_amount s ≠ 0;
  ds_lock : hex_dec (strip_0x (ch_hash_lock req)) = Ok (ba_bytes (sw_hash_lock s));
  ds_chain : from_name (ch_external_chain req) = Some (sw_external_chain s);
  ds_external : ch_external_address req = sw_external_address s ∧ ch_external_amount req = sw_external_amount s;
  ds_timelock : sw_timelock s = default (now +! 3600) (ch_timelock req) ∧ now < sw_timelock s;
  ds_created : sw_created_at s = now
}.
(** The terms of a claim and of a refund of [s]. *)
Definition claims (req : ClaimHtlcRequest) (now : Z) (s : HtlcSwap) (p : bytes) : Prop :=
  Address_from_hex (cl_claimer req) = Ok (sw_recipient s) ∧ hex_dec (strip_0x (cl_preimage req)) = Ok p ∧
  sha256 p = sw_hash_lock s ∧ now < sw_timelock s.
Definition refunds (req : RefundHtlcRequest) (now : Z) (s : HtlcSwap) : Prop :=
  Address_from_hex (rf_refunder req) = Ok (sw_sender s) ∧ sw_timelock s ≤ now.
Record swap_history reqs (id : string) (s : HtlcSwap) : Prop := {
  sh_created : ∃ req now, served reqs (RqCreate req) now ∧ describes req now s;
  sh_claimed : sw_status s = HClaimed →
    ∃ req now p, served reqs (RqClaim req) now ∧ cl_swap_id req = id ∧ claims req now s p ∧
      sw_preimage s = Some p ∧ sw_settled_at s = Some now;
  sh_refunded : sw_status s = HRefunded →
    ∃ req now, served reqs (RqRefund req) now ∧ rf_swap_id req = id ∧ refunds req now s ∧ sw_settled_at s = Some now
}.
(** The transfer that an initiate request describes, still as it was initiated. *)
Definition transfer_history reqs (t : BridgeTransfer) : Prop :=
  ∃ req now sender dest, served reqs (RqInitiate req) now ∧
    Address_from_hex (it_sender req) = Ok sender ∧ from_name (it_dest_chain req) = Some dest ∧
    parse_uint 128 (it_amount req) = Some (br_amount t) ∧ br_fee t = calculate_fee (br_amount t) dest (it_token_symbol req) ∧
    br_fee t < br_amount t ∧
    br_direction t = Outbound ∧ br_sender t = Address_to_hex sender ∧ br_dest_chain t = chain_name dest ∧
    br_recipient t = it_recipient req ∧ br_token_symbol t = it_token_symbol req ∧
    br_status t = Pending ∧ br_created_at t = now.

Lemma served_app reqs rq now r : served reqs rq now → served (reqs ++ [r]) rq now.
Proof. intros [i Hi]. exists i. apply elem_of_app. by left. Qed.
Lemma served_last reqs rq now id_now : served (reqs ++ [(rq, now, id_now)]) rq now.
Proof. exists id_now. apply elem_of_app. right. left. Qed.
Lemma swap_history_app reqs r id s : swap_history reqs id s → swap_history (reqs ++ [r]) id s.
Proof.
  intros [Hc Hl Hr]. split.
  - destruct Hc as (req & now & Hs & Hd). exists req, now. split; [by apply served_app|done].
  - intros Hst. destruct (Hl Hst) as (req & now & p & Hs & Hrest). exists req, now, p. split; [by apply served_app|done].
  - intros Hst. destruct (Hr Hst) as (req & now & Hs & Hrest). exists req, now. split; [by apply served_app|done].
Qed.
Lemma transfer_history_app reqs r t : transfer_history reqs t → transfer_history (reqs ++ [r]) t.
Proof. intros (req & now & a & c & Hs & Hrest). exists req, now, a, c. split; [by apply served_app|done]. Qed.

(** What the parsers accept. *)
Lemma parse_create_inv req a b v h c :
  parse_create req = Ok (a, b, v, h, c) →
  Address_from_hex (ch_sender req) = Ok a ∧ Address_from_hex (ch_recipient req) = Ok b ∧
  parse_uint 128 (ch_amount req) = Some v ∧ hex_dec (strip_0x (ch_hash_lock req)) = Ok (ba_bytes h) ∧
  from_name (ch_external_chain req) = Some c.
Proof.
  unfold parse_create, bad_request, decode_hex_arg.
  destruct (Address_from_hex (ch_sender req)) as [a'|]; [|done]. cbn [map_err mbind result_bind].
  destruct (Address_from_hex (ch_recipient req)) as [b'|]; [|done]. cbn [map_err mbind result_bind].
  destruct (parse_uint 128 (ch_amount req)) as [v'|]; [|done]. cbn [ok_or mbind result_bind].
  destruct (hex_dec (strip_0x (ch_hash_lock req))) as [bs|]; [|done]. cbn [map_err mbind result_bind].
  destruct (ba_try bs) as [h'|] eqn:Hb; [|done]. cbn [ok_or mbind result_bind].
  destruct (from_name (ch_external_chain req)) as [c'|]; [|done]. cbn [ok_or mbind result_bind].
  intros [= <- <- <- <- <-]. split_and!; try done. f_equal. symmetry. by apply ba_try_Some.
Qed.
Lemma parse_initiate_inv req a c v :
  parse_initiate req = Ok (a, c, v) →
  Address_from_hex (it_sender req) = Ok a ∧ from_name (it_dest_chain req) = Some c ∧
  parse_uint 128 (it_amount req) = Some v.
Proof.
  unfold parse_initiate, bad_request.
  destruct (Address_from_hex (it_sender req)) as [a'|]; [|done]. cbn [map_err mbind result_bind].
  destruct (from_name (it_dest_chain req)) as [c'|]; [|done]. cbn [ok_or mbind result_bind].
  destruct (parse_uint 128 (it_amount req)) as [v'|]; [|done]. cbn [ok_or mbind result_bind].
  destruct (v' =? 0); [done|]. by intros [= <- <- <-].
Qed.

(** *** The invariant *)
Record bridge_ok reqs st : Prop := {
  bo_default : hm_default_timelock (bas_htlc st) = 3600;
  bo_swaps id s : hm_swaps (bas_htlc st) !! id = Some s → swap_history reqs id s;
  bo_transfers id t : bs_transfers (bas_bridge_state st) !! id = Some t → transfer_history reqs t;
  bo_validators : vs_validators (bas_validators st) = ∅
}.
Lemma bridge_ok_app reqs r st : bridge_ok reqs st → bridge_ok (reqs ++ [r]) st.
Proof.
  intros [Hd Hs Ht Hv]. split; [done| | |done].
  - intros id s Hid. by apply swap_history_app, Hs.
  - intros id t Hid. by eapply transfer_history_app, Ht.
Qed.
(** One swap changes. *)
Lemma bridge_ok_swap reqs st m id s' :
  bridge_ok reqs st → hm_default_timelock m = hm_default_timelock (bas_htlc st) →
  hm_swaps m = <[id := s']> (hm_swaps (bas_htlc st)) → swap_history reqs id s' → bridge_ok reqs (bas_set_htlc st m).
Proof.
  intros [Hd Hs Ht Hv] Hm Heq Hh. split; [simpl; congruence| |done|done]. simpl. rewrite Heq. intros k s.
  rewrite lookup_insert_Some. intros [[<- <-]|[_ Hk]]; [done|by apply Hs].
Qed.
Lemma same_htlc st : bas_set_htlc st (bas_htlc st) = st.
Proof. by destruct st. Qed.
Lemma create_keeps reqs st req now i :
  bridge_ok reqs st → bridge_ok (reqs ++ [(RqCreate req, now, i)]) (create_htlc st req now).1.
Proof.
  intros Hok%(bridge_ok_app _ (RqCreate req, now, i)). unfold create_htlc.
  destruct (parse_create req) as [[[[[a b] v] h] c]|] eqn:Hp; [|done].
  destruct (parse_create_inv _ _ _ _ _ _ Hp) as (Ha & Hb & Hv & Hh & Hc).
  unfold create_swap. htlc_cases; cbn [fst]; rewrite ?same_htlc; try done.
  eapply (bridge_ok_swap _ _ _ (hex_enc (ba_bytes h))); [done|done|done|]. rewrite (bo_default _ _ Hok) in *.
  split; [|done|done]. exists req, now. split; [apply served_last|]. split; try done; split; try done; simpl; lia.
Qed.
Lemma swap_history_set reqs id s pre stat settled :
  swap_history reqs id s →
  (stat = HClaimed → ∃ req now p, served reqs (RqClaim req) now ∧ cl_swap_id req = id ∧ claims req now s p ∧
      pre = Some p ∧ settled = Some now) →
  (stat = HRefunded → ∃ req now, served reqs (RqRefund req) now ∧ rf_swap_id req = id ∧ refunds req now s ∧
      settled = Some now) →
  swap_history reqs id (sw_set s pre stat settled).
Proof.
  intros [Hc _ _] Hl Hr. split; [|exact Hl|exact Hr].
  destruct Hc as (req & now & Hs & [D1 D2 D3 D4 D5 D6 D7 D8]). exists req, now. by split.
Qed.
Lemma claim_keeps reqs st req now i :
  bridge_ok reqs st → bridge_ok (reqs ++ [(RqClaim req, now, i)]) (claim_htlc_handler st req now).1.
Proof.
  intros Hok%(bridge_ok_app _ (RqClaim req, now, i)). unfold claim_htlc_handler, bad_request, decode_hex_arg.
  destruct (Address_from_hex (cl_claimer req)) as [a|] eqn:Ha; [|done]. cbn [map_err mbind result_bind].
  destruct (hex_dec (strip_0x (cl_preimage req))) as [p|] eqn:Hp; [|done]. cbn [map_err mbind result_bind].
  destruct (claim_swap (bas_htlc st) (cl_swap_id req) p a now) as [m [s'|e]] eqn:Hc; cbn [fst].
  - apply claim_swap_ok in Hc as (s & Hs & _ & -> & Hnow & Hlock & -> & ->).
    eapply bridge_ok_swap; [done|done|done|]. apply swap_history_set; [by eapply bo_swaps| |done].
    intros _. exists req, now, p. by split_and!; [apply served_last|..].
  - destruct (claim_swap_err (bas_htlc st) (cl_swap_id req) p a now e) as [Hm|(_ & s & Hs & _ & _ & Hm)].
    + by rewrite Hc.
    + rewrite Hc in Hm. cbn in Hm. subst m. by rewrite same_htlc.
    + rewrite Hc in Hm. cbn in Hm. subst m. eapply bridge_ok_swap; [done|done|done|].
      apply swap_history_set; [by eapply bo_swaps|done|done].
Qed.
Lemma refund_keeps reqs st req now i :
  bridge_ok reqs st → bridge_ok (reqs ++ [(RqRefund req, now, i)]) (refund_htlc_handler st req now).1.
Proof.
  intros Hok%(bridge_ok_app _ (RqRefund req, now, i)). unfold refund_htlc_handler, bad_request.
  destruct (Address_from_hex (rf_refunder req)) as [a|] eqn:Ha; [|done]. cbn [map_err].
  destruct (refund_swap (bas_htlc st) (rf_swap_id req) a now) as [m [s'|e]] eqn:Hc; cbn [fst].
  - apply refund_swap_ok in Hc as (s & Hs & _ & -> & Hnow & -> & ->).
    eapply bridge_ok_swap; [done|done|done|]. apply swap_history_set; [by eapply bo_swaps|done|].
    intros _. exists req, now. by split_and!; [apply served_last|..].
  - enough (m = bas_htlc st) as -> by (by rewrite same_htlc).
    revert Hc. unfold refund_swap. destruct (hm_swaps (bas_htlc st) !! rf_swap_id req); [|by intros [= <-]].
    htlc_cases; simpl; by intros [= <-].
Qed.
Lemma initiate_keeps reqs st req now i :
  bridge_ok reqs st → bridge_ok (reqs ++ [(RqInitiate req, now, i)]) (initiate_transfer st req now i).1.
Proof.
  intros Hok%(bridge_ok_app _ (RqInitiate req, now, i)). unfold initiate_transfer.
  destruct (parse_initiate req) as [[[a c] v]|] eqn:Hp; [|done].
  destruct (parse_initiate_inv _ _ _ _ Hp) as (Ha & Hc & Hv). unfold process_outbound_request.
  destruct (Z.leb_spec v (calculate_fee v c (it_token_symbol req))) as [|Hfee]; [by destruct st|].
  unfold initiate_outbound. destruct (is_paused _); [by destruct Hok|]. destruct (negb _); [by destruct Hok|].
  destruct (next_id _ _) as [cnt id]. cbn [fst]. destruct Hok as [Hd Hs Ht Hvs]. split; [done|done| |done].
  intros k t. cbn. rewrite lookup_insert_Some. intros [[<- <-]|[_ Hk]]; [|by apply (Ht k)].
  exists req, now, a, c. by split_and!; [apply served_last|..].
Qed.
Lemma confirm_keeps reqs st req now i :
  bridge_ok reqs st → bridge_ok (reqs ++ [(RqConfirm req, now, i)]) (confirm_transfer st req now).1.
Proof.
  intros Hok%(bridge_ok_app _ (RqConfirm req, now, i)). unfold confirm_transfer.
  destruct (bad_request _ _) as [a|]; [|done]. rewrite confirm_no_validators by apply Hok. by destruct st.
Qed.
Lemma api_run_ok reqs : bridge_ok reqs (api_run reqs).
Proof.
  induction reqs as [|[[rq now] i] reqs IH] using rev_ind; [by split|].
  unfold api_run. rewrite foldl_app. cbn [foldl]. fold (api_run reqs).
  destruct rq as [req|req|req|req|req]; cbn [bridge_handle].
  - pose proof (initiate_keeps _ _ req now i IH). by destruct (initiate_transfer _ _ _ _).
  - pose proof (confirm_keeps _ _ req now i IH). by destruct (confirm_transfer _ _ _).
  - pose proof (create_keeps _ _ req now i IH). by destruct (create_htlc _ _ _).
  - pose proof (claim_keeps _ _ req now i IH). by destruct (claim_htlc_handler _ _ _).
  - pose proof (refund_keeps _ _ req now i IH). by destruct (refund_htlc_handler _ _ _).
Qed.

Lemma get_htlc_ok st id s : get_htlc st id = Ok (ApiResponse_ok s) ↔ get_swap (bas_htlc st) id = Some s.
Proof. unfold get_htlc. destruct (get_swap _ _); cbn; naive_solver. Qed.
Lemma get_transfer_ok st id t :
  get_transfer_route st id = Ok (ApiResponse_ok t) ↔ get_transfer (bas_bridge_state st) id = Some t.
Proof. unfold get_transfer_route. destruct (get_transfer _ _); cbn; naive_solver. Qed.

(** C21: Whatever bridge requests the API has served, a swap it shows was created by a
    request whose strings denote exactly its parties, amount, lock, external side and
    timelock; if it is claimed, a request naming its recipient with a preimage of the lock
    was served before the timelock, if refunded, one naming its sender from the timelock on;
    and a transfer it shows was initiated by a request that denotes its sender, destination,
    recipient, token and amount, and is still pending. Conversely such a claim or refund of
    an unsettled swap succeeds, and the swap shown afterwards is the settled one. *)
Theorem bridge_api_provenance reqs :
  let st := api_run reqs in
  (∀ id s, get_htlc st id = Ok (ApiResponse_ok s) → swap_history reqs id s) ∧
  (∀ id t, get_transfer_route st id = Ok (ApiResponse_ok t) → transfer_history reqs t) ∧
  (∀ req now s p, get_htlc st (cl_swap_id req) = Ok (ApiResponse_ok s) → ¬ settled s → claims req now s p →
     let s' := sw_set s (Some p) HClaimed (Some now) in
     let '(st', r) := claim_htlc_handler st req now in
     r = Ok (ApiResponse_ok s') ∧ get_htlc st' (cl_swap_id req) = Ok (ApiResponse_ok s')) ∧
  (∀ req now s, get_htlc st (rf_swap_id req) = Ok (ApiResponse_ok s) → ¬ settled s → refunds req now s →
     let s' := sw_set s (sw_preimage s) HRefunded (Some now) in
     let '(st', r) := refund_htlc_handler st req now in
     r = Ok (ApiResponse_ok s') ∧ get_htlc st' (rf_swap_id req) = Ok (ApiResponse_ok s')).
Proof.
  pose proof (api_run_ok reqs) as Hok. set (st := api_run reqs) in *. cbv zeta. split_and!.
  - intros id s Hs%get_htlc_ok. by eapply bo_swaps.
  - intros id t Ht%get_transfer_ok. by eapply bo_transfers.
  - intros req now s p Hs%get_htlc_ok Hns (Ha & Hp & Hl & Ht). unfold claim_htlc_handler, bad_request, decode_hex_arg.
    rewrite Ha. cbn [map_err mbind result_bind]. rewrite Hp. cbn [map_err mbind result_bind].
    rewrite (proj2 (claim_swap_ok _ _ _ _ _ _ _)) by (exists s; by split_and!).
    split; [done|]. apply get_htlc_ok. apply lookup_insert_eq.
  - intros req now s Hs%get_htlc_ok Hns (Ha & Ht). unfold refund_htlc_handler, bad_request.
    rewrite Ha. cbn [map_err].
    rewrite (proj2 (refund_swap_ok _ _ _ _ _ _)) by (exists s; by split_and!).
    split; [done|]. apply get_htlc_ok. apply lookup_insert_eq.
Qed.
End Provenance.

(** ** Transfers complete when enough validators confirm *)
Section Completion.
Context `{CryptoPrims} {A : Type} `{!ChainAdapter A}.
Implicit Types r : BridgeRelayer A.

Definition confirm_all r (id : string) (vs : list Address) (now : Z) : BridgeRelayer A :=
  foldl (λ r v, (submit_confirmation r id v now).1) r vs.

Lemma confirm_all_lookup r id vs now t :
  Forall (λ v, is_validator (rl_validators r) v = true) vs →
  get_transfer (rl_state r) id = Some t → br_status t ∈ [Pending; SourceConfirmed] →
  br_confirmations t = 0 → lenZ vs ≤ br_required_confirmations t < 2 ^ 64 → 0 < br_required_confirmations t →
  let r' := confirm_all r id vs now in
  (∀ v, is_validator (rl_validators r') v = is_validator (rl_validators r) v) ∧ rl_adapters r' = rl_adapters r ∧
  ∃ t', get_transfer (rl_state r') id = Some t' ∧ same_transfer t t' ∧ br_confirmations t' = lenZ vs ∧
    br_status t' = if br_required_confirmations t <=? lenZ vs then Validated else br_status t.
Proof.
  intros Hvs Ht Hs Hc Hreq Hpos. induction vs as [|v vs IH] using rev_ind.
  { split; [done|]. split; [done|]. exists t. split_and!; try done.
    by rewrite (proj2 (Z.leb_gt _ _)) by (unfold lenZ; simpl; lia). }
  apply Forall_app in Hvs as [Hvs [Hv _]%Forall_cons].
  assert (lenZ (vs ++ [v]) = lenZ vs + 1) as Hl by (unfold lenZ; rewrite length_app; simpl; lia).
  rewrite Hl in Hreq |- *. destruct IH as (Hval & Had & t' & Ht' & Hsame & Hc' & Hs'); [done|lia|].
  cbv zeta. unfold confirm_all in *. rewrite foldl_app. cbn [foldl]. set (r1 := foldl _ r vs) in *.
  unfold submit_confirmation. rewrite Hval, Hv. cbn [negb].
  unfold add_confirmation, update_transfer. cbn [rl_state rl_set_validators].
  unfold get_transfer in Ht'. rewrite Ht'.
  assert (br_status t' = br_status t) as Hst by (rewrite Hs'; by rewrite (proj2 (Z.leb_gt _ _)) by lia).
  assert (br_status t' ≠ Completed) as Hnc.
  { intros E. rewrite Hst in E. rewrite E in Hs. 
    do 2 (apply elem_of_cons in Hs as [Hs|Hs]; [done|]). by apply not_elem_of_nil in Hs. }
  rewrite bool_decide_eq_false_2 by done. cbn [fst rl_validators rl_set_state rl_set_validators].
  split; [intros x; by rewrite record_confirmation_validator|]. split; [done|].
  eexists. split; [apply lookup_insert_eq|]. split; [exact Hsame|]. cbn [br_confirmations br_status br_set].
  assert (wadd 64 (br_confirmations t') 1 = lenZ vs + 1) as -> by (rewrite Hc', wadd_small; [done|unfold in_u, lenZ in *; lia]).
  split; [done|]. destruct Hsame as (_ & _ & _ & _ & _ & _ & _ & _ & _ & -> & _). by rewrite Hst.
Qed.

(** The destination of an outbound transfer can be served: its chain's name is
    known, and its adapter, if there is one, accepts the unlock. *)
Definition payable r t : Prop :=
  br_direction t = Outbound →
  ∃ c, from_name (br_dest_chain t) = Some c ∧
    match rl_adapters r !! c with
    | Some a => ∃ a' h, ca_submit_unlock a (br_recipient t) (br_token_symbol t)
                          (sat_sub (br_amount t) (br_fee t)) = Some (a', Ok h)
    | None => True
    end.

(** Close a branch of finalizing with what completing a transfer leaves. *)
Ltac finish_transfer :=
  match goal with
  | Hcomp : ∀ r2 h, _ → _ |- context [complete ?r2 ?i ?h ?n] =>
      destruct (Hcomp r2 h eq_refl) as (r' & t2 & Hc2 & Hrest); rewrite Hc2; by exists r', t2
  end.

(** C32: A fresh transfer that its adapter can pay out completes: once validators have
    confirmed it as often as required, finalizing succeeds and the stored transfer is
    completed with its parties and amounts unchanged. *)
Theorem transfer_completes r id t vs now :
  get_transfer (rl_state r) id = Some t → br_status t ∈ [Pending; SourceConfirmed] →
  br_confirmations t = 0 → 0 < br_required_confirmations t < 2 ^ 64 → payable r t →
  Forall (λ v, is_validator (rl_validators r) v = true) vs → lenZ vs = br_required_confirmations t →
  ∃ r' t', finalize_transfer (confirm_all r id vs now) id now = Some (r', Ok t') ∧
    get_transfer (rl_state r') id = Some t' ∧ br_status t' = Completed ∧ same_transfer t t'.
Proof.
  intros Ht Hs Hc Hreq Hpay Hvs Hlen.
  destruct (confirm_all_lookup r id vs now t Hvs Ht Hs Hc ltac:(lia) ltac:(lia))
    as (_ & Had & t' & Ht' & Hsame & _ & Hst).
  set (r1 := confirm_all r id vs now) in *. rewrite (proj2 (Z.leb_le _ _)) in Hst by lia.
  destruct Hsame as (S1 & S2 & S3 & S4 & S5 & S6 & S7 & S8 & S9 & S10 & S11).
  assert (∀ (r2 : BridgeRelayer A) h, rl_state r2 = rl_state r1 →
    ∃ r' t2, complete r2 id h now = (r', Ok t2) ∧ get_transfer (rl_state r') id = Some t2 ∧
      br_status t2 = Completed ∧ same_transfer t t2) as Hcomp.
  { intros r2 h Hr2. unfold complete, complete_transfer, update_transfer. rewrite Hr2.
    unfold get_transfer in Ht'. rewrite Ht'. eexists _, _. split; [done|].
    unfold get_transfer. simpl. rewrite lookup_insert_eq. by split_and!. }
  unfold finalize_transfer. rewrite Ht', bool_decide_eq_true_2 by done. cbn [negb].
  rewrite S2, S4, S6, S7, S8, S9. unfold payable in Hpay. destruct (br_direction t) eqn:Hdir.
  - finish_transfer.
  - destruct (Hpay eq_refl) as (c & -> & Ha). rewrite Had. destruct (rl_adapters r !! c) as [a|].
    + destruct Ha as (a' & h & ->). cbn [mbind option_bind]. finish_transfer.
    + finish_transfer.
Qed.
End Completion.

(** ** Concrete runs *)
Module ApiBridgeWitness.
Import ToyCrypto HtlcWitness.
Definition alice_hex : string := Address_to_hex HtlcWitness.alice.
Definition bob_hex : string := Address_to_hex HtlcWitness.bob.
Definition create : BridgeRequest := RqCreate {|
  ch_sender := alice_hex; ch_recipient := bob_hex; ch_amount := "500"; ch_hash_lock := "0x" +:+ lock_id;
  ch_external_chain := "btc"; ch_external_address := "bc1q"; ch_external_amount := "0.01"; ch_timelock := None |}.
Definition claim : BridgeRequest := RqClaim {|
  cl_swap_id := lock_id; cl_preimage := hex_enc secret; cl_claimer := bob_hex |}.
Definition transfer : BridgeRequest := RqInitiate {|
  it_sender := alice_hex; it_dest_chain := "Ethereum"; it_recipient := "0xdead"; it_token_symbol := "ETH";
  it_amount := "5000" |}.
Definition st1 : BridgeAppState := (bridge_handle bridge_router create 100 100).1.
Definition st2 : BridgeAppState := (bridge_handle st1 claim 200 200).1.
Definition st3 : BridgeAppState := (bridge_handle st2 transfer 300 300).1.
Lemma st3_reachable : bridge_api_reachable 3 st3.
Proof. unfold st3, st2, st1. repeat constructor; lia. Qed.

(** Alice creates a swap, Bob claims it, Alice starts a transfer. *)
Definition served_requests : list (BridgeRequest * Z * Z) := [(create, 100, 100); (claim, 200, 200); (transfer, 300, 300)].
Lemma bridge_api_provenance_witness :
  ∃ s, get_htlc (api_run served_requests) lock_id = Ok (ApiResponse_ok s) ∧ sw_status s = HClaimed ∧
    ∃ req now p, served served_requests (RqClaim req) now ∧ cl_swap_id req = lock_id ∧ claims req now s p.
Proof.
  assert ((sw_status <$> get_swap (bas_htlc (api_run served_requests)) lock_id) = Some HClaimed) as Hc by by vm_compute.
  destruct (get_swap (bas_htlc (api_run served_requests)) lock_id) as [s|] eqn:E; [|discriminate Hc].
  injection Hc as Hc. exists s. apply get_htlc_ok in E. split; [exact E|]. split; [exact Hc|].
  destruct (sh_claimed _ _ _ (proj1 (bridge_api_provenance served_requests) lock_id s E) Hc)
    as (req & now & p & Hs & Hid & Hcl & _).
  exists req, now, p. split; [exact Hs|]. split; [exact Hid|exact Hcl].
Defined.
Lemma bridge_api_never_confirms_witness :
  total_transfers (bas_bridge_state st3) = 1%nat ∧
  ∃ m, confirm_transfer st3 {| ct_transfer_id := "bridge-300-1"; ct_validator := bob_hex |} 400 =
       (st3, Err (BadRequest m)).
Proof.
  split; [by vm_compute|].
  exact (proj2 (bridge_api_never_confirms 3 st3 st3_reachable)
           {| ct_transfer_id := "bridge-300-1"; ct_validator := bob_hex |} 400).
Defined.
Lemma transfer_completes_witness :
  ∃ r' t', finalize_transfer (confirm_all RelayerWitness.r1 RelayerWitness.id1
             [RelayerWitness.val1; RelayerWitness.val2] 9) RelayerWitness.id1 9 = Some (r', Ok t') ∧
    br_status t' = Completed.
Proof.
  destruct (get_transfer (rl_state RelayerWitness.r1) RelayerWitness.id1) as [t|] eqn:E.
  - assert (match get_transfer (rl_state RelayerWitness.r1) RelayerWitness.id1 with
            | Some t => bool_decide (br_status t = Pending ∧ br_confirmations t = 0 ∧
                          br_required_confirmations t = 2 ∧ from_name (br_dest_chain t) = Some Ethereum ∧
                          br_recipient t = "0xdead"%string)
            | None => false end = true) as Hb by by vm_compute.
    rewrite E in Hb. apply bool_decide_eq_true_1 in Hb as (H1 & H2 & H3 & H4 & H5).
    destruct (transfer_completes RelayerWitness.r1 RelayerWitness.id1 t
                [RelayerWitness.val1; RelayerWitness.val2] 9 E) as (r' & t' & Hf & _ & Hs & _).
    + rewrite H1. left.
    + exact H2.
    + rewrite H3. lia.
    + intros _. exists Ethereum. split; [exact H4|].
      destruct (rl_adapters RelayerWitness.r1 !! Ethereum) as [a|] eqn:Ea; [|done].
      assert (match rl_adapters RelayerWitness.r1 !! Ethereum with Some (DynEvm _) => true | _ => false end = true)
        as Hd by by vm_compute.
      rewrite Ea in Hd. destruct a as [e|e|e]; [|discriminate Hd..]. cbn. by eexists _, _.
    + repeat constructor; by vm_compute.
    + rewrite H3. by vm_compute.
    + exists r', t'. split; [exact Hf|exact Hs].
  - exfalso. enough (is_Some (get_transfer (rl_state RelayerWitness.r1) RelayerWitness.id1)) as Hs
      by (rewrite E in Hs; by destruct Hs).
    apply (bool_decide_eq_true_1 _). by vm_compute.
Defined.
End ApiBridgeWitness.
