(* ===== verification/ApiExamples.v ===== *)
(** * ApiExamples: the API on a concrete chain

    A two-block chain in the in-memory database, served by the handlers: the
    witnesses of the theorems of ApiRoutes.v and ApiWallet.v. *)

From S2P Require Import Prelude Crypto Merkle CoreTypes Validators Storage Vm Consensus Finality TxPool ChainState Engine Instances ChainExamples BridgeTypes Text ApiTypes ApiRoutes Keystore ApiWallet.

Import ToyCrypto ToyWasm ToyRocks ToyKeystore.
#[local] Existing Instance rocks_store.

Definition receipt_1 (t : SignedTransaction) : TransactionReceipt := receipt genesis_block 0 t TxSuccess 21000 [] None [].
Definition block_1 : Block := mk_block genesis_block [t_transfer].
Definition or_empty (r : result StorageError Db) : Db := match r with Ok d => d | Err _ => ∅ end.
Definition db0 : Db := or_empty (commit_block (∅ : Db) genesis_block [] [acct alice 1000000]).
Definition db1 : Db := or_empty (commit_block db0 block_1 [receipt_1 t_transfer] [acct alice 978500; acct bob 500]).
Definition epoch_0 : EpochInfo := {|
  ep_epoch_number := 0; ep_start_block := 0; ep_end_block := 99; ep_validator_set := vset; ep_finalized_block := None |}.
Definition consensus_1 : ConsensusEngine Db := {|
  en_config := ConsensusConfig_default;
  en_chain_state := {| cst_head := block_1; cst_height := 1; cst_current_epoch := epoch_0; cst_storage := db1 |};
  en_tx_pool := TransactionPool_new 100 1; en_finality := FinalityEngine_new vset;
  en_vm_engine := spender; en_events := []; en_keypair := None; en_seen_blocks := ∅ |}.
Definition app_1 : AppState Db := {| app_consensus := consensus_1; app_auth_config := AuthConfig_default |}.

Lemma commit_1 : commit_block db0 block_1 [receipt_1 t_transfer] [acct alice 978500; acct bob 500] = Ok (app_storage app_1).
Proof.
  change (app_storage app_1) with db1. unfold db1, or_empty.
  destruct (commit_block db0 block_1 _ _) as [d|e] eqn:E; [done|].
  exfalso. enough (is_ok (commit_block db0 block_1 [receipt_1 t_transfer] [acct alice 978500; acct bob 500]) = true)
    as Hok by (by rewrite E in Hok). by vm_compute.
Qed.
Lemma committed_block_served_witness :
  get_block_route app_1 "1" = Ok (ApiResponse_ok (BlockDto_from block_1)) ∧
  get_block_route app_1 (Blake3Hash_display (block_hash block_1)) = Ok (ApiResponse_ok (BlockDto_from block_1)) ∧
  get_transaction_route app_1 (Blake3Hash_display (stx_tx_hash t_transfer)) =
    Ok (ApiResponse_ok (TransactionDto_from t_transfer)).
Proof.
  destruct (committed_block_served app_1 db0 block_1 [receipt_1 t_transfer] [acct alice 978500; acct bob 500] commit_1)
    as (H1 & H2 & _ & H3 & _).
  - cbn. unfold in_u. lia.
  - apply NoDup_singleton.
  - reflexivity.
  - split; [exact H1|]. split; [exact H2|]. apply (H3 t_transfer). left.
Defined.

Definition blk (k : Z) : Block := if k =? 0 then genesis_block else block_1.
(** Reading a stored value by evaluation. *)
Definition reads {E A} `{EqDecision A} (r : result E (option A)) (a : A) : bool :=
  match r with Ok (Some b) => bool_decide (b = a) | _ => false end.
Lemma reads_true {E A} `{EqDecision A} (r : result E (option A)) a : reads r a = true → r = Ok (Some a).
Proof. unfold reads. destruct r as [[b|]|]; [|done..]. by intros ->%bool_decide_eq_true_1. Qed.
Lemma blk_stored k : 0 ≤ k ≤ 1 → get_block_by_number (app_storage app_1) k = Ok (Some (blk k)).
Proof.
  intros Hk. assert (k = 0 ∨ k = 1) as [-> | ->] by lia; apply reads_true; by vm_compute.
Qed.
Lemma list_blocks_pages_witness :
  list_blocks app_1 {| pg_page := 1; pg_per_page := 10 |} =
    Ok (ApiResponse_ok [BlockDto_from block_1; BlockDto_from genesis_block]) ∧
  list_blocks app_1 {| pg_page := 2; pg_per_page := 1 |} = Ok (ApiResponse_ok [BlockDto_from genesis_block]) ∧
  list_blocks app_1 {| pg_page := 9; pg_per_page := 10 |} = Ok (ApiResponse_ok [BlockDto_from genesis_block]).
Proof.
  split; [|split].
  - exact (list_blocks_pages app_1 blk 1 10 ltac:(done) ltac:(done) ltac:(lia) ltac:(lia) blk_stored).
  - exact (list_blocks_pages app_1 blk 2 1 ltac:(done) ltac:(done) ltac:(lia) ltac:(lia) blk_stored).
  - exact (list_blocks_pages app_1 blk 9 10 ltac:(done) ltac:(done) ltac:(lia) ltac:(lia) blk_stored).
Defined.

(** A transaction as a client writes it. *)
Definition t_next : SignedTransaction := mk_tx alice Transfer (Some (KeyPair_address bob)) 1 700 30000 [].
Definition req_next : SubmitTransactionRequest :=
  let tx := stx_transaction t_next in {|
  sr_chain_id := tx_chain_id tx; sr_nonce := tx_nonce tx; sr_from := Address_to_hex (tx_from tx);
  sr_to := Address_to_hex <$> tx_to tx; sr_value := "700"; sr_tx_type := "transfer";
  sr_gas_limit := tx_gas_limit tx; sr_gas_price := tx_gas_price tx; sr_data := "0x"; sr_timestamp := 0;
  sr_public_key := PublicKey_to_hex (stx_public_key t_next);
  sr_signature := Signature_to_hex (stx_signature t_next) |}.
Definition app_2 : AppState Db := (submit_transaction app_1 req_next 5).1.
Lemma submit_transaction_effect_witness :
  pool_get (en_tx_pool (app_consensus app_2)) (stx_tx_hash t_next) = Some t_next ∧
  app_storage app_2 = app_storage app_1.
Proof.
  assert (is_ok (submit_transaction app_1 req_next 5).2 = true) as Hok by by vm_compute.
  assert (parse_request req_next = Ok t_next) as Hp.
  { assert (match parse_request req_next with Ok t => bool_decide (t = t_next) | Err _ => false end = true) as Hb
      by by vm_compute.
    destruct (parse_request req_next) as [t|]; [|discriminate Hb]. by apply bool_decide_eq_true_1 in Hb as ->. }
  destruct (submit_transaction app_1 req_next 5) as [st' [resp|e]] eqn:Hs; [|discriminate Hok].
  destruct (submit_transaction_effect app_1 req_next 5 _ _ Hs) as [H1 (t & Ht & _ & _ & _ & _ & H2 & _)].
  rewrite Hp in Ht. injection Ht as <-. unfold app_2. rewrite Hs. split; [exact H2|exact H1].
Defined.

(** The text of a JSON value: a keystore's text is its own string value. *)
#[local] Instance toy_json : JsonText := {|
  json_to_vec v := match v with JStr s => Ok (String.list_byte_of_string s) | _ => Err "unsupported"%string end;
  json_from_slice bs := Ok (JStr (String.string_of_list_byte bs)) |}.
#[local] Instance toy_json_laws : JsonTextLaws.
Proof.
  split; simpl.
  - intros bs v bs' [= <-] [= <-]. by rewrite String.list_byte_of_string_of_list_byte.
  - intros bs ks _. eexists _, _. split; [done|]. simpl. by rewrite String.list_byte_of_string_of_list_byte.
Qed.
Definition create_req : CreateAccountRequest := {| ca_password := "pw"; ca_word_count := None |}.
Definition fill (n : nat) : bytes := replicate n Byte.x07.
Lemma wallet_account_recoverable_witness :
  ∃ resp data kp, create_account create_req fill salt0 nonce0 = Ok resp ∧ ar_data resp = Some data ∧
    car_address data = Address_to_hex (KeyPair_address kp) ∧
    decrypt_keystore (car_keystore data) "pw" = Some (Ok kp).
Proof.
  assert (is_ok (create_account create_req fill salt0 nonce0) = true) as Hok by by vm_compute.
  destruct (create_account create_req fill salt0 nonce0) as [resp|e] eqn:Hc; [|discriminate Hok].
  destruct (wallet_account_recoverable create_req fill salt0 nonce0 resp salt0 nonce0 Hc)
    as (data & kp & H1 & H2 & H3 & _).
  exists resp, data, kp. split; [reflexivity|]. split; [exact H1|]. split; [exact H2|exact H3].
Defined.

Definition alice_keystore : Json :=
  match encrypt_keypair alice "pw" salt0 nonce0 with Ok v => v | Err _ => JNull end.
Definition transfer_req : WalletTransferRequest := {|
  wt_keystore := alice_keystore; wt_password := "pw"; wt_to := Address_to_hex (KeyPair_address bob);
  wt_value := "250"; wt_gas_limit := None; wt_gas_price := None |}.
Lemma wallet_transfer_effect_witness :
  ∃ st' resp t, send_transfer app_1 transfer_req 1000 5 = Some (st', Ok resp) ∧
    pool_get (en_tx_pool (app_consensus st')) (stx_tx_hash t) = Some t ∧
    tx_tx_type (stx_transaction t) = Transfer ∧ stx_verify t = Ok ().
Proof.
  assert (match send_transfer app_1 transfer_req 1000 5 with Some (_, Ok _) => true | _ => false end = true) as Hok
    by by vm_compute.
  destruct (send_transfer app_1 transfer_req 1000 5) as [[st' [resp|e]]|] eqn:Hs; [|discriminate Hok..].
  destruct (wallet_transfer_effect app_1 transfer_req 1000 5 st' resp Hs)
    as (kp & tx & data & _ & _ & _ & H1 & H2 & _ & _ & _ & H3 & _).
  exists st', resp, (SignedTransaction_new tx kp). split; [reflexivity|]. split; [exact H1|]. split; [exact H3|exact H2].
Defined.

Lemma call_data_roundtrip_witness :
  extract_function_name (call_data "transfer" [Byte.x01; Byte.x02]) = ("transfer"%string, [Byte.x01; Byte.x02]).
Proof. exact (call_data_roundtrip "transfer" [Byte.x01; Byte.x02] ltac:(by vm_compute) ltac:(by vm_compute)). Defined.
