(* ===== verification/Network.v ===== *)
(** * Network: the peer-to-peer service (crates/network)

    The event loop of [NetworkService::start] as two step functions, one for a
    command from the application and one for an event of the libp2p swarm; what
    they do to the outside (publications, disconnections, events for the
    application) is their second result.  The swarm itself is libp2p's; peer
    ids are an arbitrary countable type.  [Shutdown], a closed command channel
    and a cancelled token end the loop. *)

From S2P Require Import Prelude Crypto Merkle CoreTypes Validators Storage Vm Consensus Finality.

(** ** config.rs, error.rs *)
Record NetworkConfig : Type := {
  nc_listen_addresses : list string;
  nc_external_addresses : list string;
  nc_bootnodes : list string;
  nc_max_peers : Z;
  nc_min_peers : Z;
  nc_enable_mdns : bool;
  nc_enable_kademlia : bool;
  nc_node_key_path : option string;
  nc_request_timeout_secs : Z;
  nc_connection_timeout_secs : Z;
  nc_max_message_size : Z
}.
Definition NetworkConfig_default : NetworkConfig := {|
  nc_listen_addresses := ["/ip4/0.0.0.0/tcp/30303"%string]; nc_external_addresses := []; nc_bootnodes := [];
  nc_max_peers := 50; nc_min_peers := 5; nc_enable_mdns := true; nc_enable_kademlia := true;
  nc_node_key_path := None; nc_request_timeout_secs := 30; nc_connection_timeout_secs := 10;
  nc_max_message_size := 4 * 1024 * 1024 |}.

Inductive NetworkError : Type :=
| Transport (m : string) | Protocol (m : string) | PeerError (m : string) | NetSerialization (m : string)
| ConnectionError (m : string) | Sync (m : string) | ChannelError (m : string) | ConfigError (m : string).
Definition network_error_display (e : NetworkError) : string :=
  match e with
  | Transport m => "transport error: " +:+ m
  | Protocol m => "protocol error: " +:+ m
  | PeerError m => "peer error: " +:+ m
  | NetSerialization m => "serialization error: " +:+ m
  | ConnectionError m => "connection error: " +:+ m
  | Sync m => "sync error: " +:+ m
  | ChannelError m => "channel error: " +:+ m
  | ConfigError m => "configuration error: " +:+ m
  end.

(** ** messages.rs *)
Record PeerStatus : Type := {
  ps_chain_id : Z;
  ps_best_block : Z;
  ps_best_hash : Blake3Hash;
  ps_genesis_hash : Blake3Hash;
  ps_protocol_version : Z
}.
Definition PeerStatus_default : PeerStatus := {|
  ps_chain_id := 0; ps_best_block := 0; ps_best_hash := Blake3Hash_ZERO; ps_genesis_hash := Blake3Hash_ZERO;
  ps_protocol_version := 0 |}.
Inductive NetworkMessage : Type :=
| MsgNewBlock (b : Block)
| MsgNewTransaction (t : SignedTransaction)
| MsgFinalityVote (v : FinalityVote)
| MsgBlockRequest (start count : Z)
| MsgBlockResponse (blocks : list Block)
| MsgStatusRequest
| MsgStatusResponse (s : PeerStatus).

(** ** service.rs *)
Module topics.
Definition NEW_BLOCKS : string := "/rustchain/blocks/1.0.0".
Definition NEW_TRANSACTIONS : string := "/rustchain/transactions/1.0.0".
Definition FINALITY_VOTES : string := "/rustchain/finality/1.0.0".
End topics.

Section Service.
Context {PeerId : Type} `{Countable PeerId} `{Bincode NetworkMessage}.

Inductive NetworkEvent : Type :=
| BlockReceived (block : Block) (peer : PeerId)
| TransactionReceived (tx : SignedTransaction) (peer : PeerId)
| VoteReceived (vote : FinalityVote) (peer : PeerId)
| PeerConnected (peer : PeerId)
| PeerDisconnected (peer : PeerId)
| SyncRequired (peer : PeerId) (their_height : Z).
Inductive NetworkCommand : Type :=
| BroadcastBlock (b : Block)
| BroadcastTransaction (t : SignedTransaction)
| BroadcastVote (v : FinalityVote)
| RequestBlocks (peer : PeerId) (start count : Z)
| BanPeer (peer : PeerId)
| Shutdown.

Record NetworkService : Type := {
  ns_config : NetworkConfig;
  ns_local_peer_id : PeerId;
  ns_connected_peers : gmap PeerId PeerStatus
}.
Definition NetworkService_new (config : NetworkConfig) (local_peer_id : PeerId) : NetworkService := {|
  ns_config := config; ns_local_peer_id := local_peer_id; ns_connected_peers := ∅ |}.
Definition set_peers (s : NetworkService) (m : gmap PeerId PeerStatus) : NetworkService := {|
  ns_config := ns_config s; ns_local_peer_id := ns_local_peer_id s; ns_connected_peers := m |}.
Definition connected_peer_count (s : NetworkService) : nat := size (ns_connected_peers s).

(** Calls into the swarm; their results are dropped ([let _ = ..]). *)
Inductive SwarmCall : Type :=
| Publish (topic : string) (data : bytes)
| BlacklistPeer (peer : PeerId)
| DisconnectPeer (peer : PeerId).

(** [command_rx.recv()]: the new state and the calls, or [None] to leave the loop. *)
Definition handle_command (s : NetworkService) (c : option NetworkCommand) : option (NetworkService * list SwarmCall) :=
  match c with
  | Some (BroadcastBlock b) => Some (s, [Publish topics.NEW_BLOCKS (bincode_ser (MsgNewBlock b))])
  | Some (BroadcastTransaction t) =>
      Some (s, [Publish topics.NEW_TRANSACTIONS (bincode_ser (MsgNewTransaction t))])
  | Some (BroadcastVote v) => Some (s, [Publish topics.FINALITY_VOTES (bincode_ser (MsgFinalityVote v))])
  | Some (RequestBlocks _ _ _) => Some (s, [])
  | Some (BanPeer p) =>
      Some (set_peers s (delete p (ns_connected_peers s)), [BlacklistPeer p; DisconnectPeer p])
  | Some Shutdown | None => None
  end.

(** Events of the swarm that the loop matches; [num_established] is the number
    of connections left to the peer, which the code does not look at. *)
Inductive SwarmEvent : Type :=
| GossipMessage (data : bytes) (source : option PeerId)
| NewListenAddr
| ConnectionEstablished (peer : PeerId) (num_established : nat)
| ConnectionClosed (peer : PeerId) (num_established : nat)
| OtherSwarmEvent.

(** [random_peer] is [PeerId::random()], used when a message has no source. *)
Definition handle_swarm_event (s : NetworkService) (e : SwarmEvent) (random_peer : PeerId)
    : NetworkService * list NetworkEvent :=
  match e with
  | GossipMessage data source =>
      match bincode_de data with
      | Err _ => (s, [])
      | Ok msg =>
          let peer := default random_peer source in
          (s, match msg with
              | MsgNewBlock b => [BlockReceived b peer]
              | MsgNewTransaction t => [TransactionReceived t peer]
              | MsgFinalityVote v => [VoteReceived v peer]
              | _ => []
              end)
      end
  | NewListenAddr => (s, [])
  | ConnectionEstablished p _ =>
      (set_peers s (<[p := PeerStatus_default]> (ns_connected_peers s)), [PeerConnected p])
  | ConnectionClosed p _ => (set_peers s (delete p (ns_connected_peers s)), [PeerDisconnected p])
  | OtherSwarmEvent => (s, [])
  end.

(** ** Properties *)
Context `{!BincodeLaws NetworkMessage}.

(** The payload of a broadcast, and the event it should become at a peer. *)
Definition payload_event (c : NetworkCommand) (peer : PeerId) : option NetworkEvent :=
  match c with
  | BroadcastBlock b => Some (BlockReceived b peer)
  | BroadcastTransaction t => Some (TransactionReceived t peer)
  | BroadcastVote v => Some (VoteReceived v peer)
  | _ => None
  end.
Definition topic_of (c : NetworkCommand) : option string :=
  match c with
  | BroadcastBlock _ => Some topics.NEW_BLOCKS
  | BroadcastTransaction _ => Some topics.NEW_TRANSACTIONS
  | BroadcastVote _ => Some topics.FINALITY_VOTES
  | _ => None
  end.

(** C28: What a node publishes for a broadcast command goes out on the topic of that
    command, changes nothing at the sender, and a receiving node decodes it to exactly the
    event of that command, attributed to the source. *)
Theorem gossip_roundtrip s c s' calls topic data r peer source :
  handle_command s (Some c) = Some (s', calls) → Publish topic data ∈ calls →
  topic_of c = Some topic ∧ s' = s ∧
  handle_swarm_event r (GossipMessage data source) peer =
    (r, option_list (payload_event c (default peer source))).
Proof.
  intros Hc Hp. unfold handle_command in Hc.
  destruct c; simplify_eq/=; try (by apply not_elem_of_nil in Hp);
    repeat (apply elem_of_cons in Hp as [Hp|Hp]; [try discriminate Hp; simplify_eq|]);
    try (by apply not_elem_of_nil in Hp); by rewrite bincode_de_ser.
Qed.

(** Nothing else reaches the application as a block, a transaction or a vote. *)
Lemma gossip_only_broadcasts s e peer s' evs ev :
  handle_swarm_event s e peer = (s', evs) → ev ∈ evs →
  match ev with
  | BlockReceived b _ => ∃ data src, e = GossipMessage data src ∧ bincode_de data = Ok (MsgNewBlock b)
  | TransactionReceived t _ => ∃ data src, e = GossipMessage data src ∧ bincode_de data = Ok (MsgNewTransaction t)
  | VoteReceived v _ => ∃ data src, e = GossipMessage data src ∧ bincode_de data = Ok (MsgFinalityVote v)
  | _ => True
  end.
Proof.
  unfold handle_swarm_event. intros He Hev.
  destruct e as [data src| |p k|p k|]; simplify_eq/=; try (by apply not_elem_of_nil in Hev).
  - destruct (bincode_de data) as [msg|] eqn:Hd; simplify_eq/=; [|by apply not_elem_of_nil in Hev].
    destruct msg; simplify_eq/=; try (by apply not_elem_of_nil in Hev);
      apply elem_of_cons in Hev as [->|Hev]; try (by apply not_elem_of_nil in Hev); by eexists _, _.
  - apply elem_of_cons in Hev as [->|Hev]; [done|by apply not_elem_of_nil in Hev].
  - apply elem_of_cons in Hev as [->|Hev]; [done|by apply not_elem_of_nil in Hev].
Qed.
End Service.
Arguments NetworkEvent : clear implicits.
Arguments NetworkCommand : clear implicits.
Arguments SwarmCall : clear implicits.
Arguments SwarmEvent : clear implicits.
