(* ===== verification/Node.v ===== *)
(** * Node: the application that wires the components, and clusters of nodes
    (crates/node: app.rs, config.rs, main.rs; crates/core/src/config.rs; the
    configuration of crates/storage/src/db.rs)

    The tasks that [Application::run] spawns are step functions: one forwards a
    consensus event to the network, one hands a network event to consensus, one
    is a tick of the block production loop.  A cluster is a family of nodes and
    the gossip messages published so far; its steps are the tasks of its nodes,
    client submissions, and the delivery of any published message to any node
    (lost, repeated and reordered at will). *)

From S2P Require Import Prelude Crypto Merkle CoreTypes Validators Storage Vm Consensus Finality TxPool ChainState Engine BridgeTypes Text ApiTypes ApiRoutes Keystore Network.

(** ** Configuration *)
Inductive NetworkType : Type :=
| Public
| Private (allowed_validators : list Address)
| Consortium (member_orgs : list string) (allowed_validators : list Address).
Record ChainConfig : Type := {
  chc_chain_id : Z;
  chc_chain_name : string;
  chc_network_type : NetworkType;
  chc_consensus : ConsensusParams;
  chc_gas_limit_per_block : Z;
  chc_base_gas_price : Z;
  chc_max_tx_size : Z;
  chc_max_block_transactions : Z
}.
Definition ChainConfig_default : ChainConfig := {|
  chc_chain_id := 1; chc_chain_name := "rustchain"; chc_network_type := Public;
  chc_consensus := ConsensusParams_default; chc_gas_limit_per_block := 10000000; chc_base_gas_price := 1;
  chc_max_tx_size := MAX_TRANSACTION_DATA_SIZE; chc_max_block_transactions := MAX_BLOCK_TRANSACTIONS |}.

Record StorageConfig : Type := {
  sc_path : string;
  sc_cache_size_mb : Z;
  sc_max_open_files : Z;
  sc_write_buffer_size_mb : Z;
  sc_enable_statistics : bool
}.
Definition StorageConfig_default : StorageConfig := {|
  sc_path := "./data/chaindb"; sc_cache_size_mb := 256; sc_max_open_files := 512;
  sc_write_buffer_size_mb := 64; sc_enable_statistics := false |}.
Record LoggingConfig : Type := { lg_level : string; lg_format : string; lg_file : option string }.
Definition LoggingConfig_default : LoggingConfig := {| lg_level := "info"; lg_format := "pretty"; lg_file := None |}.
Record NodeConfig : Type := {
  nd_genesis : GenesisConfig;
  nd_storage : StorageConfig;
  nd_network : NetworkConfig;
  nd_consensus : ConsensusConfig;
  nd_api : ApiConfig;
  nd_vm : VmConfig;
  nd_logging : LoggingConfig
}.
Definition set_production (c : ConsensusConfig) (b : bool) : ConsensusConfig := {|
  cc_chain_id := cc_chain_id c; cc_block_time_ms := cc_block_time_ms c;
  cc_max_transactions_per_block := cc_max_transactions_per_block c; cc_mempool_size := cc_mempool_size c;
  cc_min_gas_price := cc_min_gas_price c; cc_enable_block_production := b;
  cc_consensus_params := cc_consensus_params c; cc_gas_limit_per_block := cc_gas_limit_per_block c |}.

Section Application.
Context `{CryptoPrims}.

(** [NodeConfig::devnet()], given the key [devnet_default] generates. *)
Definition NodeConfig_devnet (keypair : KeyPair) (now : Z) : NodeConfig * KeyPair :=
  let genesis := devnet_default keypair now in
  let dft := ConsensusConfig_default in
  ({| nd_consensus := {|
        cc_chain_id := gc_chain_id genesis;
        cc_block_time_ms := cp_block_time_ms (gc_consensus_params genesis);
        cc_max_transactions_per_block := cc_max_transactions_per_block dft;
        cc_mempool_size := cc_mempool_size dft; cc_min_gas_price := cc_min_gas_price dft;
        cc_enable_block_production := true;
        cc_consensus_params := gc_consensus_params genesis;
        cc_gas_limit_per_block := gc_gas_limit genesis |};
      nd_genesis := genesis; nd_storage := StorageConfig_default; nd_network := NetworkConfig_default;
      nd_api := ApiConfig_default; nd_vm := VmConfig_default; nd_logging := LoggingConfig_default |}, keypair).

(** main.rs, [Commands::Run]: the configuration and key the application gets.
    [loaded] is [NodeConfig::load(..)?]; the [keyfile] argument is ignored. *)
Definition with_run_options (c : NodeConfig) (production : bool) (data_dir : string) : NodeConfig := {|
  nd_genesis := nd_genesis c;
  nd_storage := {| sc_path := path_join data_dir "chaindb"; sc_cache_size_mb := sc_cache_size_mb (nd_storage c);
                   sc_max_open_files := sc_max_open_files (nd_storage c);
                   sc_write_buffer_size_mb := sc_write_buffer_size_mb (nd_storage c);
                   sc_enable_statistics := sc_enable_statistics (nd_storage c) |};
  nd_network := nd_network c; nd_consensus := set_production (nd_consensus c) production;
  nd_api := nd_api c; nd_vm := nd_vm c; nd_logging := nd_logging c |}.
Definition run_config (validator : bool) (keyfile : option string) (devnet : bool) (data_dir : string)
    (loaded : result string NodeConfig) (generated : KeyPair) (now : Z)
    : result string (NodeConfig * option KeyPair) :=
  if devnet then
    let '(config, keypair) := NodeConfig_devnet generated now in
    Ok (with_run_options config true data_dir, Some keypair)
  else
    config ← loaded;
    Ok (with_run_options config validator data_dir, None).

(** Step 3 of [Application::run]: the producer's key. *)
Definition node_keypair (config : NodeConfig) (keypair : option KeyPair) (generated : KeyPair) : option KeyPair :=
  if cc_enable_block_production (nd_consensus config) then Some (default generated keypair) else None.
End Application.

(** [Commands::Init]: the genesis file, validated, on an opened database. *)
Definition init_chain `{CryptoPrims} `{Bincode BlockHeader} {D} `{ChainStore D} (loaded : result CoreError GenesisConfig) (d : D)
    : option (D * result ConsensusError (ChainState D)) :=
  match (g ← loaded; _ ← genesis_validate g; Ok g) with
  | Err e => Some (d, Err (CCore e))
  | Ok g => from_genesis g d
  end.
(** [Commands::Keygen]: the file, and the lines before it is named. *)
Definition keygen `{CryptoPrims} `{KeystoreCrates} {F} `{FileSystem F} (f : F) (keypair : KeyPair) (password output : string)
    (salt : barray 32) (nonce : barray 12) : result CryptoError (F * list string) :=
  f ← save_to_file f keypair password output salt nonce;
  Ok (f, ["Validator key generated:"; "  Address: " +:+ Address_to_hex (KeyPair_address keypair);
          "  Public key: 0x" +:+ PublicKey_to_hex (public_key keypair)])%string.

(** [broadcast::Receiver::recv] *)
Inductive Received := Event (e : ConsensusEvent) | Lagged (n : Z) | Closed.

Section Tasks.
Context `{CryptoPrims} `{Wasmtime} `{Rng} `{Bincode Transaction} `{Bincode BlockHeader}.
Context {D : Type} `{ChainStore D}.
Context {PeerId : Type} `{Countable PeerId} `{Bincode NetworkMessage}.
Implicit Types e : ConsensusEngine D.

(** Step 8, the broadcaster: the commands sent for one received event, [None]
    when the task ends. *)
Definition forward_event (ev : Received) : option (list (NetworkCommand PeerId)) :=
  match ev with
  | Event (NewBlock block) => Some [BroadcastBlock block]
  | Event (TransactionPooled _) => Some []
  | Event _ => Some []
  | Lagged _ => Some []
  | Closed => None
  end.

(** Step 9, the event handler: errors are only logged.  [None] is a panic. *)
Definition on_network_event e (ev : NetworkEvent PeerId) (now1 now2 : Z) : option (ConsensusEngine D) :=
  match ev with
  | BlockReceived block _ => fst <$> on_block_received e block now1 now2
  | TransactionReceived tx _ => Some (on_transaction_received e tx now1).1
  | VoteReceived vote _ => Some (on_vote_received e vote).1
  | _ => Some e
  end.

(** [ConsensusEngine::start], one tick of the loop: [None] for a panic; a node
    without block production never ticks. *)
Definition production_tick e (order : list (Blake3Hash * PooledTransaction)) (t1 t2 t3 : Z)
    : option (ConsensusEngine D * result ConsensusError ()) :=
  if negb (cc_enable_block_production (en_config e)) then Some (e, Ok ())
  else match en_keypair e with
       | None => Some (e, Err NotValidator)
       | Some keypair => try_produce_block e keypair order t1 t2 t3
       end.

(** The loop itself: each entry of [ticks] is the iteration order of the pool
    and the clock readings of one tick; a failed tick is logged. *)
Fixpoint production_loop e (ticks : list (list (Blake3Hash * PooledTransaction) * (Z * Z * Z)))
    : option (ConsensusEngine D) :=
  match ticks with
  | [] => Some e
  | (order, (t1, t2, t3)) :: ticks' =>
      '(e, _) ← production_tick e order t1 t2 t3;
      production_loop e ticks'
  end.

(** ** Clusters *)
Record Node : Type := {
  nd_engine : ConsensusEngine D;
  nd_service : NetworkService (PeerId := PeerId);
  nd_cursor : nat;                 (* the broadcaster's position in the event channel *)
  nd_submitted : list SignedTransaction  (* history: what clients submitted here *)
}.
Definition nd_set_engine (n : Node) e : Node := {|
  nd_engine := e; nd_service := nd_service n; nd_cursor := nd_cursor n; nd_submitted := nd_submitted n |}.
Record Cluster : Type := { clu_nodes : list Node; clu_gossip : list bytes }.

Definition published (calls : list (SwarmCall PeerId)) : list bytes :=
  omap (λ c, match c with Publish _ data => Some data | _ => None end) calls.
(** The commands of one event, handled one by one by the network service. *)
Fixpoint send_commands (s : NetworkService (PeerId := PeerId)) (cs : list (NetworkCommand PeerId))
    : option (NetworkService (PeerId := PeerId) * list bytes) :=
  match cs with
  | [] => Some (s, [])
  | c :: cs' =>
      '(s, calls) ← handle_command s (Some c);
      '(s, data) ← send_commands s cs';
      Some (s, published calls ++ data)
  end.
Fixpoint handle_events e (evs : list (NetworkEvent PeerId)) (now1 now2 : Z) : option (ConsensusEngine D) :=
  match evs with
  | [] => Some e
  | ev :: evs' => e ← on_network_event e ev now1 now2; handle_events e evs' now1 now2
  end.

Inductive cluster_step : Cluster → Cluster → Prop :=
| step_submit c i n t now :
    clu_nodes c !! i = Some n →
    cluster_step c {| clu_nodes := <[i := {| nd_engine := (on_transaction_received (nd_engine n) t now).1;
        nd_service := nd_service n; nd_cursor := nd_cursor n; nd_submitted := t :: nd_submitted n |}]> (clu_nodes c);
      clu_gossip := clu_gossip c |}
| step_produce c i n order t1 t2 t3 e r :
    clu_nodes c !! i = Some n → production_tick (nd_engine n) order t1 t2 t3 = Some (e, r) →
    cluster_step c {| clu_nodes := <[i := nd_set_engine n e]> (clu_nodes c); clu_gossip := clu_gossip c |}
| step_forward c i n ev cs s data :
    clu_nodes c !! i = Some n → en_events (nd_engine n) !! nd_cursor n = Some ev →
    forward_event (Event ev) = Some cs → send_commands (nd_service n) cs = Some (s, data) →
    cluster_step c {| clu_nodes := <[i := {| nd_engine := nd_engine n; nd_service := s;
        nd_cursor := S (nd_cursor n); nd_submitted := nd_submitted n |}]> (clu_nodes c);
      clu_gossip := clu_gossip c ++ data |}
| step_lag c i n k :
    clu_nodes c !! i = Some n →
    cluster_step c {| clu_nodes := <[i := {| nd_engine := nd_engine n; nd_service := nd_service n;
        nd_cursor := nd_cursor n + k; nd_submitted := nd_submitted n |}]> (clu_nodes c);
      clu_gossip := clu_gossip c |}
| step_deliver c i n data source random s evs e now1 now2 :
    clu_nodes c !! i = Some n → data ∈ clu_gossip c →
    handle_swarm_event (nd_service n) (GossipMessage data source) random = (s, evs) →
    handle_events (nd_engine n) evs now1 now2 = Some e →
    cluster_step c {| clu_nodes := <[i := {| nd_engine := e; nd_service := s; nd_cursor := nd_cursor n;
        nd_submitted := nd_submitted n |}]> (clu_nodes c);
      clu_gossip := clu_gossip c |}.

(** Nodes as they start: no votes, an empty pool, nothing announced or published. *)
Definition fresh_node (n : Node) : Prop :=
  fe_votes (en_finality (nd_engine n)) = ∅ ∧ tp_pending (en_tx_pool (nd_engine n)) = ∅ ∧
  en_events (nd_engine n) = [].
Definition fresh_cluster (c : Cluster) : Prop := Forall fresh_node (clu_nodes c) ∧ clu_gossip c = [].
End Tasks.

(** ** Properties *)
Section ClusterProperties.
Context `{CryptoPrims} `{Wasmtime} `{Rng} `{Bincode Transaction} `{Bincode BlockHeader}.
Context {D : Type} `{ChainStore D}.
Context {PeerId : Type} `{Countable PeerId} `{Bincode NetworkMessage} `{!BincodeLaws NetworkMessage}.
Implicit Types (e : ConsensusEngine D) (n : Node (D := D) (PeerId := PeerId)).

(** Every vote of the engine was cast by its own key. *)
Definition own_vote e (v : FinalityVote) : Prop :=
  ∃ kp, en_keypair e = Some kp ∧ fv_validator v = KeyPair_address kp.
Definition votes_own e : Prop :=
  ∀ h l, fe_votes (en_finality e) !! h = Some l → Forall (own_vote e) l.
(** The block was signed with the engine's own key. *)
Definition produced_by e (b : Block) : Prop :=
  ∃ kp h, en_keypair e = Some kp ∧ blk_header b = header_sign h kp.
(** What a handler may do to the parts followed here: the key stays, the pool
    only loses transactions, the finalized height moves only on a quorum of the
    engine's own votes, and only blocks in [new] and new epochs are announced. *)
Definition may_announce (new : Block → Prop) (ev : ConsensusEvent) : Prop :=
  match ev with NewBlock b => new b | EpochChanged _ => True | _ => False end.
Record tame (new : Block → Prop) e e' : Prop := {
  tame_key : en_keypair e' = en_keypair e;
  tame_pool : ∀ h p, tp_pending (en_tx_pool e') !! h = Some p → tp_pending (en_tx_pool e) !! h = Some p;
  tame_votes : votes_own e → votes_own e';
  tame_final : votes_own e → fe_finalized_height (en_finality e') ≠ fe_finalized_height (en_finality e) →
    ∃ vs l, Forall (own_vote e) l ∧ quorum_threshold vs ≤ voted_stake vs l;
  tame_events : ∀ ev, ev ∈ en_events e' → ev ∈ en_events e ∨ may_announce new ev
}.
Lemma votes_own_same e e' :
  en_keypair e' = en_keypair e → fe_votes (en_finality e') = fe_votes (en_finality e) → votes_own e → votes_own e'.
Proof. intros Hk Hf Hv h l Hl. rewrite Hf in Hl. apply Hv in Hl. unfold own_vote in *. by rewrite Hk. Qed.
(** Handlers that leave votes and finalized height alone. *)
Lemma tame_quiet new e e' :
  en_keypair e' = en_keypair e → fe_votes (en_finality e') = fe_votes (en_finality e) →
  fe_finalized_height (en_finality e') = fe_finalized_height (en_finality e) →
  (∀ h p, tp_pending (en_tx_pool e') !! h = Some p → tp_pending (en_tx_pool e) !! h = Some p) →
  (∀ ev, ev ∈ en_events e' → ev ∈ en_events e ∨ may_announce new ev) → tame new e e'.
Proof. intros Hk Hv Hh Hp He. split; [done|done|by apply votes_own_same|by rewrite Hh|done]. Qed.
Lemma tame_refl new e : tame new e e.
Proof. apply tame_quiet; try done. by left. Qed.
Lemma tame_trans (new : Block → Prop) e1 e2 e3 : tame new e1 e2 → tame new e2 e3 → tame new e1 e3.
Proof.
  intros [K1 P1 V1 F1 E1] [K2 P2 V2 F2 E2]. split.
  - by rewrite K2.
  - intros h p Hp. by apply P1, P2.
  - auto.
  - intros Hv Hne. destruct (decide (fe_finalized_height (en_finality e2) = fe_finalized_height (en_finality e1))) as [He|He].
    + destruct (F2 (V1 Hv)) as (vs & l & Hl & Hq); [congruence|]. exists vs, l. split; [|done].
      eapply Forall_impl; [exact Hl|]. unfold own_vote. by rewrite K1.
    + by apply F1.
  - intros b Hb. destruct (E2 b Hb) as [Hb'|]; [by apply E1|by right].
Qed.

Lemma advance_epoch_votes e now e' r :
  advance_epoch e now = (e', r) →
  en_keypair e' = en_keypair e ∧ fe_votes (en_finality e') = fe_votes (en_finality e) ∧
  fe_finalized_height (en_finality e') = fe_finalized_height (en_finality e) ∧ en_tx_pool e' = en_tx_pool e ∧
  (∀ ev, ev ∈ en_events e' → ev ∈ en_events e ∨ may_announce (λ _, False) ev).
Proof.
  unfold advance_epoch. destruct (maybe_advance_epoch _ _ now) as [c [[ep|]|err]]; intros [= <- <-];
    repeat split; try done; try (by left).
  intros ev [Hb|Hb]%elem_of_app; [by left|right]. by apply list_elem_of_singleton in Hb as ->.
Qed.
Lemma prune_committed_sub p hs h x :
  tp_pending (prune_committed p hs) !! h = Some x → tp_pending p !! h = Some x.
Proof. rewrite prune_committed_pending. by case_decide. Qed.
Lemma may_announce_none new ev : may_announce (λ _, False) ev → may_announce new ev.
Proof. by destruct ev. Qed.
Lemma announced_snoc (new : Block → Prop) (l l' : list ConsensusEvent) b :
  (∀ ev, ev ∈ l' → ev ∈ l ∨ may_announce (λ _, False) ev) → new b →
  ∀ ev, ev ∈ l' ++ [NewBlock b] → ev ∈ l ∨ may_announce new ev.
Proof.
  intros Hl Hn ev [Hb|Hb]%elem_of_app.
  - destruct (Hl ev Hb); [by left|right]. by apply may_announce_none.
  - right. by apply list_elem_of_singleton in Hb as ->.
Qed.

Lemma on_block_received_tame e b t1 t2 e' r : on_block_received e b t1 t2 = Some (e', r) → tame (eq b) e e'.
Proof.
  unfold on_block_received. destruct (block_validate_basic b); [|intros [= <- <-]; apply tame_refl].
  destruct (verify_proposer _ _ _ _); [|intros [= <- <-]; apply tame_refl].
  destruct (verify_signature _); [|intros [= <- <-]; apply tame_refl].
  destruct (check_double_sign e b t1) as [e1|] eqn:Hd.
  - intros [= <- <-]. unfold check_double_sign in Hd. destruct (en_seen_blocks e !! _); [|done].
    case_bool_decide; [done|]. destruct (detect_double_sign _ _ _); [|done]. cbn [mbind option_bind] in Hd.
    repeat case_match; simplify_eq; apply tame_quiet; try done; by left.
  - set (e1 := match en_seen_blocks e !! _ with None => _ | Some _ => e end).
    assert (en_finality e1 = en_finality e ∧ en_tx_pool e1 = en_tx_pool e ∧ en_keypair e1 = en_keypair e ∧
            en_events e1 = en_events e) as (Hf & Hp & Hk & Hev) by (unfold e1; by case_match).
    destruct (apply_block _ _ b) as [[[c vm] [rs|err]]|]; [| |done].
    2: { cbn. intros [= <- <-]. apply tame_quiet; simpl; rewrite ?Hf, ?Hp, ?Hk, ?Hev; try done. by left. }
    cbn [mbind option_bind].
    destruct (advance_epoch _ t2) as [e2 r2] eqn:Ha. apply advance_epoch_votes in Ha as (A1 & A2 & A3 & A4 & A5).
    simpl in A1, A2, A3, A4, A5. rewrite Hf in A2, A3. rewrite Hk in A1. rewrite Hev in A5.
    destruct r2 as [[]|err]; intros [= <- <-]; apply tame_quiet; simpl; try done.
    + intros h p. rewrite A4, Hp. apply prune_committed_sub.
    + by apply announced_snoc.
    + intros h p. rewrite A4, Hp. apply prune_committed_sub.
    + intros ev Hev'. destruct (A5 ev Hev'); [by left|right]. by apply may_announce_none.
Qed.

(** The producer's own vote. *)
Lemma own_vote_added e (f : FinalityEngine) kp v :
  en_keypair e = Some kp → fv_validator v = KeyPair_address kp →
  fe_votes f = fe_votes (en_finality e) → votes_own e →
  (∀ h l, fe_votes (add_vote f v).1 !! h = Some l → Forall (own_vote e) l) ∧
  (fe_finalized_height (add_vote f v).1 ≠ fe_finalized_height f →
     ∃ vs l, Forall (own_vote e) l ∧ quorum_threshold vs ≤ voted_stake vs l).
Proof.
  intros Hk Hv Hf Hown. destruct (add_vote f v) as [f' r] eqn:Ha. simpl.
  assert (∀ h l, fe_votes f !! h = Some l → Forall (own_vote e) l) as Hold by (rewrite Hf; exact Hown).
  assert (Forall (own_vote e) (default [] (fe_votes f !! fv_block_number v) ++ [v])) as Hnew.
  { apply Forall_app. split; [|constructor; [by exists kp|done]].
    destruct (fe_votes f !! fv_block_number v) eqn:E; [by eapply Hold|done]. }
  destruct (add_vote_cases _ _ _ _ Ha) as [[-> _]|[[-> _]|(_ & _ & [(_ & _ & ->)|(Hq & _ & ->)])]]; simpl.
  - done.
  - done.
  - split; [|done]. intros h l Hl. apply lookup_insert_cases in Hl as [[<- <-]|[_ Hl]]; [done|by eapply Hold].
  - split; [|by intros _; eexists _, _]. intros h l Hl. apply map_lookup_filter_Some in Hl as [Hl _].
    apply lookup_insert_cases in Hl as [[<- <-]|[_ Hl]]; [done|by eapply Hold].
Qed.

Lemma production_tick_tame e order t1 t2 t3 e' r :
  production_tick e order t1 t2 t3 = Some (e', r) → tame (produced_by e) e e'.
Proof.
  unfold production_tick. destruct (negb _); [intros [= <- <-]; apply tame_refl|].
  destruct (en_keypair e) as [kp|] eqn:Hk; [|intros [= <- <-]; apply tame_refl].
  unfold try_produce_block. destruct (select_proposer _ _ _) as [a|]; [|intros [= <- <-]; apply tame_refl].
  destruct (negb _); [intros [= <- <-]; apply tame_refl|].
  destruct (apply_block _ _ _) as [[[c vm] [rs|err]]|]; [| |done].
  2: { cbn. intros [= <- <-]. apply tame_quiet; try done. by left. }
  cbn [mbind option_bind].
  destruct (advance_epoch _ t2) as [e2 r2] eqn:Ha. apply advance_epoch_votes in Ha as (A1 & A2 & A3 & A4 & A5).
  simpl in A1, A2, A3, A4, A5.
  assert (∀ h p, tp_pending (en_tx_pool e2) !! h = Some p → tp_pending (en_tx_pool e) !! h = Some p) as Hp.
  { intros h p. rewrite A4. apply prune_committed_sub. }
  destruct r2 as [[]|err]; intros [= <- <-].
  2: { apply tame_quiet; try done. intros ev Hev. destruct (A5 ev Hev); [by left|right]. by apply may_announce_none. }
  match goal with |- context [add_vote _ ?v] => set (vote := v) end.
  split; simpl; [done|exact Hp| | |].
  - intros Hown. destruct (own_vote_added e (en_finality e2) kp vote Hk eq_refl A2 Hown) as [Hv _].
    intros h l Hl. simpl in Hl. apply Hv in Hl. unfold own_vote in *. simpl. by rewrite A1.
  - intros Hown Hne. rewrite <- A3 in Hne.
    by destruct (own_vote_added e (en_finality e2) kp vote Hk eq_refl A2 Hown) as [_ Hq]; apply Hq.
  - apply announced_snoc; [exact A5|by eexists _, _].
Qed.

(** ** The invariant of a cluster *)
Definition block_origin (ns : list (Node (D := D) (PeerId := PeerId))) (b : Block) : Prop :=
  ∃ n, n ∈ ns ∧ produced_by (nd_engine n) b.
(** Blocks come from a node of the cluster, and finality is never announced. *)
Definition has_origin (ns : list (Node (D := D) (PeerId := PeerId))) (ev : ConsensusEvent) : Prop :=
  match ev with NewBlock b => block_origin ns b | BlockFinalized _ => False | _ => True end.
Lemma may_announce_origin ns ev : may_announce (block_origin ns) ev → has_origin ns ev.
Proof. by destruct ev. Qed.
Record node_inv n : Prop := {
  ni_votes : votes_own (nd_engine n);
  ni_pool : ∀ h p, tp_pending (en_tx_pool (nd_engine n)) !! h = Some p → pt_tx p ∈ nd_submitted n
}.
Record cluster_inv (c : Cluster (D := D) (PeerId := PeerId)) : Prop := {
  ci_nodes : Forall node_inv (clu_nodes c);
  ci_announced : ∀ n ev, n ∈ clu_nodes c → ev ∈ en_events (nd_engine n) → has_origin (clu_nodes c) ev;
  ci_gossip : ∀ data, data ∈ clu_gossip c →
    ∃ b, bincode_de data = Ok (MsgNewBlock b) ∧ block_origin (clu_nodes c) b
}.
Lemma fresh_cluster_inv c : fresh_cluster c → cluster_inv c.
Proof.
  intros [Hn Hg]. rewrite Forall_forall in Hn. split.
  - apply Forall_forall. intros n Hin. destruct (Hn n Hin) as (Hv & Hp & _). split.
    + intros h l. by rewrite Hv, lookup_empty.
    + intros h p. by rewrite Hp, lookup_empty.
  - intros n ev Hin. destruct (Hn n Hin) as (_ & _ & ->). by intros ?%not_elem_of_nil.
  - intros d. rewrite Hg. by intros ?%not_elem_of_nil.
Qed.

(** Replacing one node keeps the invariant when the key stays and what the new
    node holds, announces and publishes has an origin. *)
Lemma replace_node_inv (c : Cluster (D := D) (PeerId := PeerId)) i n n' data :
  cluster_inv c → clu_nodes c !! i = Some n →
  en_keypair (nd_engine n') = en_keypair (nd_engine n) → node_inv n' →
  (∀ ev, ev ∈ en_events (nd_engine n') → ev ∈ en_events (nd_engine n) ∨ has_origin (clu_nodes c) ev) →
  (∀ d, d ∈ data → ∃ b, bincode_de d = Ok (MsgNewBlock b) ∧ block_origin (clu_nodes c) b) →
  cluster_inv {| clu_nodes := <[i := n']> (clu_nodes c); clu_gossip := clu_gossip c ++ data |}.
Proof.
  intros [Hns Han Hgo] Hi Hk Hinv Hev Hdata.
  assert (∀ b, block_origin (clu_nodes c) b → block_origin (<[i := n']> (clu_nodes c)) b) as Hup.
  { intros b (m & [j Hm]%list_elem_of_lookup & kp & hd & Hkp & Hb).
    destruct (decide (j = i)) as [->|Hne].
    - exists n'. split; [apply list_elem_of_lookup; exists i; by apply list_lookup_insert_eq, lookup_lt_Some with n|].
      exists kp, hd. split; [|done]. rewrite Hk. congruence.
    - exists m. split; [apply list_elem_of_lookup; exists j; by rewrite list_lookup_insert_ne|by exists kp, hd]. }
  assert (∀ ev, has_origin (clu_nodes c) ev → has_origin (<[i := n']> (clu_nodes c)) ev) as Hup'
    by (intros []; simpl; auto).
  split; simpl.
  - apply Forall_insert; done.
  - intros m ev [j Hm]%list_elem_of_lookup Hb. apply Hup'.
    apply list_lookup_insert_Some in Hm as [(-> & <- & _)|(_ & Hm)].
    + destruct (Hev ev Hb) as [Hb'|]; [|done]. eapply Han; [by eapply list_elem_of_lookup_2|done].
    + eapply Han; [by eapply list_elem_of_lookup_2|done].
  - intros d [Hd|Hd]%elem_of_app.
    + destruct (Hgo d Hd) as (b & ? & ?). eauto.
    + destruct (Hdata d Hd) as (b & ? & ?). eauto.
Qed.
Lemma replace_engine_inv (c : Cluster (D := D) (PeerId := PeerId)) i n n' :
  cluster_inv c → clu_nodes c !! i = Some n →
  en_keypair (nd_engine n') = en_keypair (nd_engine n) → node_inv n' →
  (∀ ev, ev ∈ en_events (nd_engine n') → ev ∈ en_events (nd_engine n) ∨ has_origin (clu_nodes c) ev) →
  cluster_inv {| clu_nodes := <[i := n']> (clu_nodes c); clu_gossip := clu_gossip c |}.
Proof.
  intros. rewrite <- (app_nil_r (clu_gossip c)). eapply replace_node_inv; [done..|].
  by intros d ?%not_elem_of_nil.
Qed.
Lemma node_inv_tame new e e' s s' k k' sub :
  tame new e e' →
  node_inv {| nd_engine := e; nd_service := s; nd_cursor := k; nd_submitted := sub |} →
  node_inv {| nd_engine := e'; nd_service := s'; nd_cursor := k'; nd_submitted := sub |}.
Proof. intros [Hk Hp Hv _ _] [Iv Ip]. split; simpl in *; [by apply Hv|]. intros h p Hl. eapply Ip, Hp, Hl. Qed.
Lemma handle_events_tame e evs t1 t2 e' (new : Block → Prop) :
  Forall (λ ev, ∃ b peer, ev = BlockReceived b peer ∧ new b) evs →
  handle_events (PeerId := PeerId) e evs t1 t2 = Some e' → tame new e e'.
Proof.
  intros Hall. revert e. induction Hall as [|ev evs (b & peer & -> & Hb) _ IH]; intros e; simpl.
  - intros [= <-]. apply tame_refl.
  - destruct (on_block_received e b t1 t2) as [[e1 r1]|] eqn:Hr; [|done]. cbn [fmap option_fmap option_map mbind option_bind fst].
    intros Hl%IH. apply on_block_received_tame in Hr as [K P V F E].
    eapply tame_trans; [|exact Hl]. split; try done. intros ev Hev. destruct (E ev Hev) as [|Ha]; [by left|right].
    destruct ev; simpl in *; by subst.
Qed.
Lemma deliver_events c s data source (random : PeerId) s' evs :
  cluster_inv c → data ∈ clu_gossip c → handle_swarm_event s (GossipMessage data source) random = (s', evs) →
  Forall (λ ev, ∃ b peer, ev = BlockReceived b peer ∧ block_origin (clu_nodes c) b) evs.
Proof.
  intros Hinv Hd Hs. destruct (ci_gossip _ Hinv _ Hd) as (b & Hde & Ho). simpl in Hs. rewrite Hde in Hs.
  injection Hs as <- <-. constructor; [by eexists _, _|done].
Qed.
Lemma forwarded_data (s : NetworkService (PeerId := PeerId)) ev cs s' data :
  forward_event (PeerId := PeerId) (Event ev) = Some cs → send_commands s cs = Some (s', data) →
  ∀ d, d ∈ data → ∃ b, ev = NewBlock b ∧ bincode_de d = Ok (MsgNewBlock b).
Proof.
  intros Hf Hs d Hd. destruct ev; simpl in Hf; injection Hf as <-; simpl in Hs; injection Hs as <- <-;
    try by apply not_elem_of_nil in Hd.
  apply list_elem_of_singleton in Hd as ->. eexists. split; [done|]. apply bincode_de_ser.
Qed.
Lemma pool_only_inserts e t now e' r :
  on_transaction_received e t now = (e', r) →
  ∀ h p, tp_pending (en_tx_pool e') !! h = Some p → tp_pending (en_tx_pool e) !! h = Some p ∨ pt_tx p = t.
Proof.
  unfold on_transaction_received. destruct (pool_insert (en_tx_pool e) t now) as [p' r'] eqn:Hi. intros Hr h p.
  assert (en_tx_pool e' = p') as -> by (destruct r' as [[]|]; by simplify_eq).
  destruct (pool_insert_cases _ _ _ _ _ Hi) as [[-> _]|(_ & _ & _ & _ & _ & ->)]; [by left|]. simpl.
  intros [[_ <-]|[_ Hl]]%lookup_insert_cases; [by right|by left].
Qed.
Lemma submit_inv n t now :
  node_inv n →
  node_inv {| nd_engine := (on_transaction_received (nd_engine n) t now).1; nd_service := nd_service n;
              nd_cursor := nd_cursor n; nd_submitted := t :: nd_submitted n |} ∧
  en_keypair (on_transaction_received (nd_engine n) t now).1 = en_keypair (nd_engine n) ∧
  fe_finalized_height (en_finality (on_transaction_received (nd_engine n) t now).1) =
    fe_finalized_height (en_finality (nd_engine n)) ∧
  (∀ ns ev, ev ∈ en_events (on_transaction_received (nd_engine n) t now).1 →
     ev ∈ en_events (nd_engine n) ∨ has_origin ns ev).
Proof.
  intros [Iv Ip]. assert (en_keypair (on_transaction_received (nd_engine n) t now).1 = en_keypair (nd_engine n)) as Hk.
  { unfold on_transaction_received. by destruct (pool_insert _ _ _) as [p [[]|]]. }
  destruct (on_transaction_received (nd_engine n) t now) as [e' r] eqn:Hr. simpl in *.
  pose proof (pool_only_inserts _ _ _ _ _ Hr) as Hpool.
  apply on_transaction_received_cases in Hr as (_ & Hf & Hc).
  repeat split; simpl; try done; try by rewrite ?Hf.
  - apply (votes_own_same (nd_engine n)); by rewrite ?Hf.
  - intros h p Hp. destruct (Hpool h p Hp) as [Hold| ->]; set_solver.
  - intros ns ev Hb. destruct r as [[]|]; [|left; by destruct Hc as [_ <-]]. destruct Hc as (_ & _ & _ & He).
    rewrite He in Hb. apply elem_of_app in Hb as [|Hb]; [by left|right]. by apply list_elem_of_singleton in Hb as ->.
Qed.

Lemma cluster_step_inv c c' : cluster_inv c → cluster_step c c' → cluster_inv c'.
Proof.
  intros Hinv Hstep. destruct Hstep as [c i n t now Hi|c i n order t1 t2 t3 e r Hi Hp|c i n ev cs s data Hi Hev Hf Hs
    |c i n k Hi|c i n data src rnd s evs e t1 t2 Hi Hd Hh He];
    assert (node_inv n) as Hn by (by eapply Forall_lookup_1; [apply Hinv|]).
  - destruct (submit_inv n t now Hn) as (Hn1 & Hn2 & _ & Hn3).
    eapply replace_engine_inv; [done..|apply Hn3].
  - pose proof (production_tick_tame _ _ _ _ _ _ _ Hp) as Ht.
    eapply replace_engine_inv; [done|done|apply Ht| |].
    + destruct n. by eapply node_inv_tame.
    + intros ev Hev. destruct (tame_events _ _ _ Ht ev Hev) as [|Ha]; [by left|right]. apply may_announce_origin.
      destruct ev; simpl in *; try done. exists n. split; [by eapply list_elem_of_lookup_2|done].
  - eapply replace_node_inv; [done|done|done| |by left|].
    + destruct n. eapply node_inv_tame; [apply (tame_refl (λ _, False))|done].
    + intros d Hd. destruct (forwarded_data _ _ _ _ _ Hf Hs d Hd) as (b & -> & Hb). exists b. split; [done|].
      apply (ci_announced _ Hinv n (NewBlock b)); by eapply list_elem_of_lookup_2.
  - eapply replace_engine_inv; [done|done|done| |by left].
    destruct n. eapply node_inv_tame; [apply (tame_refl (λ _, False))|done].
  - pose proof (handle_events_tame _ _ _ _ _ _ (deliver_events _ _ _ _ _ _ _ Hinv Hd Hh) He) as Ht.
    eapply replace_engine_inv; [done|done|apply Ht| |].
    2: { intros ev Hev. destruct (tame_events _ _ _ Ht ev Hev) as [|Ha]; [by left|right]. by apply may_announce_origin. }
    destruct n. by eapply node_inv_tame.
Qed.
Lemma cluster_reachable_inv c0 c : fresh_cluster c0 → rtc cluster_step c0 c → cluster_inv c.
Proof.
  intros Hf Hr. apply fresh_cluster_inv in Hf. induction Hr as [|c0 c1 c2 Hs _ IH]; [done|].
  by apply IH, (cluster_step_inv _ _ Hf).
Qed.

(** C19: In every cluster reachable from freshly started nodes by ticks, submissions and
    message deliveries in any order: everything on the gossip network is a block that a node
    of the cluster signed, every block a node announces has such an origin, no node ever
    announces a finalized block, and a node's mempool holds only transactions submitted at
    that node. *)
Theorem cluster_provenance c0 c :
  fresh_cluster c0 → rtc cluster_step c0 c →
  (∀ data, data ∈ clu_gossip c → ∃ b, bincode_de data = Ok (MsgNewBlock b) ∧ block_origin (clu_nodes c) b) ∧
  ∀ n, n ∈ clu_nodes c →
    (∀ b, NewBlock b ∈ en_events (nd_engine n) → block_origin (clu_nodes c) b) ∧
    (∀ k, BlockFinalized k ∉ en_events (nd_engine n)) ∧
    (∀ h p, tp_pending (en_tx_pool (nd_engine n)) !! h = Some p → pt_tx p ∈ nd_submitted n).
Proof.
  intros Hf Hr. destruct (cluster_reachable_inv _ _ Hf Hr) as [Hn Ha Hg]. split; [done|].
  intros n Hin. rewrite Forall_forall in Hn. split_and!.
  - intros b. apply (Ha n (NewBlock b) Hin).
  - intros k Hk. exact (Ha n (BlockFinalized k) Hin Hk).
  - apply (ni_pool _ (Hn n Hin)).
Qed.

(** A node's finalized height moves only on a quorum of votes cast with its own key. *)
Theorem cluster_finality_needs_own_quorum c0 c c' i n n' :
  fresh_cluster c0 → rtc cluster_step c0 c → cluster_step c c' →
  clu_nodes c !! i = Some n → clu_nodes c' !! i = Some n' →
  fe_finalized_height (en_finality (nd_engine n')) ≠ fe_finalized_height (en_finality (nd_engine n)) →
  ∃ vs l, Forall (own_vote (nd_engine n)) l ∧ quorum_threshold vs ≤ voted_stake vs l.
Proof.
  intros Hf Hr Hstep Hi Hi' Hne. pose proof (cluster_reachable_inv _ _ Hf Hr) as Hinv.
  assert (node_inv n) as Hn by (by eapply Forall_lookup_1; [apply Hinv|]).
  destruct Hstep as [c j m t now Hj|c j m order t1 t2 t3 e r Hj Hp|c j m ev cs s data Hj Hev Hfe Hs
    |c j m k Hj|c j m data src rnd s evs e t1 t2 Hj Hd Hh He]; simpl in Hi';
    (destruct (decide (i = j)) as [<-|]; [|rewrite list_lookup_insert_ne in Hi' by done; congruence]);
    rewrite list_lookup_insert_eq in Hi' by (by eapply lookup_lt_Some); injection Hi' as <-; simpl in Hne; assert (m = n) as -> by congruence; try done.
  - by destruct (submit_inv n t now Hn) as (_ & _ & ? & _).
  - eapply tame_final; [by eapply production_tick_tame|apply Hn|done].
  - eapply tame_final; [eapply handle_events_tame; [by eapply deliver_events|done]|apply Hn|done].
Qed.
End ClusterProperties.

(** ** A node that is the only validator *)
Section SoleValidator.
Context `{CryptoPrims} `{!CryptoLaws} `{Wasmtime} `{Rng} `{Bincode Transaction} `{Bincode BlockHeader}.
Context {D : Type} `{ChainStore D}.
Implicit Types (e : ConsensusEngine D) (p : ConsensusParams).

Definition sole_set p (v : ValidatorInfo) : ValidatorSet :=
  ValidatorSet_new [v] (cp_min_stake p) (cp_max_validators p).
(** [v] is votable, stays above the minimum stake, and its stake survives the
    doubling of the quorum. *)
Record sole_ok p (v : ValidatorInfo) (kp : KeyPair) : Prop := {
  so_addr : vi_address v = KeyPair_address kp;
  so_votable : is_votable v = true;
  so_min : cp_min_stake p ≤ vi_stake v;
  so_max : 1 ≤ cp_max_validators p;
  so_pos : 0 ≤ vi_stake v;
  so_fits : 2 * vi_stake v < 2 ^ 128
}.
(** An idle producer: the only validator is the node's own key, the finality
    engine has the same set, and everything up to the head is final. *)
Record sole_idle (kp : KeyPair) (v : ValidatorInfo) e : Prop := {
  so_key : en_keypair e = Some kp;
  so_on : cc_enable_block_production (en_config e) = true;
  so_set : ep_validator_set (cst_current_epoch (en_chain_state e)) = sole_set (cc_consensus_params (en_config e)) v;
  so_fin_set : fe_validator_set (en_finality e) = sole_set (cc_consensus_params (en_config e)) v;
  so_head : hdr_number (blk_header (cst_head (en_chain_state e))) = cst_height (en_chain_state e);
  so_final : fe_finalized_height (en_finality e) = cst_height (en_chain_state e);
  so_votes : fe_votes (en_finality e) = ∅;
  so_pool : tp_pending (en_tx_pool e) = ∅
}.
Lemma sole_active p v kp : sole_ok p v kp → active_validators (sole_set p v) = [v].
Proof. intros [Ha Hv Hm Hx Hp Hf]. unfold active_validators. simpl. by rewrite Hv. Qed.
Lemma sole_get p v kp : sole_ok p v kp → get_validator (sole_set p v) (KeyPair_address kp) = Some v.
Proof. intros [Ha Hv Hm Hx Hp Hf]. unfold get_validator. simpl. by rewrite bool_decide_eq_true_2. Qed.
(** The set survives the epoch change. *)
Lemma sole_next p v kp now :
  sole_ok p v kp → ValidatorSet_new (next_validators p now [v]) (cp_min_stake p) (cp_max_validators p) = sole_set p v.
Proof.
  intros [Ha Hv Hm Hx Hp Hf]. unfold is_votable in Hv. apply andb_true_iff in Hv as [_ Hj%bool_decide_eq_true].
  unfold sole_set, next_validators, unjail. simpl. rewrite Hj, (proj2 (Z.leb_le _ _) Hm).
  destruct (Z.to_nat (cp_max_validators p)) eqn:E; [lia|]. simpl. by rewrite take_nil.
Qed.
Lemma sole_quorum p v kp vote :
  sole_ok p v kp → fv_validator vote = KeyPair_address kp →
  is_validator (sole_set p v) (KeyPair_address kp) = true ∧
  quorum_threshold (sole_set p v) ≤ voted_stake (sole_set p v) [vote].
Proof.
  intros Hs Hvote. pose proof (sole_active p v kp Hs) as Ha. pose proof (sole_get p v kp Hs) as Hg.
  destruct Hs as [Haddr _ _ _ Hpos Hbig]. split.
  - unfold is_validator. rewrite Ha. simpl. by rewrite bool_decide_eq_true_2.
  - unfold voted_stake, quorum_threshold, total_active_stake. rewrite Ha. cbn [omap list_omap]. rewrite Hvote, Hg.
    simpl. rewrite !(wsum_small 128) by (simpl; unfold in_u, id; lia). simpl. unfold id, wmul.
    rewrite wrap_small by (unfold in_u; lia). pose proof (div_ceil_spec ((vi_stake v + 0) * 2) 3 ltac:(lia)). lia.
Qed.
Lemma sole_vote_finalizes p v kp (f : FinalityEngine) n h now :
  sole_ok p v kp → fe_validator_set f = sole_set p v → fe_votes f = ∅ → fe_finalized_height f < n →
  (add_vote f (create_vote n h kp now)).1 =
    {| fe_votes := ∅; fe_finalized_height := n; fe_validator_set := sole_set p v |}.
Proof.
  intros Hv Hs Hf Hlt. set (vote := create_vote n h kp now).
  destruct (sole_quorum p v kp vote Hv eq_refl) as [Hi Hq].
  destruct (add_vote f vote) as [f' r] eqn:Ha. simpl.
  destruct (add_vote_cases _ _ _ _ Ha) as [[_ He]|[(_ & _ & Hle)|(_ & _ & Hc)]].
  - exfalso. unfold add_vote in Ha. assert (vote_verify vote = Ok ()) as Hver.
    { unfold vote_verify. simpl. by rewrite verify_sign. }
    rewrite Hver, Hs in Ha. change (fv_validator vote) with (KeyPair_address kp) in Ha. rewrite Hi in Ha. simpl in Ha.
    rewrite (proj2 (Z.leb_gt _ _)) in Ha by done. unfold check_quorum in Ha. simpl in Ha.
    unfold push_index in Ha. rewrite lookup_insert_eq in Ha. simpl in Ha.
    destruct (_ <=? _) in Ha; by simplify_eq.
  - simpl in Hle. lia.
  - rewrite Hf, lookup_empty, Hs in Hc. simpl in Hc. destruct Hc as [(Hlow & _)|(_ & _ & ->)]; [lia|].
    f_equal. apply map_eq. intros k. rewrite lookup_empty. apply map_lookup_filter_None_2. right.
    intros x Hx. apply lookup_insert_cases in Hx as [[<- _]|[_ Hx]]; [simpl; lia|by rewrite lookup_empty in Hx].
Qed.

(** The blocks announced in a list of events. *)
Definition announced (evs : list ConsensusEvent) : list Block :=
  omap (λ ev, match ev with NewBlock b => Some b | _ => None end) evs.

Context (commit_succeeds : ∀ (d : D) b rs accs, ∃ d', cs_commit d b rs accs = Ok d').
Context (put_epoch_succeeds : ∀ (d : D) ep, ∃ d', cs_put_epoch d ep = Ok d').

Lemma sole_tick kp v e t1 t2 t3 :
  sole_ok (cc_consensus_params (en_config e)) v kp → sole_idle kp v e →
  0 ≤ cst_height (en_chain_state e) < 2 ^ 64 - 1 →
  ∃ e' b, production_tick e [] t1 t2 t3 = Some (e', Ok ()) ∧ sole_idle kp v e' ∧
    en_config e' = en_config e ∧ announced (en_events e') = announced (en_events e) ++ [b] ∧
    hdr_number (blk_header b) = cst_height (en_chain_state e) + 1 ∧
    cst_height (en_chain_state e') = cst_height (en_chain_state e) + 1.
Proof.
  intros Hv [Hk Hon Hset Hfs Hhead Hfin Hvotes Hpool] Hh.
  pose proof (sole_active _ _ _ Hv) as Hact. pose proof (so_addr _ _ _ Hv) as Haddr.
  unfold production_tick. rewrite Hon, Hk. simpl negb. cbv iota.
  unfold try_produce_block. rewrite Hset, Hact. cbn [select_proposer].
  rewrite bool_decide_eq_true_2 by done. simpl negb. cbv iota zeta.
  change (select_transactions _ [] _ _) with (@nil SignedTransaction).
  unfold apply_block. cbn [blk_header blk_transactions proposal_header hdr_parent_hash hdr_number].
  rewrite bool_decide_eq_true_2 by done. rewrite Hhead, Z.eqb_refl. simpl negb. cbv iota.
  cbn [exec_txs mbind option_bind ex_db ex_accounts ex_vset ex_vm].
  match goal with |- context [cs_commit ?d ?b ?rs ?a] => destruct (commit_succeeds d b rs a) as [d' Hd'] end.
  rewrite Hd'. cbn [mbind option_bind]. unfold advance_epoch, maybe_advance_epoch. simpl.
  assert (cst_height (en_chain_state e) +! 1 = cst_height (en_chain_state e) + 1) as Hnum
    by (unfold wadd; apply wrap_small; unfold in_u; lia).
  assert (hdr_number (blk_header (cst_head (en_chain_state e))) +! 1 = cst_height (en_chain_state e) + 1) as Hn'
    by (by rewrite Hhead).
  unfold is_last_block. simpl. rewrite Hnum. rewrite Hset.
  destruct (_ =? ep_end_block _); simpl.
  - match goal with |- context [cs_put_epoch ?d ?ep] => destruct (put_epoch_succeeds d ep) as [d2 Hd2]; rewrite Hd2 end.
    simpl. rewrite (sole_vote_finalizes (cc_consensus_params (en_config e)) v); simpl; try done; try lia.
    2: { by eapply sole_next. }
    eexists _, _. split; [done|]. split; [split; simpl; try done; by eapply sole_next|].
    unfold announced. simpl. rewrite !omap_app. simpl. by rewrite app_nil_r.
  - rewrite (sole_vote_finalizes (cc_consensus_params (en_config e)) v) by (done || lia).
    eexists _, _. split; [done|]. split; [split; simpl; done|].
    unfold announced. simpl. by rewrite omap_app.
Qed.

(** Along any number of ticks, epoch changes included. *)
Lemma sole_validator_finalizes kp v e clocks :
  sole_ok (cc_consensus_params (en_config e)) v kp → sole_idle kp v e → 0 ≤ cst_height (en_chain_state e) →
  cst_height (en_chain_state e) + Z.of_nat (length clocks) < 2 ^ 64 →
  ∃ e' bs, production_loop e ((λ c, ([], c)) <$> clocks) = Some e' ∧
    cst_height (en_chain_state e') = cst_height (en_chain_state e) + Z.of_nat (length clocks) ∧
    fe_finalized_height (en_finality e') = cst_height (en_chain_state e') ∧
    announced (en_events e') = announced (en_events e) ++ bs ∧
    (hdr_number ∘ blk_header) <$> bs = seqZ (cst_height (en_chain_state e) + 1) (Z.of_nat (length clocks)).
Proof.
  intros Hv. revert e Hv. induction clocks as [|[[t1 t2] t3] clocks IH]; intros e Hv Hs H0' Hw; simpl in *.
  - exists e, []. simpl. rewrite app_nil_r. repeat split; [lia|apply Hs].
  - destruct (sole_tick kp v e t1 t2 t3 Hv Hs) as (e1 & b & -> & Hs1 & Hc1 & He1 & Hb & Hh1); [lia..|].
    cbn [mbind option_bind]. destruct (IH e1) as (e' & bs & Hl & Hh & Hf & Hev & Hbs); [by rewrite Hc1|done|lia..|].
    exists e', (b :: bs). split; [exact Hl|]. split; [lia|]. split; [done|]. split.
    + by rewrite Hev, He1, <- app_assoc.
    + rewrite fmap_cons, Hbs, Hh1. unfold compose at 1. rewrite Hb.
      rewrite (seqZ_cons (cst_height _ + 1)) by lia. f_equal. f_equal; lia.
Qed.
End SoleValidator.

(** ** The devnet node *)
Section Devnet.
Context `{CryptoPrims} `{!CryptoLaws} `{Wasmtime} `{Rng} `{Bincode Transaction} `{Bincode BlockHeader}.
Context {D : Type} `{ChainStore D}.

(** The engine of [Application::run] on a database. *)
Definition start_node_engine (config : NodeConfig) (keypair : option KeyPair) (generated : KeyPair) (d : D)
    (vm : WasmEngine) : option (D * result ConsensusError (ConsensusEngine D)) :=
  ConsensusEngine_new (nd_consensus config) (nd_genesis config) d vm (node_keypair config keypair generated).
Definition devnet_validator (kp : KeyPair) : ValidatorInfo :=
  ValidatorInfo_new (KeyPair_address kp) (public_key kp) 10000000000000000000.

#[local] Arguments run_puts : simpl never.
Lemma devnet_starts_idle kp now data_dir gen (d d' : D) vm config keys e :
  run_config false None true data_dir (Err ""%string) kp now = Ok (config, keys) →
  cs_get_genesis_hash d = Ok None →
  start_node_engine config keys gen d vm = Some (d', Ok e) →
  sole_idle kp (devnet_validator kp) e ∧ cst_height (en_chain_state e) = 0 ∧ en_events e = [] ∧
  en_config e = nd_consensus config ∧ cc_consensus_params (nd_consensus config) = ConsensusParams_default.
Proof.
  intros [= <- <-] Hg. unfold start_node_engine, ConsensusEngine_new, node_keypair, from_genesis. simpl.
  unfold genesis_validate. simpl. rewrite Hg.
  match goal with |- context [run_puts d ?l] => destruct (run_puts d l) as [d1 [[]|err]] end; simpl; [|done].
  intros [= <- <-]. simpl. repeat split.
Qed.

(** C15: A node started with run --devnet on an empty database that is left idle makes
    progress: after any number of ticks, across epoch changes, it has produced one block per
    tick, finalized each of them by its own vote, and announced exactly the blocks 1, 2,
    ..., n in order. *)
Theorem devnet_finalizes_every_block kp now data_dir gen (d d' : D) vm config keys e clocks :
  (∀ (d : D) b rs accs, ∃ d', cs_commit d b rs accs = Ok d') → (∀ (d : D) ep, ∃ d', cs_put_epoch d ep = Ok d') →
  run_config false None true data_dir (Err ""%string) kp now = Ok (config, keys) →
  cs_get_genesis_hash d = Ok None →
  start_node_engine config keys gen d vm = Some (d', Ok e) →
  Z.of_nat (length clocks) < 2 ^ 64 →
  ∃ e', production_loop e ((λ c, ([], c)) <$> clocks) = Some e' ∧
    cst_height (en_chain_state e') = Z.of_nat (length clocks) ∧
    fe_finalized_height (en_finality e') = Z.of_nat (length clocks) ∧
    (hdr_number ∘ blk_header) <$> announced (en_events e') = seqZ 1 (Z.of_nat (length clocks)).
Proof.
  intros Hc Hp Hr Hg Hs Hl. destruct (devnet_starts_idle _ _ _ _ _ _ _ _ _ _ Hr Hg Hs) as (Hi & Hh & Hev & Hcfg & Hpar).
  destruct (sole_validator_finalizes Hc Hp kp (devnet_validator kp) e clocks) as (e' & bs & He & Hh' & Hf & Ha & Hb).
  - rewrite Hcfg, Hpar. split; simpl; try done; try lia.
  - done.
  - lia.
  - lia.
  - exists e'. split; [done|]. rewrite Hh in Hh', Hb. split; [lia|]. split; [lia|].
    rewrite Ha, Hev. exact Hb.
Qed.
End Devnet.
