(* ===== verification/Lifecycle.v ===== *)
(** * Lifecycle: starting, running and stopping a node
    (crates/node/src/app.rs and main.rs, the opening and flushing of
    crates/storage/src/db.rs, the start-up of crates/network/src/service.rs and of
    [ApiServer::serve] in crates/api/src/server.rs, and the loading of configuration
    files)

    [Application::run] spawns five tasks that share the consensus engine and two bounded
    channels; [app_step] is one step of one of them, or of the main task, which waits for
    Ctrl+C, cancels the token, joins the five tasks and flushes the database.  What a
    panic leaves behind is unknown, so a panicking step leaves any engine (with the
    events already sent). *)

From S2P Require Import Prelude Crypto Merkle CoreTypes Validators Storage Vm Consensus Finality TxPool ChainState Engine BridgeTypes Text ApiTypes ApiRoutes Keystore Network Node.

(** ** Opening and flushing the database (db.rs) *)
(** The [rocksdb::Options] that db.rs sets; the others keep their defaults. *)
Record Options : Type := {
  op_create_if_missing : bool;
  op_create_missing_column_families : bool;
  op_max_open_files : option Z;
  op_write_buffer_size : option Z;
  op_max_write_buffer_number : option Z;
  op_target_file_size_base : option Z;
  op_level_compaction_dynamic_level_bytes : option bool;
  op_bytes_per_sync : option Z
}.
Definition Options_default : Options := {|
  op_create_if_missing := false; op_create_missing_column_families := false; op_max_open_files := None;
  op_write_buffer_size := None; op_max_write_buffer_number := None; op_target_file_size_base := None;
  op_level_compaction_dynamic_level_bytes := None; op_bytes_per_sync := None |}.
(** [write_buffer_size_mb * 1024 * 1024] on a 64-bit [usize]. *)
Definition write_buffer (config : StorageConfig) : Z := wrap 64 (wrap 64 (sc_write_buffer_size_mb config * 1024) * 1024).
Definition db_options (config : StorageConfig) : Options := {|
  op_create_if_missing := true; op_create_missing_column_families := true;
  op_max_open_files := Some (sc_max_open_files config); op_write_buffer_size := Some (write_buffer config);
  op_max_write_buffer_number := Some 3; op_target_file_size_base := Some (64 * 1024 * 1024);
  op_level_compaction_dynamic_level_bytes := Some true; op_bytes_per_sync := Some 1048576 |}.
Definition cf_options (config : StorageConfig) : Options := {|
  op_create_if_missing := false; op_create_missing_column_families := false; op_max_open_files := None;
  op_write_buffer_size := Some (write_buffer config); op_max_write_buffer_number := None;
  op_target_file_size_base := None; op_level_compaction_dynamic_level_bytes := None; op_bytes_per_sync := None |}.

(** [DB::open_cf_descriptors] and [DB::flush_cf] of the rocksdb crate. *)
Class RocksFiles (D : Type) := {
  rdb_open_cf_descriptors : Options → string → list (string * Options) → result string D;
  rdb_flush_cf : D → string → result string ()
}.
(** Documented: with [create_missing_column_families] every requested family is there. *)
Class RocksFilesLaws (D : Type) `{RocksDB D} `{RocksFiles D} : Prop :=
  open_has_families opts path cfs d name :
    rdb_open_cf_descriptors opts path cfs = Ok d → op_create_missing_column_families opts = true →
    name ∈ cfs.*1 → rdb_cf_handle d name = true.

Section Database.
Context {D : Type} `{RocksDB D} `{RocksFiles D} `{Bincode U32}.
Implicit Types d : D.

Record ChainDatabase : Type := { cdb_db : D; cdb_path : string }.
Definition ChainDatabase_open (config : StorageConfig) : result StorageError ChainDatabase :=
  d ← map_err DatabaseError (rdb_open_cf_descriptors (db_options config) (sc_path config)
        ((λ name, (name, cf_options config)) <$> CF_ALL));
  d ← check_or_set_schema_version d;
  Ok {| cdb_db := d; cdb_path := sc_path config |}.
Definition new_write_batch (_ : ChainDatabase) : list BatchOp := [].
(** The loop over the families that exist; the first error ends it. *)
Fixpoint flush_families d (names : list string) : result StorageError () :=
  match names with
  | [] => Ok ()
  | name :: rest =>
      if rdb_cf_handle d name
      then _ ← map_err DatabaseError (rdb_flush_cf d name); flush_families d rest
      else flush_families d rest
  end.
Definition flush d : result StorageError () := flush_families d CF_ALL.
End Database.
Arguments ChainDatabase : clear implicits.

(** ** Configuration files *)
Class Toml (A : Type) := toml_from_str : string → result string A.
Definition read_to_string {F} `{FileSystem F} (f : F) (path : string) : result string string :=
  data ← fs_read f path;
  match from_utf8 data with Some s => Ok s | None => Err "stream did not contain valid UTF-8"%string end.
Definition NodeConfig_load {F} `{FileSystem F} `{Toml NodeConfig} (f : F) (path : string) : result string NodeConfig :=
  data ← read_to_string f path; toml_from_str data.
Definition GenesisConfig_load {F} `{FileSystem F} `{Toml GenesisConfig} (f : F) (path : string)
    : result CoreError GenesisConfig :=
  data ← map_err (λ e, GenesisError ("failed to read genesis file: " +:+ e)) (read_to_string f path);
  map_err (λ e, GenesisError ("failed to parse genesis: " +:+ e)) (toml_from_str data).

(** ** Starting the network service *)
(** What [NetworkService::start] uses of libp2p. *)
Class Libp2p := {
  Multiaddr : Type;
  Swarm : Type;
  GossipConfig : Type;
  Gossipsub : Type;
  parse_multiaddr : string → result string Multiaddr;
  tcp_transport : result string ();
  gossip_config : Z → Z → result string GossipConfig;   (* transmit size, heartbeat seconds; strict validation *)
  gossipsub_new : GossipConfig → result string Gossipsub; (* messages signed with the node's key *)
  swarm_build : Gossipsub → string → Z → Swarm;          (* identify protocol, idle timeout in seconds *)
  swarm_listen_on : Swarm → Multiaddr → result string Swarm;
  swarm_subscribe : Swarm → string → result string Swarm;
  swarm_dial : Swarm → Multiaddr → Swarm                 (* the result of a dial is dropped *)
}.

Section StartNetwork.
Context `{Libp2p}.

Definition build_swarm (config : NetworkConfig) : result NetworkError Swarm :=
  _ ← map_err Transport tcp_transport;
  gossip ← map_err Transport
    (gossipsub_config ← map_err (λ e, "gossipsub config error: " +:+ e)%string (gossip_config (nc_max_message_size config) 1);
     map_err (λ e, "gossipsub error: " +:+ e)%string (gossipsub_new gossipsub_config));
  Ok (swarm_build gossip "/rustchain/1.0.0" 60).
Fixpoint listen_all (swarm : Swarm) (addrs : list string) : result NetworkError Swarm :=
  match addrs with
  | [] => Ok swarm
  | addr_str :: rest =>
      addr ← map_err (λ e, ConfigError ("invalid address " +:+ addr_str +:+ ": " +:+ e)) (parse_multiaddr addr_str);
      swarm ← map_err Transport (swarm_listen_on swarm addr);
      listen_all swarm rest
  end.
Definition subscribe (swarm : Swarm) (topic : string) : result NetworkError Swarm :=
  map_err (λ e, Protocol ("subscribe error: " +:+ e)) (swarm_subscribe swarm topic).
Definition dial_bootnodes (swarm : Swarm) (bootnodes : list string) : Swarm :=
  foldl (λ swarm bootnode_str,
    match parse_multiaddr bootnode_str with Ok addr => swarm_dial swarm addr | Err _ => swarm end) swarm bootnodes.
(** [NetworkService::start] up to its main loop. *)
Definition start_network (config : NetworkConfig) : result NetworkError Swarm :=
  swarm ← build_swarm config;
  swarm ← listen_all swarm (nc_listen_addresses config);
  swarm ← subscribe swarm topics.NEW_BLOCKS;
  swarm ← subscribe swarm topics.NEW_TRANSACTIONS;
  swarm ← subscribe swarm topics.FINALITY_VOTES;
  Ok (dial_bootnodes swarm (nc_bootnodes config)).
End StartNetwork.

(** ** Starting the API server *)
(** rustls, rustls_pemfile and tokio's listener. *)
Class ApiNet := {
  Cert : Type;
  PrivateKey : Type;
  TlsServer : Type;
  pem_certs : bytes → list (result string Cert);
  pem_private_key : bytes → result string (option PrivateKey);
  with_single_cert : list Cert → PrivateKey → result string TlsServer;
  tcp_bind : SocketAddr → result string ()
}.
Definition ok_values {A} (l : list (result string A)) : list A :=
  omap (λ r, match r with Ok a => Some a | Err _ => None end) l.
(** [ApiServer::serve] up to its accept loop: [None] serves plain HTTP. *)
Definition serve_start {F} `{FileSystem F} `{ApiNet} (f : F) (config : ApiConfig) : result string (option TlsServer) :=
  match ac_tls config with
  | Some tls_cfg =>
      cert_pem ← fs_read f (tls_cert_path tls_cfg);
      key_pem ← fs_read f (tls_key_path tls_cfg);
      let certs := ok_values (pem_certs cert_pem) in
      key ← pem_private_key key_pem;
      key ← match key with Some k => Ok k | None => Err "No private key found in PEM file"%string end;
      server_config ← with_single_cert certs key;
      _ ← tcp_bind (ac_bind_address config);
      Ok (Some server_config)
  | None =>
      _ ← tcp_bind (ac_bind_address config);
      Ok None
  end.

(** ** The tasks of [Application::run] *)
Definition CHANNEL : nat := 1024.

Section Tasks.
Context `{CryptoPrims} `{Wasmtime} `{Rng} `{Bincode Transaction} `{Bincode BlockHeader}.
Context {D : Type} `{ChainStore D} `{RocksDB D} `{RocksFiles D}.
Context {PeerId : Type} `{Countable PeerId} `{Bincode NetworkMessage}.
Context `{Libp2p} `{ApiNet} {F : Type} `{FileSystem F}.

(** Where each task is: the network service before its loop, in [select!], or sending
    the events of one swarm event; the broadcaster likewise. *)
Inductive NetworkTask : Type :=
| NetStart (s : NetworkService (PeerId := PeerId))
| NetLoop (s : NetworkService (PeerId := PeerId))
| NetSend (s : NetworkService (PeerId := PeerId)) (evs : list (NetworkEvent PeerId))
| NetEnd.
Inductive ApiTask : Type := ApiStart | ApiServe (tls : option TlsServer) | ApiEnd.
Inductive BroadcastTask : Type :=
| BcNotSpawned
| BcLoop (cursor : nat)
| BcSend (cursor : nat) (cs : list (NetworkCommand PeerId))
| BcEnd.
Inductive LoopTask : Type := Looping | Ended.
Inductive EventTask : Type := EvNotSpawned | EvLoop | EvEnd.
(** The main task, once it has spawned the network service, the API and the consensus task. *)
Inductive MainTask : Type := MStarting | MWaiting | MJoining | MDone (r : result StorageError ()).

Record App : Type := {
  ap_config : NodeConfig;
  ap_files : F;
  ap_engine : ConsensusEngine D;
  ap_cancelled : bool;                              (* the [CancellationToken] *)
  ap_network : NetworkTask;
  ap_api : ApiTask;
  ap_consensus : LoopTask;
  ap_broadcast : BroadcastTask;
  ap_events : EventTask;
  ap_event_queue : list (NetworkEvent PeerId);      (* [mpsc::channel(1024)] to the event handler *)
  ap_command_queue : list (NetworkCommand PeerId);  (* [mpsc::channel(1024)] to the network service *)
  ap_calls : list (SwarmCall PeerId);               (* what was asked of the swarm *)
  ap_main : MainTask
}.

Definition set_engine (a : App) e : App := {|
  ap_config := ap_config a; ap_files := ap_files a; ap_engine := e; ap_cancelled := ap_cancelled a;
  ap_network := ap_network a; ap_api := ap_api a; ap_consensus := ap_consensus a; ap_broadcast := ap_broadcast a;
  ap_events := ap_events a; ap_event_queue := ap_event_queue a; ap_command_queue := ap_command_queue a;
  ap_calls := ap_calls a; ap_main := ap_main a |}.
Definition set_network (a : App) t evq cmq calls : App := {|
  ap_config := ap_config a; ap_files := ap_files a; ap_engine := ap_engine a; ap_cancelled := ap_cancelled a;
  ap_network := t; ap_api := ap_api a; ap_consensus := ap_consensus a; ap_broadcast := ap_broadcast a;
  ap_events := ap_events a; ap_event_queue := evq; ap_command_queue := cmq;
  ap_calls := ap_calls a ++ calls; ap_main := ap_main a |}.
Definition set_api (a : App) t : App := {|
  ap_config := ap_config a; ap_files := ap_files a; ap_engine := ap_engine a; ap_cancelled := ap_cancelled a;
  ap_network := ap_network a; ap_api := t; ap_consensus := ap_consensus a; ap_broadcast := ap_broadcast a;
  ap_events := ap_events a; ap_event_queue := ap_event_queue a; ap_command_queue := ap_command_queue a;
  ap_calls := ap_calls a; ap_main := ap_main a |}.
Definition set_consensus (a : App) t : App := {|
  ap_config := ap_config a; ap_files := ap_files a; ap_engine := ap_engine a; ap_cancelled := ap_cancelled a;
  ap_network := ap_network a; ap_api := ap_api a; ap_consensus := t; ap_broadcast := ap_broadcast a;
  ap_events := ap_events a; ap_event_queue := ap_event_queue a; ap_command_queue := ap_command_queue a;
  ap_calls := ap_calls a; ap_main := ap_main a |}.
Definition set_broadcast (a : App) t cmq : App := {|
  ap_config := ap_config a; ap_files := ap_files a; ap_engine := ap_engine a; ap_cancelled := ap_cancelled a;
  ap_network := ap_network a; ap_api := ap_api a; ap_consensus := ap_consensus a; ap_broadcast := t;
  ap_events := ap_events a; ap_event_queue := ap_event_queue a; ap_command_queue := cmq;
  ap_calls := ap_calls a; ap_main := ap_main a |}.
Definition set_events (a : App) t evq : App := {|
  ap_config := ap_config a; ap_files := ap_files a; ap_engine := ap_engine a; ap_cancelled := ap_cancelled a;
  ap_network := ap_network a; ap_api := ap_api a; ap_consensus := ap_consensus a; ap_broadcast := ap_broadcast a;
  ap_events := t; ap_event_queue := evq; ap_command_queue := ap_command_queue a;
  ap_calls := ap_calls a; ap_main := ap_main a |}.
Definition set_main (a : App) cancelled m : App := {|
  ap_config := ap_config a; ap_files := ap_files a; ap_engine := ap_engine a; ap_cancelled := cancelled;
  ap_network := ap_network a; ap_api := ap_api a; ap_consensus := ap_consensus a; ap_broadcast := ap_broadcast a;
  ap_events := ap_events a; ap_event_queue := ap_event_queue a; ap_command_queue := ap_command_queue a;
  ap_calls := ap_calls a; ap_main := m |}.

(** *** Start-up: steps 1 to 7; the tasks that are spawned run before the rest of it
    [generated] is [KeyPair::generate()], [peer] the random peer id, [opened] the
    database of [ChainDatabase_open]; the errors of the [?]s are returned. *)
Inductive RunError : Type := RunStorage (e : StorageError) | RunConsensus (e : ConsensusError).
Definition application_start (config : NodeConfig) (keypair : option KeyPair) (generated : KeyPair) (peer : PeerId)
    (f : F) (opened : result StorageError D) : option (result RunError App) :=
  match opened with
  | Err e => Some (Err (RunStorage e))
  | Ok d =>
      let vm := WasmEngine_new (nd_vm config) in
      '(_, r) ← ConsensusEngine_new (nd_consensus config) (nd_genesis config) d vm
                  (node_keypair config keypair generated);
      Some (consensus ← map_err RunConsensus r;
            Ok {| ap_config := config; ap_files := f; ap_engine := consensus; ap_cancelled := false;
                  ap_network := NetStart (NetworkService_new (nd_network config) peer); ap_api := ApiStart;
                  ap_consensus := Looping; ap_broadcast := BcNotSpawned; ap_events := EvNotSpawned;
                  ap_event_queue := []; ap_command_queue := []; ap_calls := []; ap_main := MStarting |})
  end.
(** Steps 8 and 9: the broadcaster subscribes to the events from now on and is spawned, and
    so is the event handler. *)
Definition start_rest (a : App) : App :=
  let a := set_broadcast a (BcLoop (length (en_events (ap_engine a)))) (ap_command_queue a) in
  set_main (set_events a EvLoop (ap_event_queue a)) (ap_cancelled a) MWaiting.

(** The five handles of [tokio::join!] are finished. *)
Definition all_ended (a : App) : bool :=
  match ap_network a, ap_api a, ap_consensus a, ap_broadcast a, ap_events a with
  | NetEnd, ApiEnd, Ended, BcEnd, EvEnd => true
  | _, _, _, _, _ => false
  end.
Definition net_receives (a : App) : bool := match ap_network a with NetEnd => false | _ => true end.
Definition events_received (a : App) : bool := match ap_events a with EvEnd => false | _ => true end.

Inductive app_step : App → App → Prop :=
(** the main task *)
| st_started a : ap_main a = MStarting → app_step a (start_rest a)
| st_ctrl_c a : ap_main a = MWaiting → app_step a (set_main a true MJoining)
| st_join a : ap_main a = MJoining → all_ended a = true →
    app_step a (set_main a (ap_cancelled a) (MDone (flush (cst_storage (en_chain_state (ap_engine a))))))
(** the network service; dropping its receiver loses the queued commands *)
| st_net_start a s swarm : ap_network a = NetStart s → start_network (ns_config s) = Ok swarm →
    app_step a (set_network a (NetLoop s) (ap_event_queue a) (ap_command_queue a) [])
| st_net_start_error a s err : ap_network a = NetStart s → start_network (ns_config s) = Err err →
    app_step a (set_network a NetEnd (ap_event_queue a) [] [])
| st_net_cancelled a s : ap_network a = NetLoop s → ap_cancelled a = true →
    app_step a (set_network a NetEnd (ap_event_queue a) [] [])
| st_net_command a s c cmq s' calls : ap_network a = NetLoop s → ap_command_queue a = c :: cmq →
    handle_command s (Some c) = Some (s', calls) →
    app_step a (set_network a (NetLoop s') (ap_event_queue a) cmq calls)
| st_net_stop a s c cmq : ap_network a = NetLoop s → ap_command_queue a = c :: cmq →
    handle_command s (Some c) = None → app_step a (set_network a NetEnd (ap_event_queue a) [] [])
| st_net_event a s ev random s' evs : ap_network a = NetLoop s → handle_swarm_event s ev random = (s', evs) →
    app_step a (set_network a (NetSend s' evs) (ap_event_queue a) (ap_command_queue a) [])
| st_net_send a s ev evs : ap_network a = NetSend s (ev :: evs) → events_received a = true →
    (length (ap_event_queue a) < CHANNEL)%nat →
    app_step a (set_network a (NetSend s evs) (ap_event_queue a ++ [ev]) (ap_command_queue a) [])
| st_net_send_closed a s ev evs : ap_network a = NetSend s (ev :: evs) → events_received a = false →
    app_step a (set_network a (NetSend s evs) (ap_event_queue a) (ap_command_queue a) [])
| st_net_sent a s : ap_network a = NetSend s [] →
    app_step a (set_network a (NetLoop s) (ap_event_queue a) (ap_command_queue a) [])
(** the API server: [axum::serve] never returns, the TLS loop ends on an accept error;
    the handlers change the engine only by submitting transactions *)
| st_api_start a tls : ap_api a = ApiStart → serve_start (ap_files a) (nd_api (ap_config a)) = Ok tls →
    app_step a (set_api a (ApiServe tls))
| st_api_start_error a err : ap_api a = ApiStart → serve_start (ap_files a) (nd_api (ap_config a)) = Err err →
    app_step a (set_api a ApiEnd)
| st_api_request a tls t now : ap_api a = ApiServe tls →
    app_step a (set_engine a (on_transaction_received (ap_engine a) t now).1)
| st_api_accept_error a tls : ap_api a = ApiServe (Some tls) → app_step a (set_api a ApiEnd)
(** the consensus engine *)
| st_con_cancelled a : ap_consensus a = Looping → ap_cancelled a = true → app_step a (set_consensus a Ended)
| st_con_no_key a : ap_consensus a = Looping → cc_enable_block_production (en_config (ap_engine a)) = true →
    en_keypair (ap_engine a) = None → app_step a (set_consensus a Ended)
| st_con_tick a order t1 t2 t3 e r : ap_consensus a = Looping →
    cc_enable_block_production (en_config (ap_engine a)) = true → is_Some (en_keypair (ap_engine a)) →
    production_tick (ap_engine a) order t1 t2 t3 = Some (e, r) → app_step a (set_engine a e)
| st_con_panic a order t1 t2 t3 e : ap_consensus a = Looping →
    production_tick (ap_engine a) order t1 t2 t3 = None → en_events (ap_engine a) `prefix_of` en_events e →
    app_step a (set_consensus (set_engine a e) Ended)
(** the broadcaster; the channel of the engine never closes *)
| st_bc_cancelled a k : ap_broadcast a = BcLoop k → ap_cancelled a = true →
    app_step a (set_broadcast a BcEnd (ap_command_queue a))
| st_bc_event a k ev cs : ap_broadcast a = BcLoop k → en_events (ap_engine a) !! k = Some ev →
    forward_event (Event ev) = Some cs → app_step a (set_broadcast a (BcSend (S k) cs) (ap_command_queue a))
| st_bc_lagged a k n : ap_broadcast a = BcLoop k → (k + n + CHANNEL = length (en_events (ap_engine a)))%nat →
    app_step a (set_broadcast a (BcLoop (k + n)) (ap_command_queue a))
| st_bc_send a k c cs : ap_broadcast a = BcSend k (c :: cs) → net_receives a = true →
    (length (ap_command_queue a) < CHANNEL)%nat →
    app_step a (set_broadcast a (BcSend k cs) (ap_command_queue a ++ [c]))
| st_bc_send_closed a k c cs : ap_broadcast a = BcSend k (c :: cs) → net_receives a = false →
    app_step a (set_broadcast a (BcSend k cs) (ap_command_queue a))
| st_bc_sent a k : ap_broadcast a = BcSend k [] → app_step a (set_broadcast a (BcLoop k) (ap_command_queue a))
(** the event handler; dropping its receiver loses the queued events *)
| st_ev_cancelled a : ap_events a = EvLoop → ap_cancelled a = true → app_step a (set_events a EvEnd [])
| st_ev_recv a ev evq t1 t2 e : ap_events a = EvLoop → ap_event_queue a = ev :: evq →
    on_network_event (ap_engine a) ev t1 t2 = Some e → app_step a (set_events (set_engine a e) EvLoop evq)
| st_ev_panic a ev evq t1 t2 e : ap_events a = EvLoop → ap_event_queue a = ev :: evq →
    on_network_event (ap_engine a) ev t1 t2 = None → en_events (ap_engine a) `prefix_of` en_events e →
    app_step a (set_events (set_engine a e) EvEnd [])
| st_ev_closed a : ap_events a = EvLoop → ap_event_queue a = [] → net_receives a = false →
    app_step a (set_events a EvEnd []).
End Tasks.

(** ** The command line (main.rs) *)
Inductive Commands : Type :=
| Run (validator : bool) (keyfile : option string) (devnet : bool)
| Init (genesis data_dir : string)
| Keygen (output : string)
| Version.
Record Cli : Type := { cli_command : Commands; cli_config : string; cli_log_level : string; cli_data_dir : string }.
(** What clap fills in for options that are not given. *)
Definition Cli_defaults (c : Commands) : Cli := {|
  cli_command := c; cli_config := "config/node.toml"; cli_log_level := "info"; cli_data_dir := "./data" |}.
(** [{:?}] of a path of printable ASCII characters. *)
Definition quote : string := String (Ascii.ascii_of_nat 34) EmptyString.
Fixpoint escape_debug (s : string) : string :=
  match s with
  | EmptyString => EmptyString
  | String c s' =>
      let n := Ascii.nat_of_ascii c in
      (if (n =? 34)%nat || (n =? 92)%nat then String (Ascii.ascii_of_nat 92) (String c EmptyString)
       else String c EmptyString) +:+ escape_debug s'
  end.
Definition debug_str (s : string) : string := quote +:+ escape_debug s +:+ quote.
Class Directories (F : Type) := create_dir_all : F → string → result string F.

Section Main.
Context `{CryptoPrims} `{Wasmtime} `{KeystoreCrates} `{Bincode BlockHeader}.
Context {D : Type} `{ChainStore D} `{RocksDB D} `{RocksFiles D} `{Bincode U32}.
Context {PeerId : Type} `{Countable PeerId} `{Libp2p} `{ApiNet} {F : Type} `{FileSystem F} `{Directories F} `{Toml NodeConfig} `{Toml GenesisConfig}.

Inductive MainError : Type :=
| MeConfig (m : string) | MeRun (e : RunError) | MeCore (e : CoreError) | MeIo (m : string)
| MeStorage (e : StorageError) | MeConsensus (e : ConsensusError) | MePrompt (m : string) | MeCrypto (e : CryptoError).
(** A node that runs, or a command that is over: the files it leaves and what it prints. *)
Inductive Outcome : Type :=
| Running (a : App (D := D) (PeerId := PeerId) (F := F))
| Finished (f : F) (lines : list string).

Definition run_command (cli : Cli) (validator : bool) (keyfile : option string) (devnet : bool) (f : F)
    (devnet_key generated : KeyPair) (peer : PeerId) (now : Z) : option (result MainError Outcome) :=
  match run_config validator keyfile devnet (cli_data_dir cli) (NodeConfig_load f (cli_config cli)) devnet_key now with
  | Err e => Some (Err (MeConfig e))
  | Ok (config, keypair) =>
      r ← application_start config keypair generated peer f (cdb_db <$> ChainDatabase_open (nd_storage config));
      Some (Running <$> map_err MeRun r)
  end.
(** The chain is only logged. *)
Definition init_command (genesis data_dir : string) (f : F) : option (result MainError Outcome) :=
  match (g ← map_err MeCore (GenesisConfig_load f genesis);
         _ ← map_err MeCore (genesis_validate g);
         f ← map_err MeIo (create_dir_all f data_dir);
         db ← map_err MeStorage (ChainDatabase_open {|
           sc_path := path_join data_dir "chaindb"; sc_cache_size_mb := sc_cache_size_mb StorageConfig_default;
           sc_max_open_files := sc_max_open_files StorageConfig_default;
           sc_write_buffer_size_mb := sc_write_buffer_size_mb StorageConfig_default;
           sc_enable_statistics := sc_enable_statistics StorageConfig_default |});
         Ok (g, f, cdb_db db)) with
  | Err e => Some (Err e)
  | Ok (g, f, d) =>
      '(_, r) ← from_genesis g d;
      Some (_ ← map_err MeConsensus r; Ok (Finished f []))
  end.
(** [prompt] is the password dialog; the key is generated first. *)
Definition keygen_command (output : string) (f : F) (generated : KeyPair) (prompt : result string string)
    (salt : barray 32) (nonce : barray 12) : result MainError Outcome :=
  password ← map_err MePrompt prompt;
  '(f, lines) ← map_err MeCrypto (keygen f generated password output salt nonce);
  Ok (Finished f (lines ++ ["  Keyfile: " +:+ debug_str output]))%string.
Definition version_lines : list string := ["rustchain " +:+ CARGO_PKG_VERSION; "Rust edition: 2021"]%string.
Definition main (cli : Cli) (f : F) (devnet_key generated : KeyPair) (peer : PeerId) (now : Z)
    (prompt : result string string) (salt : barray 32) (nonce : barray 12) : option (result MainError Outcome) :=
  match cli_command cli with
  | Run validator keyfile devnet => run_command cli validator keyfile devnet f devnet_key generated peer now
  | Init genesis data_dir => init_command genesis data_dir f
  | Keygen output => Some (keygen_command output f generated prompt salt nonce)
  | Version => Some (Ok (Finished f version_lines))
  end.
End Main.

(** ** Stopping *)
Section Stopping.
Context `{CryptoPrims} `{Wasmtime} `{Rng} `{Bincode Transaction} `{Bincode BlockHeader}.
Context {D : Type} `{ChainStore D} `{RocksDB D} `{RocksFiles D}.
Context {PeerId : Type} `{Countable PeerId} `{Bincode NetworkMessage}.
Context `{Libp2p} `{ApiNet} {F : Type} `{FileSystem F}.
Implicit Types a b : App (D := D) (PeerId := PeerId) (F := F).
Abbreviation step := (app_step (D := D) (PeerId := PeerId) (F := F)).

(** The API task has ended or may still end by itself. *)
Definition api_can_end a : Prop :=
  match ap_api a with
  | ApiEnd => True
  | ApiServe tls => is_Some tls
  | ApiStart => serve_start (ap_files a) (nd_api (ap_config a)) ≠ Ok None
  end.
(** All five tasks have been spawned. *)
Definition spawned a : Prop := ap_broadcast a ≠ BcNotSpawned ∧ ap_events a ≠ EvNotSpawned.
Definition main_ok a : Prop :=
  match ap_main a with
  | MStarting => True
  | MWaiting => spawned a
  | MJoining => ap_cancelled a = true ∧ spawned a
  | MDone r => all_ended a = true ∧ r = flush (cst_storage (en_chain_state (ap_engine a)))
  end.

Lemma api_can_end_step a b : step a b → api_can_end b → api_can_end a.
Proof.
  unfold api_can_end.
  destruct 1 as [| | | | | | | | | | | |a tls Ht Hs|a err Ht He|a tls t now Ht|a tls Ht| | | | | | | | | | | | | |];
    cbn; try done.
  - intros [x ->]. by rewrite Ht, Hs.
  - by rewrite Ht, He.
  - by rewrite Ht.
Qed.
Lemma all_ended_inv a : all_ended a = true →
  ap_network a = NetEnd ∧ ap_api a = ApiEnd ∧ ap_consensus a = Ended ∧ ap_broadcast a = BcEnd ∧ ap_events a = EvEnd.
Proof. unfold all_ended. by repeat case_match. Qed.
Lemma spawned_step a b : step a b → spawned a → spawned b.
Proof. unfold spawned. destruct 1; cbn; intros [Hb He]; split; congruence. Qed.
Lemma spawned_reach a b : rtc step a b → spawned a → spawned b.
Proof. induction 1; eauto using spawned_step. Qed.
(** Once all tasks have ended no task moves. *)
Lemma main_ok_step a b : step a b → main_ok a → main_ok b.
Proof.
  intros Hst. pose proof (spawned_step _ _ Hst) as Hsp. revert Hsp.
  destruct Hst as [a Hm|a Hm|a Hm Hall| | | | | | | | | | | | | | | | | | | | | | | | | | |];
    unfold main_ok; cbn -[flush all_ended spawned].
  1: by split.
  1: { rewrite Hm. intros _ Hsp. by split. }
  1: done.
  all: intros Hsp; destruct (ap_main a); [done|exact Hsp|intros [? ?]; split; [done|by apply Hsp]|].
  all: intros [(? & ? & ? & ? & ?)%all_ended_inv _]; congruence.
Qed.
Lemma main_ok_reach a b : rtc step a b → main_ok a → main_ok b.
Proof. induction 1; eauto using main_ok_step. Qed.
Lemma api_can_end_reach a b : rtc step a b → api_can_end b → api_can_end a.
Proof. induction 1; eauto using api_can_end_step. Qed.

(** Steps that stop tasks and restart none. *)
Record winds_down a b : Prop := {
  wd_steps : rtc step a b;
  wd_main : ap_main b = ap_main a;
  wd_cancelled : ap_cancelled b = ap_cancelled a;
  wd_events : ap_events a = EvEnd → ap_events b = EvEnd;
  wd_network : ap_network a = NetEnd → ap_network b = NetEnd;
  wd_broadcast : ap_broadcast a = BcEnd → ap_broadcast b = BcEnd;
  wd_consensus : ap_consensus a = Ended → ap_consensus b = Ended;
  wd_api : api_can_end a → api_can_end b
}.
Lemma winds_refl a : winds_down a a.
Proof. by constructor. Qed.
Lemma winds_trans a b c : winds_down a b → winds_down b c → winds_down a c.
Proof.
  intros [] []. constructor; try congruence; eauto. by etrans.
Qed.
Lemma winds_step a b :
  step a b → ap_main b = ap_main a → ap_cancelled b = ap_cancelled a → (ap_events a = EvEnd → ap_events b = EvEnd) →
  (ap_network a = NetEnd → ap_network b = NetEnd) → (ap_broadcast a = BcEnd → ap_broadcast b = BcEnd) →
  (ap_consensus a = Ended → ap_consensus b = Ended) → (api_can_end a → api_can_end b) → winds_down a b.
Proof. intros. constructor; try done. by apply rtc_once. Qed.

Lemma events_end a : ap_cancelled a = true → spawned a → ∃ b, winds_down a b ∧ ap_events b = EvEnd.
Proof.
  intros Hc [_ Hsp]. destruct (ap_events a) eqn:He; [done| |exists a; split; [apply winds_refl|done]].
  exists (set_events a EvEnd []). split; [|done]. by apply winds_step; [apply st_ev_cancelled|..].
Qed.
Lemma net_loop_ends a s : ap_cancelled a = true → ap_network a = NetLoop s → ∃ b, winds_down a b ∧ ap_network b = NetEnd.
Proof.
  intros Hc Hn. eexists. split; [|by instantiate (1 := set_network a NetEnd (ap_event_queue a) [] [])].
  by apply winds_step; [eapply st_net_cancelled|..].
Qed.
(** A pending send to the event handler fails once that task is gone. *)
Lemma net_send_ends evs : ∀ a s, ap_cancelled a = true → ap_events a = EvEnd → ap_network a = NetSend s evs →
  ∃ b, winds_down a b ∧ ap_network b = NetEnd.
Proof.
  induction evs as [|ev evs IH]; intros a s Hc He Hn.
  - destruct (net_loop_ends (set_network a (NetLoop s) (ap_event_queue a) (ap_command_queue a) []) s) as (b & Hb & Hend);
      [done|done|]. exists b. split; [|done]. eapply winds_trans; [|exact Hb].
    apply winds_step; try done; [by apply st_net_sent|congruence].
  - destruct (IH (set_network a (NetSend s evs) (ap_event_queue a) (ap_command_queue a) []) s) as (b & Hb & Hend);
      [done|done|done|]. exists b. split; [|done]. eapply winds_trans; [|exact Hb].
    apply winds_step; try done; [|congruence]. eapply st_net_send_closed; [exact Hn|]. unfold events_received. by rewrite He.
Qed.
Lemma network_ends a : ap_cancelled a = true → ap_events a = EvEnd → ∃ b, winds_down a b ∧ ap_network b = NetEnd.
Proof.
  intros Hc He. destruct (ap_network a) as [s|s|s evs|] eqn:Hn.
  - destruct (start_network (ns_config s)) as [swarm|err] eqn:Hs.
    + destruct (net_loop_ends (set_network a (NetLoop s) (ap_event_queue a) (ap_command_queue a) []) s) as (b & Hb & Hend);
        [done|done|]. exists b. split; [|done]. eapply winds_trans; [|exact Hb].
      apply winds_step; try done; [by eapply st_net_start|congruence].
    + eexists. split; [|by instantiate (1 := set_network a NetEnd (ap_event_queue a) [] [])].
      by apply winds_step; [eapply st_net_start_error|..].
  - by eapply net_loop_ends.
  - by eapply net_send_ends.
  - exists a. split; [apply winds_refl|done].
Qed.
Lemma bc_loop_ends a k : ap_cancelled a = true → ap_broadcast a = BcLoop k → ∃ b, winds_down a b ∧ ap_broadcast b = BcEnd.
Proof.
  intros Hc Hn. exists (set_broadcast a BcEnd (ap_command_queue a)). split; [|done].
  by apply winds_step; [eapply st_bc_cancelled|..].
Qed.
Lemma bc_send_ends cs : ∀ a k, ap_cancelled a = true → ap_network a = NetEnd → ap_broadcast a = BcSend k cs →
  ∃ b, winds_down a b ∧ ap_broadcast b = BcEnd.
Proof.
  induction cs as [|c cs IH]; intros a k Hc He Hn.
  - destruct (bc_loop_ends (set_broadcast a (BcLoop k) (ap_command_queue a)) k) as (b & Hb & Hend);
      [done|done|]. exists b. split; [|done]. eapply winds_trans; [|exact Hb].
    apply winds_step; try done; [by apply st_bc_sent|congruence].
  - destruct (IH (set_broadcast a (BcSend k cs) (ap_command_queue a)) k) as (b & Hb & Hend);
      [done|done|done|]. exists b. split; [|done]. eapply winds_trans; [|exact Hb].
    apply winds_step; try done; [|congruence]. eapply st_bc_send_closed; [exact Hn|]. unfold net_receives. by rewrite He.
Qed.
Lemma broadcast_ends a : ap_cancelled a = true → spawned a → ap_network a = NetEnd → ∃ b, winds_down a b ∧ ap_broadcast b = BcEnd.
Proof.
  intros Hc [Hsp _] He. destruct (ap_broadcast a) as [|k|k cs|] eqn:Hn; [done|..].
  - by eapply bc_loop_ends.
  - by eapply bc_send_ends.
  - exists a. split; [apply winds_refl|done].
Qed.
Lemma consensus_ends a : ap_cancelled a = true → ∃ b, winds_down a b ∧ ap_consensus b = Ended.
Proof.
  intros Hc. destruct (ap_consensus a) eqn:He; [|exists a; split; [apply winds_refl|done]].
  exists (set_consensus a Ended). split; [|done]. by apply winds_step; [apply st_con_cancelled|..].
Qed.
Lemma api_ends a : api_can_end a → ∃ b, winds_down a b ∧ ap_api b = ApiEnd.
Proof.
  intros Ha. destruct (ap_api a) as [|tls|] eqn:He; [..|exists a; split; [apply winds_refl|done]].
  2: { unfold api_can_end in Ha. rewrite He in Ha. destruct Ha as [x ->]. exists (set_api a ApiEnd). split; [|done].
       by apply winds_step; [eapply st_api_accept_error|..]. }
  unfold api_can_end in Ha. rewrite He in Ha.
  destruct (serve_start (ap_files a) (nd_api (ap_config a))) as [[tls|]|err] eqn:Hs; [|done|].
  - exists (set_api (set_api a (ApiServe (Some tls))) ApiEnd). split; [|done].
    apply (winds_trans _ (set_api a (ApiServe (Some tls)))); (apply winds_step; [| try done..]).
    + by apply st_api_start.
    + intros _. by eexists.
    + by eapply st_api_accept_error.
  - exists (set_api a ApiEnd). split; [|done]. by apply winds_step; [eapply st_api_start_error|..].
Qed.

(** After the cancellation the other four tasks can always be brought to their end. *)
Lemma tasks_wind_down a : ap_cancelled a = true → spawned a → ∃ b, winds_down a b ∧
  ap_events b = EvEnd ∧ ap_network b = NetEnd ∧ ap_broadcast b = BcEnd ∧ ap_consensus b = Ended.
Proof.
  intros Hc Hsp. destruct (events_end a Hc Hsp) as (b1 & W1 & E1).
  destruct (network_ends b1) as (b2 & W2 & E2); [by rewrite (wd_cancelled _ _ W1)|done|].
  assert (winds_down a b2) as W12 by (by eapply winds_trans).
  destruct (broadcast_ends b2) as (b3 & W3 & E3);
    [by rewrite (wd_cancelled _ _ W12)|exact (spawned_reach _ _ (wd_steps _ _ W12) Hsp)|done|].
  assert (winds_down a b3) as W13 by (by eapply winds_trans).
  destruct (consensus_ends b3) as (b4 & W4 & E4); [by rewrite (wd_cancelled _ _ W13)|].
  exists b4. split; [by eapply winds_trans|].
  split_and!; [apply (wd_events _ _ W4), (wd_events _ _ W3), (wd_events _ _ W2)|
    apply (wd_network _ _ W4), (wd_network _ _ W3)|apply (wd_broadcast _ _ W4)|]; done.
Qed.
Lemma finishes a : main_ok a → api_can_end a →
  ∃ b, rtc step a b ∧ ap_main b = MDone (flush (cst_storage (en_chain_state (ap_engine b)))).
Proof.
  intros Hok Ha.
  assert (∃ a', rtc step a a' ∧ (ap_main a' = MJoining ∧ ap_cancelled a' = true ∧ spawned a' ∨
    ap_main a' = MDone (flush (cst_storage (en_chain_state (ap_engine a'))))) ∧ api_can_end a') as (a1 & R1 & Hm & Ha1).
  { unfold main_ok in Hok. destruct (ap_main a) as [| | |r] eqn:Hm.
    - exists (set_main (start_rest a) true MJoining). split; [|by split; [left|]].
      eapply rtc_l; [by apply st_started|]. by apply rtc_once, st_ctrl_c.
    - exists (set_main a true MJoining). split; [by apply rtc_once, st_ctrl_c|]. split; [by left|done].
    - exists a. split; [done|]. split; [by left|done].
    - exists a. split; [done|]. split; [|done]. right. by destruct Hok as [_ <-]. }
  destruct Hm as [(Hm & Hc & Hsp)|Hm]; [|by exists a1].
  destruct (tasks_wind_down a1 Hc Hsp) as (b & W & E1 & E2 & E3 & E4).
  destruct (api_ends b (wd_api _ _ W Ha1)) as (b' & W' & E5).
  exists (set_main b' (ap_cancelled b') (MDone (flush (cst_storage (en_chain_state (ap_engine b')))))).
  split; [|done]. etrans; [exact R1|]. etrans; [exact (wd_steps _ _ W)|]. etrans; [exact (wd_steps _ _ W')|].
  apply rtc_once, st_join; [by rewrite (wd_main _ _ W'), (wd_main _ _ W)|].
  unfold all_ended. by rewrite (wd_network _ _ W' E2), E5, (wd_consensus _ _ W' E4), (wd_broadcast _ _ W' E3), (wd_events _ _ W' E1).
Qed.
Lemma start_main_ok config keypair generated peer f opened a :
  application_start (D := D) (PeerId := PeerId) (F := F) config keypair generated peer f opened = Some (Ok a) → main_ok a.
Proof.
  unfold application_start. destruct opened as [d|]; [|done].
  destruct (ConsensusEngine_new _ _ _ _ _) as [[d' [e|]]|]; [|done|done]. by intros [= <-].
Qed.

(** C25: From every state a started node can reach, a run to the end of Application::run
    exists exactly when the API task has ended or can still end by itself (a failed start or
    a TLS accept error); the other four tasks, full channels included, never stand in the
    way. A finished run has all five tasks ended and returns the result of flushing the
    database. A node that serves plain HTTP therefore never completes its shutdown. *)
Theorem shutdown_waits_for_api config keypair generated peer f opened a0 a :
  application_start config keypair generated peer f opened = Some (Ok a0) → rtc step a0 a →
  ((∃ b r, rtc step a b ∧ ap_main b = MDone r) ↔ api_can_end a) ∧
  (∀ b r, rtc step a b → ap_main b = MDone r →
     all_ended b = true ∧ r = flush (cst_storage (en_chain_state (ap_engine b)))).
Proof.
  intros Hstart Hreach. pose proof (main_ok_reach _ _ Hreach (start_main_ok _ _ _ _ _ _ _ Hstart)) as Hok.
  assert (∀ b r, rtc step a b → ap_main b = MDone r →
     all_ended b = true ∧ r = flush (cst_storage (en_chain_state (ap_engine b)))) as Hdone.
  { intros b r Hr Hm. apply (main_ok_reach _ _ Hr) in Hok. unfold main_ok in Hok. by rewrite Hm in Hok. }
  split; [|done]. split.
  - intros (b & r & Hr & Hm). eapply api_can_end_reach; [exact Hr|].
    destruct (Hdone b r Hr Hm) as [(_ & Ha & _)%all_ended_inv _]. unfold api_can_end. by rewrite Ha.
  - intros Ha. destruct (finishes a Hok Ha) as (b & Hr & Hm). by eexists _, _.
Qed.
End Stopping.

(** ** Blocks go out in order, each at most once *)
Section Broadcasting.
Context `{CryptoPrims} `{Wasmtime} `{Rng} `{Bincode Transaction} `{Bincode BlockHeader}.
Context {D : Type} `{ChainStore D} `{RocksDB D} `{RocksFiles D}.
Context {PeerId : Type} `{Countable PeerId} `{Bincode NetworkMessage}.
Context `{Libp2p} `{ApiNet} {F : Type} `{FileSystem F}.
Implicit Types a b : App (D := D) (PeerId := PeerId) (F := F).
Implicit Types e : ConsensusEngine D.
Abbreviation step := (app_step (D := D) (PeerId := PeerId) (F := F)).

(** The handlers only append to the event channel. *)
Lemma advance_epoch_appends e now e' r : advance_epoch e now = (e', r) → en_events e `prefix_of` en_events e'.
Proof.
  unfold advance_epoch. destruct (maybe_advance_epoch _ _ now) as [c [[ep|]|err]]; intros [= <- <-]; cbn; try done.
  by apply prefix_app_r.
Qed.
Lemma send_appends e ev : en_events e `prefix_of` en_events (en_send e ev).
Proof. by apply prefix_app_r. Qed.
Lemma transaction_appends e t now : en_events e `prefix_of` en_events (on_transaction_received e t now).1.
Proof. unfold on_transaction_received. destruct (pool_insert _ _ _) as [p [|]]; cbn; [by apply prefix_app_r|done]. Qed.
Lemma vote_appends e v : en_events e `prefix_of` en_events (on_vote_received e v).1.
Proof.
  unfold on_vote_received. destruct (add_vote _ _) as [f [s|]]; [destruct s|]; cbn; try done. by apply prefix_app_r.
Qed.
Lemma block_appends e blk t1 t2 e' r : on_block_received e blk t1 t2 = Some (e', r) → en_events e `prefix_of` en_events e'.
Proof.
  unfold on_block_received. destruct (block_validate_basic blk); [|by intros [= <- <-]].
  destruct (verify_proposer _ _ _ _); [|by intros [= <- <-]]. destruct (verify_signature _); [|by intros [= <- <-]].
  destruct (check_double_sign e blk t1) as [e1|] eqn:Hd.
  - intros [= <- <-]. unfold check_double_sign in Hd. destruct (en_seen_blocks e !! _); [|done].
    case_bool_decide; [done|]. destruct (detect_double_sign _ _ _); [|done]. cbn [mbind option_bind] in Hd.
    repeat case_match; by simplify_eq.
  - set (e1 := match en_seen_blocks e !! _ with None => _ | Some _ => e end).
    assert (en_events e = en_events e1) as -> by (unfold e1; by case_match).
    destruct (apply_block _ _ blk) as [[[c vm] [rs|err]]|]; [| |done]; cbn [mbind option_bind]; [|by intros [= <- <-]].
    destruct (advance_epoch _ t2) as [e2 r2] eqn:Ha. apply advance_epoch_appends in Ha. cbn in Ha.
    destruct r2; intros [= <- <-]; [etrans; [exact Ha|apply send_appends]|exact Ha].
Qed.
Lemma network_event_appends e ev t1 t2 e' :
  on_network_event (PeerId := PeerId) e ev t1 t2 = Some e' → en_events e `prefix_of` en_events e'.
Proof.
  destruct ev; cbn; try (intros [= <-]; first [done|apply transaction_appends|apply vote_appends]).
  destruct (on_block_received e block t1 t2) as [[e1 r]|] eqn:Hb; [|done]. intros [= <-]. by eapply block_appends.
Qed.
Lemma tick_appends e order t1 t2 t3 e' r :
  production_tick e order t1 t2 t3 = Some (e', r) → en_events e `prefix_of` en_events e'.
Proof.
  unfold production_tick. case_match; [by intros [= <- <-]|]. destruct (en_keypair e) as [kp|]; [|by intros [= <- <-]].
  unfold try_produce_block. destruct (select_proposer _ _ _); [|by intros [= <- <-]]. case_match; [by intros [= <- <-]|].
  destruct (apply_block _ _ _) as [[[c vm] [rs|err]]|]; [| |done]; cbn [mbind option_bind]; [|by intros [= <- <-]].
  destruct (advance_epoch _ t2) as [e2 r2] eqn:Ha. apply advance_epoch_appends in Ha. cbn in Ha.
  destruct r2; intros [= <- <-]; [|exact Ha]. etrans; [exact Ha|]. by apply prefix_app_r.
Qed.

(** The blocks announced by the engine. *)
Definition new_blocks (evs : list ConsensusEvent) : list Block :=
  omap (λ ev, match ev with NewBlock block => Some block | _ => None end) evs.
Definition publication (block : Block) : SwarmCall PeerId := Publish topics.NEW_BLOCKS (bincode_ser (MsgNewBlock block)).
Lemma new_blocks_app l1 l2 : new_blocks (l1 ++ l2) = new_blocks l1 ++ new_blocks l2.
Proof. apply omap_app. Qed.
Lemma new_blocks_prefix l1 l2 : l1 `prefix_of` l2 → new_blocks l1 `prefix_of` new_blocks l2.
Proof. intros [l ->]. rewrite new_blocks_app. by apply prefix_app_r. Qed.

(** How far the broadcaster has read, and what it is still sending. *)
Definition bc_read a : list ConsensusEvent :=
  match ap_broadcast a with
  | BcNotSpawned => []
  | BcLoop k | BcSend k _ => take k (en_events (ap_engine a))
  | BcEnd => en_events (ap_engine a)
  end.
Definition bc_pending a : list (NetworkCommand PeerId) := match ap_broadcast a with BcSend _ cs => cs | _ => [] end.
(** Published, queued and pending blocks, in this order, are among the blocks read, in
    their order. *)
Definition in_order a : Prop := ∃ bs qs ps,
  ap_calls a = publication <$> bs ∧ ap_command_queue a = BroadcastBlock <$> qs ∧ bc_pending a = BroadcastBlock <$> ps ∧
  (bs ++ qs ++ ps) `sublist_of` new_blocks (bc_read a).

(** Steps that leave calls, queue and pending commands alone and read no less. *)
Lemma in_order_quiet a b :
  ap_calls b = ap_calls a → ap_command_queue b = ap_command_queue a → bc_pending b = bc_pending a →
  bc_read a `prefix_of` bc_read b → in_order a → in_order b.
Proof.
  intros Hc Hq Hp Hr (bs & qs & ps & E1 & E2 & E3 & Hs). exists bs, qs, ps. rewrite Hc, Hq, Hp.
  split_and!; try done. etrans; [exact Hs|]. apply new_blocks_prefix in Hr as [l ->]. by apply sublist_inserts_r.
Qed.
Lemma prefix_both_take {A} (l1 l2 : list A) n : l1 `prefix_of` l2 → take n l1 `prefix_of` take n l2.
Proof. intros [l ->]. rewrite take_app. by apply prefix_app_r. Qed.
Lemma bc_read_engine a e : en_events (ap_engine a) `prefix_of` en_events e → bc_read a `prefix_of` bc_read (set_engine a e).
Proof. intros Hp. unfold bc_read. cbn. destruct (ap_broadcast a); try done; by apply prefix_both_take. Qed.
Lemma in_order_engine a e : en_events (ap_engine a) `prefix_of` en_events e → in_order a → in_order (set_engine a e).
Proof. intros Hp. apply in_order_quiet; try done. by apply bc_read_engine. Qed.
(** Queued commands may be lost. *)
Lemma in_order_drop a t evq : in_order a → in_order (set_network a t evq [] []).
Proof.
  intros (bs & qs & ps & E1 & E2 & E3 & Hs). exists bs, [], ps. cbn. rewrite app_nil_r.
  split_and!; try done. etrans; [|exact Hs]. apply sublist_app; [done|]. by apply sublist_inserts_l.
Qed.
Lemma in_order_network a t evq : in_order a → in_order (set_network a t evq (ap_command_queue a) []).
Proof. apply in_order_quiet; try done. cbn. by rewrite app_nil_r. Qed.
Lemma in_order_command a s c cmq s' calls evq :
  ap_command_queue a = c :: cmq → handle_command s (Some c) = Some (s', calls) →
  in_order a → in_order (set_network a (NetLoop s') evq cmq calls).
Proof.
  intros Hq Hc (bs & qs & ps & E1 & E2 & E3 & Hs). rewrite Hq in E2. destruct qs as [|q qs]; [done|].
  injection E2 as -> ->. injection Hc as <- <-. exists (bs ++ [q]), qs, ps. cbn. rewrite E1, fmap_app.
  split_and!; try done. by rewrite <- app_assoc.
Qed.
Lemma in_order_read a k ev cs :
  ap_broadcast a = BcLoop k → en_events (ap_engine a) !! k = Some ev → forward_event (Event ev) = Some cs →
  in_order a → in_order (set_broadcast a (BcSend (S k) cs) (ap_command_queue a)).
Proof.
  intros Hb Hev Hcs (bs & qs & ps & E1 & E2 & E3 & Hs). unfold bc_pending, bc_read in E3, Hs. rewrite Hb in E3, Hs.
  destruct ps; [|done].
  exists bs, qs, (new_blocks [ev]). split_and!; [done|done|by destruct ev; injection Hcs as <-|].
  unfold bc_read. cbn [ap_broadcast set_broadcast ap_engine]. rewrite (take_S_r _ _ ev) by done. rewrite new_blocks_app, app_assoc.
  apply sublist_app; [|done]. by rewrite !app_nil_r in Hs.
Qed.
Lemma in_order_send a k c cs :
  ap_broadcast a = BcSend k (c :: cs) → in_order a →
  in_order (set_broadcast a (BcSend k cs) (ap_command_queue a ++ [c])) ∧
  in_order (set_broadcast a (BcSend k cs) (ap_command_queue a)).
Proof.
  intros Hb (bs & qs & ps & E1 & E2 & E3 & Hs). unfold bc_pending, bc_read in E3, Hs. rewrite Hb in E3, Hs.
  destruct ps as [|p ps]; [done|]. injection E3 as -> ->. split.
  - exists bs, (qs ++ [p]), ps. cbn. rewrite E2, fmap_app. split_and!; try done. by rewrite <- app_assoc.
  - exists bs, qs, ps. cbn. split_and!; try done. etrans; [|exact Hs].
    apply sublist_app; [done|]. apply sublist_app; [done|]. by apply sublist_cons.
Qed.
(** Nothing is broadcast before the broadcaster is spawned. *)
Definition not_yet a : Prop := ap_main a = MStarting → ap_broadcast a = BcNotSpawned.
Lemma not_yet_step a b : step a b → not_yet a → not_yet b.
Proof. unfold not_yet. destruct 1; cbn; intros Hn Hm; first [done | specialize (Hn Hm); congruence]. Qed.
Lemma in_order_step a b : step a b → not_yet a → in_order a → in_order b.
Proof.
  intros Hst Hnot. revert Hst Hnot.
  destruct 1 as [a Hm| | | | | | | | | | | | | |a tls t now _|a tls| | |a order t1 t2 t3 e r _ _ _ Ht|a order t1 t2 t3 e _ _ He|a k Hb| |
    a k n Hb| | |a k Hb| |a ev evq t1 t2 e _ _ Ht|a ev evq t1 t2 e _ _ _ He|];
    intros Hnot; first [by apply in_order_quiet|by apply in_order_network|by apply in_order_drop|idtac].
  - apply in_order_quiet; try done; unfold bc_pending, bc_read; rewrite (Hnot Hm); [done|apply prefix_nil].
  - by eapply in_order_command.
  - apply in_order_engine, transaction_appends.
  - eapply in_order_engine, tick_appends, Ht.
  - by apply (in_order_engine a e).
  - apply in_order_quiet; try done; unfold bc_pending, bc_read; rewrite Hb; [done|]. apply prefix_take.
  - by eapply in_order_read.
  - apply in_order_quiet; try done; unfold bc_pending, bc_read; rewrite Hb; [done|]. cbn.
    exists (take n (drop k (en_events (ap_engine a)))). by rewrite take_take_drop.
  - by eapply in_order_send.
  - by eapply in_order_send.
  - apply in_order_quiet; try done; unfold bc_pending, bc_read; by rewrite Hb.
  - eapply (in_order_engine a e), network_event_appends, Ht.
  - by apply (in_order_engine a e).
Qed.
Lemma bc_read_prefix a : bc_read a `prefix_of` en_events (ap_engine a).
Proof. unfold bc_read. destruct (ap_broadcast a); [apply prefix_nil|apply prefix_take|apply prefix_take|done]. Qed.
Lemma start_in_order config keypair generated peer f opened a :
  application_start (D := D) (PeerId := PeerId) (F := F) config keypair generated peer f opened = Some (Ok a) →
  not_yet a ∧ in_order a.
Proof.
  unfold application_start. destruct opened as [d|]; [|done].
  destruct (ConsensusEngine_new _ _ _ _ _) as [[d' [e|]]|]; [|done|done]. intros [= <-].
  split; [done|]. exists [], [], []. split_and!; try done.
Qed.

(** C33: Whatever the interleaving of the five tasks, their channels, panics and the
    shutdown, all a running node has ever asked of its swarm is to publish blocks on the
    block topic, and these are blocks its engine announced, in the order of their
    announcement and each at most as often as it was announced. *)
Theorem blocks_broadcast_in_order config keypair generated peer f opened a0 a :
  application_start (D := D) (PeerId := PeerId) (F := F) config keypair generated peer f opened = Some (Ok a0) →
  rtc step a0 a →
  ∃ bs, ap_calls a = publication <$> bs ∧ bs `sublist_of` new_blocks (en_events (ap_engine a)).
Proof.
  intros Hstart Hreach. assert (in_order a) as (bs & qs & ps & Hb & _ & _ & Hs).
  { apply start_in_order in Hstart as [Hn Hi]. clear -Hreach Hn Hi.
    induction Hreach; eauto using in_order_step, not_yet_step. }
  exists bs. split; [done|]. destruct (bc_read_prefix a) as [l Hl]. rewrite Hl, new_blocks_app.
  apply sublist_inserts_r. etrans; [|exact Hs]. by apply sublist_inserts_r.
Qed.
End Broadcasting.

(** ** Start-up *)
Section Starting.
Context `{CryptoPrims} `{Wasmtime} `{Rng} `{Bincode Transaction} `{Bincode BlockHeader}.
Context {D : Type} `{ChainStore D}.
Implicit Types e : ConsensusEngine D.

(** A producer whose key is not among the active validators does nothing. *)
Lemma unlisted_tick e kp order t1 t2 t3 :
  en_keypair e = Some kp →
  KeyPair_address kp ∉ vi_address <$> active_validators (ep_validator_set (cst_current_epoch (en_chain_state e))) →
  fst <$> production_tick e order t1 t2 t3 = Some e.
Proof.
  intros Hk Hni. unfold production_tick. rewrite Hk. case_match; [done|]. unfold try_produce_block.
  destruct (select_proposer _ _ _) as [p|] eqn:Hp; [|done]. apply select_proposer_elem in Hp as (v & Hv & Hp).
  case_bool_decide as Heq; [|done]. destruct Hni. rewrite <- Heq, <- Hp. by apply list_elem_of_fmap_2.
Qed.
Lemma unlisted_loop e kp ticks :
  en_keypair e = Some kp →
  KeyPair_address kp ∉ vi_address <$> active_validators (ep_validator_set (cst_current_epoch (en_chain_state e))) →
  production_loop e ticks = Some e.
Proof.
  intros Hk Hni. induction ticks as [|[order [[t1 t2] t3]] ticks IH]; [done|]. cbn [production_loop].
  pose proof (unlisted_tick e kp order t1 t2 t3 Hk Hni) as Ht.
  destruct (production_tick e order t1 t2 t3) as [[e' r]|]; [|done]. by injection Ht as ->.
Qed.

(** [run --validator] signs with a key pair generated at the start, whatever [--keyfile] says:
    unless that key is one of an active validator no tick ever produces a block. *)
Theorem validator_flag_uses_random_key keyfile data_dir loaded unused now config keys generated (d d' : D) vm e ticks :
  run_config true keyfile false data_dir (Ok loaded) unused now = Ok (config, keys) →
  start_node_engine config keys generated d vm = Some (d', Ok e) →
  en_keypair e = Some generated ∧
  (KeyPair_address generated ∉ vi_address <$> active_validators (ep_validator_set (cst_current_epoch (en_chain_state e))) →
   production_loop e ticks = Some e).
Proof.
  intros [= <- <-] Hs. assert (en_keypair e = Some generated) as Hk.
  { unfold start_node_engine, ConsensusEngine_new in Hs. destruct (from_genesis _ _) as [[d1 [c|]]|]; [|done|done].
    by injection Hs as <- <-. }
  split; [done|]. by apply unlisted_loop.
Qed.
End Starting.

Section OpenedDatabase.
Context {D : Type} `{RocksDB D} `{!RocksDBLaws D} `{RocksFiles D} `{!RocksFilesLaws D} `{Bincode U32} `{!BincodeLaws U32}.

(** A database that was opened has every column family and the current schema version:
    opening what it holds again changes nothing. *)
Lemma opened_database config db :
  ChainDatabase_open (D := D) config = Ok db →
  cdb_path db = sc_path config ∧ (∀ name, name ∈ CF_ALL → rdb_cf_handle (cdb_db db) name = true) ∧
  check_or_set_schema_version (cdb_db db) = Ok (cdb_db db).
Proof.
  unfold ChainDatabase_open. destruct (rdb_open_cf_descriptors _ _ _) as [d|] eqn:Ho; [|done]. cbn [map_err mbind result_bind].
  assert (∀ name, name ∈ CF_ALL → rdb_cf_handle d name = true) as Hcf.
  { intros name Hn. eapply open_has_families; [exact Ho|done|]. rewrite <- list_fmap_compose. by rewrite list_fmap_id. }
  destruct (check_or_set_schema_version d) as [d1|] eqn:Hc; [|done]. intros [= <-]. cbn [cdb_path cdb_db].
  assert (rdb_cf_handle d CF_META = true) as Hm by (apply Hcf, (bool_decide_eq_true_1 _); by vm_compute).
  unfold check_or_set_schema_version, get_cf, put_cf, cf_handle in Hc. rewrite Hm in Hc. cbn [mbind result_bind] in Hc.
  destruct (rdb_get d CF_META SCHEMA_VERSION) as [[bs|]|] eqn:Hg; cbn [map_err mbind result_bind] in Hc; [| |done].
  - destruct (bincode_de bs) as [v|] eqn:Hv; [|done]. cbn [map_err mbind result_bind] in Hc. destruct (negb _) eqn:Hn in Hc; [done|]. injection Hc as <-.
    split_and!; [done|done|]. unfold check_or_set_schema_version, get_cf, cf_handle. rewrite Hm. cbn [mbind result_bind]. rewrite Hg.
    cbn [map_err mbind result_bind]. rewrite Hv. cbn [map_err mbind result_bind]. by rewrite Hn.
  - destruct (rdb_put _ _ _ _) as [d2|] eqn:Hput; [|done]. injection Hc as <-.
    assert (rdb_cf_handle d2 CF_META = true) as Hm2 by (by rewrite (rdb_put_cf _ _ _ _ _ Hput)).
    split_and!; [done|intros name Hn; by rewrite (rdb_put_cf _ _ _ _ _ Hput), Hcf|].
    unfold check_or_set_schema_version, get_cf, cf_handle. rewrite Hm2. cbn [mbind result_bind].
    rewrite (rdb_put_get _ _ _ _ _ Hput). unfold op_at. rewrite bool_decide_eq_true_2 by done. cbn [over map_err mbind result_bind].
    by rewrite bincode_de_ser.
Qed.
End OpenedDatabase.

(** A bootnode that does not parse never prevents the start, a listen address that does
    not parse always does. *)
Lemma start_network_addresses `{Libp2p} config swarm :
  start_network config = Ok swarm →
  Forall (λ addr, is_ok (parse_multiaddr addr) = true) (nc_listen_addresses config) ∧
  ∃ listening, swarm = foldl swarm_dial listening (ok_values (parse_multiaddr <$> nc_bootnodes config)).
Proof.
  unfold start_network. destruct (build_swarm config) as [s0|]; [|done]. cbn.
  destruct (listen_all s0 _) as [s1|] eqn:Hl; [|done]. cbn [mbind result_bind]. intros Hs. split.
  - clear Hs. revert s0 Hl. induction (nc_listen_addresses config) as [|x l IH]; intros s0 Hl; [done|].
    cbn in Hl. destruct (parse_multiaddr x) eqn:Hx; [|done]. cbn in Hl.
    destruct (swarm_listen_on s0 _) as [s|]; [|done]. constructor; [by rewrite Hx|exact (IH _ Hl)].
  - destruct (subscribe s1 _) as [s2|]; [|done]. cbn in Hs. destruct (subscribe s2 _) as [s3|]; [|done]. cbn in Hs.
    destruct (subscribe s3 _) as [s4|]; [|done]. injection Hs as <-. exists s4. unfold dial_bootnodes. generalize s4. clear.
    induction (nc_bootnodes config) as [|x l IH]; intros s; [done|]. cbn. destruct (parse_multiaddr x); apply IH.
Qed.
