(* ===== verification/NodeExamples.v ===== *)
(** * NodeExamples: a two-node cluster

    A producer and a follower in the in-memory database: the witnesses of the
    theorems of Network.v and Node.v. *)

From S2P Require Import Prelude Crypto Merkle CoreTypes Validators Storage Vm Consensus Finality TxPool ChainState Engine Instances ChainExamples BridgeTypes Text ApiTypes ApiRoutes Network Node.

Import ToyCrypto ToyWasm ToyRng MemStore.

#[local] Unset Program Cases.

(** ** Serializers for the network messages *)
#[export] Program Instance ser_finality_vote : Ser FinalityVote :=
  ser_iso (λ v, (fv_block_number v, fv_block_hash v, fv_validator v, fv_validator_pubkey v, fv_signature v, fv_timestamp v))
    (λ '(a, b, c, d, e, f), Some {| fv_block_number := a; fv_block_hash := b; fv_validator := c;
       fv_validator_pubkey := d; fv_signature := e; fv_timestamp := f |}) _.
Next Obligation. by intros []. Qed.
#[export] Program Instance ser_peer_status : Ser PeerStatus :=
  ser_iso (λ s, (ps_chain_id s, ps_best_block s, ps_best_hash s, ps_genesis_hash s, ps_protocol_version s))
    (λ '(a, b, c, d, e), Some {| ps_chain_id := a; ps_best_block := b; ps_best_hash := c;
       ps_genesis_hash := d; ps_protocol_version := e |}) _.
Next Obligation. by intros []. Qed.
#[export] Program Instance ser_sum {A B} `{Ser A, Ser B} : Ser (A + B) := {|
  ser x := match x with inl a => Byte.x00 :: ser a | inr b => Byte.x01 :: ser b end;
  de l := match l with
          | Byte.x00 :: r => '(a, r) ← de r; Some (inl a, r)
          | Byte.x01 :: r => '(b, r) ← de r; Some (inr b, r)
          | _ => None end |}.
Next Obligation. intros A B ? ? [a|b] rest; simpl; by rewrite de_ser. Qed.
#[export] Program Instance ser_network_message : Ser NetworkMessage :=
  ser_iso (A := NetworkMessage)
    (B := Block + SignedTransaction + (FinalityVote + (Z * Z)) + (list Block + option PeerStatus))
    (λ m, match m with
          | MsgNewBlock b => inl (inl (inl b))
          | MsgNewTransaction t => inl (inl (inr t))
          | MsgFinalityVote v => inl (inr (inl v))
          | MsgBlockRequest s c => inl (inr (inr (s, c)))
          | MsgBlockResponse bs => inr (inl bs)
          | MsgStatusRequest => inr (inr None)
          | MsgStatusResponse s => inr (inr (Some s))
          end)
    (λ x, Some (match x with
          | inl (inl (inl b)) => MsgNewBlock b
          | inl (inl (inr t)) => MsgNewTransaction t
          | inl (inr (inl v)) => MsgFinalityVote v
          | inl (inr (inr (s, c))) => MsgBlockRequest s c
          | inr (inl bs) => MsgBlockResponse bs
          | inr (inr None) => MsgStatusRequest
          | inr (inr (Some s)) => MsgStatusResponse s
          end)) _.
Next Obligation. by intros []. Qed.

Definition service (id : Z) : NetworkService (PeerId := Z) := NetworkService_new NetworkConfig_default id.
Lemma gossip_roundtrip_witness :
  handle_swarm_event (service 2) (GossipMessage (bincode_ser (MsgNewTransaction t_transfer)) (Some 1)) 9 =
    (service 2, [TransactionReceived t_transfer 1]).
Proof.
  exact (proj2 (proj2 (gossip_roundtrip (service 1) (BroadcastTransaction t_transfer) (service 1) _
    topics.NEW_TRANSACTIONS _ (service 2) 9 (Some 1) eq_refl ltac:(left)))).
Defined.

(** ** The cluster *)
Definition start_engine (production : bool) (key : option KeyPair) : ConsensusEngine Mem := {|
  en_config := set_production ConsensusConfig_default production;
  en_chain_state := en_chain_state (engine0 (TransactionPool_new 10 1));
  en_tx_pool := TransactionPool_new 10 1; en_finality := FinalityEngine_new vset; en_vm_engine := spender;
  en_events := []; en_keypair := key; en_seen_blocks := ∅ |}.
Definition start_node (id : Z) (e : ConsensusEngine Mem) : Node (PeerId := Z) := {|
  nd_engine := e; nd_service := service id; nd_cursor := 0; nd_submitted := [] |}.
Definition n0 : Node := start_node 1 (start_engine true (Some alice)).
Definition n1 : Node := start_node 2 (start_engine false None).
Definition cluster0 : Cluster := {| clu_nodes := [n0; n1]; clu_gossip := [] |}.
Lemma cluster0_fresh : fresh_cluster cluster0.
Proof. split; [|reflexivity]. repeat constructor. Qed.

Definition e1 : ConsensusEngine Mem :=
  match production_tick (nd_engine n0) [] 7 8 9 with Some (e, _) => e | None => nd_engine n0 end.
Lemma tick1 : production_tick (nd_engine n0) [] 7 8 9 = Some (e1, Ok ()).
Proof.
  assert ((λ p, is_ok p.2) <$> production_tick (nd_engine n0) [] 7 8 9 = Some true) as Hok by by vm_compute.
  unfold e1. destruct (production_tick (nd_engine n0) [] 7 8 9) as [[e r]|]; [|discriminate Hok].
  by destruct r as [[]|]; [|discriminate Hok].
Qed.
Definition cluster1 : Cluster := {| clu_nodes := [nd_set_engine n0 e1; n1]; clu_gossip := [] |}.
Lemma step1 : cluster_step cluster0 cluster1.
Proof. exact (step_produce cluster0 0 n0 [] 7 8 9 e1 (Ok ()) eq_refl tick1). Qed.
Definition block1 : Block := match en_events e1 with NewBlock b :: _ => b | _ => genesis_block end.
Lemma event1 : en_events e1 !! 0%nat = Some (NewBlock block1).
Proof.
  assert (match en_events e1 with NewBlock b :: _ => true | _ => false end = true) as Hok by by vm_compute.
  unfold block1. destruct (en_events e1) as [|[b| | |] l]; [discriminate Hok|reflexivity|discriminate Hok..].
Qed.
Definition forwarded (e : ConsensusEngine Mem) (b : Block) : Cluster := {|
  clu_nodes := [{| nd_engine := e; nd_service := service 1; nd_cursor := 1; nd_submitted := [] |}; n1];
  clu_gossip := [bincode_ser (MsgNewBlock b)] |}.
Lemma forward_first e b :
  en_events e !! 0%nat = Some (NewBlock b) →
  cluster_step {| clu_nodes := [nd_set_engine n0 e; n1]; clu_gossip := [] |} (forwarded e b).
Proof.
  intros Hev. exact (step_forward {| clu_nodes := [nd_set_engine n0 e; n1]; clu_gossip := [] |} 0 (nd_set_engine n0 e)
    (NewBlock b) [BroadcastBlock b] (service 1) [bincode_ser (MsgNewBlock b)] eq_refl Hev eq_refl eq_refl).
Qed.
Definition cluster2 : Cluster := forwarded e1 block1.
Lemma step2 : cluster_step cluster1 cluster2.
Proof. exact (forward_first e1 block1 event1). Qed.
Lemma cluster_provenance_witness :
  clu_gossip cluster2 ≠ [] ∧
  ∀ data, data ∈ clu_gossip cluster2 → ∃ b, bincode_de data = Ok (MsgNewBlock b) ∧ block_origin (clu_nodes cluster2) b.
Proof.
  split; [discriminate|].
  exact (proj1 (cluster_provenance cluster0 cluster2 cluster0_fresh
    (rtc_l _ _ _ _ step1 (rtc_once _ _ step2)))).
Defined.

Lemma cluster_finality_needs_own_quorum_witness :
  fe_finalized_height (en_finality e1) = 1 ∧
  ∃ vs l, Forall (own_vote (nd_engine n0)) l ∧ quorum_threshold vs ≤ voted_stake vs l.
Proof.
  assert (fe_finalized_height (en_finality e1) = 1) as Hf by by vm_compute. split; [exact Hf|].
  apply (cluster_finality_needs_own_quorum cluster0 cluster0 cluster1 0 n0 (nd_set_engine n0 e1) cluster0_fresh
    (rtc_refl _ _) step1 eq_refl eq_refl).
  change (fe_finalized_height (en_finality e1) ≠ 0). rewrite Hf. discriminate.
Defined.

(** [rustchain run --devnet] with alice's key on an empty database. *)
Definition devnet_config : NodeConfig := with_run_options (NodeConfig_devnet alice 0).1 true "./data".
Definition devnet_started : option (Mem * result ConsensusError (ConsensusEngine Mem)) :=
  start_node_engine devnet_config (Some alice) bob MemStore.empty spender.
Lemma mem_commit_succeeds (d : Mem) b rs accs : ∃ d', cs_commit d b rs accs = Ok d'.
Proof. eexists. reflexivity. Qed.
Lemma mem_put_epoch_succeeds (d : Mem) ep : ∃ d', cs_put_epoch d ep = Ok d'.
Proof. eexists. reflexivity. Qed.
Lemma devnet_finalizes_every_block_witness :
  match devnet_started with
  | Some (_, Ok e) =>
      ∃ e', production_loop e [([], (7, 8, 9)); ([], (10, 11, 12)); ([], (13, 14, 15))] = Some e' ∧
        fe_finalized_height (en_finality e') = 3 ∧
        (hdr_number ∘ blk_header) <$> announced (en_events e') = [1; 2; 3]
  | _ => False
  end.
Proof.
  assert ((λ r, is_ok r.2) <$> devnet_started = Some true) as Hok by by vm_compute.
  destruct devnet_started as [[d' [e|err]]|] eqn:E; [|discriminate Hok..].
  destruct (devnet_finalizes_every_block alice 0 "./data" bob MemStore.empty d' spender devnet_config (Some alice) e
    [(7, 8, 9); (10, 11, 12); (13, 14, 15)] mem_commit_succeeds mem_put_epoch_succeeds eq_refl eq_refl E)
    as (e' & H1 & _ & H2 & H3).
  - simpl. lia.
  - exists e'. split; [exact H1|]. split; [exact H2|exact H3].
Defined.
