(* ===== verification/LifecycleExamples.v ===== *)
(** * LifecycleExamples: a devnet node from start to shutdown

    The witnesses of Lifecycle.v, on the in-memory RocksDB of Instances.v, a file system
    without files and a swarm that records what is asked of it. *)

From S2P Require Import Prelude Crypto Merkle CoreTypes Validators Storage Vm Consensus Finality TxPool ChainState Engine Instances ChainExamples BridgeTypes Text ApiTypes ApiRoutes Keystore Network Node NodeExamples Lifecycle.

Import ToyCrypto ToyWasm ToyRng ToyRocks ToyKeystore.
#[local] Existing Instance rocks_store.

(** Opening finds an empty database; flushing succeeds. *)
#[export] Instance toy_rocks_files : RocksFiles Db := {|
  rdb_open_cf_descriptors _ _ _ := Ok ∅;
  rdb_flush_cf _ _ := Ok () |}.
#[export] Instance toy_libp2p : Libp2p := {|
  Multiaddr := string; Swarm := list string; GossipConfig := Z; Gossipsub := Z;
  parse_multiaddr s := if String.prefix "/" s then Ok s else Err "unknown protocol string"%string;
  tcp_transport := Ok (); gossip_config n _ := Ok n; gossipsub_new c := Ok c;
  swarm_build _ _ _ := []; swarm_listen_on s a := Ok (s ++ [("listen " +:+ a)%string]);
  swarm_subscribe s t := Ok (s ++ [("subscribe " +:+ t)%string]); swarm_dial s a := s ++ [("dial " +:+ a)%string] |}.
(** Only port 8080 is free. *)
#[export] Instance toy_api_net : ApiNet := {|
  Cert := (); PrivateKey := (); TlsServer := ();
  pem_certs _ := []; pem_private_key _ := Ok None; with_single_cert _ _ := Err "no certificates"%string;
  tcp_bind a := if sa_port a =? 8080 then Ok () else Err "address in use"%string |}.

Definition opened : result StorageError Db := cdb_db <$> ChainDatabase_open (nd_storage devnet_config).
Definition started : option (result RunError (App (D := Db) (PeerId := Z) (F := gmap string bytes))) :=
  application_start devnet_config (Some alice) bob 1 ∅ opened.
(** The node of [run --devnet], and the engine after one tick. *)
Definition produced : option (ConsensusEngine Db * result ConsensusError ()) :=
  match started with Some (Ok a) => production_tick (ap_engine a) [] 7 8 9 | _ => None end.
Lemma started_ok : ∃ a e b, started = Some (Ok a) ∧ ap_main a = MStarting ∧ ap_api a = ApiStart ∧ en_events (ap_engine a) = [] ∧ ap_files a = ∅ ∧
  ap_config a = devnet_config ∧ ap_consensus a = Looping ∧ ap_network a = NetStart (service 1) ∧ ap_command_queue a = [] ∧ ap_calls a = [] ∧
  cc_enable_block_production (en_config (ap_engine a)) = true ∧ is_Some (en_keypair (ap_engine a)) ∧
  production_tick (ap_engine a) [] 7 8 9 = Some (e, Ok ()) ∧ en_events e = [NewBlock b].
Proof.
  assert (match started, produced with
          | Some (Ok a), Some (e, Ok _) => match en_events e with [NewBlock _] => true | _ => false end
          | _, _ => false end = true) as Hok by by vm_compute.
  unfold produced in Hok. destruct started as [[a|]|] eqn:Hs; [|discriminate Hok..].
  destruct (production_tick (ap_engine a) [] 7 8 9) as [[e [[]|]]|] eqn:Ht; [|discriminate Hok..].
  destruct (en_events e) as [|[b| | |] [|]] eqn:He; try discriminate Hok.
  exists a, e, b. unfold started, application_start in Hs. destruct opened as [d|]; [|discriminate Hs].
  destruct (ConsensusEngine_new _ _ _ _ _) as [[d' [e0|]]|] eqn:Hn; [|discriminate Hs..]. injection Hs as <-.
  unfold ConsensusEngine_new in Hn. destruct (from_genesis _ _) as [[d1 [c|]]|]; [|discriminate Hn..].
  injection Hn as <- <-. repeat split; try assumption. by exists alice.
Qed.

Lemma shutdown_waits_for_api_witness :
  ∃ a0 a, started = Some (Ok a0) ∧ rtc app_step a0 a ∧ ap_main a = MJoining ∧
    ¬ (∃ b r, rtc app_step a b ∧ ap_main b = MDone r).
Proof.
  destruct started_ok as (a & e & b & Hs & Hm & Ha & _ & Hf & Hc & _).
  set (a1 := set_api a (ApiServe None)). set (a2 := set_main (start_rest a1) true MJoining).
  assert (rtc app_step a a2) as Hr.
  { eapply rtc_l; [apply (st_api_start a None Ha); rewrite Hf, Hc; reflexivity|].
    eapply rtc_l; [apply (st_started a1 Hm)|]. apply rtc_once, (st_ctrl_c (start_rest a1) eq_refl). }
  exists a, a2. split; [exact Hs|]. split; [exact Hr|]. split; [reflexivity|].
  intros Hend. destruct (shutdown_waits_for_api _ _ _ _ _ _ a a2 Hs Hr) as [[Hout _] _].
  destruct (Hout Hend) as [x Hx]. discriminate Hx.
Defined.

Lemma blocks_broadcast_in_order_witness :
  ∃ a0 a bs, started = Some (Ok a0) ∧ rtc app_step a0 a ∧ ap_calls a = publication <$> bs ∧
    bs `sublist_of` new_blocks (en_events (ap_engine a)) ∧ length bs = 1%nat.
Proof.
  destruct started_ok as (a & e & b & Hs & Hm & _ & Hev0 & _ & _ & Hcon & Hnet & Hq & Hcalls & Hon & Hkey & Ht & Hev).
  set (a0 := start_rest a). set (a1 := set_engine a0 e). set (a2 := set_broadcast a1 (BcSend 1 [BroadcastBlock b]) []).
  set (a3 := set_broadcast a2 (BcSend 1 []) [BroadcastBlock b]).
  set (a4 := set_network a3 (NetLoop (service 1)) (ap_event_queue a) [BroadcastBlock b] []).
  set (a5 := set_network a4 (NetLoop (service 1)) (ap_event_queue a) [] [publication b]).
  assert (rtc app_step a a5) as Hr.
  { eapply rtc_l; [apply (st_started a Hm)|].
    eapply rtc_l; [by apply (st_con_tick a0 [] 7 8 9 e (Ok ()) Hcon Hon Hkey Ht)|].
    eapply rtc_l.
    { assert (ap_broadcast a1 = BcLoop 0) as Hbc by (cbn; by rewrite Hev0).
      pose proof (st_bc_event a1 0 (NewBlock b) [BroadcastBlock b] Hbc) as Hst. cbn [ap_engine set_engine a1] in Hst.
      rewrite Hev in Hst. specialize (Hst eq_refl eq_refl). change (ap_command_queue a1) with (ap_command_queue a) in Hst.
      rewrite Hq in Hst. exact Hst. }
    eapply rtc_l; [apply (st_bc_send a2 1 (BroadcastBlock b) [] eq_refl);
      [unfold net_receives; cbn; by rewrite Hnet|apply Nat.ltb_lt; reflexivity]|].
    eapply rtc_l; [by eapply (st_net_start a3 (service 1))|].
    apply rtc_once. exact (st_net_command a4 (service 1) (BroadcastBlock b) [] (service 1) [publication b] eq_refl eq_refl eq_refl). }
  destruct (blocks_broadcast_in_order _ _ _ _ _ _ a a5 Hs Hr) as (bs & Hbs & Hsub).
  exists a, a5, bs. split; [exact Hs|]. split; [exact Hr|]. split; [exact Hbs|]. split; [exact Hsub|].
  apply (f_equal length) in Hbs. rewrite length_fmap in Hbs. rewrite <- Hbs. cbn. by rewrite Hcalls.
Defined.

(** [run --validator] with a configuration whose only validator is Alice, on a fresh database. *)
Definition validator_config : NodeConfig := with_run_options (NodeConfig_devnet alice 0).1 true "./data".
Definition validator_started : option (Db * result ConsensusError (ConsensusEngine Db)) :=
  start_node_engine validator_config None bob ∅ spender.
Lemma validator_flag_uses_random_key_witness :
  match validator_started with
  | Some (_, Ok e) => en_keypair e = Some bob ∧ production_loop e [([], (7, 8, 9)); ([], (10, 11, 12))] = Some e
  | _ => False
  end.
Proof.
  assert (match validator_started with
          | Some (_, Ok e) => bool_decide (KeyPair_address bob ∉
              vi_address <$> active_validators (ep_validator_set (cst_current_epoch (en_chain_state e))))
          | _ => false end = true) as Hok by by vm_compute.
  destruct validator_started as [[d' [e|]]|] eqn:Hs; [|discriminate Hok..]. apply bool_decide_eq_true_1 in Hok.
  destruct (validator_flag_uses_random_key (Some "validator.key"%string) "./data" (NodeConfig_devnet alice 0).1 alice 0
    validator_config None bob ∅ d' spender e [([], (7, 8, 9)); ([], (10, 11, 12))] eq_refl Hs) as [Hk Hl].
  split; [exact Hk|exact (Hl Hok)].
Defined.
