(* ===== verification/Ws.v ===== *)
(** * Ws: the WebSocket endpoint (crates/api/src/ws/handler.rs)

    The loop of [handle_socket] as a step function on the three subscription
    flags; its input is one branch of the [select!]: what the client's stream
    yields or what the consensus event channel yields.  The text of messages
    goes through serde, whose two functions are parameters. *)

From S2P Require Import Prelude Crypto Merkle CoreTypes Validators Storage Vm Consensus Finality TxPool ChainState Engine BridgeTypes Text ApiTypes ApiRoutes Network Node.

Inductive SubscriptionChannel := NewBlocks | NewTransactions | Finality.
#[export] Instance subscription_channel_eq_dec : EqDecision SubscriptionChannel.
Proof. solve_decision. Defined.
Inductive WsClientMessage :=
| Subscribe (channel : SubscriptionChannel)
| Unsubscribe (channel : SubscriptionChannel)
| WsPing.
Inductive WsServerMessage :=
| WsNewBlock (b : BlockDto)
| WsTransactionPooled (tx_hash : string)
| WsBlockFinalized (height : Z)
| Pong
| WsError (message : string).

(** [receiver.next()]: [None] is the end of the stream. *)
Inductive WsFrame := WsText (text : string) | WsClose | WsOther.
Abbreviation ClientInput := (option (result string WsFrame)).
Inductive WsInput := FromClient (m : ClientInput) | FromChain (ev : Received).

Record WsSubs : Type := { sub_blocks : bool; sub_txs : bool; sub_finality : bool }.
Definition no_subs : WsSubs := {| sub_blocks := false; sub_txs := false; sub_finality := false |}.
Definition set_sub (s : WsSubs) (c : SubscriptionChannel) (b : bool) : WsSubs :=
  match c with
  | NewBlocks => {| sub_blocks := b; sub_txs := sub_txs s; sub_finality := sub_finality s |}
  | NewTransactions => {| sub_blocks := sub_blocks s; sub_txs := b; sub_finality := sub_finality s |}
  | Finality => {| sub_blocks := sub_blocks s; sub_txs := sub_txs s; sub_finality := b |}
  end.

Section Socket.
Context `{CryptoPrims} `{Bincode BlockHeader}.
Context (from_str : string → result string WsClientMessage) (to_string : WsServerMessage → result string string).

Definition ws_text (m : WsServerMessage) : string :=
  match to_string m with Ok t => t | Err _ => "" end.

(** The message a consensus event becomes for these flags; [None] breaks. *)
Definition push_message (s : WsSubs) (ev : Received) : option (option WsServerMessage) :=
  match ev with
  | Event (NewBlock block) => Some (if sub_blocks s then Some (WsNewBlock (BlockDto_from block)) else None)
  | Event (TransactionPooled hash) =>
      Some (if sub_txs s then Some (WsTransactionPooled (Blake3Hash_display hash)) else None)
  | Event (BlockFinalized height) => Some (if sub_finality s then Some (WsBlockFinalized height) else None)
  | Event (EpochChanged _) => Some None
  | Lagged n => Some (Some (WsError ("Lagged behind by " +:+ z_str n +:+ " events")))
  | Closed => None
  end.

(** One turn of the loop: the message to send, if any, and the new flags, or
    [None] to leave the loop. *)
Definition ws_turn (s : WsSubs) (i : WsInput) : option (WsSubs * option WsServerMessage) :=
  match i with
  | FromClient (Some (Ok (WsText text))) =>
      match from_str text with
      | Ok (Subscribe channel) => Some (set_sub s channel true, None)
      | Ok (Unsubscribe channel) => Some (set_sub s channel false, None)
      | Ok WsPing => Some (s, Some Pong)
      | Err e => Some (s, Some (WsError ("Invalid message: " +:+ e)))
      end
  | FromClient (Some (Ok WsClose)) | FromClient None => None
  | FromClient (Some (Err _)) => None
  | FromClient (Some (Ok WsOther)) => Some (s, None)
  | FromChain ev => m ← push_message s ev; Some (s, m)
  end.

(** The loop: [sends] says for each turn whether [sender.send] succeeds; a
    failed send leaves the loop.  The result is the texts sent. *)
Fixpoint ws_loop (s : WsSubs) (inputs : list (WsInput * bool)) : list string :=
  match inputs with
  | [] => []
  | (i, send_ok) :: rest =>
      match ws_turn s i with
      | None => []
      | Some (s, None) => ws_loop s rest
      | Some (s, Some m) => if send_ok then ws_text m :: ws_loop s rest else []
      end
  end.
Definition handle_socket (inputs : list (WsInput * bool)) : list string := ws_loop no_subs inputs.

(** [WS_CONNECTIONS]: a [usize], one up when a socket opens, one down when its
    loop is left. *)
Definition connections_after (n : Z) (open : bool) : Z := if open then n +! 1 else n -! 1.

(** ** Properties *)
(** The subscription of a channel as the client's messages so far leave it. *)
Definition toggles (c : SubscriptionChannel) (i : WsInput) : option bool :=
  match i with
  | FromClient (Some (Ok (WsText text))) =>
      match from_str text with
      | Ok (Subscribe c') => if bool_decide (c = c') then Some true else None
      | Ok (Unsubscribe c') => if bool_decide (c = c') then Some false else None
      | _ => None
      end
  | _ => None
  end.
Definition subscribed (c : SubscriptionChannel) (past : list WsInput) : bool :=
  default false (last (omap (toggles c) past)).
Definition subs_after (past : list WsInput) : WsSubs := {|
  sub_blocks := subscribed NewBlocks past; sub_txs := subscribed NewTransactions past;
  sub_finality := subscribed Finality past |}.
(** What the client is owed for one input, from the inputs before it. *)
Definition owed (past : list WsInput) (i : WsInput) : list WsServerMessage :=
  match i with
  | FromClient (Some (Ok (WsText text))) =>
      match from_str text with
      | Ok WsPing => [Pong]
      | Err e => [WsError ("Invalid message: " +:+ e)]
      | _ => []
      end
  | FromChain (Event (NewBlock b)) => if subscribed NewBlocks past then [WsNewBlock (BlockDto_from b)] else []
  | FromChain (Event (TransactionPooled h)) =>
      if subscribed NewTransactions past then [WsTransactionPooled (Blake3Hash_display h)] else []
  | FromChain (Event (BlockFinalized n)) => if subscribed Finality past then [WsBlockFinalized n] else []
  | FromChain (Lagged n) => [WsError ("Lagged behind by " +:+ z_str n +:+ " events")]
  | _ => []
  end.
(** Inputs that keep the loop running. *)
Definition stays_open (i : WsInput) : bool :=
  match i with
  | FromClient (Some (Ok (WsText _))) | FromClient (Some (Ok WsOther)) => true
  | FromChain Closed => false
  | FromChain _ => true
  | _ => false
  end.

Lemma subscribed_snoc c past i :
  subscribed c (past ++ [i]) = default (subscribed c past) (toggles c i).
Proof.
  unfold subscribed. rewrite omap_app. simpl. destruct (toggles c i) as [b|]; simpl.
  - by rewrite last_snoc.
  - by rewrite app_nil_r.
Qed.
Lemma ws_turn_owed past i :
  stays_open i = true →
  ∃ m, ws_turn (subs_after past) i = Some (subs_after (past ++ [i]), m) ∧ option_list m = owed past i.
Proof.
  unfold subs_after. rewrite !subscribed_snoc. intros Hi.
  destruct i as [[[[text| |]|e]|]|[[b|n|ep|h]|n|]]; simpl in *; try done; try (by eexists; split).
  - destruct (from_str text) as [[c|c|]|e]; simpl; try (by eexists; split).
    all: destruct c; eexists; by split.
  - destruct (subscribed NewBlocks past); by eexists; split.
  - destruct (subscribed Finality past); by eexists; split.
  - destruct (subscribed NewTransactions past); by eexists; split.
Qed.

(** A client that leaves and a closed channel end the loop: what comes after is
    not sent. *)
Definition ends (tail : list (WsInput * bool)) : Prop :=
  match tail with [] => True | (i, _) :: _ => stays_open i = false end.
Lemma ws_loop_ends s tail : ends tail → ws_loop s tail = [].
Proof. destruct tail as [|[i ok] rest]; [done|]. by destruct i as [[[[text| |]|e]|]|[[b|n|ep|h]|n|]]. Qed.

(** C34: As long as a websocket connection stays open the server sends, in order,
    exactly a pong per ping, an error per unreadable message and per lag notice, and each
    chain event to whose channel the client is subscribed at that moment, and nothing else;
    a client that never subscribes gets no chain event. *)
Theorem ws_sends_exactly_the_subscribed (inputs : list WsInput) tail :
  Forall (λ i, stays_open i = true) inputs → ends tail →
  handle_socket (((λ i, (i, true)) <$> inputs) ++ tail) =
    ws_text <$> mjoin (imap (λ k i, owed (take k inputs) i) inputs).
Proof.
  unfold handle_socket. change no_subs with (subs_after []). intros Hall Htail. revert Hall.
  enough (∀ past, Forall (λ i, stays_open i = true) inputs →
    ws_loop (subs_after past) (((λ i, (i, true)) <$> inputs) ++ tail) =
      ws_text <$> mjoin (imap (λ k i, owed (past ++ take k inputs) i) inputs)) as Hgen by apply (Hgen []).
  induction inputs as [|i inputs IH]; intros past; [by intros _; apply ws_loop_ends|]. intros [Hi Hall]%Forall_cons.
  destruct (ws_turn_owed past i Hi) as (m & Hm & Ho).
  rewrite fmap_cons, imap_cons. cbn [ws_loop mjoin list_join app]. rewrite Hm.
  rewrite fmap_app, app_nil_r, <- Ho.
  assert (imap ((λ k i0, owed (past ++ take k (i :: inputs)) i0) ∘ S) inputs =
          imap (λ k i0, owed ((past ++ [i]) ++ take k inputs) i0) inputs) as ->.
  { apply imap_ext. intros k x _. unfold compose. simpl. by rewrite <- app_assoc. }
  rewrite <- IH by done. by destruct m.
Qed.
End Socket.

Module WsWitness.
Import ToyCrypto.
#[local] Instance toy_header : Bincode BlockHeader := {| bincode_ser _ := []; bincode_de _ := Err ""%string |}.
Definition parse (t : string) : result string WsClientMessage :=
  if bool_decide (t = "+tx"%string) then Ok (Subscribe NewTransactions)
  else if bool_decide (t = "-tx"%string) then Ok (Unsubscribe NewTransactions)
  else if bool_decide (t = "ping"%string) then Ok WsPing else Err "unknown variant"%string.
Definition show (m : WsServerMessage) : result string string :=
  Ok (match m with
      | WsTransactionPooled h => "tx" | Pong => "pong" | WsError e => e | _ => "?" end).
Definition text (t : string) : WsInput := FromClient (Some (Ok (WsText t))).
Definition pooled : WsInput := FromChain (Event (TransactionPooled Blake3Hash_ZERO)).
Lemma ws_sends_exactly_the_subscribed_witness :
  handle_socket parse show (((λ i, (i, true)) <$>
      [pooled; text "+tx"; pooled; text "ping"; FromChain (Event (BlockFinalized 3)); text "-tx"; pooled; text "x"])
    ++ [(FromClient None, true); (pooled, true)]) = ["tx"; "pong"; "Invalid message: unknown variant"]%string.
Proof.
  refine (eq_trans (ws_sends_exactly_the_subscribed parse show
    [pooled; text "+tx"; pooled; text "ping"; FromChain (Event (BlockFinalized 3)); text "-tx"; pooled; text "x"]
    [(FromClient None, true); (pooled, true)] _ _) _).
  - repeat constructor.
  - reflexivity.
  - by vm_compute.
Defined.
End WsWitness.
