(* ===== verification/Server.v ===== *)
(** * Server: routes, extractors and middleware of the API server
    (crates/api/src/server.rs, the [*_router] functions of routes/, and the
    serde derives of the request and response types)

    A request is routed by the table of paths, passes the rate limiter, the
    body limit and (for [/tx] with RBAC on) the token check, and is handed to
    its handler; [serve] composes the handlers of ApiRoutes.v, ApiWallet.v and
    ApiBridge.v.  Responses of the bridge stay typed; the others are JSON. *)

From S2P Require Import Prelude Crypto Merkle CoreTypes Validators Storage Vm Consensus Finality TxPool ChainState Engine BridgeTypes Htlc BridgeState Relayer Text ApiTypes Middleware ApiRoutes Keystore ApiWallet ApiBridge.

(** ** serde: JSON of the response types *)
Class ToJson (A : Type) := to_json : A → Json.
#[export] Instance json_Z : ToJson Z := JNum.
#[export] Instance json_nat : ToJson nat := λ n, JNum (Z.of_nat n).
#[export] Instance json_bool : ToJson bool := JBool.
#[export] Instance json_string : ToJson string := JStr.
#[export] Instance json_value : ToJson Json := λ v, v.
#[export] Instance json_option `{ToJson A} : ToJson (option A) :=
  λ o, match o with Some a => to_json a | None => JNull end.
#[export] Instance json_list `{ToJson A} : ToJson (list A) := λ l, JArr (to_json <$> l).
(** One field of a derived object, and one with [skip_serializing_if = "Option::is_none"]. *)
Definition fld `{ToJson A} (k : string) (a : A) : list (string * Json) := [(k, to_json a)].
Definition fld_some `{ToJson A} (k : string) (o : option A) : list (string * Json) :=
  match o with Some a => fld k a | None => [] end.

#[export] Instance json_api_response `{ToJson A} : ToJson (ApiResponse A) := λ r,
  JObj (fld "success" (ar_success r) ++ fld_some "data" (ar_data r) ++ fld_some "error" (ar_error r)).
#[export] Instance json_transaction_dto : ToJson TransactionDto := λ d,
  JObj (fld "hash" (td_hash d) ++ fld "from" (td_from d) ++ fld "to" (td_to d) ++ fld "value" (td_value d) ++
        fld "nonce" (td_nonce d) ++ fld "tx_type" (td_tx_type d) ++ fld "gas_limit" (td_gas_limit d) ++
        fld "gas_price" (td_gas_price d) ++ fld "data_size" (td_data_size d) ++
        fld "timestamp" (td_timestamp d) ++ fld "chain_id" (td_chain_id d)).
#[export] Instance json_block_dto : ToJson BlockDto := λ d,
  JObj (fld "number" (bd_number d) ++ fld "hash" (bd_hash d) ++ fld "parent_hash" (bd_parent_hash d) ++
        fld "timestamp" (bd_timestamp d) ++ fld "validator" (bd_validator d) ++ fld "epoch" (bd_epoch d) ++
        fld "gas_used" (bd_gas_used d) ++ fld "gas_limit" (bd_gas_limit d) ++ fld "tx_count" (bd_tx_count d) ++
        fld "state_root" (bd_state_root d) ++ fld "transactions_root" (bd_transactions_root d) ++
        fld "transactions" (bd_transactions d)).
#[export] Instance json_account_dto : ToJson AccountDto := λ d,
  JObj (fld "address" (ad_address d) ++ fld "balance" (ad_balance d) ++ fld "nonce" (ad_nonce d) ++
        fld "is_contract" (ad_is_contract d) ++ fld "code_hash" (ad_code_hash d) ++
        fld "storage_root" (ad_storage_root d)).
#[export] Instance json_validator_dto : ToJson ValidatorDto := λ d,
  JObj (fld "address" (vd_address d) ++ fld "public_key" (vd_public_key d) ++ fld "stake" (vd_stake d) ++
        fld "is_active" (vd_is_active d) ++ fld "commission_rate" (vd_commission_rate d) ++
        fld "jailed_until" (vd_jailed_until d) ++ fld "slash_count" (vd_slash_count d) ++
        fld "uptime_blocks" (vd_uptime_blocks d) ++ fld "total_blocks" (vd_total_blocks d)).
#[export] Instance json_submit_response : ToJson SubmitTransactionResponse := λ d,
  JObj (fld "tx_hash" (str_tx_hash d)).
#[export] Instance json_chain_info : ToJson ChainInfoDto := λ d,
  JObj (fld "chain_id" (cd_chain_id d) ++ fld "height" (cd_height d) ++
        fld "best_block_hash" (cd_best_block_hash d) ++ fld "epoch" (cd_epoch d) ++
        fld "finalized_height" (cd_finalized_height d) ++
        fld "pending_transactions" (cd_pending_transactions d) ++
        fld "active_validators" (cd_active_validators d)).
#[export] Instance json_balance : ToJson BalanceResponse := λ d,
  JObj (fld "address" (br_address d) ++ fld "balance" (br_balance d)).
#[export] Instance json_chain_status : ToJson ChainStatus := λ d,
  JObj (fld "height" (cs_height d) ++ fld "finalized_height" (cs_finalized_height d) ++
        fld "pending_transactions" (cs_pending_transactions d) ++ fld "syncing" (cs_syncing d)).
#[export] Instance json_health : ToJson HealthResponse := λ d,
  JObj (fld "status" (hr_status d) ++ fld "version" (hr_version d)).
#[export] Instance json_ready : ToJson ReadyResponse := λ d,
  JObj (fld "ready" (rr_ready d) ++ fld "storage_ok" (rr_storage_ok d) ++ fld "consensus_ok" (rr_consensus_ok d)).
#[export] Instance json_receipt : ToJson ReceiptDto := λ d,
  JObj (fld "tx_hash" (rd_tx_hash d) ++ fld "block_number" (rd_block_number d) ++
        fld "block_hash" (rd_block_hash d) ++ fld "index" (rd_index d) ++ fld "status" (rd_status d) ++
        fld "gas_used" (rd_gas_used d) ++ fld "logs_count" (rd_logs_count d) ++
        fld "contract_address" (rd_contract_address d) ++ fld "return_data" (rd_return_data d)).
#[export] Instance json_contract_info : ToJson ContractInfoDto := λ d,
  JObj (fld "address" (ct_address d) ++ fld "balance" (ct_balance d) ++ fld "code_hash" (ct_code_hash d) ++
        fld "nonce" (ct_nonce d)).
#[export] Instance json_storage_value : ToJson StorageValueDto := λ d,
  JObj (fld "key" (sv_key d) ++ fld "value" (sv_value d)).
#[export] Instance json_create_account : ToJson CreateAccountResponse := λ d,
  JObj (fld "address" (car_address d) ++ fld "mnemonic" (car_mnemonic d) ++
        fld "public_key" (car_public_key d) ++ fld "keystore" (car_keystore d)).
#[export] Instance json_import_account : ToJson ImportAccountResponse := λ d,
  JObj (fld "address" (iar_address d) ++ fld "public_key" (iar_public_key d) ++ fld "keystore" (iar_keystore d)).
#[export] Instance json_wallet_tx : ToJson WalletTxResponse := λ d,
  JObj (fld "tx_hash" (wr_tx_hash d) ++ fld "from" (wr_from d) ++ fld "nonce" (wr_nonce d)).

(** ** serde: the request types *)
(** The fields of a derived struct: an object (each name at most once, others
    ignored) or an array of exactly the fields. *)
Definition struct_fields (names : list string) (v : Json) : option (list (option Json)) :=
  match v with
  | JObj fields =>
      if forallb (λ n, (length (List.filter (λ f, bool_decide (f.1 = n)) fields) <=? 1)%nat) names
      then Some (json_get v <$> names) else None
  | JArr l => if (length l =? length names)%nat then Some (Some <$> l) else None
  | _ => None
  end.
Definition de_str (v : option Json) : option string := match v with Some (JStr s) => Some s | _ => None end.
Definition de_u64 (v : option Json) : option Z := v ≫= as_u64.
(** An [Option] field: absent and [null] are [None]. *)
Definition de_opt {A} (f : option Json → option A) (v : option Json) : option (option A) :=
  match v with None | Some JNull => Some None | Some _ => Some <$> f v end.

Definition de_submit (v : Json) : option SubmitTransactionRequest :=
  match struct_fields ["chain_id"; "nonce"; "from"; "to"; "value"; "tx_type"; "gas_limit"; "gas_price"; "data";
                       "timestamp"; "public_key"; "signature"] v with
  | Some [chain_id; nonce; from; to; value; tx_type; gas_limit; gas_price; data; timestamp; public_key; signature] =>
      chain_id ← de_u64 chain_id; nonce ← de_u64 nonce; from ← de_str from; to ← de_opt de_str to;
      value ← de_str value; tx_type ← de_str tx_type; gas_limit ← de_u64 gas_limit; gas_price ← de_u64 gas_price;
      data ← de_str data; timestamp ← de_u64 timestamp; public_key ← de_str public_key; signature ← de_str signature;
      Some {| sr_chain_id := chain_id; sr_nonce := nonce; sr_from := from; sr_to := to; sr_value := value;
              sr_tx_type := tx_type; sr_gas_limit := gas_limit; sr_gas_price := gas_price; sr_data := data;
              sr_timestamp := timestamp; sr_public_key := public_key; sr_signature := signature |}
  | _ => None
  end.
Definition de_create_account (v : Json) : option CreateAccountRequest :=
  match struct_fields ["password"; "word_count"] v with
  | Some [password; word_count] =>
      password ← de_str password; word_count ← de_opt de_u64 word_count;
      Some {| ca_password := password; ca_word_count := Z.to_nat <$> word_count |}
  | _ => None
  end.
Definition de_import_mnemonic (v : Json) : option ImportMnemonicRequest :=
  match struct_fields ["mnemonic"; "password"] v with
  | Some [mnemonic; password] =>
      mnemonic ← de_str mnemonic; password ← de_str password;
      Some {| im_mnemonic := mnemonic; im_password := password |}
  | _ => None
  end.
Definition de_import_private_key (v : Json) : option ImportPrivateKeyRequest :=
  match struct_fields ["private_key"; "password"] v with
  | Some [private_key; password] =>
      private_key ← de_str private_key; password ← de_str password;
      Some {| ip_private_key := private_key; ip_password := password |}
  | _ => None
  end.
Definition de_transfer (v : Json) : option WalletTransferRequest :=
  match struct_fields ["keystore"; "password"; "to"; "value"; "gas_limit"; "gas_price"] v with
  | Some [keystore; password; to; value; gas_limit; gas_price] =>
      keystore ← keystore; password ← de_str password; to ← de_str to; value ← de_str value;
      gas_limit ← de_opt de_u64 gas_limit; gas_price ← de_opt de_u64 gas_price;
      Some {| wt_keystore := keystore; wt_password := password; wt_to := to; wt_value := value;
              wt_gas_limit := gas_limit; wt_gas_price := gas_price |}
  | _ => None
  end.
(** The three requests of this shape: a keystore, a password, one more string. *)
Definition de_keyed (field : string) (v : Json) : option (Json * string * string * option Z * option Z) :=
  match struct_fields ["keystore"; "password"; field; "gas_limit"; "gas_price"] v with
  | Some [keystore; password; x; gas_limit; gas_price] =>
      keystore ← keystore; password ← de_str password; x ← de_str x;
      gas_limit ← de_opt de_u64 gas_limit; gas_price ← de_opt de_u64 gas_price;
      Some (keystore, password, x, gas_limit, gas_price)
  | _ => None
  end.
Definition de_stake (v : Json) : option WalletStakeRequest :=
  '(k, p, x, l, g) ← de_keyed "value" v;
  Some {| ws_keystore := k; ws_password := p; ws_value := x; ws_gas_limit := l; ws_gas_price := g |}.
Definition de_unstake (v : Json) : option WalletUnstakeRequest :=
  '(k, p, x, l, g) ← de_keyed "value" v;
  Some {| wu_keystore := k; wu_password := p; wu_value := x; wu_gas_limit := l; wu_gas_price := g |}.
Definition de_deploy (v : Json) : option WalletDeployRequest :=
  '(k, p, x, l, g) ← de_keyed "bytecode" v;
  Some {| wd_keystore := k; wd_password := p; wd_bytecode := x; wd_gas_limit := l; wd_gas_price := g |}.
Definition de_call (v : Json) : option WalletCallRequest :=
  match struct_fields ["keystore"; "password"; "contract"; "function"; "args"; "value"; "gas_limit"; "gas_price"] v with
  | Some [keystore; password; contract; function; args; value; gas_limit; gas_price] =>
      keystore ← keystore; password ← de_str password; contract ← de_str contract; function ← de_str function;
      args ← de_opt de_str args; value ← de_opt de_str value;
      gas_limit ← de_opt de_u64 gas_limit; gas_price ← de_opt de_u64 gas_price;
      Some {| wc_keystore := keystore; wc_password := password; wc_contract := contract; wc_function := function;
              wc_args := args; wc_value := value; wc_gas_limit := gas_limit; wc_gas_price := gas_price |}
  | _ => None
  end.
Definition de_initiate (v : Json) : option InitiateTransferRequest :=
  match struct_fields ["sender"; "dest_chain"; "recipient"; "token_symbol"; "amount"] v with
  | Some [sender; dest_chain; recipient; token_symbol; amount] =>
      sender ← de_str sender; dest_chain ← de_str dest_chain; recipient ← de_str recipient;
      token_symbol ← de_str token_symbol; amount ← de_str amount;
      Some {| it_sender := sender; it_dest_chain := dest_chain; it_recipient := recipient;
              it_token_symbol := token_symbol; it_amount := amount |}
  | _ => None
  end.
Definition de_confirm (v : Json) : option ConfirmTransferRequest :=
  match struct_fields ["transfer_id"; "validator"] v with
  | Some [transfer_id; validator] =>
      transfer_id ← de_str transfer_id; validator ← de_str validator;
      Some {| ct_transfer_id := transfer_id; ct_validator := validator |}
  | _ => None
  end.
Definition de_create_htlc (v : Json) : option CreateHtlcRequest :=
  match struct_fields ["sender"; "recipient"; "amount"; "hash_lock"; "external_chain"; "external_address";
                       "external_amount"; "timelock"] v with
  | Some [sender; recipient; amount; hash_lock; external_chain; external_address; external_amount; timelock] =>
      sender ← de_str sender; recipient ← de_str recipient; amount ← de_str amount; hash_lock ← de_str hash_lock;
      external_chain ← de_str external_chain; external_address ← de_str external_address;
      external_amount ← de_str external_amount; timelock ← de_opt de_u64 timelock;
      Some {| ch_sender := sender; ch_recipient := recipient; ch_amount := amount; ch_hash_lock := hash_lock;
              ch_external_chain := external_chain; ch_external_address := external_address;
              ch_external_amount := external_amount; ch_timelock := timelock |}
  | _ => None
  end.
Definition de_claim (v : Json) : option ClaimHtlcRequest :=
  match struct_fields ["swap_id"; "preimage"; "claimer"] v with
  | Some [swap_id; preimage; claimer] =>
      swap_id ← de_str swap_id; preimage ← de_str preimage; claimer ← de_str claimer;
      Some {| cl_swap_id := swap_id; cl_preimage := preimage; cl_claimer := claimer |}
  | _ => None
  end.
Definition de_refund (v : Json) : option RefundHtlcRequest :=
  match struct_fields ["swap_id"; "refunder"] v with
  | Some [swap_id; refunder] =>
      swap_id ← de_str swap_id; refunder ← de_str refunder;
      Some {| rf_swap_id := swap_id; rf_refunder := refunder |}
  | _ => None
  end.

(** ** The routing table *)
Inductive Method := GET | HEAD | POST | OPTIONS | OtherMethod.
#[export] Instance method_eq_dec : EqDecision Method.
Proof. solve_decision. Defined.
Inductive Endpoint :=
| EpListBlocks | EpLatestBlock | EpBlock | EpAccount | EpBalance | EpValidators | EpChainInfo | EpChainStatus
| EpHealth | EpReady | EpReceipt | EpContract | EpContractStorage | EpContractCode | EpWs | EpIndex
| EpTransaction | EpSubmit
| EpCreateAccount | EpImportMnemonic | EpImportKey | EpTransfer | EpStake | EpUnstake | EpDeploy | EpCall
| EpChains | EpStats | EpFees | EpLiquidity | EpTransfers | EpTransferById | EpInitiate | EpConfirm
| EpHtlcs | EpHtlcById | EpHtlcCreate | EpHtlcClaim | EpHtlcRefund | EpBridgeValidators
| EpMetrics.
#[export] Instance endpoint_eq_dec : EqDecision Endpoint.
Proof. solve_decision. Defined.

(** A segment of a route: a literal or a [:parameter]. *)
Inductive Seg := Lit (s : string) | Param.
Abbreviation Route := (list Seg * Method * Endpoint)%type.
(** [Router::nest]: the inner [/] is the prefix itself. *)
Definition nest (prefix : string) (routes : list Route) : list Route :=
  (λ r, (Lit prefix :: r.1.1, r.1.2, r.2)) <$> routes.

Definition blocks_router : list Route :=
  [([], GET, EpListBlocks); ([Lit "latest"], GET, EpLatestBlock); ([Param], GET, EpBlock)].
Definition accounts_router : list Route :=
  [([Param], GET, EpAccount); ([Param; Lit "balance"], GET, EpBalance)].
Definition validators_router : list Route := [([], GET, EpValidators)].
Definition chain_router : list Route := [([Lit "info"], GET, EpChainInfo); ([Lit "status"], GET, EpChainStatus)].
Definition health_router : list Route := [([], GET, EpHealth); ([Lit "ready"], GET, EpReady)].
Definition receipts_router : list Route := [([Param], GET, EpReceipt)].
Definition contracts_router : list Route :=
  [([Param], GET, EpContract); ([Param; Lit "storage"; Param], GET, EpContractStorage);
   ([Param; Lit "code"], GET, EpContractCode)].
Definition transactions_router : list Route := [([Param], GET, EpTransaction); ([], POST, EpSubmit)].
Definition wallet_router : list Route :=
  [([Lit "create"], POST, EpCreateAccount); ([Lit "import"; Lit "mnemonic"], POST, EpImportMnemonic);
   ([Lit "import"; Lit "private-key"], POST, EpImportKey); ([Lit "transfer"], POST, EpTransfer);
   ([Lit "stake"], POST, EpStake); ([Lit "unstake"], POST, EpUnstake); ([Lit "deploy"], POST, EpDeploy);
   ([Lit "call"], POST, EpCall)].
(** The literal routes of a path come before its parameters, which they win over. *)
Definition bridge_routes : list Route :=
  [([Lit "chains"], GET, EpChains); ([Lit "stats"], GET, EpStats); ([Lit "fees"], GET, EpFees);
   ([Lit "liquidity"], GET, EpLiquidity); ([Lit "transfers"], GET, EpTransfers);
   ([Lit "transfers"; Param], GET, EpTransferById); ([Lit "transfer"], POST, EpInitiate);
   ([Lit "transfer"; Lit "confirm"], POST, EpConfirm); ([Lit "htlc"], GET, EpHtlcs);
   ([Lit "htlc"; Lit "create"], POST, EpHtlcCreate); ([Lit "htlc"; Lit "claim"], POST, EpHtlcClaim);
   ([Lit "htlc"; Lit "refund"], POST, EpHtlcRefund); ([Lit "htlc"; Param], GET, EpHtlcById);
   ([Lit "validators"], GET, EpBridgeValidators)].

Definition read_routes : list Route :=
  nest "blocks" blocks_router ++ nest "accounts" accounts_router ++ nest "validators" validators_router ++
  nest "chain" chain_router ++ nest "health" health_router ++ nest "receipts" receipts_router ++
  nest "contracts" contracts_router ++ [([Lit "ws"], GET, EpWs)].
Definition write_routes : list Route := nest "tx" transactions_router.
Definition router (config : ApiConfig) : list Route :=
  read_routes ++ write_routes ++ nest "wallet" wallet_router ++ [([], GET, EpIndex)] ++
  nest "bridge" bridge_routes ++ (if ac_metrics_enabled config then [([Lit "metrics"], GET, EpMetrics)] else []).

(** The parameters of a path that matches; a parameter is not empty. *)
Fixpoint match_path (pattern : list Seg) (path : list string) : option (list string) :=
  match pattern, path with
  | [], [] => Some []
  | Lit s :: pattern', p :: path' => if bool_decide (s = p) then match_path pattern' path' else None
  | Param :: pattern', p :: path' =>
      if bool_decide (p = ""%string) then None else (cons p) <$> match_path pattern' path'
  | _, _ => None
  end.
Inductive Routed := To (e : Endpoint) (params : list string) | NotFound404 | MethodNotAllowed405.
(** [get(..)] also answers [HEAD]. *)
Definition method_ok (allowed m : Method) : bool :=
  bool_decide (m = allowed) || bool_decide (allowed = GET ∧ m = HEAD).
Fixpoint find_route (routes : list Route) (m : Method) (path : list string) : Routed :=
  match routes with
  | [] => NotFound404
  | (pattern, allowed, e) :: routes' =>
      match match_path pattern path with
      | Some params => if method_ok allowed m then To e params else MethodNotAllowed405
      | None => find_route routes' m path
      end
  end.
#[global] Arguments find_route : simpl never.
(** The endpoints behind the layer of [write_routes]. *)
Definition is_write (e : Endpoint) : bool := bool_decide (e ∈ snd <$> write_routes).
#[global] Arguments is_write : simpl never.

(** ** CORS
    [header_value] is the [FromStr] of the http crate's [HeaderValue]. *)
Inductive CorsOrigins := AnyOrigin | Origins (l : list string).
Definition cors_layer (config : ApiConfig) (header_value : string → option string) : CorsOrigins :=
  if existsb (λ o, bool_decide (o = "*"%string)) (ac_cors_origins config) then AnyOrigin
  else Origins (omap header_value (ac_cors_origins config)).
(** The [access-control-allow-origin] header of a reply. *)
Definition allow_origin (c : CorsOrigins) (origin : option string) : option string :=
  match c with
  | AnyOrigin => Some "*"%string
  | Origins l => o ← origin; if bool_decide (o ∈ l) then Some o else None
  end.

(** ** Requests and replies *)
(** The [Json] extractor: a body that is not declared as JSON, one that does
    not parse, and a value. *)
Inductive JsonBodyIn := NotJson | BadSyntax | Value (v : Json).
Record HttpRequest : Type := {
  hq_method : Method;
  hq_path : list string;             (* the decoded segments *)
  hq_query : list (string * string);
  hq_meta : Request;
  hq_body : JsonBodyIn;
  hq_content_length : Z
}.
Inductive BridgeReply :=
| BrChains (r : ApiResponse SupportedChainsResponse)
| BrStats (r : ApiResponse BridgeStatsResponse)
| BrFees (r : ApiResponse (list BridgeFeeSchedule))
| BrLiquidity (r : ApiResponse (list BridgeLiquidity))
| BrTransfers (r : ApiResponse (list BridgeTransfer))
| BrTransfer (r : ApiResponse BridgeTransfer)
| BrSwaps (r : ApiResponse (list HtlcSwap))
| BrSwap (r : ApiResponse HtlcSwap)
| BrValidators (r : ApiResponse (list BridgeValidator)).
(** [Opaque]: the index page, the metrics text, the protocol switch, and the
    texts of axum's own rejections. *)
Inductive Body := JsonBody (v : Json) | BridgeBody (r : BridgeReply) | OpaqueBody.
Inductive HttpReply := Reply (status : Z) (body : Body) | Panicked.
Definition error_reply (e : ApiError) : HttpReply :=
  let '(status, body) := into_response e in Reply status (JsonBody body).
Definition json_reply `{ToJson A} (r : result ApiError (ApiResponse A)) : HttpReply :=
  match r with Ok a => Reply 200 (JsonBody (to_json a)) | Err e => error_reply e end.
Definition bridge_reply {A} (f : A → BridgeReply) (r : result ApiError A) : HttpReply :=
  match r with Ok a => Reply 200 (BridgeBody (f a)) | Err e => error_reply e end.

(** [Query<PaginationParams>]: absent fields have their defaults, a field that
    is not a [u64] is rejected. *)
Definition query_u64 (q : list (string * string)) (key : string) (dft : Z) : option Z :=
  match List.filter (λ f, bool_decide (f.1 = key)) q with
  | [] => Some dft
  | [f] => parse_uint 64 f.2
  | _ => None
  end.
Definition de_pagination (q : list (string * string)) : option PaginationParams :=
  page ← query_u64 q "page" default_page;
  per_page ← query_u64 q "per_page" default_per_page;
  Some {| pg_page := page; pg_per_page := per_page |}.

(** The clocks, the random bytes and the map orders a request meets. *)
Record Env : Type := {
  ev_instant : Z; ev_secs : Z; ev_millis : Z; ev_pool_now : Z;
  ev_bridge_now : Z; ev_htlc_now : Z; ev_id_now : Z;
  ev_fill : nat → bytes; ev_salt : barray 32; ev_nonce : barray 12;
  ev_transfers : list BridgeTransfer; ev_swaps : list HtlcSwap
}.

Section Serve.
Context `{CryptoPrims} `{Wasmtime} {D : Type} `{RocksDB D} `{KeystoreCrates} `{Bip39} `{JsonText} `{Sha2} `{Jwt}.
Context `{Bincode Transaction} `{Bincode BlockHeader} `{Bincode Block} `{Bincode Z} `{Bincode Account}
  `{Bincode SignedTransaction} `{Bincode (Z * U32)} `{Bincode TransactionReceipt}
  `{Bincode ValidatorInfo} `{Bincode EpochInfo}.
#[local] Existing Instance rocks_store.

Record ServerState : Type := {
  srv_app : AppState D;
  srv_bridge : BridgeAppState;
  srv_limiter : RateLimiter
}.
Abbreviation Inner := (AppState D * BridgeAppState)%type.
Definition ApiServer_new (config : ApiConfig) (consensus : ConsensusEngine D) : ServerState := {|
  srv_app := {| app_consensus := consensus; app_auth_config := ac_auth config |};
  srv_bridge := bridge_router; srv_limiter := RateLimiter_new (ac_rate_limit config) |}.

(** A handler of a [Json] body. *)
Definition with_body {A} (st : Inner) (de : Json → option A) (rq : HttpRequest) (k : A → Inner * HttpReply)
    : Inner * HttpReply :=
  match hq_body rq with
  | NotJson => (st, Reply 415 OpaqueBody)
  | BadSyntax => (st, Reply 400 OpaqueBody)
  | Value v => match de v with None => (st, Reply 422 OpaqueBody) | Some a => k a end
  end.
Definition chain_call {A} `{ToJson A} (st : Inner) (r : AppState D * result ApiError (ApiResponse A))
    : Inner * HttpReply := ((r.1, st.2), json_reply r.2).
Definition wallet_call (st : Inner) (r : option (AppState D * result ApiError (ApiResponse WalletTxResponse)))
    : Inner * HttpReply :=
  match r with None => (st, Panicked) | Some r => chain_call st r end.
Definition bridge_call {A} (st : Inner) (f : ApiResponse A → BridgeReply)
    (r : BridgeAppState * result ApiError (ApiResponse A)) : Inner * HttpReply :=
  ((st.1, r.1), bridge_reply f r.2).

Definition handle (st : Inner) (e : Endpoint) (params : list string) (rq : HttpRequest) (env : Env)
    : Inner * HttpReply :=
  let '(app, br) := st in
  let p := default ""%string (params !! 0%nat) in
  let ms := ev_millis env in
  let now := ev_pool_now env in
  match e with
  | EpListBlocks =>
      (st, match de_pagination (hq_query rq) with
           | None => Reply 400 OpaqueBody | Some q => json_reply (list_blocks app q) end)
  | EpLatestBlock => (st, json_reply (get_latest_block_route app))
  | EpBlock => (st, json_reply (get_block_route app p))
  | EpAccount => (st, json_reply (get_account_route app p))
  | EpBalance => (st, json_reply (get_balance_route app p))
  | EpValidators => (st, json_reply (ApiRoutes.list_validators app))
  | EpChainInfo => (st, json_reply (chain_info_route app))
  | EpChainStatus => (st, json_reply (chain_status app))
  | EpHealth => (st, json_reply health)
  | EpReady => (st, json_reply (readiness app))
  | EpReceipt => (st, json_reply (get_receipt_route app p))
  | EpContract => (st, json_reply (get_contract_info app p))
  | EpContractStorage => (st, json_reply (get_contract_storage_route app p (default ""%string (params !! 1%nat))))
  | EpContractCode => (st, json_reply (get_contract_code_route app p))
  | EpWs => (st, Reply 101 OpaqueBody)
  | EpIndex | EpMetrics => (st, Reply 200 OpaqueBody)
  | EpTransaction => (st, json_reply (get_transaction_route app p))
  | EpSubmit => with_body st de_submit rq (λ req, chain_call st (submit_transaction app req now))
  | EpCreateAccount =>
      with_body st de_create_account rq (λ req,
        (st, json_reply (create_account req (ev_fill env) (ev_salt env) (ev_nonce env))))
  | EpImportMnemonic =>
      with_body st de_import_mnemonic rq (λ req, (st, json_reply (import_mnemonic req (ev_salt env) (ev_nonce env))))
  | EpImportKey =>
      with_body st de_import_private_key rq (λ req,
        (st, json_reply (import_private_key req (ev_salt env) (ev_nonce env))))
  | EpTransfer => with_body st de_transfer rq (λ req, wallet_call st (send_transfer app req ms now))
  | EpStake => with_body st de_stake rq (λ req, wallet_call st (send_stake app req ms now))
  | EpUnstake => with_body st de_unstake rq (λ req, wallet_call st (send_unstake app req ms now))
  | EpDeploy => with_body st de_deploy rq (λ req, wallet_call st (deploy_contract app req ms now))
  | EpCall => with_body st de_call rq (λ req, wallet_call st (call_contract_route app req ms now))
  | EpChains => (st, bridge_reply BrChains (Ok (list_chains br)))
  | EpStats => (st, bridge_reply BrStats (Ok (bridge_stats br)))
  | EpFees => (st, bridge_reply BrFees (Ok fee_schedule))
  | EpLiquidity => (st, bridge_reply BrLiquidity (Ok (liquidity br)))
  | EpTransfers => (st, bridge_reply BrTransfers (Ok (list_transfers_route (ev_transfers env))))
  | EpTransferById => (st, bridge_reply BrTransfer (get_transfer_route br p))
  | EpInitiate =>
      with_body st de_initiate rq (λ req, bridge_call st BrTransfer (initiate_transfer br req (ev_bridge_now env) (ev_id_now env)))
  | EpConfirm => with_body st de_confirm rq (λ req, bridge_call st BrTransfer (confirm_transfer br req (ev_bridge_now env)))
  | EpHtlcs => (st, bridge_reply BrSwaps (Ok (list_htlcs (ev_swaps env))))
  | EpHtlcById => (st, bridge_reply BrSwap (get_htlc br p))
  | EpHtlcCreate => with_body st de_create_htlc rq (λ req, bridge_call st BrSwap (create_htlc br req (ev_htlc_now env)))
  | EpHtlcClaim => with_body st de_claim rq (λ req, bridge_call st BrSwap (claim_htlc_handler br req (ev_htlc_now env)))
  | EpHtlcRefund => with_body st de_refund rq (λ req, bridge_call st BrSwap (refund_htlc_handler br req (ev_htlc_now env)))
  | EpBridgeValidators => (st, bridge_reply BrValidators (Ok (list_validators_route br)))
  end.

(** The layers, outermost first: rate limiter, CORS (which answers every [OPTIONS]
    request itself), body limit, routing, and the token check of the write routes. *)
Definition serve (config : ApiConfig) (s : ServerState) (rq : HttpRequest) (env : Env) : ServerState * HttpReply :=
  let '(l, inner, r) :=
    rate_limit_middleware (srv_limiter s) (hq_meta rq) (ev_instant env) (srv_app s, srv_bridge s) (λ inner meta,
      if bool_decide (hq_method rq = OPTIONS) then (inner, Ok (Reply 200 OpaqueBody))
      else if ac_max_request_body_size config <? hq_content_length rq then (inner, Ok (Reply 413 OpaqueBody))
      else
        match find_route (router config) (hq_method rq) (hq_path rq) with
        | NotFound404 => (inner, Ok (Reply 404 OpaqueBody))
        | MethodNotAllowed405 => (inner, Ok (Reply 405 OpaqueBody))
        | To e params =>
            if is_write e && enable_rbac (ac_auth config) then
              match auth_middleware (ac_auth config) (ev_secs env) meta (λ _, Ok (handle inner e params rq env)) with
              | Ok (inner, reply) => (inner, Ok reply)
              | Err err => (inner, Err err)
              end
            else let '(inner, reply) := handle inner e params rq env in (inner, Ok reply)
        end) in
  ({| srv_app := inner.1; srv_bridge := inner.2; srv_limiter := l |},
   match r with Ok reply => reply | Err e => error_reply e end).

(** ** Properties *)
(** The keystore and password a wallet request carries. *)
Definition credentials (e : Endpoint) (v : Json) : option (Json * string) :=
  match e with
  | EpTransfer => req ← de_transfer v; Some (wt_keystore req, wt_password req)
  | EpStake => req ← de_stake v; Some (ws_keystore req, ws_password req)
  | EpUnstake => req ← de_unstake v; Some (wu_keystore req, wu_password req)
  | EpDeploy => req ← de_deploy v; Some (wd_keystore req, wd_password req)
  | EpCall => req ← de_call v; Some (wc_keystore req, wc_password req)
  | _ => None
  end.
Definition opens_keystore (e : Endpoint) (rq : HttpRequest) : Prop :=
  ∃ v keystore password kp, hq_body rq = Value v ∧ credentials e v = Some (keystore, password) ∧
    decrypt_keystore keystore password = Some (Ok kp).

Lemma wallet_send_changed (app : AppState D) keystore password build now app' r :
  wallet_send app keystore password build now = Some (app', r) → app' ≠ app →
  ∃ kp, decrypt_keystore keystore password = Some (Ok kp).
Proof.
  unfold wallet_send. destruct (decrypt_keystore keystore password) as [[kp|e]|]; [by eauto| |done].
  cbn. by intros [= <- _].
Qed.
Lemma wallet_call_changed (st : Inner) keystore password build now :
  (wallet_call st (wallet_send st.1 keystore password build now)).1.1 ≠ st.1 →
  ∃ kp, decrypt_keystore keystore password = Some (Ok kp).
Proof.
  destruct (wallet_send st.1 keystore password build now) as [[app' r]|] eqn:Hw; simpl; [|done].
  by apply (wallet_send_changed _ _ _ _ _ _ _ Hw).
Qed.

(** What may change the chain's state, by endpoint. *)
#[local] Arguments handle : simpl never.
#[local] Arguments strip_prefix : simpl never.
Lemma handle_changed (st : Inner) e params rq env :
  (handle st e params rq env).1.1 ≠ st.1 → e = EpSubmit ∨ opens_keystore e rq.
Proof.
  destruct st as [app br]. unfold handle, opens_keystore. cbv zeta.
  destruct e; simpl; try done; try (by left); unfold with_body;
    (destruct (hq_body rq) as [| |v]; simpl; [done|done|]);
    match goal with |- context [match ?d v with None => _ | Some _ => _ end] => destruct (d v) as [req|] eqn:Hd end;
    simpl; try done; intros Hne; right; exists v; unfold credentials; rewrite Hd; cbn [mbind option_bind];
    apply (wallet_call_changed (app, br)) in Hne as [kp Hkp]; by eexists _, _, kp.
Qed.

(** The engine is only ever handed transactions. *)
Definition submits now (e e' : ConsensusEngine D) : Prop :=
  e' = e ∨ ∃ t, e' = (on_transaction_received e t now).1.
Lemma submit_transaction_submits (app : AppState D) req now :
  submits now (app_consensus app) (app_consensus (submit_transaction app req now).1).
Proof.
  unfold submit_transaction. destruct (parse_request req) as [t|]; [|by left]. cbn.
  destruct (stx_verify t); [|by left]. cbn. right. exists t. by destruct (on_transaction_received _ _ _).
Qed.
Lemma wallet_call_submits (st : Inner) keystore password build now :
  submits now (app_consensus st.1) (app_consensus (wallet_call st (wallet_send st.1 keystore password build now)).1.1).
Proof.
  unfold wallet_send. destruct (decrypt_keystore keystore password) as [[kp|]|]; cbn; [|by left|by left].
  destruct (build kp) as [tx|]; cbn; [|by left]. unfold sign_and_submit.
  destruct (stx_verify _); cbn; [|by left]. right. exists (SignedTransaction_new tx kp). by destruct (on_transaction_received _ _ _).
Qed.
Lemma handle_submits (st : Inner) e params rq env :
  submits (ev_pool_now env) (app_consensus st.1) (app_consensus (handle st e params rq env).1.1).
Proof.
  destruct st as [app br]. unfold handle. cbv zeta.
  destruct e; try (by left); unfold with_body;
    (destruct (hq_body rq) as [| |v]; [by left|by left|]);
    match goal with |- context [match ?d v with None => _ | Some _ => _ end] => destruct (d v) as [req|] end;
    try (by left); first [apply submit_transaction_submits|apply (wallet_call_submits (app, br))].
Qed.
(** Any request, whatever it asks for, at most submits one transaction. *)
Lemma serve_submits config s rq env :
  submits (ev_pool_now env) (app_consensus (srv_app s)) (app_consensus (srv_app (serve config s rq env).1)).
Proof.
  unfold serve, rate_limit_middleware. destruct (check _ _ _) as [l allowed]. destruct allowed; [|by left]. cbn.
  case_bool_decide; [by left|]. destruct (_ <? _); [by left|].
  destruct (find_route _ _ _) as [e params| |]; [|by left|by left].
  destruct (is_write e && enable_rbac (ac_auth config)).
  - unfold auth_middleware. destruct (header_str _ _) as [hdr|]; [|by left]. cbn.
    destruct (strip_prefix "Bearer " hdr) as [token|]; [|by left]. cbn.
    destruct (validate_token _ _ _) as [claims|]; [|by left]. cbn.
    pose proof (handle_submits (srv_app s, srv_bridge s) e params rq env) as Hs. by destruct (handle _ _ _ _ _).
  - pose proof (handle_submits (srv_app s, srv_bridge s) e params rq env) as Hs. by destruct (handle _ _ _ _ _).
Qed.

(** *** What the layers let through *)
Section Layers.
Context (config : ApiConfig) (s : ServerState) (rq : HttpRequest) (env : Env).
(** The limiter admits the request, which is not one for CORS. *)
Definition admitted : Prop :=
  (check (srv_limiter s) (client_ip (hq_meta rq)) (ev_instant env)).2 = true ∧ hq_method rq ≠ OPTIONS.
(** The server after it answered without touching the application. *)
Definition counted : ServerState := {|
  srv_app := srv_app s; srv_bridge := srv_bridge s;
  srv_limiter := (check (srv_limiter s) (client_ip (hq_meta rq)) (ev_instant env)).1 |}.

Lemma serve_too_large :
  admitted → ac_max_request_body_size config < hq_content_length rq →
  serve config s rq env = (counted, Reply 413 OpaqueBody).
Proof.
  intros [Hc Hm] Hl. unfold serve, rate_limit_middleware, counted. destruct (check _ _ _) as [l b]. cbn in Hc. subst b.
  cbn -[router handle]. rewrite bool_decide_eq_false_2 by done. by rewrite (proj2 (Z.ltb_lt _ _) Hl).
Qed.
Lemma serve_unauthorized e params :
  admitted → hq_content_length rq ≤ ac_max_request_body_size config →
  find_route (router config) (hq_method rq) (hq_path rq) = To e params → is_write e = true →
  enable_rbac (ac_auth config) = true → header_str (hq_meta rq) "authorization" = None →
  serve config s rq env = (counted, error_reply (Unauthorized "Missing Authorization header")).
Proof.
  intros [Hc Hm] Hl Hf Hw Hr Hh. unfold serve, rate_limit_middleware, counted. destruct (check _ _ _) as [l b].
  cbn in Hc. subst b. cbn -[router handle]. rewrite bool_decide_eq_false_2 by done. rewrite (proj2 (Z.ltb_ge _ _) Hl), Hf, Hw, Hr.
  cbn -[router handle]. unfold auth_middleware. by rewrite Hh.
Qed.
Lemma serve_handles e params :
  admitted → hq_content_length rq ≤ ac_max_request_body_size config →
  find_route (router config) (hq_method rq) (hq_path rq) = To e params → is_write e && enable_rbac (ac_auth config) = false →
  serve config s rq env =
    (let '(inner, reply) := handle (srv_app s, srv_bridge s) e params rq env in
     ({| srv_app := inner.1; srv_bridge := inner.2; srv_limiter := srv_limiter counted |}, reply)).
Proof.
  intros [Hc Hm] Hl Hf Hw. unfold serve, rate_limit_middleware, counted. destruct (check _ _ _) as [l b].
  cbn in Hc. subst b. cbn -[router handle]. rewrite bool_decide_eq_false_2 by done. rewrite (proj2 (Z.ltb_ge _ _) Hl), Hf, Hw.
  by destruct (handle _ _ _ _ _).
Qed.
End Layers.

(** C14: Whatever request the API server handles, the chain state it serves (consensus,
    mempool, database) changes only if the rate limiter let the request pass, the body is
    within the configured limit, and the route is either POST /tx, with a token that
    validates when role checks are enabled, or a wallet endpoint whose keystore decrypts
    under the password in the request. *)
Theorem chain_changes_are_authorized config s rq env :
  let '(s', reply) := serve config s rq env in
  srv_app s' ≠ srv_app s →
  (check (srv_limiter s) (client_ip (hq_meta rq)) (ev_instant env)).2 = true ∧
  hq_content_length rq ≤ ac_max_request_body_size config ∧
  ∃ e params, find_route (router config) (hq_method rq) (hq_path rq) = To e params ∧
    (opens_keystore e rq ∨
     e = EpSubmit ∧ (enable_rbac (ac_auth config) = true →
       ∃ token claims, header_str (hq_meta rq) "authorization" = Some ("Bearer " +:+ token)%string ∧
         validate_token (ac_auth config) token (ev_secs env) = Ok claims)).
Proof.
  unfold serve, rate_limit_middleware. destruct (check _ _ _) as [l allowed] eqn:Hc.
  destruct allowed; simpl; [|done].
  case_bool_decide; simpl; [done|].
  destruct (Z.ltb_spec (ac_max_request_body_size config) (hq_content_length rq)); simpl; [done|].
  destruct (find_route _ _ _) as [e params| |] eqn:Hf; simpl; [|done|done].
  destruct (is_write e && enable_rbac (ac_auth config)) eqn:Hw; simpl.
  - unfold auth_middleware. destruct (header_str _ _) as [hdr|] eqn:Hh; simpl; [|done].
    destruct (strip_prefix "Bearer " hdr) as [token|] eqn:Hs; simpl; [|done].
    destruct (validate_token _ _ _) as [claims|] eqn:Hv; simpl; [|done].
    destruct (handle _ _ _ _ _) as [inner reply] eqn:Hd. simpl. intros Hne. split; [done|]. split; [done|].
    exists e, params. split; [done|].
    destruct (handle_changed (srv_app s, srv_bridge s) e params rq env) as [->|]; [by rewrite Hd|right|by left].
    split; [done|]. intros _. exists token, claims. split; [|done]. f_equal. by apply strip_prefix_Some.
  - destruct (handle _ _ _ _ _) as [inner reply] eqn:Hd. simpl. intros Hne. split; [done|]. split; [done|].
    exists e, params. split; [done|].
    destruct (handle_changed (srv_app s, srv_bridge s) e params rq env) as [->|]; [by rewrite Hd|right|by left].
    split; [done|]. intros Hr. by rewrite Hr in Hw.
Qed.
End Serve.
