(* ===== verification/NodeApi.v ===== *)
(** * NodeApi: the API server inside the running node

    Lifecycle.v lets the API task hand any transaction to the engine; Server.v says what a
    request does.  Every request that the server handles is a step of the node, so what
    holds of every run of the node holds of the node with its real API. *)

From S2P Require Import Prelude Crypto Merkle CoreTypes Validators Storage Vm Consensus Finality TxPool ChainState Engine BridgeTypes Htlc BridgeState Relayer Text ApiTypes Middleware ApiRoutes Keystore ApiWallet ApiBridge Network Node Lifecycle Server.

Section Composed.
Context `{CryptoPrims} `{Wasmtime} `{Rng} {D : Type} `{RocksDB D} `{RocksFiles D} `{KeystoreCrates} `{Bip39} `{JsonText} `{Sha2} `{Jwt}.
Context `{Bincode Transaction} `{Bincode BlockHeader} `{Bincode Block} `{Bincode Z} `{Bincode Account}
  `{Bincode ValidatorInfo} `{Bincode EpochInfo} `{Bincode (Z * U32)} `{Bincode TransactionReceipt} `{Bincode SignedTransaction}.
Context {PeerId : Type} `{Countable PeerId} `{Bincode NetworkMessage}.
Context `{Libp2p} `{ApiNet} {F : Type} `{FileSystem F}.
#[local] Existing Instance rocks_store.

(** The node and the server's own state: the bridge and the rate limiter. *)
Record LiveNode : Type := {
  ln_app : App (D := D) (PeerId := PeerId) (F := F);
  ln_bridge : BridgeAppState;
  ln_limiter : RateLimiter
}.
Definition server_of (n : LiveNode) : ServerState (D := D) := {|
  srv_app := {| app_consensus := ap_engine (ln_app n); app_auth_config := ac_auth (nd_api (ap_config (ln_app n))) |};
  srv_bridge := ln_bridge n; srv_limiter := ln_limiter n |}.
Definition after_request (n : LiveNode) (s : ServerState (D := D)) : LiveNode := {|
  ln_app := set_engine (ln_app n) (app_consensus (srv_app s)); ln_bridge := srv_bridge s; ln_limiter := srv_limiter s |}.

Inductive live_step : LiveNode → LiveNode → Prop :=
| live_request n tls rq env s reply :
    ap_api (ln_app n) = ApiServe tls → serve (nd_api (ap_config (ln_app n))) (server_of n) rq env = (s, reply) →
    live_step n (after_request n s)
| live_task n a : app_step (ln_app n) a →
    live_step n {| ln_app := a; ln_bridge := ln_bridge n; ln_limiter := ln_limiter n |}.

Lemma live_step_simulated n n' : live_step n n' → rtc app_step (ln_app n) (ln_app n').
Proof.
  destruct 1 as [n tls rq env s reply Ha Hs|n a Hst]; [|by apply rtc_once].
  pose proof (serve_submits (nd_api (ap_config (ln_app n))) (server_of n) rq env) as Hsub. rewrite Hs in Hsub. cbn in Hsub.
  destruct Hsub as [He|[t He]]; cbn; rewrite He; [|by apply rtc_once, (st_api_request _ tls)].
  by destruct (ln_app n).
Qed.
(** Runs of the live node are runs of the node. *)
Lemma live_simulated n n' : rtc live_step n n' → rtc app_step (ln_app n) (ln_app n').
Proof. induction 1 as [|x y z Hst _ IH]; [done|]. etrans; [by apply live_step_simulated|done]. Qed.

(** A live node that serves plain HTTP never completes its shutdown, whatever it is asked.
    Every state a started node reaches is [main_ok]. *)
Theorem live_node_never_flushes n n' r :
  main_ok (ln_app n) → ap_api (ln_app n) = ApiServe None → rtc live_step n n' →
  ap_main (ln_app n') ≠ MDone r.
Proof.
  intros Hok Ha Hr%live_simulated Hd.
  apply (main_ok_reach _ _ Hr) in Hok. unfold main_ok in Hok. rewrite Hd in Hok. destruct Hok as [Hall _].
  apply all_ended_inv in Hall as (_ & Hend & _).
  assert (api_can_end (ln_app n')) as Hc by (unfold api_can_end; by rewrite Hend).
  apply (api_can_end_reach _ _ Hr) in Hc. unfold api_can_end in Hc. rewrite Ha in Hc. by destruct Hc.
Qed.
End Composed.
