(* ===== verification/Wallet.v ===== *)
(** * Wallet: the command-line wallet (crates/wallet)

    A command runs in a small monad: it reads and changes a world (the
    keystore directory and a node behind HTTP), prints lines, and ends well,
    with an error, or in a panic.  The file system, the HTTP client and the
    printing of JSON are parameters; [NodeServed] states that the node behind HTTP is
    the server of Server.v with all its layers. *)

From S2P Require Import Prelude Crypto Merkle CoreTypes Validators Storage Vm Consensus Finality TxPool ChainState Engine BridgeTypes Htlc BridgeState Relayer Text ApiTypes Middleware ApiRoutes Keystore ApiWallet ApiBridge Server.

(** [anyhow::Error], by its source. *)
Inductive WalletError :=
| WeCrypto (e : CryptoError) | WeHttp (m : string) | WeIo (m : string) | WeHex (m : string)
| WeJson (m : string) | WeBail (m : string).
Inductive Outcome (A : Type) := Done (a : A) | Failed (e : WalletError) | Panic.
Arguments Done {A}.
Arguments Failed {A}.
Arguments Panic {A}.

(** The file system beyond reading and writing, HTTP, and printing of JSON. *)
Class WalletWorld (W : Type) `{FileSystem W} := {
  ww_exists : W → string → bool;
  ww_create_dir_all : W → string → result string W;
  ww_read_dir : W → string → result string (list (result string string));  (* file names *)
  (** the JSON of the response, whatever its status *)
  http_get : W → string → W * result string Json;
  http_post : W → string → Json → W * result string Json
}.
Class JsonPrint := { json_display : Json → string; json_pretty : Json → result string string }.

(** ** The command monad *)
Section Monad.
Context {W : Type}.
Definition Cmd (A : Type) : Type := W → W * list string * Outcome A.
#[export] Instance cmd_ret : MRet Cmd := λ A a w, (w, [], Done a).
#[export] Instance cmd_bind : MBind Cmd := λ A B k m w,
  let '(w, out, o) := m w in
  match o with
  | Done a => let '(w, out', o') := k a w in (w, out ++ out', o')
  | Failed e => (w, out, Failed e)
  | Panic => (w, out, Panic)
  end.
Definition println (line : string) : Cmd () := λ w, (w, [line], Done ()).
Fixpoint println_all (lines : list string) : Cmd () :=
  match lines with [] => mret () | l :: lines' => println l ≫= λ _, println_all lines' end.
Definition fail {A} (e : WalletError) : Cmd A := λ w, (w, [], Failed e).
(** [r?] with the conversion of the error. *)
Definition try {E A} (f : E → WalletError) (r : result E A) : Cmd A :=
  match r with Ok a => mret a | Err e => fail (f e) end.
Definition reads {A} (f : W → A) : Cmd A := λ w, (w, [], Done (f w)).
Definition updates {E} (f : E → WalletError) (g : W → result E W) : Cmd () := λ w,
  match g w with Ok w' => (w', [], Done ()) | Err e => (w, [], Failed (f e)) end.
End Monad.
#[global] Arguments Cmd : clear implicits.

(** The file name at its last dot; [file_stem] and [extension]. *)
Fixpoint rsplit_dot (s : string) : option (string * string) :=
  match s with
  | EmptyString => None
  | String c s' =>
      match rsplit_dot s' with
      | Some (a, b) => Some (String c a, b)
      | None => if bool_decide (c = "."%char) then Some (EmptyString, s') else None
      end
  end.
Definition file_parts (name : string) : string * option string :=
  match rsplit_dot name with
  | Some (stem, ext) => if bool_decide (stem = ""%string) then (name, None) else (stem, Some ext)
  | None => (name, None)
  end.

(** ** client.rs *)
Record NodeClient : Type := { base_url : string }.
Definition NodeClient_new (base : string) : NodeClient :=
  {| base_url := trim_end (λ c, bool_decide (c = "/"%char)) base |}.

Section Commands.
Context `{CryptoPrims} `{KeystoreCrates} `{Bip39} {W : Type} `{WalletWorld W} `{JsonPrint} `{Bincode Transaction}.
Implicit Types client : NodeClient.

Definition get client (path : string) : Cmd W Json :=
  r ← (λ w, let '(w', r) := http_get w (base_url client +:+ path) in (w', [], Done r)); try WeHttp r.
Definition post client (path : string) (body : Json) : Cmd W Json :=
  r ← (λ w, let '(w', r) := http_post w (base_url client +:+ path) body in (w', [], Done r)); try WeHttp r.
Definition get_balance client (address : string) : Cmd W Json := get client ("/accounts/" +:+ address +:+ "/balance").
Definition get_account client (address : string) : Cmd W Json := get client ("/accounts/" +:+ address).
Definition get_chain_info client : Cmd W Json := get client "/chain/info".
Definition get_block client (id : string) : Cmd W Json := get client ("/blocks/" +:+ id).
Definition get_latest_block client : Cmd W Json := get client "/blocks/latest".
Definition submit client (body : Json) : Cmd W Json := post client "/tx" body.

(** ** commands/transfer.rs *)
(** [v.get("data").and_then(|d| d.get(key)).and_then(|x| x.as_u64()).unwrap_or(dft)] *)
Definition data_u64 (v : Json) (key : string) (dft : Z) : Z :=
  default dft (d ← json_get v "data"; x ← json_get d key; as_u64 x).
Definition fetch_chain_id client : Cmd W Z :=
  info ← get_chain_info client;
  mret (data_u64 info "chain_id" 1).
Definition fetch_nonce client (from_hex : string) : Cmd W Z :=
  account_info ← get_account client from_hex;
  mret (data_u64 account_info "nonce" 0).

Definition keyfile_of (keystore_dir : string) (addr : Address) : string :=
  path_join keystore_dir (Address_to_hex addr +:+ ".json").
(** The keypair of the keystore file of an address. *)
Definition open_keyfile (keystore_dir : string) (from_addr : Address) (password : string) : Cmd W KeyPair :=
  let keyfile := keyfile_of keystore_dir from_addr in
  found ← reads (λ w, ww_exists w keyfile);
  if negb found then fail (WeBail ("Keyfile not found for address " +:+ Address_to_hex from_addr))
  else
    r ← reads (λ w, load_from_file w keyfile password);
    match r with
    | None => λ w, (w, [], Panic)
    | Some r => try WeCrypto r
    end.

(** The [json!] body of a submission; [to] is absent where the code leaves it out. *)
Definition tx_body (signed : SignedTransaction) (keypair : KeyPair) (from_hex : string) (to_hex : option string)
    (value tx_type data : string) : Json :=
  let tx := stx_transaction signed in
  JObj (fld "chain_id" (tx_chain_id tx) ++ fld "from" from_hex ++ fld_some "to" to_hex ++ fld "value" value ++
        fld "gas_limit" (tx_gas_limit tx) ++ fld "gas_price" (tx_gas_price tx) ++ fld "nonce" (tx_nonce tx) ++
        fld "tx_type" tx_type ++ fld "data" data ++ fld "timestamp" (tx_timestamp tx) ++
        fld "public_key" (PublicKey_to_hex (public_key keypair)) ++
        fld "signature" (Signature_to_hex (stx_signature signed))).
(** The end of each command: the lines, and the hash the node confirmed. *)
Definition report (lines : list string) (result : Json) : Cmd W () :=
  println_all lines ≫= λ _,
  match (data ← json_get result "data"; json_get data "tx_hash") with
  | Some tx_hash => println ("  Confirmed hash: " +:+ json_display tx_hash)
  | None => mret ()
  end.
Definition hash_line (signed : SignedTransaction) : string := "  Hash: " +:+ Blake3Hash_display (stx_tx_hash signed).

Definition cli_transfer (node_url keystore_dir from_hex to_hex : string) (amount : Z) (password : string)
    (now_ms : Z) : Cmd W () :=
  let client := NodeClient_new node_url in
  from_addr ← try WeCrypto (Address_from_hex from_hex);
  keypair ← open_keyfile keystore_dir from_addr password;
  chain_id ← fetch_chain_id client;
  nonce ← fetch_nonce client from_hex;
  to_addr ← try WeCrypto (Address_from_hex to_hex);
  let tx := {| tx_chain_id := chain_id; tx_nonce := nonce; tx_from := from_addr; tx_to := Some to_addr;
               tx_value := amount; tx_tx_type := Transfer; tx_gas_limit := 21000; tx_gas_price := 1;
               tx_data := []; tx_timestamp := now_ms |} in
  let signed := SignedTransaction_new tx keypair in
  result ← submit client (tx_body signed keypair from_hex (Some to_hex) (z_str amount) "Transfer" "");
  report ["Transaction submitted!"; hash_line signed; "  From: " +:+ Address_to_hex from_addr;
          "  To:   " +:+ Address_to_hex to_addr; "  Amount: " +:+ z_str amount]%string result.

(** ** commands/stake.rs *)
(** The two commands differ in the type and the words. *)
Definition stake_command (ty : TxType) (done_line amount_label : string) (node_url keystore_dir from_hex : string)
    (amount : Z) (password : string) (now_ms : Z) : Cmd W () :=
  let client := NodeClient_new node_url in
  chain_id ← fetch_chain_id client;
  from_addr ← try WeCrypto (Address_from_hex from_hex);
  keypair ← open_keyfile keystore_dir from_addr password;
  nonce ← fetch_nonce client from_hex;
  let tx := {| tx_chain_id := chain_id; tx_nonce := nonce; tx_from := from_addr; tx_to := None;
               tx_value := amount; tx_tx_type := ty; tx_gas_limit := 21000; tx_gas_price := 1;
               tx_data := []; tx_timestamp := now_ms |} in
  let signed := SignedTransaction_new tx keypair in
  result ← submit client (tx_body signed keypair from_hex None (z_str amount) (tx_type_debug ty) "");
  report [done_line; hash_line signed; "  Validator: " +:+ Address_to_hex from_addr;
          amount_label +:+ z_str amount]%string result.
Definition cli_stake := stake_command Stake "Stake transaction submitted!" "  Stake amount: ".
Definition cli_unstake := stake_command Unstake "Unstake transaction submitted!" "  Unstake amount: ".

(** ** commands/contract.rs *)
Definition cli_deploy (node_url keystore_dir from_hex wasm_path password : string) (gas_limit now_ms : Z) : Cmd W () :=
  let client := NodeClient_new node_url in
  chain_id ← fetch_chain_id client;
  from_addr ← try WeCrypto (Address_from_hex from_hex);
  keypair ← open_keyfile keystore_dir from_addr password;
  code ← reads (λ w, fs_read w wasm_path);
  wasm_bytecode ← try WeIo code;
  println ("Contract bytecode size: " +:+ z_str (lenZ wasm_bytecode) +:+ " bytes") ≫= λ _,
  nonce ← fetch_nonce client from_hex;
  let tx := {| tx_chain_id := chain_id; tx_nonce := nonce; tx_from := from_addr; tx_to := None;
               tx_value := 0; tx_tx_type := ContractDeploy; tx_gas_limit := gas_limit; tx_gas_price := 1;
               tx_data := wasm_bytecode; tx_timestamp := now_ms |} in
  let signed := SignedTransaction_new tx keypair in
  result ← submit client (tx_body signed keypair from_hex None "0" "ContractDeploy" (hex_enc wasm_bytecode));
  report ["Contract deployment submitted!"; hash_line signed; "  From: " +:+ Address_to_hex from_addr]%string result.

Definition cli_call (node_url keystore_dir from_hex contract_hex function args_hex : string) (value : Z)
    (password : string) (gas_limit now_ms : Z) : Cmd W () :=
  let client := NodeClient_new node_url in
  chain_id ← fetch_chain_id client;
  from_addr ← try WeCrypto (Address_from_hex from_hex);
  contract_addr ← try WeCrypto (Address_from_hex contract_hex);
  keypair ← open_keyfile keystore_dir from_addr password;
  nonce ← fetch_nonce client from_hex;
  args ← try WeHex (hex_dec (strip_0x args_hex));
  let data := call_data function args in
  let tx := {| tx_chain_id := chain_id; tx_nonce := nonce; tx_from := from_addr; tx_to := Some contract_addr;
               tx_value := value; tx_tx_type := ContractCall; tx_gas_limit := gas_limit; tx_gas_price := 1;
               tx_data := data; tx_timestamp := now_ms |} in
  let signed := SignedTransaction_new tx keypair in
  result ← submit client (tx_body signed keypair from_hex (Some contract_hex) (z_str value) "ContractCall" (hex_enc data));
  report ["Contract call submitted!"; hash_line signed; "  From: " +:+ Address_to_hex from_addr;
          "  Contract: " +:+ Address_to_hex contract_addr; "  Function: " +:+ function]%string result.

(** ** commands/account.rs *)
Definition save_account (keystore_dir : string) (keypair : KeyPair) (password : string) (salt : barray 32)
    (nonce : barray 12) : Cmd W string :=
  let keyfile := keyfile_of keystore_dir (KeyPair_address keypair) in
  updates WeCrypto (λ w, save_to_file w keypair password keyfile salt nonce) ≫= λ _,
  mret keyfile.
Definition cli_create_account (word_count : nat) (keystore_dir password : string) (fill : nat → bytes)
    (salt : barray 32) (nonce : barray 12) : Cmd W () :=
  updates WeIo (λ w, ww_create_dir_all w keystore_dir) ≫= λ _,
  mnemonic ← try WeCrypto (Mnemonic_generate word_count fill);
  keypair ← try WeCrypto (Mnemonic_to_keypair mnemonic password);
  keyfile ← save_account keystore_dir keypair password salt nonce;
  println_all ["Account created successfully!"; "";
    "  Address:  " +:+ Address_to_hex (KeyPair_address keypair); "  Keyfile:  " +:+ keyfile; "";
    "  Mnemonic (SAVE THIS - displayed only once):"; "  " +:+ Mnemonic_phrase mnemonic; ""]%string.
Definition imported (keypair : KeyPair) (keyfile : string) : list string :=
  ["Account imported successfully!"; "  Address: " +:+ Address_to_hex (KeyPair_address keypair);
   "  Keyfile: " +:+ keyfile]%string.
Definition cli_import_mnemonic (phrase keystore_dir password : string) (salt : barray 32) (nonce : barray 12)
    : Cmd W () :=
  updates WeIo (λ w, ww_create_dir_all w keystore_dir) ≫= λ _,
  mnemonic ← try WeCrypto (Mnemonic_from_phrase phrase);
  keypair ← try WeCrypto (Mnemonic_to_keypair mnemonic password);
  keyfile ← save_account keystore_dir keypair password salt nonce;
  println_all (imported keypair keyfile).
Definition cli_import_key (private_key_hex keystore_dir password : string) (salt : barray 32) (nonce : barray 12)
    : Cmd W () :=
  updates WeIo (λ w, ww_create_dir_all w keystore_dir) ≫= λ _,
  key_bytes ← try WeHex (hex_dec (strip_0x private_key_hex));
  match ba_try key_bytes with
  | None => fail (WeBail "private key must be 32 bytes")
  | Some arr =>
      keypair ← try WeCrypto (KeyPair_from_bytes arr);
      keyfile ← save_account keystore_dir keypair password salt nonce;
      println_all (imported keypair keyfile)
  end.
(** The loop of [list_accounts]: prints the stems of the [.json] files. *)
Fixpoint list_loop (entries : list (result string string)) (count : Z) : Cmd W Z :=
  match entries with
  | [] => mret count
  | entry :: rest =>
      name ← try WeIo entry;
      match file_parts name with
      | (stem, Some ext) =>
          if bool_decide (ext = "json"%string)
          then println ("  " +:+ stem) ≫= λ _, list_loop rest (count + 1)
          else list_loop rest count
      | (_, None) => list_loop rest count
      end
  end.
Definition newline : string := String (Ascii.ascii_of_nat 10) "".
Definition cli_list_accounts (keystore_dir : string) : Cmd W () :=
  found ← reads (λ w, ww_exists w keystore_dir);
  if negb found then println "No accounts found. Create one with: rustchain-wallet account create"
  else
    dir ← reads (λ w, ww_read_dir w keystore_dir);
    entries ← try WeIo dir;
    count ← list_loop entries 0;
    if count =? 0 then println "No accounts found."
    else println (newline +:+ z_str count +:+ " account(s) found").

(** ** commands/query.rs *)
Definition pretty (v : Json) : Cmd W () := s ← try WeJson (json_pretty v); println s.
Definition query_balance (node_url address : string) : Cmd W () :=
  result ← get_balance (NodeClient_new node_url) address;
  match json_get result "data" with
  | Some data =>
      match json_get data "balance" with
      | Some balance => println ("Balance for " +:+ address +:+ ": " +:+ json_display balance)
      | None => pretty data
      end
  | None => println "Account not found"
  end.
(** One optional line of [query_chain_info]. *)
Definition info_line (data : Json) (field : string * string) : list string :=
  match json_get data field.1 with Some v => [field.2 +:+ json_display v] | None => [] end.
Definition query_chain_info (node_url : string) : Cmd W () :=
  result ← get_chain_info (NodeClient_new node_url);
  match json_get result "data" with
  | Some data =>
      println_all ("Chain Information:"%string :: mjoin (info_line data <$>
        [("chain_id", "  Chain ID:           "); ("height", "  Height:             ");
         ("best_block_hash", "  Best block hash:    "); ("epoch", "  Current epoch:      ");
         ("finalized_height", "  Finalized height:   "); ("pending_transactions", "  Pending txs:        ");
         ("active_validators", "  Active validators:  ")]%string))
  | None => println "Failed to get chain info"
  end.
Definition query_block (node_url block_id : string) : Cmd W () :=
  result ← get_block (NodeClient_new node_url) block_id;
  match json_get result "data" with Some data => pretty data | None => println "Block not found" end.
Definition query_transaction (node_url tx_hash : string) : Cmd W () :=
  result ← get (NodeClient_new node_url) ("/tx/" +:+ tx_hash);
  match json_get result "data" with Some data => pretty data | None => println "Transaction not found" end.
End Commands.

(** ** main.rs *)
Inductive AccountCommand :=
| Create (words : nat) (password : string)
| ImportMnemonic (phrase password : string)
| ImportKey (key password : string)
| List.
Inductive QueryCommand :=
| Balance (address : string) | QChainInfo | QBlock (id : string) | QTransaction (hash : string).
Inductive WalletCommand :=
| CmdAccount (cmd : AccountCommand)
| CmdTransfer (from to : string) (amount : Z) (password : string)
| CmdStake (from : string) (amount : Z) (password : string)
| CmdUnstake (from : string) (amount : Z) (password : string)
| CmdDeploy (from wasm password : string) (gas_limit : Z)
| CmdCall (from contract function args : string) (value : Z) (password : string) (gas_limit : Z)
| CmdQuery (cmd : QueryCommand).
(** The options after clap: [--node] and [--keystore] with their defaults. *)
Record Cli : Type := { cli_command : WalletCommand; cli_node : string; cli_keystore : string }.
Definition default_node : string := "http://localhost:8080".
Definition default_keystore : string := "./keystore".

Section Main.
Context `{CryptoPrims} `{KeystoreCrates} `{Bip39} {W : Type} `{WalletWorld W} `{JsonPrint} `{Bincode Transaction}.
(** The clock and the random bytes of one run. *)
Definition wallet_main (cli : Cli) (now_ms : Z) (fill : nat → bytes) (salt : barray 32) (nonce : barray 12)
    : Cmd W () :=
  let node := cli_node cli in
  let ks := cli_keystore cli in
  match cli_command cli with
  | CmdAccount (Create words password) => cli_create_account words ks password fill salt nonce
  | CmdAccount (ImportMnemonic phrase password) => cli_import_mnemonic phrase ks password salt nonce
  | CmdAccount (ImportKey key password) => cli_import_key key ks password salt nonce
  | CmdAccount List => cli_list_accounts ks
  | CmdTransfer from to amount password => cli_transfer node ks from to amount password now_ms
  | CmdStake from amount password => cli_stake node ks from amount password now_ms
  | CmdUnstake from amount password => cli_unstake node ks from amount password now_ms
  | CmdDeploy from wasm password gas_limit => cli_deploy node ks from wasm password gas_limit now_ms
  | CmdCall from contract function args value password gas_limit =>
      cli_call node ks from contract function args value password gas_limit now_ms
  | CmdQuery (Balance address) => query_balance node address
  | CmdQuery QChainInfo => query_chain_info node
  | CmdQuery (QBlock id) => query_block node id
  | CmdQuery (QTransaction hash) => query_transaction node hash
  end.
End Main.

(** ** Properties *)
(** *** What the wallet submits is what it signed *)
Section Submission.
Context `{CryptoPrims} `{!CryptoLaws} `{Bincode Transaction}.

Definition u64_fields (tx : Transaction) : Prop :=
  in_u 64 (tx_chain_id tx) ∧ in_u 64 (tx_nonce tx) ∧ in_u 64 (tx_gas_limit tx) ∧ in_u 64 (tx_gas_price tx) ∧
  in_u 64 (tx_timestamp tx).
Lemma de_u64_num z : in_u 64 z → de_u64 (Some (JNum z)) = Some z.
Proof. intros Hz. unfold de_u64. cbn [mbind option_bind as_u64]. by rewrite decide_True. Qed.
Definition body_fields (t : SignedTransaction) (kp : KeyPair) (from_hex : string) (to_hex : option string)
    (value ty data : string) : list (option Json) :=
  let tx := stx_transaction t in
  [Some (JNum (tx_chain_id tx)); Some (JNum (tx_nonce tx)); Some (JStr from_hex); JStr <$> to_hex;
   Some (JStr value); Some (JStr ty); Some (JNum (tx_gas_limit tx)); Some (JNum (tx_gas_price tx));
   Some (JStr data); Some (JNum (tx_timestamp tx)); Some (JStr (PublicKey_to_hex (public_key kp)));
   Some (JStr (Signature_to_hex (stx_signature t)))].
Lemma tx_body_fields t kp from_hex to_hex value ty data :
  struct_fields ["chain_id"; "nonce"; "from"; "to"; "value"; "tx_type"; "gas_limit"; "gas_price"; "data";
                 "timestamp"; "public_key"; "signature"]%string (tx_body t kp from_hex to_hex value ty data) =
    Some (body_fields t kp from_hex to_hex value ty data).
Proof. destruct to_hex as [s|]; reflexivity. Qed.
Lemma de_submit_body t kp from_hex to_hex value ty data :
  u64_fields (stx_transaction t) →
  de_submit (tx_body t kp from_hex to_hex value ty data) = Some {|
    sr_chain_id := tx_chain_id (stx_transaction t); sr_nonce := tx_nonce (stx_transaction t);
    sr_from := from_hex; sr_to := to_hex; sr_value := value; sr_tx_type := ty;
    sr_gas_limit := tx_gas_limit (stx_transaction t); sr_gas_price := tx_gas_price (stx_transaction t);
    sr_data := data; sr_timestamp := tx_timestamp (stx_transaction t);
    sr_public_key := PublicKey_to_hex (public_key kp); sr_signature := Signature_to_hex (stx_signature t) |}.
Proof.
  intros (Hc & Hn & Hgl & Hgp & Ht). unfold de_submit. rewrite tx_body_fields. unfold body_fields. cbv zeta.
  rewrite !de_u64_num by done. by destruct to_hex.
Qed.

(** The addresses and the data as the command writes them. *)
Definition written (tx : Transaction) (from_hex : string) (to_hex : option string) (data : string) : Prop :=
  Address_from_hex from_hex = Ok (tx_from tx) ∧
  (match to_hex with Some s => Some <$> Address_from_hex s | None => Ok None end) = Ok (tx_to tx) ∧
  data = hex_enc (tx_data tx) ∧ u64_fields tx ∧ in_u 128 (tx_value tx).

(** The body decodes to the request that stands for the signed transaction. *)
Lemma wallet_body_parses tx kp from_hex to_hex data :
  written tx from_hex to_hex data →
  ∃ req, de_submit (tx_body (SignedTransaction_new tx kp) kp from_hex to_hex (z_str (tx_value tx))
                      (tx_type_debug (tx_tx_type tx)) data) = Some req ∧
    parse_request req = Ok (SignedTransaction_new tx kp).
Proof.
  intros (Hf & Hto & Hd & Hu & Hv). eexists. split; [by apply de_submit_body|].
  apply parse_request_describes; [|done|done]. by repeat split.
Qed.
End Submission.

(** *** The wallet against a node of this repository *)
Section EndToEnd.
Context `{CryptoPrims} `{!CryptoLaws} `{Wasmtime} {D : Type} `{RocksDB D} `{KeystoreCrates} `{Bip39}.
Context `{Bincode Transaction} `{Bincode BlockHeader} `{Bincode Block} `{Bincode Z} `{Bincode Account}
  `{Bincode SignedTransaction} `{Bincode (Z * U32)} `{Bincode TransactionReceipt}
  `{Bincode ValidatorInfo} `{Bincode EpochInfo}.
#[local] Existing Instance rocks_store.
Context {W : Type} `{WalletWorld W} `{JsonPrint}.
Context `{JsonText} `{Sha2} `{Jwt}.

(** A request of the wallet: the path as segments; what reqwest adds to it and the length of
    the body it serializes are parameters of the class below. *)
Definition path_text (segs : list string) : string := foldr (λ s t, "/" +:+ s +:+ t) ""%string segs.
Definition plain_char (c : Ascii.ascii) : bool :=
  let n := Ascii.nat_of_ascii c in
  ((48 <=? n) && (n <=? 57) || (65 <=? n) && (n <=? 90) || (97 <=? n) && (n <=? 122))%nat.
(** A segment that is the same in the URL and in the decoded path. *)
Definition plain (s : string) : bool := negb (bool_decide (s = ""%string)) && forallb plain_char (String.list_ascii_of_string s).
(** What [Response::json] makes of a reply: text that is not JSON and a closed connection
    are errors.  (The wallet asks for nothing of the bridge.) *)
Definition received (reply : HttpReply) (r : result string Json) : Prop :=
  match reply with
  | Reply _ (JsonBody v) => r = Ok v
  | Reply _ (BridgeBody _) => True
  | Reply _ OpaqueBody | Panicked => ∃ m, r = Err m
  end.

Definition get_request (meta : Request) (segs : list string) : HttpRequest := {|
  hq_method := GET; hq_path := segs; hq_query := []; hq_meta := meta; hq_body := NotJson; hq_content_length := 0 |}.
Definition post_request (meta : Request) (segs : list string) (body : Json) (len : Z) : HttpRequest := {|
  hq_method := POST; hq_path := segs; hq_query := []; hq_meta := meta; hq_body := Value body;
  hq_content_length := len |}.
(** A request and its reply: the server is left as [serve] leaves it, the wallet receives the
    reply, and no file is touched. *)
Definition exchange (api : ApiConfig) (server : W → ServerState (D := D)) (env : W → Env) (w : W) (rq : HttpRequest)
    (res : W * result string Json) : Prop :=
  let '(s, reply) := serve api (server w) rq (env w) in
  server res.1 = s ∧ received reply res.2 ∧
  (∀ p, ww_exists res.1 p = ww_exists w p) ∧ (∀ p, fs_read res.1 p = fs_read w p).
(** The world's HTTP at [base] is the API server of this repository, with all layers of
    [serve]: limiter, body limit, routing and token check. *)
Class NodeServed (base : string) := {
  ns_api : ApiConfig;
  ns_server : W → ServerState (D := D);
  ns_env : W → Env;                      (* the clocks when the next request arrives *)
  ns_meta : Request;                     (* the headers of the wallet's requests *)
  ns_length : Json → Z;                  (* the length of the serialized body *)
  ns_limit : 0 ≤ ac_max_request_body_size ns_api;
  ns_no_token : header_str ns_meta "authorization" = None;
  ns_get w segs : forallb plain segs = true →
    exchange ns_api ns_server ns_env w (get_request ns_meta segs) (http_get w (base +:+ path_text segs));
  ns_post w segs body : forallb plain segs = true →
    exchange ns_api ns_server ns_env w (post_request ns_meta segs body (ns_length body))
      (http_post w (base +:+ path_text segs) body)
}.
Context (base : string) `{!NodeServed base}.
Definition node (w : W) : AppState D := srv_app (ns_server w).

(** What a node does with a signed transaction. *)
Definition offered (st : AppState D) (t : SignedTransaction) (now : Z) : AppState D :=
  match stx_verify t with
  | Ok _ => set_consensus st (on_transaction_received (app_consensus st) t now).1
  | Err _ => st
  end.
Lemma submit_offers st req now t : parse_request req = Ok t → (submit_transaction st req now).1 = offered st t now.
Proof.
  intros Hp. unfold submit_transaction, offered. rewrite Hp. cbn [mbind result_bind].
  destruct (stx_verify t) as [[]|e]; [|done]. cbn [map_err mbind result_bind].
  by destruct (on_transaction_received _ _ _) as [e r].
Qed.
Definition committed_nonce (st : AppState D) (a : Address) : Z :=
  match Storage.get_account (app_storage st) a with Ok (Some acc) => acc_nonce acc | _ => 0 end.
Definition node_chain_id (st : AppState D) : Z := ci_chain_id (app_chain_info st).

(** One step of the monad at a time. *)
Lemma cmd_bind_done {A B} (m : Cmd W A) (k : A → Cmd W B) w w1 out a w2 out2 o :
  m w = (w1, out, Done a) → k a w1 = (w2, out2, o) → (m ≫= k) w = (w2, out ++ out2, o).
Proof. intros Hm Hk. unfold mbind, cmd_bind. by rewrite Hm, Hk. Qed.

(** [w1] is [w] but for the limiter, which has room for [n] more requests. *)
Record since (w w1 : W) (n : Z) : Prop := {
  si_node : node w1 = node w;
  si_exists p : ww_exists w1 p = ww_exists w p;
  si_read p : fs_read w1 p = fs_read w p;
  si_spare : spare (srv_limiter (ns_server w1)) (client_ip ns_meta) n
}.
(** The JSON of a handler's reply. *)
Definition reply_json (r : HttpReply) : Json := match r with Reply _ (JsonBody v) => v | _ => JNull end.
Lemma json_reply_received `{ToJson A} (r : result ApiError (ApiResponse A)) x :
  received (json_reply r) x → x = Ok (reply_json (json_reply r)).
Proof. destruct r as [a|[]]; by cbn. Qed.
(** A [GET] whose handler answers with JSON and changes nothing. *)
Lemma get_served `{ToJson A} w w1 n client segs e params (r : result ApiError (ApiResponse A)) :
  since w w1 (n + 1) → 0 ≤ n → base_url client = base → forallb plain segs = true →
  find_route (router ns_api) GET segs = To e params → is_write e = false →
  (∀ st rq env, st.1 = node w → handle st e params rq env = (st, json_reply r)) →
  ∃ w2, get client (path_text segs) w1 = (w2, [], Done (reply_json (json_reply r))) ∧ since w w2 n.
Proof.
  intros Hs Hn Hb Hp Hf Hw Hh. pose proof (ns_get w1 segs Hp) as Hx. unfold get, mbind, cmd_bind. rewrite Hb.
  destruct (http_get w1 _) as [w2 x]. unfold exchange in Hx.
  destruct (spare_check _ _ (ev_instant (ns_env w1)) n Hn (si_spare _ _ _ Hs)) as [Hc Hl].
  rewrite (serve_handles _ _ _ _ e params) in Hx; [|by split|apply ns_limit|done|by rewrite Hw].
  rewrite Hh in Hx by apply Hs. cbn in Hx. destruct Hx as (Hs2 & ->%json_reply_received & He & Hrd).
  exists w2. split; [done|].
  split; [unfold node; rewrite Hs2; apply Hs|intros p; rewrite He; apply Hs|intros p; rewrite Hrd; apply Hs|by rewrite Hs2].
Qed.
Lemma fetch_chain_id_served client w w1 n :
  since w w1 (n + 1) → 0 ≤ n → base_url client = base → in_u 64 (node_chain_id (node w)) →
  ∃ w2, fetch_chain_id client w1 = (w2, [], Done (node_chain_id (node w))) ∧ since w w2 n.
Proof.
  intros Hs Hn Hb Hu.
  destruct (get_served w w1 n client ["chain"; "info"]%string EpChainInfo [] (chain_info_route (node w))
    Hs Hn Hb eq_refl eq_refl eq_refl) as (w2 & Hg & Hs2).
  { intros [app br] rq env Happ. cbn in Happ. by subst app. }
  exists w2. split; [|done]. unfold fetch_chain_id, get_chain_info.
  etrans; [by eapply cmd_bind_done|]. unfold mret, cmd_ret, data_u64. simpl. by rewrite decide_True.
Qed.
Lemma append_nil_r (s : string) : (s +:+ "")%string = s.
Proof. induction s as [|c s IH]; [done|]. change (String c s +:+ "")%string with (String c (s +:+ "")). by rewrite IH. Qed.
Lemma account_route a : plain a = true → find_route (router ns_api) GET ["accounts"; a]%string = To EpAccount [a].
Proof.
  intros Ha. unfold find_route. simpl. rewrite bool_decide_eq_false_2; [done|]. by intros ->.
Qed.
Lemma fetch_nonce_served client w w1 n from_hex a :
  since w w1 (n + 1) → 0 ≤ n → base_url client = base → plain from_hex = true →
  Address_from_hex from_hex = Ok a → in_u 64 (committed_nonce (node w) a) →
  ∃ w2, fetch_nonce client from_hex w1 = (w2, [], Done (committed_nonce (node w) a)) ∧ since w w2 n.
Proof.
  intros Hs Hn Hb Hpl Ha Hu.
  destruct (get_served w w1 n client ["accounts"; from_hex]%string EpAccount [from_hex] (get_account_route (node w) from_hex)
    Hs Hn Hb) as (w2 & Hg & Hs2); [cbn -[plain]; by rewrite Hpl|by apply account_route|done| |].
  { intros [app br] rq env Happ. cbn in Happ. by subst app. }
  exists w2. split; [|done]. unfold fetch_nonce, get_account. simpl in Hg. rewrite append_nil_r in Hg.
  etrans; [by eapply cmd_bind_done|]. unfold mret, cmd_ret, data_u64. repeat f_equal.
  unfold get_account_route, committed_nonce in *. rewrite Ha. cbn [bad_request map_err mbind result_bind].
  destruct (Storage.get_account (app_storage (node w)) a) as [[acc|]|e]; [|done|done]. simpl.
  by rewrite decide_True.
Qed.
Lemma open_keyfile_stored dir a pw w kp :
  ww_exists w (keyfile_of dir a) = true → load_from_file w (keyfile_of dir a) pw = Some (Ok kp) →
  open_keyfile dir a pw w = (w, [], Done kp).
Proof. intros He Hl. unfold open_keyfile, mbind, cmd_bind, reads. rewrite He. simpl. by rewrite Hl. Qed.
Lemma open_keyfile_since w w1 n dir a pw kp :
  since w w1 n → ww_exists w (keyfile_of dir a) = true → load_from_file w (keyfile_of dir a) pw = Some (Ok kp) →
  open_keyfile dir a pw w1 = (w1, [], Done kp).
Proof.
  intros Hs He Hl. apply open_keyfile_stored; [by rewrite (si_exists _ _ _ Hs)|].
  unfold load_from_file. by rewrite (si_read _ _ _ Hs).
Qed.
Lemma println_all_run lines (w : W) : println_all lines w = (w, lines, Done ()).
Proof.
  induction lines as [|l lines IH]; [done|]. simpl. unfold mbind, cmd_bind, println. by rewrite IH.
Qed.
Lemma report_run lines result (w : W) : ∃ out, report lines result w = (w, lines ++ out, Done ()).
Proof.
  unfold report, mbind, cmd_bind. rewrite println_all_run.
  match goal with |- context [match ?x with Some _ => _ | None => _ end w] => destruct x end; by eexists.
Qed.

(** The body a command posts for a transaction. *)
Definition wallet_body (tx : Transaction) (kp : KeyPair) (from_hex : string) (to_hex : option string) : Json :=
  tx_body (SignedTransaction_new tx kp) kp from_hex to_hex (z_str (tx_value tx)) (tx_type_debug (tx_tx_type tx))
    (hex_enc (tx_data tx)).
(** What a command that posts [body] for [tx] does, from the world [w]: a body beyond the limit
    is an error and changes nothing at the node.  Otherwise the success line is printed; the
    node has been offered the signed transaction, but for role checks, which refuse it. *)
Definition submitted (w : W) (kp : KeyPair) (tx : Transaction) (body : Json) (line : string)
    (run : W * list string * Outcome ()) : Prop :=
  let '(w', out, o) := run in
  if ac_max_request_body_size ns_api <? ns_length body
  then node w' = node w ∧ ∃ m, o = Failed (WeHttp m)
  else o = Done () ∧ line ∈ out ∧
       if enable_rbac (ac_auth ns_api) then node w' = node w
       else ∃ now, node w' = offered (node w) (SignedTransaction_new tx kp) now.

Lemma submit_served client w w1 n body req t :
  since w w1 (n + 1) → 0 ≤ n → base_url client = base → de_submit body = Some req → parse_request req = Ok t →
  ∃ w2, if ac_max_request_body_size ns_api <? ns_length body
    then ∃ m, submit client body w1 = (w2, [], Failed (WeHttp m)) ∧ node w2 = node w
    else ∃ v, submit client body w1 = (w2, [], Done v) ∧
      if enable_rbac (ac_auth ns_api) then node w2 = node w else ∃ now, node w2 = offered (node w) t now.
Proof.
  intros Hs Hn Hb Hd Hp. pose proof (ns_post w1 ["tx"]%string body eq_refl) as Hx.
  unfold submit, post, mbind, cmd_bind. rewrite Hb. change (path_text ["tx"])%string with "/tx"%string in Hx.
  destruct (http_post w1 _ _) as [w2 x]. unfold exchange in Hx. cbn [fst snd] in Hx. exists w2.
  destruct (spare_check _ _ (ev_instant (ns_env w1)) n Hn (si_spare _ _ _ Hs)) as [Hc _].
  set (rq := post_request ns_meta ["tx"]%string body (ns_length body)) in *.
  assert (admitted (ns_server w1) rq (ns_env w1)) as Hadm by (by split).
  destruct (Z.ltb_spec (ac_max_request_body_size ns_api) (ns_length body)) as [Hl|Hl].
  { rewrite (serve_too_large _ _ _ _ Hadm Hl) in Hx. destruct Hx as (Hs2 & [m Hm] & _). cbn in Hm. subst x.
    exists m. split; [done|]. unfold node. rewrite Hs2. apply Hs. }
  assert (find_route (router ns_api) (hq_method rq) (hq_path rq) = To EpSubmit []) as Hf by done.
  destruct (enable_rbac (ac_auth ns_api)) eqn:Hr.
  - rewrite (serve_unauthorized _ _ _ _ EpSubmit [] Hadm Hl Hf eq_refl Hr ns_no_token) in Hx.
    destruct Hx as (Hs2 & Hrec & _). cbn in Hrec. subst x. eexists. split; [done|]. unfold node. rewrite Hs2. apply Hs.
  - rewrite (serve_handles _ _ _ _ EpSubmit [] Hadm Hl Hf ltac:(by rewrite Hr, andb_false_r)) in Hx.
    unfold handle, with_body in Hx. cbn in Hx. rewrite Hd in Hx. unfold chain_call in Hx.
    destruct Hx as (Hs2 & ->%json_reply_received & _). eexists. split; [done|]. eexists.
    unfold node. rewrite Hs2. cbn. rewrite (submit_offers _ _ _ _ Hp). f_equal. apply Hs.
Qed.

(** The preconditions of a submission from [from_hex], whose key is [kp]: the node can be
    reached and its limiter has room for the three requests of a command. *)
Record ready (w : W) (url dir from_hex pw : string) (kp : KeyPair) (now_ms : Z) : Prop := {
  rd_url : base_url (NodeClient_new url) = base;
  rd_plain : plain from_hex = true;
  rd_from : Address_from_hex from_hex = Ok (KeyPair_address kp);
  rd_file : ww_exists w (keyfile_of dir (KeyPair_address kp)) = true;
  rd_load : load_from_file w (keyfile_of dir (KeyPair_address kp)) pw = Some (Ok kp);
  rd_spare : spare (srv_limiter (ns_server w)) (client_ip ns_meta) 3;
  rd_chain : in_u 64 (node_chain_id (node w));
  rd_nonce : in_u 64 (committed_nonce (node w) (KeyPair_address kp));
  rd_now : in_u 64 now_ms
}.
(** The transaction of a command, with what the node contributes. *)
Definition wallet_tx (w : W) (kp : KeyPair) (to : option Address) (value : Z) (ty : TxType) (gas_limit : Z)
    (data : bytes) (now_ms : Z) : Transaction := {|
  tx_chain_id := node_chain_id (node w); tx_nonce := committed_nonce (node w) (KeyPair_address kp);
  tx_from := KeyPair_address kp; tx_to := to; tx_value := value; tx_tx_type := ty; tx_gas_limit := gas_limit;
  tx_gas_price := 1; tx_data := data; tx_timestamp := now_ms |}.
Definition performs (w : W) (kp : KeyPair) (from_hex : string) (to_hex : option string) (tx : Transaction)
    (line : string) (run : W * list string * Outcome ()) : Prop :=
  submitted w kp tx (wallet_body tx kp from_hex to_hex) line run.

Section Steps.
Context (w : W) (url dir from_hex pw : string) (kp : KeyPair) (now_ms : Z).
Context (Hr : ready w url dir from_hex pw kp now_ms).
Context (tx : Transaction) (body : Json) (line : string).
Abbreviation goal := (submitted w kp tx body line).

Lemma since_start : since w w 3.
Proof. split; [done..|]. apply Hr. Qed.
(** A step that succeeds, and the ones the commands are made of. *)
Lemma step_done {A} (m : Cmd W A) (k : A → Cmd W ()) w1 w2 out a :
  m w1 = (w2, out, Done a) → goal (k a w2) → goal ((m ≫= k) w1).
Proof.
  intros Hm. unfold submitted, mbind, cmd_bind. rewrite Hm. destruct (k a w2) as [[w' out'] o].
  destruct (_ <? _); [done|]. intros (-> & Hl & Hn). split_and!; [done| |done]. apply elem_of_app. by right.
Qed.
Lemma step_try {E A} (f : E → WalletError) (r : result E A) (k : A → Cmd W ()) w1 a :
  r = Ok a → goal (k a w1) → goal ((try f r ≫= k) w1).
Proof. intros ->. by apply step_done with []. Qed.
Lemma step_chain_id (k : Z → Cmd W ()) w1 n :
  since w w1 n → 1 ≤ n → (∀ w2, since w w2 (n - 1) → goal (k (node_chain_id (node w)) w2)) →
  goal ((fetch_chain_id (NodeClient_new url) ≫= k) w1).
Proof.
  intros Hs Hn Hk. replace n with (n - 1 + 1) in Hs by lia.
  destruct (fetch_chain_id_served (NodeClient_new url) w w1 (n - 1)) as (w2 & Hf & Hs2); [done|lia|apply Hr|apply Hr|].
  eapply step_done; [exact Hf|by apply Hk].
Qed.
Lemma step_nonce (k : Z → Cmd W ()) w1 n :
  since w w1 n → 1 ≤ n →
  (∀ w2, since w w2 (n - 1) → goal (k (committed_nonce (node w) (KeyPair_address kp)) w2)) →
  goal ((fetch_nonce (NodeClient_new url) from_hex ≫= k) w1).
Proof.
  intros Hs Hn Hk. replace n with (n - 1 + 1) in Hs by lia.
  destruct (fetch_nonce_served (NodeClient_new url) w w1 (n - 1) from_hex (KeyPair_address kp)) as (w2 & Hf & Hs2);
    [done|lia|apply Hr..|].
  eapply step_done; [exact Hf|by apply Hk].
Qed.
Lemma step_key (k : KeyPair → Cmd W ()) w1 n :
  since w w1 n → goal (k kp w1) → goal ((open_keyfile dir (KeyPair_address kp) pw ≫= k) w1).
Proof. intros Hs. apply step_done with []. eapply open_keyfile_since; [done|apply Hr..]. Qed.
Lemma step_submit lines w1 n to_hex data :
  since w w1 n → 1 ≤ n → body = wallet_body tx kp from_hex to_hex → written tx from_hex to_hex data →
  goal ((submit (NodeClient_new url)
           (tx_body (SignedTransaction_new tx kp) kp from_hex to_hex (z_str (tx_value tx))
              (tx_type_debug (tx_tx_type tx)) data) ≫= report (line :: lines)) w1).
Proof.
  intros Hs Hn Hb Hw. replace n with (n - 1 + 1) in Hs by lia.
  destruct (wallet_body_parses tx kp from_hex to_hex data Hw) as (req & Hd & Hp).
  destruct (submit_served (NodeClient_new url) w w1 (n - 1) _ req _ Hs ltac:(lia) ltac:(apply Hr) Hd Hp) as [w2 Hsub].
  unfold wallet_body in Hb. replace (hex_enc (tx_data tx)) with data in Hb by apply Hw. rewrite <- Hb in *.
  unfold submitted, mbind, cmd_bind. destruct (_ <? _).
  - destruct Hsub as (m & -> & Hnode). split; [done|by exists m].
  - destruct Hsub as (v & -> & Hnode). destruct (report_run (line :: lines) v w2) as [out ->].
    split_and!; [done|left|done].
Qed.
End Steps.

Ltac step Hr :=
  first
    [ eapply (step_chain_id _ _ _ _ _ _ _ Hr); [eassumption|lia|intros ? ?]
    | eapply (step_nonce _ _ _ _ _ _ _ Hr); [eassumption|lia|intros ? ?]
    | eapply (step_key _ _ _ _ _ _ _ Hr); [eassumption|]
    | eapply step_try; [first [apply Hr|eassumption]|] ].
Ltac tail Hr :=
  eapply (step_submit _ _ _ _ _ _ _ Hr); [eassumption|lia|reflexivity|];
  unfold written, u64_fields; cbn -[in_u]; split_and!;
  try apply Hr; try done; try (by rewrite hex_enc_nil); try (unfold in_u; lia).

End EndToEnd.
(** *** Accounts the wallet makes can be opened again *)
Class WalletWorldLaws (W : Type) `{WalletWorld W} : Prop := {
  ww_exists_read (w : W) p bs : fs_read w p = Ok bs → ww_exists w p = true
}.
Section Accounts.
Context `{CryptoPrims} `{!CryptoLaws} `{KeystoreCrates} `{!KeystoreLaws} `{Bip39} `{!Bip39Laws}.
Context {W : Type} `{WalletWorld W} `{!FileSystemLaws W} `{!WalletWorldLaws W}.

Lemma cmd_bind_inv {A B} (m : Cmd W A) (k : A → Cmd W B) w w2 out b :
  (m ≫= k) w = (w2, out, Done b) →
  ∃ w1 out1 a out2, m w = (w1, out1, Done a) ∧ k a w1 = (w2, out2, Done b) ∧ out = out1 ++ out2.
Proof.
  unfold mbind, cmd_bind. destruct (m w) as [[w1 out1] [a|e|]]; [|done|done].
  destruct (k a w1) as [[w' out2] o] eqn:Hk. intros [= <- <- ->]. by eexists _, _, _, _.
Qed.
Lemma try_inv {E A} (f : E → WalletError) (r : result E A) (w w' : W) out a :
  try f r w = (w', out, Done a) → r = Ok a ∧ w' = w ∧ out = [].
Proof. destruct r; cbn; intros Heq; [|done]. by injection Heq as <- <- <-. Qed.
Lemma updates_inv {E} (f : E → WalletError) (g : W → result E W) (w w' : W) out u :
  updates f g w = (w', out, Done u) → g w = Ok w' ∧ out = [].
Proof. unfold updates. destruct (g w); cbn; intros Heq; [|done]. by injection Heq as <- <-. Qed.

Lemma saved_account_loads dir kp pw salt nonce w w' out keyfile :
  save_account dir kp pw salt nonce w = (w', out, Done keyfile) →
  ww_exists w' (keyfile_of dir (KeyPair_address kp)) = true ∧
  load_from_file w' (keyfile_of dir (KeyPair_address kp)) pw = Some (Ok kp).
Proof.
  unfold save_account. cbv zeta. intros (w1 & o1 & [] & o2 & Hu & Hk & _)%cmd_bind_inv.
  apply updates_inv in Hu as [Hs _]. cbn in Hk. injection Hk as <- _ <-.
  unfold save_to_file in Hs. destruct (keystore_encrypt kp pw salt nonce) as [bs|] eqn:He; [|done].
  cbn [mbind result_bind] in Hs. destruct (fs_write w _ bs) as [f1|] eqn:Hw; [|done]. injection Hs as ->.
  apply fs_read_write in Hw. split; [by eapply ww_exists_read|].
  unfold load_from_file. rewrite Hw. by eapply keystore_decrypt_encrypt.
Qed.
Lemma saved_account_opens dir kp pw salt nonce w w' out keyfile :
  save_account dir kp pw salt nonce w = (w', out, Done keyfile) →
  open_keyfile dir (KeyPair_address kp) pw w' = (w', [], Done kp).
Proof. intros [He Hl]%saved_account_loads. by apply open_keyfile_stored. Qed.

(** The file name lists as the address. *)
Lemma rsplit_dot_json s : rsplit_dot (s +:+ ".json") = Some (s, "json"%string).
Proof.
  induction s as [|c s IH]; [done|]. change (String c s +:+ ".json")%string with (String c (s +:+ ".json")).
  simpl. by rewrite IH.
Qed.
Lemma keyfile_lists a : file_parts (Address_to_hex a +:+ ".json") = (Address_to_hex a, Some "json"%string).
Proof. unfold file_parts. rewrite rsplit_dot_json. by rewrite bool_decide_eq_false_2. Qed.

(** An account that a wallet command stored is opened again by its address and password.
    *)
Theorem wallet_account_opens dir pw salt nonce w w' out :
  (∀ words fill, cli_create_account words dir pw fill salt nonce w = (w', out, Done ()) →
     ∃ kp m, Mnemonic_generate words fill = Ok m ∧ Mnemonic_to_keypair m pw = Ok kp ∧
       open_keyfile dir (KeyPair_address kp) pw w' = (w', [], Done kp) ∧
       ("  " +:+ Mnemonic_phrase m)%string ∈ out) ∧
  (∀ phrase, cli_import_mnemonic phrase dir pw salt nonce w = (w', out, Done ()) →
     ∃ kp m, Mnemonic_from_phrase phrase = Ok m ∧ Mnemonic_to_keypair m pw = Ok kp ∧
       open_keyfile dir (KeyPair_address kp) pw w' = (w', [], Done kp)) ∧
  (∀ key, cli_import_key key dir pw salt nonce w = (w', out, Done ()) →
     ∃ kp arr, hex_dec (strip_0x key) = Ok (ba_bytes arr) ∧ KeyPair_from_bytes arr = Ok kp ∧
       open_keyfile dir (KeyPair_address kp) pw w' = (w', [], Done kp)).
Proof.
  split_and!.
  - intros words fill. unfold cli_create_account. intros (w1 & o1 & [] & o2 & Hu & Hk & ->)%cmd_bind_inv.
    apply cmd_bind_inv in Hk as (w2 & o3 & m & o4 & [Hm [-> ->]]%try_inv & Hk & ->).
    apply cmd_bind_inv in Hk as (w3 & o5 & kp & o6 & [Hkp [-> ->]]%try_inv & Hk & ->).
    apply cmd_bind_inv in Hk as (w4 & o7 & kf & o8 & Hs & Hk & ->).
    rewrite println_all_run in Hk. injection Hk as <- <-.
    exists kp, m. split; [done|]. split; [done|]. split; [by eapply saved_account_opens|]. set_solver.
  - intros phrase. unfold cli_import_mnemonic. intros (w1 & o1 & [] & o2 & Hu & Hk & ->)%cmd_bind_inv.
    apply cmd_bind_inv in Hk as (w2 & o3 & m & o4 & [Hm [-> ->]]%try_inv & Hk & ->).
    apply cmd_bind_inv in Hk as (w3 & o5 & kp & o6 & [Hkp [-> ->]]%try_inv & Hk & ->).
    apply cmd_bind_inv in Hk as (w4 & o7 & kf & o8 & Hs & Hk & ->).
    rewrite println_all_run in Hk. injection Hk as <- <-.
    exists kp, m. split; [done|]. split; [done|]. by eapply saved_account_opens.
  - intros key. unfold cli_import_key. intros (w1 & o1 & [] & o2 & Hu & Hk & ->)%cmd_bind_inv.
    apply cmd_bind_inv in Hk as (w2 & o3 & bs & o4 & [Hb [-> ->]]%try_inv & Hk & ->).
    destruct (ba_try bs) as [arr|] eqn:Ha; [|done].
    apply cmd_bind_inv in Hk as (w3 & o5 & kp & o6 & [Hkp [-> ->]]%try_inv & Hk & ->).
    apply cmd_bind_inv in Hk as (w4 & o7 & kf & o8 & Hs & Hk & ->).
    rewrite println_all_run in Hk. injection Hk as <- <-.
    exists kp, arr. split; [|split; [done|by eapply saved_account_opens]]. rewrite Hb. f_equal. symmetry. by apply ba_try_Some.
Qed.
End Accounts.
