(* ===== verification/ServerExamples.v ===== *)
(** * ServerExamples: the server and the command-line wallet on a concrete node

    The two-block chain of ApiExamples.v behind the server and behind the HTTP
    of a wallet: the witnesses of the theorems of Server.v and Wallet.v. *)

From S2P Require Import Prelude Crypto Merkle CoreTypes Validators Storage Vm Consensus Finality TxPool ChainState Engine Instances ChainExamples BridgeTypes Htlc BridgeState Relayer Text ApiTypes Middleware ApiRoutes Keystore ApiWallet ApiBridge ApiExamples Server Wallet.

Import ToyCrypto ToyWasm ToyRocks ToyKeystore ToyJwt.
#[local] Existing Instance rocks_store.
#[local] Existing Instance toy_json.
#[local] Instance toy_sha : Sha2 := {| sha256 := toy_blake3 |}.

(** ** The server *)
Definition t_body : Json :=
  tx_body t_next alice (Address_to_hex (KeyPair_address alice)) (Some (Address_to_hex (KeyPair_address bob)))
    "700" "transfer" "0x".
Definition post_tx (meta : Request) : HttpRequest := {|
  hq_method := POST; hq_path := ["tx"%string]; hq_query := []; hq_meta := meta; hq_body := Value t_body;
  hq_content_length := 600 |}.
Definition env0 : Env := {|
  ev_instant := 0; ev_secs := 4660; ev_millis := 1000; ev_pool_now := 5; ev_bridge_now := 1; ev_htlc_now := 1;
  ev_id_now := 1; ev_fill := fill; ev_salt := salt0; ev_nonce := nonce0; ev_transfers := []; ev_swaps := [] |}.
Definition rbac_config : ApiConfig := {|
  ac_bind_address := ac_bind_address ApiConfig_default; ac_tls := None; ac_cors_origins := [];
  ac_max_request_body_size := 4096; ac_rate_limit := RateLimitConfig_default;
  ac_auth := {| jwt_secret := jwt_secret AuthConfig_default; jwt_expiration_secs := 3600; enable_rbac := true;
                admin_addresses := [] |};
  ac_ws_max_connections := 10; ac_metrics_enabled := false |}.
Definition server_1 : ServerState (D := Db) := ApiServer_new rbac_config consensus_1.
Definition pool_size (s : ServerState (D := Db)) : nat := size (tp_pending (en_tx_pool (app_consensus (srv_app s)))).

(** With the bearer token of Middleware.v the transaction is pooled; without a
    token the same request is refused and nothing changes. *)
Lemma chain_changes_are_authorized_witness :
  pool_size (serve rbac_config server_1 (post_tx bearer) env0).1 = 1%nat ∧
  pool_size (serve rbac_config server_1
    (post_tx {| rq_headers := []; rq_connect_info := None; rq_claims := None |}) env0).1 = 0%nat ∧
  ∃ tok claims, header_str bearer "authorization" = Some ("Bearer " +:+ tok)%string ∧
    validate_token (ac_auth rbac_config) tok 4660 = Ok claims.
Proof.
  assert (pool_size (serve rbac_config server_1 (post_tx bearer) env0).1 = 1%nat) as Hp by by vm_compute.
  split; [exact Hp|]. split; [by vm_compute|].
  pose proof (chain_changes_are_authorized rbac_config server_1 (post_tx bearer) env0) as Hthm.
  destruct (serve rbac_config server_1 (post_tx bearer) env0) as [s' reply].
  assert (srv_app s' ≠ srv_app server_1) as Hne.
  { intros Heq. unfold pool_size in Hp. cbn [fst] in Hp. rewrite Heq in Hp. by vm_compute in Hp. }
  destruct (Hthm Hne) as (_ & _ & e & params & Hf & [Ho|[_ Ha]]).
  - exfalso. assert (e = EpSubmit) as -> by (by vm_compute in Hf; congruence).
    destruct Ho as (v & k & pw & kp & _ & Hc & _). discriminate Hc.
  - exact (Ha eq_refl).
Defined.
(** The wallet endpoint takes no token. *)
Lemma wallet_route_needs_no_token :
  pool_size (serve rbac_config server_1 {|
    hq_method := POST; hq_path := ["wallet"; "transfer"]%string; hq_query := [];
    hq_meta := {| rq_headers := []; rq_connect_info := None; rq_claims := None |};
    hq_body := Value (JObj (fld "keystore" alice_keystore ++ fld "password" "pw"%string ++
      fld "to" (Address_to_hex (KeyPair_address bob)) ++ fld "value" "250"%string));
    hq_content_length := 600 |} env0).1 = 1%nat.
Proof. by vm_compute. Qed.

(** ** A wallet's world: files, and a server at [base] *)
Record World : Type := { wo_files : gmap string bytes; wo_server : ServerState (D := Db) }.
Definition base : string := "http://localhost:8080".
#[local] Instance world_fs : FileSystem World := {|
  fs_read w p := fs_read (wo_files w) p;
  fs_write w p bs := f ← fs_write (wo_files w) p bs; Ok {| wo_files := f; wo_server := wo_server w |} |}.
#[local] Instance world_fs_laws : FileSystemLaws World.
Proof.
  split; simpl.
  - intros f f' p bs [= <-]. simpl. by rewrite lookup_insert_eq.
  - intros f f' p p' bs [= <-] Hp. simpl. by rewrite lookup_insert_ne.
Qed.
(** The segments of a path. *)
Fixpoint split_slash (s : string) : list string :=
  match s with
  | EmptyString => [""%string]
  | String c s' =>
      if bool_decide (c = "/"%char) then ""%string :: split_slash s'
      else match split_slash s' with x :: l => String c x :: l | [] => [String c ""] end
  end.
Lemma split_plain s t :
  forallb plain_char (String.list_ascii_of_string s) = true →
  split_slash (s +:+ t) = (s +:+ default ""%string (head (split_slash t)))%string :: tail (split_slash t).
Proof.
  induction s as [|c s IH]; intros Hs.
  - change (("" +:+ t)%string) with t. destruct t as [|c t]; [done|]. cbn. case_bool_decide; [done|].
    by destruct (split_slash t).
  - cbn in Hs. apply andb_true_iff in Hs as [Hc Hs]. change ((String c s +:+ t)%string) with (String c (s +:+ t)).
    cbn [split_slash]. rewrite bool_decide_eq_false_2 by (by intros ->). by rewrite IH.
Qed.
Lemma split_path_text segs : forallb plain segs = true → tail (split_slash (path_text segs)) = segs.
Proof.
  induction segs as [|s segs IH]; intros Hs; [done|]. cbn [forallb] in Hs. apply andb_true_iff in Hs as [Hp Hs].
  apply andb_true_iff in Hp as [_ Hp]. change (path_text (s :: segs)) with (String "/" (s +:+ path_text segs)).
  cbn [split_slash]. rewrite bool_decide_eq_true_2 by done. cbn [tail]. rewrite split_plain, IH by done. f_equal.
  destruct segs; apply append_nil_r.
Qed.

Definition wallet_meta : Request := {| rq_headers := []; rq_connect_info := None; rq_claims := None |}.
Definition received_json (reply : HttpReply) : result string Json :=
  match reply with
  | Reply _ (JsonBody v) => Ok v
  | Reply _ (BridgeBody _) => Ok JNull
  | _ => Err "expected value"%string
  end.
Definition api : ApiConfig := ApiConfig_default.
Definition ask (w : World) (url : string) (rq : list string → HttpRequest) : World * result string Json :=
  match strip_prefix base url with
  | None => (w, Err "connection refused"%string)
  | Some path =>
      let '(s, reply) := serve api (wo_server w) (rq (tail (split_slash path))) env0 in
      ({| wo_files := wo_files w; wo_server := s |}, received_json reply)
  end.
#[local] Instance world : WalletWorld World := {|
  ww_exists w p := bool_decide (is_Some (wo_files w !! p));
  ww_create_dir_all w _ := Ok w;
  ww_read_dir w _ := Ok (Ok <$> (map_to_list (wo_files w)).*1);
  http_get w url := ask w url (get_request wallet_meta);
  http_post w url body := ask w url (λ segs, post_request wallet_meta segs body 600) |}.
Lemma ask_exchanges w segs rq :
  forallb plain segs = true → exchange api wo_server (λ _, env0) w (rq segs) (ask w (base +:+ path_text segs) rq).
Proof.
  intros Hs. unfold exchange, ask. rewrite strip_prefix_app, split_path_text by done.
  destruct (serve _ _ _ _) as [s reply]. split_and!; [done| |done|done].
  destruct reply as [code []|]; cbn; by eauto.
Qed.
#[local] Instance world_laws : WalletWorldLaws World.
Proof. split. intros w p bs. simpl. destruct (wo_files w !! p); [|done]. intros _. by apply bool_decide_eq_true_2. Qed.
#[local] Instance world_served : NodeServed base.
Proof.
  refine {| ns_api := api; ns_server := wo_server; ns_env := λ _, env0; ns_meta := wallet_meta; ns_length := λ _, 600 |}.
  - by vm_compute.
  - done.
  - intros w segs Hs. by apply ask_exchanges.
  - intros w segs body Hs. by apply (ask_exchanges w segs (λ segs, post_request wallet_meta segs body 600)).
Defined.
#[local] Instance world_print : JsonPrint := {| json_display _ := "?"%string; json_pretty _ := Ok "?"%string |}.

Definition key_dir : string := "keys".
Definition alice_hex : string := Address_to_hex (KeyPair_address alice).
Definition saved_1 : World * list string * Outcome string :=
  save_account key_dir alice "pw" salt0 nonce0 {| wo_files := ∅; wo_server := ApiServer_new api consensus_1 |}.
Definition world_1 : World := saved_1.1.1.
Lemma saved_1_eq : saved_1 = (world_1, [], Done (keyfile_of key_dir (KeyPair_address alice))).
Proof. reflexivity. Qed.
Lemma address_hex_parses (a : Address) : Address_from_hex (Address_to_hex a) = Ok a.
Proof. apply (array_from_hex_encode 20 a true). Qed.
Lemma world_1_ready : ready base world_1 "http://localhost:8080/" key_dir alice_hex "pw" alice 1000.
Proof.
  assert (node_chain_id (node base world_1) = 1) as Hc by by vm_compute.
  assert (committed_nonce (node base world_1) (KeyPair_address alice) = 0) as Hn by by vm_compute.
  split; rewrite ?Hc, ?Hn; try (unfold in_u; lia).
  - by vm_compute.
  - by vm_compute.
  - apply address_hex_parses.
  - exact (proj1 (saved_account_loads _ _ _ _ _ _ _ _ _ saved_1_eq)).
  - exact (proj2 (saved_account_loads _ _ _ _ _ _ _ _ _ saved_1_eq)).
  - assert (srv_limiter (ns_server world_1) = RateLimiter_new RateLimitConfig_default) as -> by reflexivity.
    unfold spare, RateLimiter_new. cbn [rl_buckets rl_config]. rewrite lookup_empty. cbn. lia.
Qed.

Definition create_run : World * list string * Outcome () :=
  cli_create_account 12 key_dir "pw" fill salt0 nonce0 world_1.
Lemma wallet_account_opens_witness :
  ∃ kp w', open_keyfile key_dir (KeyPair_address kp) "pw" w' = (w', [], Done kp) ∧
    create_run.1.1 = w'.
Proof.
  assert (match create_run.2 with Done _ => true | _ => false end = true) as Hok by by vm_compute.
  destruct create_run as [[w' out] [[]|e|]] eqn:Hr; [|discriminate Hok..].
  destruct (proj1 (wallet_account_opens key_dir "pw" salt0 nonce0 world_1 w' out) 12%nat fill Hr)
    as (kp & m & _ & _ & Ho & _).
  exists kp, w'. split; [exact Ho|reflexivity].
Defined.
